(* ===== verification/_CoqProject ===== *)
-Q . S2P
Prelude.v
Text.v
Hex.v
Hashing.v
Address.v
Tx.v
P2p.v
Vm.v
Json.v
Crypto.v
Store.v
Rocks.v
Codec.v
Accounts.v
Governance.v
Reflection.v
Records.v
Pow.v
Retarget.v
Asert.v
Emission.v
Backtest.v
Accordion.v
SupplyCap.v
Finality.v
Mempool.v
BlockWire.v
ChainStore.v
Apply.v
ApplyLaws.v
ApplyProps.v
ApplyRecords.v
ApplyAtomic.v
ApplyExamples.v
Node.v
NodeProps.v
RewardTrap.v
Genesis.v
Supply.v
Rpc.v
Metrics.v
RpcProps.v
RpcChart.v
SelfMiner.v
Serve.v
NoPanic.v
System.v
SystemProps.v
SystemReplay.v
Daemon.v
DaemonProps.v
Client.v
ClientProps.v
DoubleSend.v
Print.v
Window.v
WindowProps.v
NodeRace.v
NodeExamples.v
RpcExamples.v
ClientExamples.v
WindowExamples.v
SelfMinerExamples.v
SystemExamples.v
DaemonExamples.v
