(* ===== verification/Prelude.v ===== *)
(** * PyGrove Chain: a verification development

    PyGrove Chain is a proof-of-work ledger in Rust (src/crates): accounts with balances and
    nonces, transactions that transfer coin, attest records, rotate the crypto suite or
    change a governance committee, blocks mined against an ASERT difficulty, an emission
    schedule that follows the calendar, and a node that keeps the chain in a log file and
    serves it over JSON-RPC.  This development translates the ledger, the consensus rules,
    the node and its network envelope, and proves what they are relied on for.  This file
    holds the vocabulary the other files share.

    ** The parts and their files

    - Bytes, hashes, text (crates/core): [Prelude] (outcomes, machine integers, byte strings,
      generic lemmas, tactics, hint databases), [Text] (printing and reading numbers and
      lines), [Hex], [Hashing] (hash.rs), [Address] (address.rs), [Tx] (tx.rs and block.rs).
    - Signatures (crates/crypto): [Crypto], the dispatch over the wired schemes.
    - State (crates/state): [Store] (store.rs: the trait, the in-memory store), [Rocks]
      (rocks_store.rs: the persistent store), [Codec] (the CBOR interface), [Accounts]
      (accounts.rs), [Governance], [Records] and [Apply] (apply.rs: committees, records, the
      block transition).  [ApplyLaws] states what each pass of [apply_block] does; [ApplyProps],
      [ApplyRecords] and [ApplyAtomic] hold its theorems, [ApplyExamples] concrete blocks.
    - Consensus rules (crates/consensus): [Reflection], [Pow], [Retarget], [Asert],
      [Emission], and [Accordion], which nothing calls; [Backtest] and [SupplyCap] hold the
      repository's long-form tests of the last two (tests/emission_long_form.rs and
      tests/supply_cap.rs).
    - Finality (crates/finality): [Finality], votes and plain and aggregated certificates.
    - Node (crates/node): [Mempool], [ChainStore] (the log), [Node] (block acceptance,
      templates, the nonce loop, replay), [Genesis] (configuration, init, start), [Rpc] (the
      handlers), [Serve] (dispatch and the HTTP routes, with the JSON of requests and
      responses), [Metrics] (the monitoring page), [SelfMiner] (the mining thread),
      [System] (the process as a machine over its data directory: init, run, requests, mining
      and kills) and [Daemon] (the genesis file and the commands of main); [NodeProps],
      [RewardTrap], [Supply], [RpcProps], [RpcChart], [NodeRace], [NoPanic], [SystemProps], [SystemReplay],
      [DaemonProps] and [DoubleSend] hold theorems, [BlockWire], [NodeExamples], [RpcExamples],
      [SelfMinerExamples], [SystemExamples] and [DaemonExamples] instances.
    - Network (crates/p2p): [P2p], the envelope and the broker.
    - Contract VM (crates/vm): [Vm], the ABI and the host function over wasmtime.
    - Clients (crates/gui, crates/node/src/cli.rs): [Client], the command line client,
      the wallet and the mining worker over any network; [Print], what the command line client
      prints; [Window], the window of the wallet as a machine of clicks, timers, edits and
      mining threads.  [ClientProps] and [WindowProps] have theorems, the first with the node
      for the network, [ClientExamples] and [WindowExamples] concrete sessions.  [Json] is
      the interface of JSON values.

    A block goes [Rpc.submit_block] or the self-miner -> [Node.try_apply_block] ->
    [Node.check_block] ([Pow], [Asert], the roots of [Tx]) -> [Apply.apply_block] on the store
    ([Accounts], [Governance], [Records], [Crypto] over the class [StateStore]) with the
    reward of [Emission] -> [Mempool.confirm] -> [ChainStore.append].  A restart replays the
    log through the same functions.  [NodeState] is the Rust struct, one field per mutex.

    ** How code is translated

    A function that can fail or panic returns [outcome E A]: [Ok], [Err] or [Panic].  A
    handler that mutates a shared object is in the monad [stm S E A], a function from the
    state to an outcome and a state; writes made before an error stay, as they do in the
    code.  A [u64] or [u128] is a [Z] whose wrapping, checked or saturating operation is
    written out; where the code uses plain [+] the release build's wrap-around is taken.  The
    class [Typed] gives the values a Rust type can hold and appears as a hypothesis where a
    theorem needs a width.  A [HashMap] or [BTreeMap] is a [gmap], walked in key order where
    the order can be seen.  A hasher is the list of bytes it was fed.

    Code of other crates is a class: [HashPrims] (blake3, sha3), [SigPrims] (ed25519, Falcon,
    SLH-DSA, BLS), [Cbor] and [StateCodecs] (ciborium), [Hex], [Bech32], [RocksDb], and for
    the VM, the genesis file and the clients [Wasmtime], [Fixed], [Toml], [Json] and [JsonText];
    the texts the build and the error types provide are [BuildTexts] and [ErrorTexts].  What the code relies on is in
    separate classes of laws ([StateStoreLaws], [HexLaws], [RocksDbLaws], ...), each with a
    concrete instance, so that every theorem is applied to a concrete chain.  No hash is
    assumed injective: a binding theorem says "equal or here are two preimages of one
    digest".

    ** What the theorems show

    - The ledger: [apply_block_refines_ledger] (a successful block is the abstract ledger
      step), [apply_block_authenticates], [apply_block_account_frame],
      [circulating_supply] (the coins are the minted coins), [block_committee_rotation],
      [block_governed_records], [attestations_exact], [block_epilogue]; [transfer_block_atomic]
      says which blocks are atomic and [rejected_block_mutates_store] that not all are.
    - The chain: [try_apply_block_chain], [restart_transparent], [templates],
      [race_breaks_chain], [chainstore_holds] (torn writes included).  [self_miner_progress]
      says when the mining thread gets the pending transactions into the chain unless another
      thread extends it first, and [invalid_tx_stalls_mining] how one pending transaction
      keeps it from mining while nobody else does.
    - The life of the process: [system_safe] (in every history the log is a chain that only
      grows and a running node holds it), [system_available] (nothing but a kill stops it),
      [system_restarts] (a restart loses nothing but the pool, given a committee that can be
      installed), [miner_round_steps] (the mining thread is a run of that machine),
      [main_steps] (the commands are its moves), [serve_total] (every request is answered),
      [genesis_load] (what a configuration file loads as), [show_commands], and
      [metrics_scrape] (what a monitor reads back).
    - The rules: [next_bits_band], [emission_supply_bound], [reward_trap] (a reward of a few
      satoshi never grows again; [rush_is_trapped] gets there in 71 blocks), [pow_seal] with the
      compact targets, [bitcoin_retarget_exact], [accordion_bounds]; the tests with
      [backtest_samples] (the recorded supply, to the satoshi) and [fuzz_tests_pass] (with every
      seed).
    - Authentication and commitments: [verify_governance_proof_iff], [verify_cert_iff],
      [finality_accountability], [aggregated_certificates], [signing_hash_binding],
      [block_roots_binding], [mem_root_binding], [gov_payload_binding].
    - The edges: [mempool_correct], [rocks_refines_memstate], [gossip_exactly_once],
      [remote_mining], [submit_transfer_valid], [emission_chart], [queries_show_chain],
      [handlers_keep_types]; the clients with [cli_against_node], [cli_screens] (the
      screens, line by line), [wallet_send_valid], [wallet_double_send] (two different sends
      before a block stop the mining), [window_life] (shown wallet, memory and disk agree; one miner),
      [regenerate_orphans_miner] (a miner left paying a deleted key), [mining_worker_round]
      and [oversized_template_unminable]; the contract VM with
      [chain_reflect_get_safe] and [vm_calling_convention].

    Every theorem with hypotheses has a witness, a lemma that ends in [Defined] and applies
    it to concrete values.

    ** Bounds and fuel

    [mine_loop] takes fuel; the nonce is a [u64], so [2^64] rounds are the whole loop, and
    [mine_inline_first] proves that it stops at the first nonce that works.  [read_blocks]
    consumes four bytes of the file per round, so the length of the file is enough
    ([read_blocks_eq] is the loop without fuel).  A round of the mining thread is followed for
    [rd_fuel] attempts and reports [Searching] when they are used up; [self_miner_progress]
    holds for all fuel above the first nonce that works.  A mining worker's deadline is a
    number of batches.  The backtest is
    computed for its first 10000 blocks, through a quick run proved equal to the trace.  All
    other recursion is structural.

    ** Not modelled

    HTTP and JSON text (tiny_http, serde_json's parser and printer) and the TOML parser; the
    explorer's HTML; the argument parsers (clap); the layout of the window and its toolkit, the
    clipboard, and the text of a hash rate (floating point); the sleeping of the mining
    threads; the floating-point fields of the genesis file, which are read and not used; the
    wasmtime engine, RocksDB and the cryptographic libraries, which are parameters; the
    unit tests, simulations (Python), the web page and the deployment scripts. *)

From Stdlib Require Export ZArith Lia.
From Stdlib Require Strings.Byte.
From stdpp Require Export base tactics gmap fin_sets strings sorting numbers list.

#[export] Set Default Goal Selector "!".

Declare Scope pg_scope.
Delimit Scope pg_scope with pg.

(** ** Bytes

    A Rust [u8] inside a buffer is a [Byte.byte]; a [Vec<u8>] or a [[u8; n]] is a
    list of them, the length of an array being a well-formedness condition. *)

Abbreviation byte := Byte.byte.
Abbreviation bytes := (list Byte.byte).

#[export] Instance byte_eq_dec : EqDecision byte := Byte.byte_eq_dec.
#[export] Instance byte_inhabited : Inhabited byte := populate Byte.x00.
#[export] Program Instance byte_countable : Countable byte :=
  inj_countable Byte.to_N Byte.of_N _.
Next Obligation. intros b. apply Byte.of_to_N. Qed.

Definition byte_to_Z (b : byte) : Z := Z.of_N (Byte.to_N b).

Definition Z_to_byte (z : Z) : byte :=
  default Byte.x00 (Byte.of_N (Z.to_N (z mod 256)%Z)).

(** ASCII text as the bytes of a Rust byte string literal. *)
Definition ascii_bytes (s : string) : bytes := String.list_byte_of_string s.

Local Open Scope Z_scope.

Lemma byte_to_Z_range b : 0 <= byte_to_Z b < 256.
Proof. destruct b; vm_compute; split; congruence. Qed.

Lemma Z_to_byte_to_Z b : Z_to_byte (byte_to_Z b) = b.
Proof. destruct b; reflexivity. Qed.

Lemma byte_to_Z_to_byte z : byte_to_Z (Z_to_byte z) = z mod 256.
Proof.
  unfold Z_to_byte, byte_to_Z.
  pose proof (Z.mod_pos_bound z 256 ltac:(lia)) as Hb.
  destruct (Byte.of_N (Z.to_N (z mod 256))) as [b|] eqn:E.
  - cbn. apply Byte.to_of_N in E. rewrite E. lia.
  - apply Byte.of_N_None_iff in E. lia.
Qed.

Lemma byte_to_Z_inj b1 b2 : byte_to_Z b1 = byte_to_Z b2 -> b1 = b2.
Proof. intros H. rewrite <- (Z_to_byte_to_Z b1), H. apply Z_to_byte_to_Z. Qed.

Lemma Z_to_byte_inj z1 z2 :
  0 <= z1 < 256 -> 0 <= z2 < 256 -> Z_to_byte z1 = Z_to_byte z2 -> z1 = z2.
Proof.
  intros H1 H2 H. apply (f_equal byte_to_Z) in H.
  rewrite !byte_to_Z_to_byte, !Z.mod_small in H by done. exact H.
Qed.

(** ** Fixed-width encodings: [to_le_bytes], [to_be_bytes] and their inverses *)

Fixpoint le_bytes (n : nat) (z : Z) : bytes :=
  match n with
  | O => []
  | S n => Z_to_byte z :: le_bytes n (z / 256)
  end.

Fixpoint le_to_Z (l : bytes) : Z :=
  match l with
  | [] => 0
  | b :: l => byte_to_Z b + 256 * le_to_Z l
  end.

Definition be_bytes (n : nat) (z : Z) : bytes := reverse (le_bytes n z).
Definition be_to_Z (l : bytes) : Z := le_to_Z (reverse l).

Lemma le_bytes_S n z : le_bytes (S n) z = Z_to_byte z :: le_bytes n (z / 256).
Proof. done. Qed.

Lemma length_le_bytes n z : length (le_bytes n z) = n.
Proof. revert z; induction n as [|n IH]; intros z; cbn; [done|]. by rewrite IH. Qed.

Lemma length_be_bytes n z : length (be_bytes n z) = n.
Proof. unfold be_bytes. by rewrite length_reverse, length_le_bytes. Qed.

Lemma le_to_Z_range l : 0 <= le_to_Z l < 256 ^ Z.of_nat (length l).
Proof.
  induction l as [|b l IH]; cbn [le_to_Z length]; [lia|].
  pose proof (byte_to_Z_range b).
  rewrite Nat2Z.inj_succ, Z.pow_succ_r by lia. lia.
Qed.

Lemma be_to_Z_range l : 0 <= be_to_Z l < 256 ^ Z.of_nat (length l).
Proof. unfold be_to_Z. rewrite <- (length_reverse l). apply le_to_Z_range. Qed.

Lemma le_to_Z_le_bytes n z : le_to_Z (le_bytes n z) = z mod 256 ^ Z.of_nat n.
Proof.
  revert z; induction n as [|n IH]; intros z; cbn [le_to_Z le_bytes].
  { by rewrite Z.mod_1_r. }
  rewrite IH, byte_to_Z_to_byte, Nat2Z.inj_succ, Z.pow_succ_r by lia.
  rewrite (Z.rem_mul_r z 256 (256 ^ Z.of_nat n)); lia.
Qed.

Lemma be_to_Z_be_bytes n z : be_to_Z (be_bytes n z) = z mod 256 ^ Z.of_nat n.
Proof. unfold be_to_Z, be_bytes. by rewrite reverse_involutive, le_to_Z_le_bytes. Qed.

Lemma le_bytes_le_to_Z l : le_bytes (length l) (le_to_Z l) = l.
Proof.
  induction l as [|b l IH]; cbn [le_bytes le_to_Z length]; [done|].
  pose proof (byte_to_Z_range b) as Hb.
  f_equal.
  - apply byte_to_Z_inj. rewrite byte_to_Z_to_byte.
    rewrite Z.mul_comm, Z.mod_add by lia. by apply Z.mod_small.
  - rewrite Z.mul_comm, Z.div_add, Z.div_small by lia. apply IH.
Qed.

Lemma be_bytes_be_to_Z l : be_bytes (length l) (be_to_Z l) = l.
Proof.
  unfold be_bytes, be_to_Z. rewrite <- (length_reverse l), le_bytes_le_to_Z.
  apply reverse_involutive.
Qed.

Lemma le_bytes_inj n z1 z2 :
  0 <= z1 < 256 ^ Z.of_nat n -> 0 <= z2 < 256 ^ Z.of_nat n ->
  le_bytes n z1 = le_bytes n z2 -> z1 = z2.
Proof.
  intros H1 H2 H. apply (f_equal le_to_Z) in H.
  rewrite !le_to_Z_le_bytes, !Z.mod_small in H by done. exact H.
Qed.

Lemma le_bytes_mod n z : le_bytes n (z mod 256 ^ Z.of_nat n) = le_bytes n z.
Proof.
  rewrite <- le_to_Z_le_bytes. rewrite <- (length_le_bytes n z) at 1.
  apply le_bytes_le_to_Z.
Qed.

Lemma be_bytes_inj n z1 z2 :
  0 <= z1 < 256 ^ Z.of_nat n -> 0 <= z2 < 256 ^ Z.of_nat n ->
  be_bytes n z1 = be_bytes n z2 -> z1 = z2.
Proof. intros H1 H2 H. apply (inj reverse) in H. by eapply le_bytes_inj. Qed.

Lemma le_to_Z_app l1 l2 :
  le_to_Z (l1 ++ l2) = le_to_Z l1 + 256 ^ Z.of_nat (length l1) * le_to_Z l2.
Proof.
  induction l1 as [|b l1 IH]; cbn [le_to_Z app length]; [lia|].
  rewrite IH, Nat2Z.inj_succ, Z.pow_succ_r by lia. lia.
Qed.

Lemma be_to_Z_app l1 l2 :
  be_to_Z (l1 ++ l2) = be_to_Z l1 * 256 ^ Z.of_nat (length l2) + be_to_Z l2.
Proof. unfold be_to_Z. rewrite reverse_app, le_to_Z_app, length_reverse. lia. Qed.

Lemma be_to_Z_cons b l :
  be_to_Z (b :: l) = byte_to_Z b * 256 ^ Z.of_nat (length l) + be_to_Z l.
Proof. change (b :: l) with ([b] ++ l). rewrite be_to_Z_app. cbn. lia. Qed.

Lemma be_to_Z_replicate_zero n : be_to_Z (replicate n Byte.x00) = 0.
Proof.
  induction n as [|n IH]; [done|]. cbn [replicate].
  rewrite be_to_Z_cons, IH. cbn. lia.
Qed.

(** The leading bytes of a big-endian number are its quotient, the others its remainder. *)
Lemma be_to_Z_split n l :
  be_to_Z (take n l) = be_to_Z l / 256 ^ Z.of_nat (length l - n) /\
  be_to_Z (drop n l) = be_to_Z l mod 256 ^ Z.of_nat (length l - n).
Proof.
  pose proof (be_to_Z_range (drop n l)) as Hr. rewrite length_drop in Hr.
  pose proof (be_to_Z_app (take n l) (drop n l)) as E.
  rewrite take_drop, length_drop in E. rewrite E.
  rewrite Z.add_comm, Z.div_add, Z.mod_add, Z.div_small, Z.mod_small by lia. lia.
Qed.

Lemma be_to_Z_app_zeros l n :
  be_to_Z (l ++ replicate n Byte.x00) = be_to_Z l * 256 ^ Z.of_nat n.
Proof. rewrite be_to_Z_app, be_to_Z_replicate_zero, length_replicate. lia. Qed.

Lemma be_to_Z_zeros_app n l : be_to_Z (replicate n Byte.x00 ++ l) = be_to_Z l.
Proof. rewrite be_to_Z_app, be_to_Z_replicate_zero. lia. Qed.

Lemma be_to_Z_inj l1 l2 : length l1 = length l2 -> be_to_Z l1 = be_to_Z l2 -> l1 = l2.
Proof.
  intros Hl E. rewrite <- (be_bytes_be_to_Z l1), <- (be_bytes_be_to_Z l2). by rewrite Hl, E.
Qed.

#[global] Arguments le_bytes : simpl never.
#[global] Arguments be_bytes : simpl never.
#[global] Arguments le_to_Z : simpl never.
#[global] Arguments be_to_Z : simpl never.

(** Evaluates the powers and comparisons of numerals, in the goal and the hypotheses. *)
Ltac eval_num :=
  repeat match goal with
  | |- context [?b ^ ?n] =>
      let r := eval vm_compute in (b ^ n) in
      lazymatch r with Zpos _ => change (b ^ n) with r end
  | H : context [?b ^ ?n] |- _ =>
      let r := eval vm_compute in (b ^ n) in
      lazymatch r with Zpos _ => change (b ^ n) with r in H end
  | |- context [?a <=? ?b] =>
      let r := eval vm_compute in (a <=? b) in
      lazymatch r with true => idtac | false => idtac end; change (a <=? b) with r
  | H : context [?a <=? ?b] |- _ =>
      let r := eval vm_compute in (a <=? b) in
      lazymatch r with true => idtac | false => idtac end; change (a <=? b) with r in H
  end; cbv iota in *.

(** ** Lexicographic order on byte strings

    The derived [Ord] of [[u8; n]] and [Vec<u8>]; [sort_bytes] is [sort_by_key] on the
    bytes themselves and the key order of a [BTreeMap]. *)

Fixpoint bytes_leb (l1 l2 : bytes) : bool :=
  match l1, l2 with
  | [], _ => true
  | _ :: _, [] => false
  | a :: l1, b :: l2 =>
      if byte_to_Z a <? byte_to_Z b then true
      else if byte_to_Z b <? byte_to_Z a then false
      else bytes_leb l1 l2
  end.

Definition bytes_le (l1 l2 : bytes) : Prop := bytes_leb l1 l2 = true.

#[export] Instance bytes_le_dec : RelDecision bytes_le.
Proof. intros l1 l2. unfold bytes_le. apply _. Defined.

Lemma bytes_le_cons a b l1 l2 :
  bytes_le (a :: l1) (b :: l2) <->
  byte_to_Z a < byte_to_Z b \/ (a = b /\ bytes_le l1 l2).
Proof.
  unfold bytes_le; cbn [bytes_leb].
  destruct (Z.ltb_spec (byte_to_Z a) (byte_to_Z b)) as [H1|H1]; [naive_solver|].
  destruct (Z.ltb_spec (byte_to_Z b) (byte_to_Z a)) as [H2|H2].
  - split; [discriminate|]. intros [?|[-> _]]; lia.
  - assert (a = b) as -> by (apply byte_to_Z_inj; lia).
    split; [by right|]. intros [?|[_ ?]]; [lia|done].
Qed.

Lemma bytes_le_nil_r a l : ~ bytes_le (a :: l) [].
Proof. discriminate. Qed.

#[export] Instance bytes_le_total : Total bytes_le.
Proof.
  intros l1; induction l1 as [|a l1 IH]; intros [|b l2]; [by left|by left|by right|].
  rewrite !bytes_le_cons.
  destruct (Z.lt_total (byte_to_Z a) (byte_to_Z b)) as [H|[H|H]]; [by auto| |by auto].
  apply byte_to_Z_inj in H as ->. destruct (IH l2); auto.
Qed.

#[export] Instance bytes_le_antisymm : AntiSymm eq bytes_le.
Proof.
  intros l1; induction l1 as [|a l1 IH]; intros [|b l2].
  - done.
  - intros _ H. by edestruct bytes_le_nil_r.
  - intros H. by edestruct bytes_le_nil_r.
  - rewrite !bytes_le_cons. intros [?|[Hab H1]] [?|[Hba H2]]; subst; try lia.
    f_equal. by apply IH.
Qed.

#[export] Instance bytes_le_trans : Transitive bytes_le.
Proof.
  intros l1; induction l1 as [|a l1 IH]; intros [|b l2] [|c l3].
  1-4: done.
  1-2: intros H; by edestruct bytes_le_nil_r.
  1: intros _ H; by edestruct bytes_le_nil_r.
  rewrite !bytes_le_cons. intros [?|[Hab H1]] [?|[Hbc H2]]; subst; try (left; lia).
  right. split; [done|]. by eapply IH.
Qed.

Definition sort_bytes : list bytes -> list bytes := merge_sort bytes_le.

Lemma sort_bytes_perm l : sort_bytes l ≡ₚ l.
Proof. apply merge_sort_Permutation. Qed.

Lemma length_sort_bytes l : length (sort_bytes l) = length l.
Proof. apply Permutation_length, sort_bytes_perm. Qed.

(** Sorting forgets the order: the canonical form of a multiset of keys. *)
Lemma sort_bytes_canonical l1 l2 : l1 ≡ₚ l2 <-> sort_bytes l1 = sort_bytes l2.
Proof.
  split.
  - intros H. eapply (StronglySorted_unique bytes_le).
    + apply StronglySorted_merge_sort; apply _.
    + apply StronglySorted_merge_sort; apply _.
    + by rewrite !sort_bytes_perm.
  - intros H. rewrite <- (sort_bytes_perm l1), H. apply sort_bytes_perm.
Qed.

(** ** Values of a Rust type

    Arrays are lists and machine integers are [Z], so a type of the program is a carrier
    and the decidable predicate [typed] that says which of its values Rust can hold. *)

Class Typed (A : Type) := typed : A -> bool.
#[export] Hint Mode Typed ! : typeclass_instances.

Definition is_array (n : nat) (l : bytes) : bool := bool_decide (length l = n).

Lemma is_array_spec n l : is_array n l = true <-> length l = n.
Proof. unfold is_array. by rewrite bool_decide_eq_true. Qed.

#[export] Instance typed_bytes : Typed bytes := fun _ => true.
#[export] Instance typed_list {A} `{Typed A} : Typed (list A) | 10 := forallb typed.
Lemma typed_cons {A} `{Typed A} (x : A) (l : list A) : typed (x :: l) = typed x && typed l.
Proof. done. Qed.

#[export] Instance typed_option {A} `{Typed A} : Typed (option A) := fun o =>
  match o with Some a => typed a | None => true end.

(** ** Prefix-free reading of concatenations *)

Lemma app_inv_length {A} (l1 l1' k k' : list A) :
  length l1 = length l1' -> l1 ++ k = l1' ++ k' -> l1 = l1' /\ k = k'.
Proof. apply app_inj_1. Qed.

Lemma cons_eq_inv {A} (x y : A) l k : x :: l = y :: k -> x = y /\ l = k.
Proof. by intros [= -> ->]. Qed.

(** A length prefix makes a variable-size field readable. *)
Lemma len_prefixed_inj n (l1 l2 k1 k2 : bytes) :
  Z.of_nat (length l1) < 256 ^ Z.of_nat n -> Z.of_nat (length l2) < 256 ^ Z.of_nat n ->
  le_bytes n (Z.of_nat (length l1)) ++ l1 ++ k1 =
  le_bytes n (Z.of_nat (length l2)) ++ l2 ++ k2 ->
  l1 = l2 /\ k1 = k2.
Proof.
  intros H1 H2 H.
  apply app_inv_length in H as [Hl H]; [|by rewrite !length_le_bytes].
  apply le_bytes_inj in Hl; [|lia|lia]. apply app_inv_length in H; [done|lia].
Qed.

(** A concatenation of chunks of one size determines the chunks. *)
Lemma concat_fixed_inj {A} n (l1 l2 : list (list A)) :
  Forall (fun x => length x = n) l1 -> Forall (fun x => length x = n) l2 ->
  length l1 = length l2 -> concat l1 = concat l2 -> l1 = l2.
Proof.
  revert l2; induction l1 as [|x l1 IH]; intros [|y l2] H1 H2 Hlen H; try done.
  inversion H1; inversion H2; subst. cbn in H.
  apply app_inv_length in H as [-> H]; [|lia]. f_equal. apply IH; auto with lia.
Qed.

Lemma length_concat_fixed {A} n (l : list (list A)) :
  Forall (fun x => length x = n) l -> length (concat l) = (length l * n)%nat.
Proof. induction 1 as [|x l Hx _ IH]; cbn; [done|]. rewrite length_app. lia. Qed.

Lemma Forall_elem {A} (P : A -> Prop) (l : list A) : Forall P l <-> forall x, x ∈ l -> P x.
Proof. apply Forall_forall. Qed.

Lemma filter_ext_in {A} (P Q : A -> Prop) `{forall x, Decision (P x)}
  `{forall x, Decision (Q x)} (l : list A) :
  (forall x, x ∈ l -> P x <-> Q x) -> filter P l = filter Q l.
Proof.
  induction l as [|x l IH]; intros HPQ; [done|]. rewrite !filter_cons.
  rewrite (IH ltac:(intros y Hy; apply HPQ; by right)).
  assert (P x <-> Q x) by (apply HPQ; by left).
  destruct (decide (P x)), (decide (Q x)); tauto.
Qed.

Lemma filter_none {A} (P : A -> Prop) `{forall x, Decision (P x)} (l : list A) :
  (forall x, x ∈ l -> ~ P x) -> filter P l = [].
Proof.
  induction l as [|x l IH]; intros HP; [done|].
  rewrite filter_cons_False by (apply HP; by left). apply IH. intros y Hy. apply HP. by right.
Qed.

(** [iter().enumerate()] *)
Definition enumerate {A} (l : list A) : list (nat * A) := imap pair l.

(** [iter().find(P)] *)
Definition find_elem {A} (P : A -> Prop) `{forall x, Decision (P x)} (l : list A) : option A :=
  snd <$> list_find P l.

Lemma find_elem_cons {A} (P : A -> Prop) `{forall x, Decision (P x)} x l :
  find_elem P (x :: l) = if decide (P x) then Some x else find_elem P l.
Proof.
  unfold find_elem; cbn. destruct (decide (P x)); [done|].
  by destruct (list_find P l) as [[]|].
Qed.

Lemma find_elem_Some {A} (P : A -> Prop) `{forall x, Decision (P x)} l x :
  find_elem P l = Some x -> x ∈ l /\ P x.
Proof.
  unfold find_elem. rewrite fmap_Some. intros ([i s] & Hf & ->).
  apply list_find_Some in Hf as (Hl & HP & _). split; [|done].
  by eapply list_elem_of_lookup_2.
Qed.

(** Splits [H : l ++ k = l' ++ k'] when both heads have the same known length. *)
Ltac split_app H H1 :=
  apply app_inv_length in H as [H1 H];
  [|by rewrite ?length_le_bytes, ?length_be_bytes; auto; congruence].

(** ** Machine integers

    A [w]-bit unsigned integer is a [Z] in [0 .. 2^w - 1].  Plain [+], [*] wrap (the
    release profile compiles without overflow checks); the [saturating_*] and
    [checked_*] methods are written out. *)

Definition u_max (w : Z) : Z := 2 ^ w - 1.
Definition in_u (w x : Z) : Prop := 0 <= x < 2 ^ w.
Definition in_ub (w x : Z) : bool := (0 <=? x) && (x <? 2 ^ w).

Definition wrapping_add (w a b : Z) : Z := (a + b) mod 2 ^ w.
Definition wrapping_sub (w a b : Z) : Z := (a - b) mod 2 ^ w.
Definition wrapping_mul (w a b : Z) : Z := (a * b) mod 2 ^ w.
Definition saturating_add (w a b : Z) : Z := Z.min (a + b) (u_max w).
Definition saturating_mul (w a b : Z) : Z := Z.min (a * b) (u_max w).
Definition saturating_sub (a b : Z) : Z := Z.max 0 (a - b).
Definition checked_add (w a b : Z) : option Z :=
  if a + b <=? u_max w then Some (a + b) else None.

(** Signed 128-bit operations of the difficulty code. *)
Definition i128_min : Z := - 2 ^ 127.
Definition i128_max : Z := 2 ^ 127 - 1.
Definition i128_wrap (x : Z) : Z := (x + 2 ^ 127) mod 2 ^ 128 - 2 ^ 127.
Definition i128_saturating_mul (a b : Z) : Z := Z.max i128_min (Z.min (a * b) i128_max).

Lemma in_ub_spec w x : in_ub w x = true <-> in_u w x.
Proof. unfold in_ub, in_u. rewrite andb_true_iff, Z.leb_le, Z.ltb_lt. done. Qed.

#[export] Instance in_u_dec w x : Decision (in_u w x).
Proof.
  refine (cast_if (decide (in_ub w x = true))); rewrite <- in_ub_spec; done.
Defined.

Lemma i128_wrap_id x : i128_min <= x <= i128_max -> i128_wrap x = x.
Proof.
  unfold i128_wrap, i128_min, i128_max. intros H.
  rewrite Z.mod_small by lia. lia.
Qed.

Lemma checked_add_Some w a b c :
  checked_add w a b = Some c <-> c = a + b /\ a + b <= u_max w.
Proof.
  unfold checked_add. destruct (Z.leb_spec (a + b) (u_max w)) as [Hle|Hlt].
  - split.
    + intros Hc. injection Hc as <-. done.
    + intros [-> _]. done.
  - split.
    + discriminate.
    + intros [_ Hle]. lia.
Qed.

Lemma wrapping_add_small w a b : 0 <= a -> 0 <= b -> a + b < 2 ^ w -> wrapping_add w a b = a + b.
Proof. intros. unfold wrapping_add. apply Z.mod_small. lia. Qed.

Lemma saturating_add_small w a b : a + b < 2 ^ w -> saturating_add w a b = a + b.
Proof. unfold saturating_add, u_max. lia. Qed.

(** ** Outcomes

    [Result<A, E>] with one more case: a Rust panic ([unwrap], [expect], an
    out-of-order [clamp], a division by zero). *)

Inductive outcome (E A : Type) :=
| Ok (a : A)
| Err (e : E)
| Panic.
Arguments Ok {E A} a.
Arguments Err {E A} e.
Arguments Panic {E A}.

#[export] Instance Ok_inj {E A} : Inj (=) (=) (@Ok E A).
Proof. by intros x y [= ->]. Qed.

#[export] Instance outcome_ret {E} : MRet (outcome E) := fun A a => Ok a.
#[export] Instance outcome_bind {E} : MBind (outcome E) := fun A B k m =>
  match m with
  | Ok a => k a
  | Err e => Err e
  | Panic => Panic
  end.
#[export] Instance outcome_fmap {E} : FMap (outcome E) := fun A B f m =>
  match m with
  | Ok a => Ok (f a)
  | Err e => Err e
  | Panic => Panic
  end.

(** [map_err], [ok_or]: moving between error types. *)
Definition map_err {E F A} (f : E -> F) (m : outcome E A) : outcome F A :=
  match m with
  | Ok a => Ok a
  | Err e => Err (f e)
  | Panic => Panic
  end.
Definition ok_or {E A} (e : E) (o : option A) : outcome E A :=
  match o with Some a => Ok a | None => Err e end.
(** [expect] and [unwrap]. *)
Definition expect {E A} (o : option A) : outcome E A :=
  match o with Some a => Ok a | None => Panic end.
Definition is_ok {E A} (m : outcome E A) : bool :=
  match m with Ok _ => true | _ => false end.

(** [Ord::clamp] asserts [min <= max]. *)
Definition rust_clamp {E} (x lo hi : Z) : outcome E Z :=
  if hi <? lo then Panic
  else Ok (if x <? lo then lo else if hi <? x then hi else x).

Lemma outcome_bind_Ok {E A B} (m : outcome E A) (k : A -> outcome E B) b :
  m ≫= k = Ok b <-> exists a, m = Ok a /\ k a = Ok b.
Proof. destruct m; cbn; naive_solver. Qed.

Lemma outcome_fmap_Ok {E A B} (m : outcome E A) (f : A -> B) b :
  f <$> m = Ok b <-> exists a, m = Ok a /\ b = f a.
Proof. destruct m; cbn; naive_solver. Qed.

Lemma map_err_Ok {E F A} (f : E -> F) (m : outcome E A) a :
  map_err f m = Ok a <-> m = Ok a.
Proof. destruct m; cbn; naive_solver. Qed.

Lemma ok_or_Ok {E A} (e : E) (o : option A) a : ok_or e o = Ok a <-> o = Some a.
Proof. destruct o; cbn; naive_solver. Qed.

Lemma expect_Ok {E A} (o : option A) (a : A) : expect (E:=E) o = Ok a <-> o = Some a.
Proof. destruct o; cbn; naive_solver. Qed.

Lemma rust_clamp_Ok {E} x lo hi y :
  rust_clamp (E:=E) x lo hi = Ok y <-> lo <= hi /\ y = Z.max lo (Z.min x hi).
Proof.
  unfold rust_clamp.
  destruct (Z.ltb_spec hi lo), (Z.ltb_spec x lo), (Z.ltb_spec hi x);
    (split; [intros Hc; simplify_eq; lia | intros [Hle ->]; first [lia | f_equal; lia]]).
Qed.

(** ** State with errors

    A function on [&mut S] that returns a [Result]: on an error the state is
    whatever the function had written so far, as in Rust. *)

Definition stm (S E A : Type) : Type := S -> outcome E A * S.

#[export] Instance stm_ret {S E} : MRet (stm S E) := fun A a s => (Ok a, s).
#[export] Instance stm_bind {S E} : MBind (stm S E) := fun A B k m s =>
  match m s with
  | (Ok a, s') => k a s'
  | (Err e, s') => (Err e, s')
  | (Panic, s') => (Panic, s')
  end.

Definition lift_out {S E A} (m : outcome E A) : stm S E A := fun s => (m, s).
Definition read_st {S E A} (f : S -> A) : stm S E A := fun s => (Ok (f s), s).
Definition modify_st {S E} (f : S -> S) : stm S E unit := fun s => (Ok tt, f s).
Definition throw {S E A} (e : E) : stm S E A := fun s => (Err e, s).

(** [for x in l { body }] over a state, with [?] inside the body. *)
Fixpoint for_each {S E A} (body : A -> stm S E unit) (l : list A) : stm S E unit :=
  match l with
  | [] => mret tt
  | x :: l => body x ≫= fun _ => for_each body l
  end.

Lemma stm_bind_Ok {S E A B} (m : stm S E A) (k : A -> stm S E B) s b s' :
  (m ≫= k) s = (Ok b, s') <-> exists a s1, m s = (Ok a, s1) /\ k a s1 = (Ok b, s').
Proof.
  unfold mbind, stm_bind. destruct (m s) as [[a|e|] s1]; naive_solver.
Qed.

Lemma lift_out_Ok {S E A} (m : outcome E A) (s s' : S) a :
  lift_out m s = (Ok a, s') <-> m = Ok a /\ s' = s.
Proof. unfold lift_out. naive_solver. Qed.

(** An invariant of the state that the body of a loop keeps is kept by the loop. *)
Lemma for_each_inv {S E A} (P : S -> Prop) (body : A -> stm S E unit) l s r s' :
  (forall x s r s', x ∈ l -> P s -> body x s = (r, s') -> P s') ->
  P s -> for_each body l s = (r, s') -> P s'.
Proof.
  revert s; induction l as [|x l IH]; intros s Hb Hs; cbn.
  { unfold mret, stm_ret. intros [= <- <-]. done. }
  unfold mbind, stm_bind. destruct (body x s) as [[u|e|] s1] eqn:Ex; intros H.
  - eapply IH; [| |exact H].
    + intros y ? ? ? Hy. eapply Hb. by right.
    + eapply Hb; [by left|exact Hs|exact Ex].
  - simplify_eq. eapply Hb; [by left|exact Hs|exact Ex].
  - simplify_eq. eapply Hb; [by left|exact Hs|exact Ex].
Qed.

Lemma for_each_cons_Ok {S E A} (body : A -> stm S E unit) x l s s' :
  for_each body (x :: l) s = (Ok tt, s') <->
  exists s1, body x s = (Ok tt, s1) /\ for_each body l s1 = (Ok tt, s').
Proof.
  cbn. rewrite stm_bind_Ok. split.
  - intros ([] & s1 & H1 & H2). by exists s1.
  - intros (s1 & H1 & H2). by exists tt, s1.
Qed.

Lemma for_each_app_Ok {S E A} (body : A -> stm S E unit) l1 l2 s s' :
  for_each body (l1 ++ l2) s = (Ok tt, s') <->
  exists s1, for_each body l1 s = (Ok tt, s1) /\ for_each body l2 s1 = (Ok tt, s').
Proof.
  revert s; induction l1 as [|x l1 IH]; intros s.
  - cbn. split; [intros H; by exists s|]. intros (s1 & [= <-] & H). exact H.
  - cbn [app]. rewrite for_each_cons_Ok. setoid_rewrite IH.
    setoid_rewrite for_each_cons_Ok. naive_solver.
Qed.

#[export] Hint Rewrite @outcome_bind_Ok @outcome_fmap_Ok @map_err_Ok @ok_or_Ok
  @expect_Ok @stm_bind_Ok @lift_out_Ok : pg_ok.

(** Opens a successful run: every bind on the way becomes an equation. *)
Ltac inv_ok H :=
  repeat (first
    [ progress autorewrite with pg_ok in H
    | match type of H with
      | exists _, _ => destruct H as [? H]
      | _ /\ _ => let H' := fresh "Hok" in destruct H as [H' H]; inv_ok H'
      end ]);
  simplify_eq.

Lemma le_field_inj n z1 z2 k1 k2 :
  in_u (8 * Z.of_nat n) z1 -> in_u (8 * Z.of_nat n) z2 ->
  le_bytes n z1 ++ k1 = le_bytes n z2 ++ k2 -> z1 = z2 /\ k1 = k2.
Proof.
  unfold in_u. rewrite Z.pow_mul_r by lia. change (2 ^ 8) with 256. intros H1 H2 H.
  split_app H H'. split; [by eapply le_bytes_inj|done].
Qed.

(** Turns boolean well-formedness hypotheses into propositions. *)
Ltac typed_props :=
  unfold typed in *; cbn -[Z.pow] in *;
  repeat match goal with
  | H : _ && _ = true |- _ => apply andb_true_iff in H as [? ?]
  | H : is_array _ _ = true |- _ => apply is_array_spec in H
  | H : in_ub _ _ = true |- _ => apply in_ub_spec in H
  | H : bool_decide _ = true |- _ => apply bool_decide_eq_true in H
  | H : Is_true _ |- _ => apply Is_true_true in H
  | H : forallb _ _ = true |- _ => rewrite forallb_forall in H; setoid_rewrite <- list_elem_of_In in H
  end.

(** Signed machine integers. *)
Definition in_sb (w x : Z) : bool := (- 2 ^ (w - 1) <=? x) && (x <? 2 ^ (w - 1)).

Lemma saturating_mul_small w a b : a * b < 2 ^ w -> saturating_mul w a b = a * b.
Proof. unfold saturating_mul, u_max. lia. Qed.

Lemma saturating_mul_mono w a b a' b' :
  0 <= a <= a' -> 0 <= b <= b' -> saturating_mul w a b <= saturating_mul w a' b'.
Proof. intros. unfold saturating_mul. assert (a * b <= a' * b') by nia. lia. Qed.

Lemma saturating_mul_le w a b : saturating_mul w a b <= a * b.
Proof. unfold saturating_mul. lia. Qed.

Lemma saturating_mul_range w a b :
  0 <= w -> 0 <= a -> 0 <= b -> in_u w (saturating_mul w a b).
Proof.
  intros. unfold in_u, saturating_mul, u_max. assert (0 < 2 ^ w) by lia.
  assert (0 <= a * b) by nia. lia.
Qed.

(** ** What a run keeps, whatever its result

    [keeps R m]: the state after [m] is related by [R] to the state before, on success, on
    error and on panic.  For a preorder [R] the rule follows the structure of the monad. *)

Definition keeps {S E A} (R : S -> S -> Prop) (m : stm S E A) : Prop :=
  forall s r s', m s = (r, s') -> R s s'.

Create HintDb pg_keeps.

Section keeps.
Context {S E : Type} (R : S -> S -> Prop) `{!PreOrder R}.

Lemma keeps_same {A} (m : stm S E A) : (forall s, (m s).2 = s) -> keeps R m.
Proof. intros Hm s r s' E'. specialize (Hm s). rewrite E' in Hm. cbn in Hm. by subst. Qed.

Lemma keeps_ret {A} (a : A) : keeps R (mret a : stm S E A).
Proof. by apply keeps_same. Qed.

Lemma keeps_throw {A} (e : E) : keeps R (throw e : stm S E A).
Proof. by apply keeps_same. Qed.

Lemma keeps_lift {A} (m : outcome E A) : keeps R (lift_out m).
Proof. by apply keeps_same. Qed.

Lemma keeps_read {A} (f : S -> A) : keeps R (read_st f : stm S E A).
Proof. by apply keeps_same. Qed.

Lemma keeps_pure {A} (f : S -> outcome E A) : keeps R (fun s => (f s, s)).
Proof. by apply keeps_same. Qed.

Lemma keeps_modify (f : S -> S) : (forall s, R s (f s)) -> keeps R (modify_st f : stm S E unit).
Proof. intros Hf s r s' [= <- <-]. apply Hf. Qed.

Lemma keeps_bind {A B} (m : stm S E A) (k : A -> stm S E B) :
  keeps R m -> (forall a, keeps R (k a)) -> keeps R (m ≫= k).
Proof.
  intros Hm Hk s r s'. unfold mbind, stm_bind.
  destruct (m s) as [[a|e|] s1] eqn:Em; intros Hr.
  - etrans; [by eapply Hm|by eapply Hk].
  - injection Hr as _ <-. by eapply Hm.
  - injection Hr as _ <-. by eapply Hm.
Qed.

Lemma keeps_for_each {A} (body : A -> stm S E unit) l :
  (forall x, x ∈ l -> keeps R (body x)) -> keeps R (for_each body l).
Proof.
  induction l as [|x l IH]; intros Hb; cbn; [apply keeps_ret|].
  apply keeps_bind; [apply Hb; by left|]. intros _. apply IH. intros y Hy. apply Hb. by right.
Qed.
End keeps.

#[export] Hint Resolve keeps_ret keeps_throw keeps_lift keeps_read keeps_pure : pg_keeps.

(** Follows the structure of a program; leaves the writes. *)
Ltac keeps_tac :=
  repeat first
  [ progress eauto with pg_keeps typeclass_instances
  | apply keeps_bind; [apply _| |intros ?]
  | apply keeps_for_each; [apply _|intros ? ?]
  | match goal with
    | |- keeps _ (if ?b then _ else _) => destruct b eqn:?
    | |- keeps _ (match ?x with _ => _ end) => destruct x eqn:?
    end ].

Lemma size_list_to_set_le (l : list bytes) : (size (list_to_set l : gset bytes) <= length l)%nat.
Proof.
  induction l as [|x l IH]; [done|].
  rewrite list_to_set_cons. destruct (decide (x ∈ (list_to_set l : gset bytes))) as [Hx|Hx].
  - replace ({[x]} ∪ list_to_set l : gset bytes) with (list_to_set l : gset bytes) by set_solver.
    cbn. lia.
  - rewrite size_union by set_solver. rewrite size_singleton. cbn. lia.
Qed.
