(* ===== verification/Text.v ===== *)
(** * Text: numbers, lines and columns as strings

    What [format!], [println!] and [str::parse] do with integers, padding and lines, and the
    round trips between them.  A string is its bytes. *)

From S2P Require Export Prelude.
From stdpp Require Export pretty.
From Stdlib Require Import Strings.Ascii.

Local Open Scope Z_scope.

(** ** Characters *)

Fixpoint all_chars (P : ascii -> bool) (s : string) : bool :=
  match s with EmptyString => true | String a s => P a && all_chars P s end.

Definition code (a : ascii) : Z := Z.of_nat (nat_of_ascii a).

(** [str::parse] of an unsigned integer of [w] bits. *)
Definition digit_value (a : ascii) : option Z :=
  let n := Z.of_nat (nat_of_ascii a) in
  if (48 <=? n) && (n <=? 57) then Some (n - 48) else None.
Definition is_digit (a : ascii) : bool := bool_decide (is_Some (digit_value a)).

Fixpoint parse_digits (acc : Z) (s : string) : option Z :=
  match s with
  | EmptyString => Some acc
  | String a s => d ← digit_value a; parse_digits (10 * acc + d) s
  end.
Definition parse_u (w : Z) (s : string) : option Z :=
  let s := match s with
           | String a s' => if bool_decide (a = "+"%char) then s' else s
           | EmptyString => s
           end in
  if bool_decide (s = EmptyString) then None
  else n ← parse_digits 0 s; if in_ub w n then Some n else None.

(** A decimal number with its sign, of any size. *)
Definition read_number (s : string) : option Z :=
  match s with
  | EmptyString => None
  | String a s' =>
      if bool_decide (a = "-"%char)
      then if bool_decide (s' = EmptyString) then None else Z.opp <$> parse_digits 0 s'
      else parse_digits 0 s
  end.

(** ** Lines *)

Definition LF : ascii := "010"%char.
Definition not_lf (a : ascii) : bool := negb (bool_decide (a = LF)).

(** The output of a [println!] per line. *)
Fixpoint unlines (ls : list string) : string :=
  match ls with [] => EmptyString | l :: ls => l +:+ String LF (unlines ls) end.

Fixpoint split_lines (s : string) : list string :=
  match s with
  | EmptyString => []
  | String a s =>
      if bool_decide (a = LF) then EmptyString :: split_lines s
      else match split_lines s with
           | [] => [String a EmptyString]
           | l :: ls => String a l :: ls
           end
  end.

(** ** Hexadecimal numbers and columns *)

Definition hex_digit (n : Z) : ascii :=
  ascii_of_nat (Z.to_nat (if n <? 10 then 48 + n else 87 + n)).

Fixpoint hex_go (fuel : nat) (n : Z) (s : string) : string :=
  match fuel with
  | O => s
  | S fuel => let s := String (hex_digit (n mod 16)) s in
              if n <? 16 then s else hex_go fuel (n / 16) s
  end.

Fixpoint fill (n : nat) (a : ascii) (s : string) : string :=
  match n with O => s | S n => String a (fill n a s) end.

(** [{:>w}], [{:<w}] of a string and [{:08x}] of an integer of at most 64 bits. *)
Definition pad_left (w : nat) (s : string) : string := fill (w - String.length s) " " s.
Definition pad_right (w : nat) (s : string) : string := s +:+ fill (w - String.length s) " " "".
Definition hex08 (n : Z) : string := let s := hex_go 16 n "" in fill (8 - String.length s) "0" s.

Fixpoint parse_hex (acc : Z) (s : string) : option Z :=
  match s with
  | EmptyString => Some acc
  | String a s =>
      let n := code a in
      d ← (if (48 <=? n) && (n <=? 57) then Some (n - 48)
           else if (97 <=? n) && (n <=? 102) then Some (n - 87) else None);
      parse_hex (16 * acc + d) s
  end.

(** ** Laws *)

Lemma append_nil_r s : s +:+ "" = s.
Proof. induction s as [|a s IH]; [done|]. change (String a (s +:+ "") = String a s). by rewrite IH. Qed.

Lemma append_cons a s t : String a s +:+ t = String a (s +:+ t).
Proof. done. Qed.

Lemma append_assoc s t u : (s +:+ t) +:+ u = s +:+ t +:+ u.
Proof. induction s as [|a s IH]; [done|]. by rewrite !append_cons, IH. Qed.

Lemma all_chars_app P s t : all_chars P (s +:+ t) = all_chars P s && all_chars P t.
Proof.
  induction s as [|a s IH]; [done|]. rewrite append_cons. cbn [all_chars]. by rewrite IH, andb_assoc.
Qed.

Lemma all_chars_impl (P Q : ascii -> bool) s :
  (forall a, P a = true -> Q a = true) -> all_chars P s = true -> all_chars Q s = true.
Proof.
  intros HPQ. induction s as [|a s IH]; [done|]. cbn. rewrite !andb_true_iff. intros [? ?]. auto.
Qed.

(** Case analysis on [0 <= n < k], for a literal [k]. *)
Ltac each_below n k :=
  let Hin := fresh in
  assert (In n (seqZ 0 k)) as Hin by (apply list_elem_of_In, elem_of_seqZ; lia);
  vm_compute in Hin; repeat (destruct Hin as [<-|Hin]; [|]); [..|destruct Hin].

(** Digits. *)
Lemma digit_value_char n : (n < 10)%N -> digit_value (pretty_N_char n) = Some (Z.of_N n).
Proof.
  intros Hn. rewrite <- (N2Z.id n). assert (0 <= Z.of_N n < 10) as Hz by lia. revert Hz.
  generalize (Z.of_N n) as z. intros z Hz. by each_below z 10.
Qed.

Lemma parse_digits_go x : forall s, exists k, 0 < k /\
  forall acc, parse_digits acc (pretty_N_go x s) = parse_digits (acc * k + Z.of_N x) s.
Proof.
  induction (N.lt_wf_0 x) as [x _ IH]. intros s. destruct (decide (0 < x)%N) as [Hx|Hx].
  - rewrite pretty_N_go_step by done.
    destruct (IH (x `div` 10)%N ltac:(by apply N.div_lt) (String (pretty_N_char (x `mod` 10)) s)) as (k & Hk & Hd).
    exists (10 * k). split; [lia|]. intros acc. rewrite Hd. cbn [parse_digits].
    rewrite digit_value_char by (apply N.mod_lt; lia). cbn [mbind option_bind]. f_equal.
    pose proof (N.div_mod x 10 ltac:(lia)). lia.
  - assert (x = 0)%N as -> by lia. rewrite pretty_N_go_0. exists 1. split; [lia|]. intros acc. by replace (acc * 1 + Z.of_N 0) with acc by lia.
Qed.

Lemma parse_digits_N x : parse_digits 0 (pretty x) = Some (Z.of_N x).
Proof.
  unfold pretty, pretty_N. case_decide as Hx; [by subst|].
  by destruct (parse_digits_go x "") as (k & _ & ->).
Qed.

Lemma pretty_go_digits x s :
  all_chars is_digit s = true -> all_chars is_digit (pretty_N_go x s) = true.
Proof.
  revert s. induction (N.lt_wf_0 x) as [x _ IH]. intros s Hs. destruct (decide (0 < x)%N) as [Hx|Hx].
  - rewrite pretty_N_go_step by done. apply IH; [by apply N.div_lt|]. cbn [all_chars].
    apply andb_true_iff. split; [|done]. unfold is_digit.
    by rewrite digit_value_char by (apply N.mod_lt; lia).
  - assert (x = 0)%N as -> by lia. by rewrite pretty_N_go_0.
Qed.

Lemma pretty_N_digits (x : N) : all_chars is_digit (pretty x) = true.
Proof. unfold pretty, pretty_N. case_decide; [done|]. by apply pretty_go_digits. Qed.

Lemma pretty_N_nonempty (x : N) : pretty x <> "".
Proof.
  intros E. pose proof (parse_digits_N x) as Hp. rewrite E in Hp. injection Hp as Hp.
  assert (x = 0)%N as -> by lia. discriminate E.
Qed.

Lemma pretty_Z_pos (n : Z) : 0 <= n -> pretty n = pretty (Z.to_N n).
Proof. by destruct n. Qed.

Lemma pretty_Z_neg (n : Z) : n < 0 -> pretty n = "-" +:+ pretty (Z.to_N (- n)).
Proof. by destruct n. Qed.

Lemma pretty_N_head (x : N) : exists a s, pretty x = String a s /\ is_digit a = true.
Proof.
  pose proof (pretty_N_nonempty x) as Hne. pose proof (pretty_N_digits x) as Hd.
  destruct (pretty x) as [|a s]; [done|]. exists a, s. split; [done|].
  cbn in Hd. by apply andb_true_iff in Hd as [? _].
Qed.

(** What [parse] makes of what [format!] prints. *)
Lemma parse_u_pretty w n : in_u w n -> parse_u w (pretty n) = Some n.
Proof.
  intros Hn. assert (0 <= n) as H0 by (destruct Hn; lia). rewrite pretty_Z_pos by done.
  destruct (pretty_N_head (Z.to_N n)) as (a & s & E & Ha). pose proof (parse_digits_N (Z.to_N n)) as Hp.
  unfold parse_u. rewrite E in *. cbv zeta.
  destruct (bool_decide (a = "+"%char)) eqn:Ea; [apply bool_decide_eq_true in Ea; subst a; discriminate Ha|].
  case_bool_decide as Ep; [done|clear Ep]. rewrite Hp. cbn [mbind option_bind].
  rewrite Z2N.id by done. by rewrite (proj2 (in_ub_spec w n) Hn).
Qed.

Lemma read_number_pretty n : read_number (pretty n) = Some n.
Proof.
  destruct (decide (n < 0)) as [Hn|Hn].
  - rewrite pretty_Z_neg by done. change ("-" +:+ pretty (Z.to_N (- n))) with
      (String "-" (pretty (Z.to_N (- n)))). unfold read_number.
    case_bool_decide as Ep; [clear Ep|done]. case_bool_decide as Ep; [by apply pretty_N_nonempty in Ep|].
    rewrite parse_digits_N. cbn. f_equal. lia.
  - rewrite pretty_Z_pos by lia. destruct (pretty_N_head (Z.to_N n)) as (a & s & E & Ha).
    pose proof (parse_digits_N (Z.to_N n)) as Hp. rewrite E in *. unfold read_number.
    case_bool_decide as Ep; [subst a; discriminate Ha|]. rewrite Hp. f_equal. lia.
Qed.

(** The characters of a number. *)
Definition number_char (a : ascii) : bool := is_digit a || bool_decide (a = "-"%char).

Lemma pretty_number (n : Z) : all_chars number_char (pretty n) = true.
Proof.
  assert (forall x : N, all_chars number_char (pretty x) = true) as HN.
  { intros x. eapply all_chars_impl; [|apply pretty_N_digits]. intros a Ha. unfold number_char. by rewrite Ha. }
  destruct (decide (n < 0)); [rewrite pretty_Z_neg by done|rewrite pretty_Z_pos by lia; apply HN].
  rewrite all_chars_app, HN. done.
Qed.

Lemma number_not_lf a : number_char a = true -> not_lf a = true.
Proof. intros Ha. unfold not_lf. case_bool_decide as E; [|done]. by subst. Qed.

(** Lines. *)
Lemma split_lines_cons l s : all_chars not_lf l = true ->
  split_lines (l +:+ String LF s) = l :: split_lines s.
Proof.
  induction l as [|a l IH]; intros Hl; [done|]. cbn in Hl. apply andb_true_iff in Hl as [Ha Hl].
  rewrite append_cons. cbn [split_lines]. unfold not_lf in Ha. apply negb_true_iff in Ha. rewrite Ha.
  by rewrite IH.
Qed.

Lemma split_unlines ls : forallb (all_chars not_lf) ls = true -> split_lines (unlines ls) = ls.
Proof.
  induction ls as [|l ls IH]; intros Hl; [done|]. cbn in Hl. apply andb_true_iff in Hl as [Ha Hl].
  cbn [unlines]. by rewrite split_lines_cons, IH.
Qed.

(** Hexadecimal. *)
Lemma hex_digit_value n : 0 <= n < 16 -> forall acc s,
  parse_hex acc (String (hex_digit n) s) = parse_hex (16 * acc + n) s.
Proof.
  intros Hn acc s. by each_below n 16.
Qed.

Lemma parse_hex_go fuel : forall n s, 0 <= n < 16 ^ Z.of_nat fuel ->
  exists k, forall acc, parse_hex acc (hex_go fuel n s) = parse_hex (acc * k + n) s.
Proof.
  induction fuel as [|fuel IH]; intros n s Hn.
  { exists 1. intros acc. cbn [hex_go]. f_equal. change (16 ^ Z.of_nat 0) with 1 in Hn. lia. }
  cbn [hex_go]. pose proof (Z.mod_pos_bound n 16 ltac:(lia)) as Hm.
  destruct (n <? 16) eqn:E.
  - apply Z.ltb_lt in E. exists 16. intros acc. rewrite hex_digit_value by done. f_equal.
    rewrite Z.mod_small by lia. lia.
  - destruct (IH (n / 16) (String (hex_digit (n mod 16)) s)) as (k & Hk).
    { rewrite Nat2Z.inj_succ, Z.pow_succ_r in Hn by lia. split; [apply Z.div_pos; lia|].
      apply Z.div_lt_upper_bound; lia. }
    exists (16 * k). intros acc. rewrite Hk, hex_digit_value by done. f_equal.
    pose proof (Z.div_mod n 16 ltac:(lia)). lia.
Qed.

Lemma parse_hex_zeros k s : parse_hex 0 (fill k "0" s) = parse_hex 0 s.
Proof. induction k as [|k IH]; [done|exact IH]. Qed.

Lemma parse_hex08 n : in_u 64 n -> parse_hex 0 (hex08 n) = Some n.
Proof.
  intros Hn. unfold hex08. cbv zeta. rewrite parse_hex_zeros.
  destruct (parse_hex_go 16 n "") as (k & ->); [exact Hn|]. done.
Qed.

Lemma length_append s t : String.length (s +:+ t) = (String.length s + String.length t)%nat.
Proof. induction s as [|a s IH]; [done|]. rewrite append_cons. cbn. by rewrite IH. Qed.

Lemma length_fill n a s : String.length (fill n a s) = (n + String.length s)%nat.
Proof. induction n as [|n IH]; [done|]. cbn. by rewrite IH. Qed.

Lemma length_pad_left w s : String.length (pad_left w s) = (w `max` String.length s)%nat.
Proof. unfold pad_left. rewrite length_fill. lia. Qed.

Lemma length_pad_right w s : String.length (pad_right w s) = (w `max` String.length s)%nat.
Proof. unfold pad_right. rewrite length_append, length_fill. cbn. lia. Qed.
