(* ===== verification/Hex.v ===== *)
(** * Hex: hexadecimal text

    The [hex] crate is a parameter: an encoder, a decoder and their round trip.  [PlainHex]
    is a concrete one. *)

From S2P Require Export Prelude.
From Stdlib Require Import Strings.Byte Strings.Ascii.

Local Open Scope Z_scope.

(** [hex::encode] and [hex::decode]. *)
Class Hex := {
  hex_encode : bytes -> string;
  hex_decode : string -> option bytes;
}.

(** What is documented of them: decoding undoes encoding, and a byte is two digits. *)
Class HexLaws `{Hex} := {
  hex_decode_encode b : hex_decode (hex_encode b) = Some b;
  hex_encode_length b : String.length (hex_encode b) = (2 * length b)%nat;
}.

Module PlainHex.
Definition digit (n : nat) : ascii :=
  match String.get n "0123456789abcdef" with Some a => a | None => "0"%char end.
Definition value (a : ascii) : option nat :=
  let n := nat_of_ascii a in
  if ((48 <=? n) && (n <=? 57))%nat then Some (n - 48)%nat
  else if ((97 <=? n) && (n <=? 102))%nat then Some (n - 87)%nat
  else None.

Fixpoint encode (l : bytes) : string :=
  match l with
  | [] => EmptyString
  | b :: l =>
      let n := Z.to_nat (byte_to_Z b) in
      String (digit (n / 16)) (String (digit (n mod 16)) (encode l))
  end.
Fixpoint decode (s : string) : option bytes :=
  match s with
  | EmptyString => Some []
  | String a (String b s) =>
      x ← value a; y ← value b; l ← decode s;
      Some (Z_to_byte (Z.of_nat (16 * x + y)) :: l)
  | String _ EmptyString => None
  end.

Lemma decode_encode l : decode (encode l) = Some l.
Proof.
  induction l as [|b l IH]; [done|]. cbn [encode decode]. rewrite IH. by destruct b.
Qed.

Lemma encode_length l : String.length (encode l) = (2 * length l)%nat.
Proof. induction l as [|b l IH]; [done|]. cbn [encode String.length length]. lia. Qed.

#[export] Instance hex : Hex := { hex_encode := encode; hex_decode := decode }.
#[export] Instance hex_laws : HexLaws.
Proof. split; [exact decode_encode|exact encode_length]. Defined.
End PlainHex.
