(* ===== verification/Hashing.v ===== *)
(** * Hashing: domain-tagged digests (crates/core/src/hash.rs)

    The hash primitives of the [blake3] and [sha3] crates are the operations of the class
    [HashPrims]; the development relies on their output lengths and on the fact that a
    shorter XOF output is a prefix of a longer one.  Nothing assumes that a hash function
    is injective: a theorem that needs two digests to differ names the two preimages that
    would collide.  A streaming hasher is the list of the bytes it was fed. *)

From S2P Require Export Prelude.
From Stdlib Require Import Strings.Byte.

Local Open Scope Z_scope.

Class HashPrims := {
  blake3_xof : bytes -> nat -> bytes;
  shake256_xof : bytes -> nat -> bytes;
  sha3_512 : bytes -> bytes;
  length_blake3_xof m n : length (blake3_xof m n) = n;
  length_shake256_xof m n : length (shake256_xof m n) = n;
  length_sha3_512 m : length (sha3_512 m) = 64%nat;
  blake3_xof_prefix m n k : (n <= k)%nat -> take n (blake3_xof m k) = blake3_xof m n;
}.

(** [Hasher::finalize().as_bytes()]: the first 32 bytes of the XOF. *)
Definition blake3 `{HashPrims} (m : bytes) : bytes := blake3_xof m 32.

Inductive HashAlgo := Blake3Xof512 | Shake256 | Sha3_512.

#[export] Instance HashAlgo_eq_dec : EqDecision HashAlgo.
Proof. solve_decision. Defined.

(** The [repr(u8)] discriminants. *)
Definition HashAlgo_as_u8 (a : HashAlgo) : Z :=
  match a with Blake3Xof512 => 1 | Shake256 => 2 | Sha3_512 => 3 end.

Definition HashAlgo_from_byte (b : Z) : option HashAlgo :=
  if b =? 1 then Some Blake3Xof512
  else if b =? 2 then Some Shake256
  else if b =? 3 then Some Sha3_512
  else None.

Definition domain_tag (domain : bytes) : bytes := [x50] ++ [x47] ++ domain ++ [x00].

Definition hash_with_domain `{HashPrims} (algo : HashAlgo) (domain m : bytes) : bytes :=
  let tag := domain_tag domain in
  match algo with
  | Blake3Xof512 => blake3_xof (tag ++ m) 64
  | Shake256 => shake256_xof (tag ++ m) 64
  | Sha3_512 => sha3_512 (tag ++ m)
  end.

Definition truncate_to_32 (d : bytes) : bytes := take 32 d.

(** Two specific messages that break the collision resistance of Blake3. *)
Definition blake3_collision `{HashPrims} (m1 m2 : bytes) : Prop :=
  m1 <> m2 /\ blake3 m1 = blake3 m2.

(** ** Laws *)

Section laws.
Context `{HashPrims}.

Lemma length_blake3 m : length (blake3 m) = 32%nat.
Proof. apply length_blake3_xof. Qed.

Lemma HashAlgo_from_byte_as_u8 a : HashAlgo_from_byte (HashAlgo_as_u8 a) = Some a.
Proof. by destruct a. Qed.

Lemma HashAlgo_from_byte_Some b a :
  HashAlgo_from_byte b = Some a <-> b = HashAlgo_as_u8 a.
Proof.
  unfold HashAlgo_from_byte.
  destruct (Z.eqb_spec b 1), (Z.eqb_spec b 2), (Z.eqb_spec b 3);
    destruct a; cbn; split; intros; subst; try done; simplify_eq; lia.
Qed.

Lemma length_hash_with_domain a d m : length (hash_with_domain a d m) = 64%nat.
Proof.
  destruct a; cbn; [apply length_blake3_xof|apply length_shake256_xof
                   |apply length_sha3_512].
Qed.

Lemma length_truncate_to_32 d : (32 <= length d)%nat -> length (truncate_to_32 d) = 32%nat.
Proof. intros Hd. unfold truncate_to_32. rewrite length_take. lia. Qed.

(** The tag separates domains that hold no NUL byte. *)
Lemma domain_tag_inj d1 d2 m1 m2 :
  x00 ∉ d1 -> x00 ∉ d2 ->
  domain_tag d1 ++ m1 = domain_tag d2 ++ m2 -> d1 = d2 /\ m1 = m2.
Proof.
  intros H1 H2 E. unfold domain_tag in E. cbn in E. injection E as E.
  rewrite <- !app_assoc in E. cbn in E. revert d2 H2 E.
  induction d1 as [|a d1 IH]; intros [|b d2] H2 E; cbn in E; injection E.
  - intros ->. done.
  - intros _ <-. set_solver.
  - intros _ ->. set_solver.
  - intros E' ->. destruct (IH ltac:(set_solver) d2 ltac:(set_solver) E') as [-> ->]. done.
Qed.

(** Equal digests come from equal messages, or the two messages collide. *)
Lemma blake3_inj_or m1 m2 :
  blake3 m1 = blake3 m2 -> m1 = m2 \/ blake3_collision m1 m2.
Proof. intros E. destruct (decide (m1 = m2)); [by left|by right]. Qed.
End laws.

(** ** A concrete instance

    A polynomial checksum modulo a prime, for the examples that evaluate the model on
    concrete inputs. *)
Module Checksum.
Definition poly (m : bytes) : Z :=
  foldl (fun acc b => (acc * 257 + byte_to_Z b + 1) mod 2305843009213693951) 0 m.

Lemma take_le_bytes n k z : (n <= k)%nat -> take n (le_bytes k z) = le_bytes n z.
Proof.
  revert k z; induction n as [|n IH]; intros [|k] z Hnk; try done; [lia|].
  rewrite !le_bytes_S. cbn [take]. f_equal. apply IH. lia.
Qed.

#[export] Program Instance prims : HashPrims := {
  blake3_xof m n := le_bytes n (poly m);
  shake256_xof m n := le_bytes n (poly (m ++ [x01]));
  sha3_512 m := le_bytes 64 (poly (m ++ [x02]));
}.
Next Obligation. intros. apply length_le_bytes. Qed.
Next Obligation. intros. apply length_le_bytes. Qed.
Next Obligation. intros. apply length_le_bytes. Qed.
Next Obligation. intros. by apply take_le_bytes. Qed.
End Checksum.
