(* ===== verification/Address.v ===== *)
(** * Address: account identifiers (crates/core/src/address.rs)

    An [AccountId] is its 20 bytes.  The [bech32] crate is the class [Bech32], of which the
    code needs that encoding 20 bytes under the prefix [pyg] succeeds and decodes back. *)

From S2P Require Export Hashing.
From Stdlib Require Import Strings.Byte.

Abbreviation AccountId := bytes (only parsing).

Definition ACCOUNT_ID_LEN : nat := 20.
Definition ADDRESS_HRP : string := "pyg".
Definition ACCOUNT_DERIVE_TAG : bytes := ascii_bytes "PGaddr" ++ [x00].

Definition account_ok (a : AccountId) : bool := is_array ACCOUNT_ID_LEN a.

(** [AccountId::ZERO] *)
Definition AccountId_ZERO : AccountId := replicate ACCOUNT_ID_LEN x00.

Inductive AddressError :=
| AddrDecode (msg : string)
| AddrWrongHrp (hrp : string)
| AddrWrongLength (n : nat).

Class Bech32 := {
  (** [bech32::encode::<Bech32m>] under a prefix. *)
  bech32_encode : string -> bytes -> option string;
  (** [bech32::decode]: the prefix and the data, or the error text. *)
  bech32_decode : string -> outcome string (string * bytes);
  bech32_roundtrip data : length data = ACCOUNT_ID_LEN ->
    exists s, bech32_encode ADDRESS_HRP data = Some s /\
              bech32_decode s = Ok (ADDRESS_HRP, data);
  (** The decoder returns a [Result]. *)
  bech32_decode_total s : bech32_decode s <> Panic;
}.

Definition from_pubkey `{HashPrims} (pubkey_bytes : bytes) : AccountId :=
  take ACCOUNT_ID_LEN (blake3 (ACCOUNT_DERIVE_TAG ++ pubkey_bytes)).

Definition pad_to_32 (id : AccountId) : bytes := id ++ replicate 12 x00.

Definition from_coinbase (coinbase : bytes) : AccountId := take ACCOUNT_ID_LEN coinbase.

Definition to_bech32 {E} `{Bech32} (id : AccountId) : outcome E string :=
  expect (bech32_encode ADDRESS_HRP id).

Definition from_bech32 `{Bech32} (s : string) : outcome AddressError AccountId :=
  '(hrp, data) ← map_err AddrDecode (bech32_decode s);
  if decide (hrp <> ADDRESS_HRP) then Err (AddrWrongHrp hrp)
  else if decide (length data <> ACCOUNT_ID_LEN) then Err (AddrWrongLength (length data))
  else Ok data.

Lemma account_ok_spec a : account_ok a = true <-> length a = ACCOUNT_ID_LEN.
Proof. apply is_array_spec. Qed.

Section laws.
Context `{HashPrims} `{Bech32}.

Lemma length_from_pubkey pk : length (from_pubkey pk) = ACCOUNT_ID_LEN.
Proof. unfold from_pubkey. rewrite length_take, length_blake3. done. Qed.

Lemma from_coinbase_pad id : length id = ACCOUNT_ID_LEN -> from_coinbase (pad_to_32 id) = id.
Proof. intros Hl. unfold from_coinbase, pad_to_32. by apply take_app_length'. Qed.

Lemma length_pad_to_32 id : length id = ACCOUNT_ID_LEN -> length (pad_to_32 id) = 32%nat.
Proof. intros Hl. unfold pad_to_32. by rewrite length_app, Hl, length_replicate. Qed.

Lemma length_from_coinbase c : length c = 32%nat -> length (from_coinbase c) = ACCOUNT_ID_LEN.
Proof. intros Hl. unfold from_coinbase. by rewrite length_take, Hl. Qed.

Lemma from_bech32_Ok s id :
  from_bech32 s = Ok id <->
  bech32_decode s = Ok (ADDRESS_HRP, id) /\ length id = ACCOUNT_ID_LEN.
Proof.
  unfold from_bech32. rewrite outcome_bind_Ok. setoid_rewrite map_err_Ok. split.
  - intros ([hrp data] & Hd & Hr).
    destruct (decide (hrp <> ADDRESS_HRP)) as [|Hh]; [done|].
    apply dec_stable in Hh as ->.
    destruct (decide (length data <> ACCOUNT_ID_LEN)) as [|Hl]; [done|].
    apply dec_stable in Hl.
    by simplify_eq.
  - intros [Hd Hl]. eexists. split; [exact Hd|].
    cbv beta iota. rewrite !decide_False by (intros []; done). done.
Qed.

(** [to_bech32] never panics on an account id and decodes back to it. *)
Lemma bech32_address_roundtrip {E} id :
  length id = ACCOUNT_ID_LEN ->
  exists s, to_bech32 (E:=E) id = Ok s /\ from_bech32 s = Ok id.
Proof.
  intros Hl. destruct (bech32_roundtrip id Hl) as (s & He & Hd).
  exists s. split; [unfold to_bech32; by rewrite He|]. by apply from_bech32_Ok.
Qed.
End laws.

(** ** A concrete instance: the prefix followed by the bytes as characters. *)
Module Plain32.
#[export] Program Instance prims : Bech32 := {
  bech32_encode hrp data := Some (String.string_of_list_byte (ascii_bytes hrp ++ data));
  bech32_decode s :=
    let b := String.list_byte_of_string s in
    if decide (take 3 b = ascii_bytes "pyg") then Ok ("pyg"%string, drop 3 b)
    else Err "malformed"%string;
}.
Next Obligation.
  intros data _. eexists. split; [reflexivity|].
  rewrite String.list_byte_of_string_of_list_byte. reflexivity.
Qed.
Next Obligation. intros s. cbn. by destruct (decide _). Qed.
End Plain32.
