(* ===== verification/Tx.v ===== *)
(** * Tx: transactions, witnesses, blocks and their hashes
    (crates/core/src/tx.rs, crates/core/src/block.rs)

    A hasher is the bytes fed to it so far, so [hash_call h c] appends the canonical encoding
    of [c], as the code does, and every digest of the file is [blake3] of an explicit
    preimage.  The encodings are prefix-free up to what they leave out on purpose: the
    governance proofs and the order of a coordinator list. *)

From S2P Require Export Address.
From Stdlib Require Import Strings.Byte.

Local Open Scope Z_scope.

(** ** Data *)

Inductive SigAlgo := Falcon512 | SlhDsa128s | Ed25519 | MlDsa65.

#[export] Instance SigAlgo_eq_dec : EqDecision SigAlgo.
Proof. solve_decision. Defined.

Definition SigAlgo_as_u8 (a : SigAlgo) : Z :=
  match a with Falcon512 => 1 | SlhDsa128s => 2 | Ed25519 => 3 | MlDsa65 => 4 end.

Definition SigAlgo_from_byte (b : Z) : option SigAlgo :=
  if b =? 1 then Some Falcon512
  else if b =? 2 then Some SlhDsa128s
  else if b =? 3 then Some Ed25519
  else if b =? 4 then Some MlDsa65
  else None.

Inductive PubKeyRef :=
| Known (id : AccountId)
| Inline (pk : bytes).

Inductive TxCall :=
| Transfer (to : AccountId) (amount : Z)
| DeployContract (code_ref init_args : bytes)
| CallContract (contract : AccountId) (method args : bytes)
| UpgradeCrypto (target_height sig_algo hash_algo : Z) (gov_proof : bytes)
| AttestRound (job_id : bytes) (round_id : Z) (model_hash : bytes) (dp_epsilon_milli : Z)
| RegisterAttestCoordinator (job_id : bytes) (coordinators : list AccountId)
    (gov_proof : bytes)
| SetGovernance (config_cbor gov_proof : bytes)
| AttestPedigree (job_id lot_id supplier cage_code attestation_authority : bytes).

Record TxBody := {
  tx_nonce : Z;
  tx_from_account : AccountId;
  tx_call : TxCall;
  tx_fee_sat : Z;
  tx_gas_limit : Z;
  tx_witness_hash : bytes;
}.

Record Witness := {
  wit_sig_algo : Z;
  wit_sig : bytes;
  wit_pubkey : PubKeyRef;
}.

Record BlockHeader := {
  bh_version : Z;
  bh_height : Z;
  bh_parent : bytes;
  bh_timestamp_ms : Z;
  bh_bits : Z;
  bh_nonce : Z;
  bh_tx_root : bytes;
  bh_witness_root : bytes;
  bh_state_root : bytes;
  bh_reflect_root : bytes;
  bh_coinbase : bytes;
  bh_sig_algo : Z;
  bh_hash_algo : Z;
}.

Record BlockBody := {
  body_txs : list TxBody;
  body_witnesses : list Witness;
}.

Record Block := {
  blk_header : BlockHeader;
  blk_body : BlockBody;
}.

#[export] Instance PubKeyRef_eq_dec : EqDecision PubKeyRef.
Proof. solve_decision. Defined.
#[export] Instance TxCall_eq_dec : EqDecision TxCall.
Proof. solve_decision. Defined.
#[export] Instance TxBody_eq_dec : EqDecision TxBody.
Proof. solve_decision. Defined.
#[export] Instance Witness_eq_dec : EqDecision Witness.
Proof. solve_decision. Defined.
#[export] Instance BlockHeader_eq_dec : EqDecision BlockHeader.
Proof. solve_decision. Defined.
#[export] Instance BlockBody_eq_dec : EqDecision BlockBody.
Proof. solve_decision. Defined.
#[export] Instance Block_eq_dec : EqDecision Block.
Proof. solve_decision. Defined.

(** ** The values the Rust types hold *)

(** Well-formed UTF-8, the invariant of a Rust [String]. *)
Fixpoint utf8_valid (l : bytes) : bool :=
  let within lo hi b := (lo <=? byte_to_Z b) && (byte_to_Z b <=? hi) in
  let cont := within 128 191 in
  match l with
  | [] => true
  | a :: l1 =>
      if within 0 127 a then utf8_valid l1
      else match l1 with
      | [] => false
      | b :: l2 =>
          if within 194 223 a then cont b && utf8_valid l2
          else match l2 with
          | [] => false
          | c :: l3 =>
              if within 224 239 a then
                (if within 224 224 a then within 160 191 b
                 else if within 237 237 a then within 128 159 b
                 else cont b) && cont c && utf8_valid l3
              else match l3 with
              | [] => false
              | d :: l4 =>
                  within 240 244 a &&
                  (if within 240 240 a then within 144 191 b
                   else if within 244 244 a then within 128 143 b
                   else cont b) && cont c && cont d && utf8_valid l4
              end
          end
      end
  end.

#[export] Instance typed_PubKeyRef : Typed PubKeyRef := fun p =>
  match p with Known id => account_ok id | Inline _ => true end.

#[export] Instance typed_TxCall : Typed TxCall := fun c =>
  match c with
  | Transfer to amount => account_ok to && in_ub 128 amount
  | DeployContract code_ref _ => is_array 32 code_ref
  | CallContract contract method _ => account_ok contract && utf8_valid method
  | UpgradeCrypto h s a _ => in_ub 64 h && in_ub 8 s && in_ub 8 a
  | AttestRound j r m d => is_array 32 j && in_ub 64 r && is_array 32 m && in_ub 32 d
  | RegisterAttestCoordinator j cs _ => is_array 32 j && forallb account_ok cs
  | SetGovernance _ _ => true
  | AttestPedigree j l s c a =>
      is_array 32 j && is_array 16 l && is_array 32 s && is_array 5 c && is_array 32 a
  end.

#[export] Instance typed_TxBody : Typed TxBody := fun t =>
  in_ub 64 (tx_nonce t) && account_ok (tx_from_account t) && typed (tx_call t) &&
  in_ub 64 (tx_fee_sat t) && in_ub 32 (tx_gas_limit t) && is_array 32 (tx_witness_hash t).

#[export] Instance typed_Witness : Typed Witness := fun w =>
  in_ub 8 (wit_sig_algo w) && typed (wit_pubkey w).

#[export] Instance typed_BlockHeader : Typed BlockHeader := fun h =>
  in_ub 32 (bh_version h) && in_ub 64 (bh_height h) && is_array 32 (bh_parent h) &&
  in_ub 64 (bh_timestamp_ms h) && in_ub 32 (bh_bits h) && in_ub 64 (bh_nonce h) &&
  is_array 32 (bh_tx_root h) && is_array 32 (bh_witness_root h) &&
  is_array 32 (bh_state_root h) && is_array 32 (bh_reflect_root h) &&
  is_array 32 (bh_coinbase h) && in_ub 8 (bh_sig_algo h) && in_ub 8 (bh_hash_algo h).

#[export] Instance typed_BlockBody : Typed BlockBody := fun b =>
  typed (body_txs b) && typed (body_witnesses b).

#[export] Instance typed_Block : Typed Block := fun b =>
  typed (blk_header b) && typed (blk_body b).

(** ** Hashes *)

(** [(x.len() as u32).to_le_bytes()] *)
Definition len_u32_le {A} (x : list A) : bytes := le_bytes 4 (Z.of_nat (length x)).

(** What [Witness::hash] feeds the hasher. *)
Definition witness_preimage (w : Witness) : bytes :=
  ascii_bytes "PGwit" ++ [x00] ++ le_bytes 1 (wit_sig_algo w) ++
  len_u32_le (wit_sig w) ++ wit_sig w ++
  match wit_pubkey w with
  | Known id => [x00] ++ id
  | Inline pk => [x01] ++ len_u32_le pk ++ pk
  end.

(** [Witness::hash] *)
Definition witness_hash `{HashPrims} (w : Witness) : bytes := blake3 (witness_preimage w).

Definition hash_call (h : bytes) (call : TxCall) : bytes :=
  match call with
  | Transfer to amount => h ++ [x00] ++ to ++ le_bytes 16 amount
  | DeployContract code_ref init_args =>
      h ++ [x01] ++ code_ref ++ len_u32_le init_args ++ init_args
  | CallContract contract method args =>
      h ++ [x02] ++ contract ++ len_u32_le method ++ method ++ len_u32_le args ++ args
  | UpgradeCrypto target_height sig_algo hash_algo _ =>
      h ++ [x03] ++ le_bytes 8 target_height ++ le_bytes 1 sig_algo ++ le_bytes 1 hash_algo
  | AttestRound job_id round_id model_hash dp =>
      h ++ [x04] ++ job_id ++ le_bytes 8 round_id ++ model_hash ++ le_bytes 4 dp
  | RegisterAttestCoordinator job_id coordinators _ =>
      h ++ [x05] ++ job_id ++ len_u32_le coordinators ++ concat (sort_bytes coordinators)
  | AttestPedigree job_id lot_id supplier cage_code authority =>
      h ++ [x06] ++ job_id ++ lot_id ++ supplier ++ cage_code ++ authority
  | SetGovernance config_cbor _ => h ++ [x07] ++ len_u32_le config_cbor ++ config_cbor
  end.

Definition signing_preimage (t : TxBody) : bytes :=
  let h := ascii_bytes "PGtxsign" ++ [x00] in
  let h := h ++ le_bytes 8 (tx_nonce t) in
  let h := h ++ tx_from_account t in
  let h := hash_call h (tx_call t) in
  h ++ le_bytes 8 (tx_fee_sat t).

(** [TxBody::signing_hash] *)
Definition signing_hash `{HashPrims} (t : TxBody) : bytes := blake3 (signing_preimage t).

Definition body_preimage (t : TxBody) : bytes :=
  let h := ascii_bytes "PGtxbody" ++ [x00] in
  let h := h ++ le_bytes 8 (tx_nonce t) in
  let h := h ++ tx_from_account t in
  let h := hash_call h (tx_call t) in
  let h := h ++ le_bytes 8 (tx_fee_sat t) in
  let h := h ++ le_bytes 4 (tx_gas_limit t) in
  h ++ tx_witness_hash t.

(** [TxBody::body_hash] *)
Definition body_hash `{HashPrims} (t : TxBody) : bytes := blake3 (body_preimage t).

Definition vec_root_preimage (domain : bytes) (leaves : list bytes) : bytes :=
  domain ++ len_u32_le leaves ++ concat leaves.

Definition vec_root `{HashPrims} (domain : bytes) (leaves : list bytes) : bytes :=
  blake3 (vec_root_preimage domain leaves).

(** [BlockBody::tx_root], [BlockBody::witness_root] *)
Definition tx_root `{HashPrims} (b : BlockBody) : bytes :=
  vec_root (ascii_bytes "PGtxroot" ++ [x00]) (body_hash <$> body_txs b).

Definition witness_root `{HashPrims} (b : BlockBody) : bytes :=
  vec_root (ascii_bytes "PGwitroot" ++ [x00]) (witness_hash <$> body_witnesses b).

(** ** What the hashes identify *)

(** Calls that differ only in a governance proof or in the order of a coordinator list. *)
Definition call_equiv (c1 c2 : TxCall) : Prop :=
  match c1, c2 with
  | UpgradeCrypto h1 s1 a1 _, UpgradeCrypto h2 s2 a2 _ => h1 = h2 /\ s1 = s2 /\ a1 = a2
  | RegisterAttestCoordinator j1 cs1 _, RegisterAttestCoordinator j2 cs2 _ =>
      j1 = j2 /\ cs1 ≡ₚ cs2
  | SetGovernance g1 _, SetGovernance g2 _ => g1 = g2
  | _, _ => c1 = c2
  end.

Definition same_signed (t1 t2 : TxBody) : Prop :=
  tx_nonce t1 = tx_nonce t2 /\ tx_from_account t1 = tx_from_account t2 /\
  call_equiv (tx_call t1) (tx_call t2) /\ tx_fee_sat t1 = tx_fee_sat t2.

Definition same_body (t1 t2 : TxBody) : Prop :=
  same_signed t1 t2 /\ tx_gas_limit t1 = tx_gas_limit t2 /\
  tx_witness_hash t1 = tx_witness_hash t2.

(** Every variable-size field fits its 4-byte length prefix. *)
Definition fits_u32 {A} (l : list A) : bool := Z.of_nat (length l) <? 2 ^ 32.

Definition call_sized (c : TxCall) : bool :=
  match c with
  | DeployContract _ args => fits_u32 args
  | CallContract _ method args => fits_u32 method && fits_u32 args
  | RegisterAttestCoordinator _ cs _ => fits_u32 cs
  | SetGovernance config _ => fits_u32 config
  | _ => true
  end.

Definition witness_sized (w : Witness) : bool :=
  fits_u32 (wit_sig w) &&
  match wit_pubkey w with Known _ => true | Inline pk => fits_u32 pk end.

Section encoding.
Lemma hash_call_app h c : hash_call h c = h ++ hash_call [] c.
Proof. by destruct c. Qed.

#[global] Instance call_equiv_equivalence : Equivalence call_equiv.
Proof.
  split.
  - intros []; cbn; auto.
  - intros [] []; cbn; try congruence; intros; destruct_and?; subst; auto.
    by split.
  - intros [] [] []; cbn; try congruence; intros; destruct_and?; subst; auto.
    split; [done|]. by etrans.
Qed.

#[global] Instance same_signed_equivalence : Equivalence same_signed.
Proof.
  split; unfold same_signed; red; intros.
  - repeat split; reflexivity.
  - destruct_and!. repeat split; by symmetry.
  - destruct_and!. repeat split; by etrans.
Qed.

#[global] Instance same_body_equivalence : Equivalence same_body.
Proof.
  split; unfold same_body; red.
  - done.
  - intros ?? (H1 & H2 & H3). by split; [symmetry|].
  - intros ??? (H1 & H2 & H3) (H4 & H5 & H6).
    split; [by etrans|]. split; congruence.
Qed.

#[global] Instance hash_call_proper h : Proper (call_equiv ==> eq) (hash_call h).
Proof.
  intros [] []; cbn; try congruence; intros; destruct_and?; subst; auto.
  match goal with HP : _ ≡ₚ _ |- _ =>
    unfold len_u32_le; rewrite (Permutation_length HP);
    by apply sort_bytes_canonical in HP as -> end.
Qed.

#[global] Instance signing_preimage_proper : Proper (same_signed ==> eq) signing_preimage.
Proof.
  intros t1 t2 (En & Ef & Ec & Es). unfold signing_preimage. cbv zeta.
  by rewrite En, Ef, Ec, Es.
Qed.

#[global] Instance body_preimage_proper : Proper (same_body ==> eq) body_preimage.
Proof.
  intros t1 t2 ((En & Ef & Ec & Es) & Eg & Ew). unfold body_preimage. cbv zeta.
  by rewrite En, Ef, Ec, Es, Eg, Ew.
Qed.

Lemma len_u32_field_inj {A} (l1 l2 : list A) k1 k2 :
  fits_u32 l1 = true -> fits_u32 l2 = true ->
  len_u32_le l1 ++ k1 = len_u32_le l2 ++ k2 -> length l1 = length l2 /\ k1 = k2.
Proof.
  unfold fits_u32, len_u32_le. rewrite !Z.ltb_lt. intros H1 H2 H.
  apply le_field_inj in H as [Hl ->]; [split; [lia|done]|..]; cbn; unfold in_u; lia.
Qed.

Lemma len_u32_bytes_inj (l1 l2 k1 k2 : bytes) :
  fits_u32 l1 = true -> fits_u32 l2 = true ->
  len_u32_le l1 ++ l1 ++ k1 = len_u32_le l2 ++ l2 ++ k2 -> l1 = l2 /\ k1 = k2.
Proof.
  intros H1 H2 H. apply len_u32_field_inj in H as [Hl H]; [|done..].
  by apply app_inv_length.
Qed.

Lemma len_u32_last_inj (l1 l2 : bytes) :
  fits_u32 l1 = true -> fits_u32 l2 = true ->
  len_u32_le l1 ++ l1 = len_u32_le l2 ++ l2 -> l1 = l2.
Proof. intros H1 H2 H. by apply len_u32_field_inj in H as [_ ->]. Qed.
End encoding.

(** Reads the fields of [H : encoding ++ rest = encoding' ++ rest'] from the left. *)
Ltac read_fields H :=
  repeat rewrite <- ?app_assoc in H; cbn [app] in H;
  repeat first
  [ let E := fresh "Efld" in
    first
    [ apply le_field_inj in H as [E H]; [|done|done]
    | apply len_u32_bytes_inj in H as [E H]; [|done|done]
    | apply len_u32_field_inj in H as [E H]; [|done|done]
    | apply app_inv_length in H as [E H]; [|congruence]
    | apply cons_eq_inv in H as [E H] ] ].

Section injectivity.
Lemma sorted_ids_fixed (ids : list AccountId) :
  (forall x, x ∈ ids -> account_ok x = true) ->
  Forall (fun x => length x = ACCOUNT_ID_LEN) (sort_bytes ids).
Proof.
  intros Hids. apply Forall_elem. intros x Hx.
  rewrite sort_bytes_perm in Hx. apply account_ok_spec. auto.
Qed.

Lemma sorted_ids_inj (ids1 ids2 : list AccountId) k1 k2 :
  (forall x, x ∈ ids1 -> account_ok x = true) ->
  (forall x, x ∈ ids2 -> account_ok x = true) ->
  length ids1 = length ids2 ->
  concat (sort_bytes ids1) ++ k1 = concat (sort_bytes ids2) ++ k2 ->
  ids1 ≡ₚ ids2 /\ k1 = k2.
Proof.
  intros H1 H2 Hl H.
  apply sorted_ids_fixed in H1. apply sorted_ids_fixed in H2.
  apply app_inv_length in H as [Ec ->].
  - split; [|done]. apply sort_bytes_canonical.
    eapply concat_fixed_inj; [exact H1|exact H2| |exact Ec].
    by rewrite !length_sort_bytes.
  - rewrite !(length_concat_fixed ACCOUNT_ID_LEN), !length_sort_bytes by done. by rewrite Hl.
Qed.

Lemma hash_call_inj c1 c2 k1 k2 :
  typed c1 = true -> typed c2 = true -> call_sized c1 = true -> call_sized c2 = true ->
  hash_call [] c1 ++ k1 = hash_call [] c2 ++ k2 -> call_equiv c1 c2 /\ k1 = k2.
Proof.
  intros T1 T2 S1 S2 H.
  destruct c1, c2; try discriminate H; cbn in H; typed_props;
    rewrite ?account_ok_spec in *; read_fields H; try (subst; auto; fail).
  apply sorted_ids_inj in H as [Hp ->]; auto.
Qed.

Lemma signing_prefix_inj d t1 t2 k1 k2 :
  typed t1 = true -> typed t2 = true ->
  call_sized (tx_call t1) = true -> call_sized (tx_call t2) = true ->
  hash_call ((d ++ le_bytes 8 (tx_nonce t1)) ++ tx_from_account t1) (tx_call t1) ++
    le_bytes 8 (tx_fee_sat t1) ++ k1 =
  hash_call ((d ++ le_bytes 8 (tx_nonce t2)) ++ tx_from_account t2) (tx_call t2) ++
    le_bytes 8 (tx_fee_sat t2) ++ k2 ->
  same_signed t1 t2 /\ k1 = k2.
Proof.
  intros T1 T2 S1 S2 H. rewrite !(hash_call_app (_ ++ _)) in H.
  unfold typed, typed_TxBody in T1, T2. rewrite !andb_true_iff in T1, T2.
  destruct_and!. rewrite ?account_ok_spec, ?in_ub_spec in *.
  rewrite <- !app_assoc in H. apply app_inv_head in H.
  apply le_field_inj in H as [? H]; [|done..].
  apply app_inv_length in H as [? H]; [|congruence].
  apply hash_call_inj in H as [? H]; [|done..].
  apply le_field_inj in H as [? ->]; [|done..]. by repeat split.
Qed.

(** The bytes a sender signs identify the transaction up to [same_signed]. *)
Lemma signing_preimage_inj t1 t2 :
  typed t1 = true -> typed t2 = true ->
  call_sized (tx_call t1) = true -> call_sized (tx_call t2) = true ->
  signing_preimage t1 = signing_preimage t2 -> same_signed t1 t2.
Proof.
  intros T1 T2 S1 S2 H. unfold signing_preimage in H. cbv zeta in H.
  rewrite <- (app_nil_r (le_bytes 8 (tx_fee_sat t1))),
    <- (app_nil_r (le_bytes 8 (tx_fee_sat t2))) in H.
  by apply signing_prefix_inj in H as [? _].
Qed.

Lemma body_preimage_inj t1 t2 :
  typed t1 = true -> typed t2 = true ->
  call_sized (tx_call t1) = true -> call_sized (tx_call t2) = true ->
  body_preimage t1 = body_preimage t2 -> same_body t1 t2.
Proof.
  intros T1 T2 S1 S2 H. unfold body_preimage in H. cbv zeta in H.
  rewrite <- 2!(app_assoc (hash_call _ _)) in H.
  rewrite <- 2!(app_assoc (hash_call _ (tx_call t2))) in H.
  rewrite <- (app_assoc (le_bytes 8 (tx_fee_sat t1))),
    <- (app_assoc (le_bytes 8 (tx_fee_sat t2))) in H.
  apply signing_prefix_inj in H as [Hs H]; [|done..].
  unfold typed, typed_TxBody in T1, T2. rewrite !andb_true_iff in T1, T2.
  destruct_and!. rewrite ?in_ub_spec in *.
  apply le_field_inj in H as [? H]; [|done..]. split; [done|]. by split.
Qed.

Lemma typed_witness_key w id : typed w = true -> wit_pubkey w = Known id ->
  length id = ACCOUNT_ID_LEN.
Proof.
  unfold typed, typed_Witness. rewrite andb_true_iff. intros [_ H] E.
  rewrite E in H. by apply account_ok_spec in H.
Qed.

Lemma witness_preimage_inj w1 w2 :
  typed w1 = true -> typed w2 = true ->
  witness_sized w1 = true -> witness_sized w2 = true ->
  witness_preimage w1 = witness_preimage w2 -> w1 = w2.
Proof.
  intros T1 T2 S1 S2 H. unfold witness_preimage in H.
  apply app_inv_head in H. apply app_inv_head in H.
  destruct w1 as [a1 s1 p1], w2 as [a2 s2 p2].
  unfold witness_sized in S1, S2. cbn in *. rewrite andb_true_iff in S1, S2.
  unfold typed, typed_Witness in T1, T2. rewrite andb_true_iff, in_ub_spec in T1, T2.
  destruct_and!. cbn in *.
  apply le_field_inj in H as [-> H]; [|done..].
  apply len_u32_bytes_inj in H as [-> H]; [|done..].
  destruct p1, p2; cbn in H; try discriminate H;
    apply cons_eq_inv in H as [_ H].
  - by subst.
  - by apply len_u32_last_inj in H as ->.
Qed.
End injectivity.

(** ** Binding of the block roots *)

(** The messages that the two roots of a block hash. *)
Definition tx_root_messages `{HashPrims} (b : BlockBody) : list bytes :=
  vec_root_preimage (ascii_bytes "PGtxroot" ++ [x00]) (body_hash <$> body_txs b)
    :: (body_preimage <$> body_txs b).

Definition witness_root_messages `{HashPrims} (b : BlockBody) : list bytes :=
  vec_root_preimage (ascii_bytes "PGwitroot" ++ [x00]) (witness_hash <$> body_witnesses b)
    :: (witness_preimage <$> body_witnesses b).

(** Some message of the first list collides with one of the second. *)
Definition collision_among `{HashPrims} (ms1 ms2 : list bytes) : Prop :=
  exists m1 m2, m1 ∈ ms1 /\ m2 ∈ ms2 /\ blake3_collision m1 m2.

Definition body_sized (b : BlockBody) : bool :=
  fits_u32 (body_txs b) && fits_u32 (body_witnesses b) &&
  forallb (fun t => call_sized (tx_call t)) (body_txs b) &&
  forallb witness_sized (body_witnesses b).

Section binding.
Context `{HashPrims}.

Lemma vec_root_preimage_inj d l1 l2 :
  Forall (fun x => length x = 32%nat) l1 -> Forall (fun x => length x = 32%nat) l2 ->
  fits_u32 l1 = true -> fits_u32 l2 = true ->
  vec_root_preimage d l1 = vec_root_preimage d l2 -> l1 = l2.
Proof.
  intros F1 F2 S1 S2 E. unfold vec_root_preimage in E.
  apply app_inv_head in E. apply len_u32_field_inj in E as [Hl E]; [|done..].
  by eapply concat_fixed_inj.
Qed.

Lemma length_map_blake3 {A} (f : A -> bytes) (l : list A) :
  Forall (fun x => length x = 32%nat) ((fun a => blake3 (f a)) <$> l).
Proof. apply Forall_fmap, Forall_true. intros x. apply length_blake3. Qed.

Lemma leaves_bind {A} (R : A -> A -> Prop) (f : A -> bytes) (l1 l2 : list A) :
  (forall a b, a ∈ l1 -> b ∈ l2 -> f a = f b -> R a b) ->
  (fun a => blake3 (f a)) <$> l1 = (fun a => blake3 (f a)) <$> l2 ->
  Forall2 R l1 l2 \/ collision_among (f <$> l1) (f <$> l2).
Proof.
  revert l2; induction l1 as [|a l1 IH]; intros [|b l2] HR E; try discriminate; [by left|].
  cbn in E. apply cons_eq_inv in E as [E1 E2].
  destruct (blake3_inj_or _ _ E1) as [Ef|Hc].
  2:{ right. exists (f a), (f b). split_and!; [by left|by left|done]. }
  assert (HR' : forall x y, x ∈ l1 -> y ∈ l2 -> f x = f y -> R x y).
  { intros ????. apply HR; by right. }
  destruct (IH l2 HR' E2) as [IHl|(m1 & m2 & M1 & M2 & Hc)].
  - left. constructor; [|done]. apply HR; [by left|by left|done].
  - right. exists m1, m2. split_and!; [by right|by right|done].
Qed.

(** Equal roots over two vectors of hashed items: the items are related one by one by
    any relation that equal preimages imply, or two of the hashed messages collide. *)
Lemma vec_root_binds {A} (R : A -> A -> Prop) (f : A -> bytes) d (l1 l2 : list A) :
  (forall a b, a ∈ l1 -> b ∈ l2 -> f a = f b -> R a b) ->
  fits_u32 l1 = true -> fits_u32 l2 = true ->
  vec_root d ((fun a => blake3 (f a)) <$> l1) = vec_root d ((fun a => blake3 (f a)) <$> l2) ->
  Forall2 R l1 l2 \/
  collision_among (vec_root_preimage d ((fun a => blake3 (f a)) <$> l1) :: (f <$> l1))
                  (vec_root_preimage d ((fun a => blake3 (f a)) <$> l2) :: (f <$> l2)).
Proof.
  intros HR S1 S2 E. apply blake3_inj_or in E as [E|E].
  2:{ right. eexists _, _. split_and!; [by left|by left|done]. }
  apply vec_root_preimage_inj in E; [|apply length_map_blake3|apply length_map_blake3
    |unfold fits_u32; by rewrite length_fmap|unfold fits_u32; by rewrite length_fmap].
  destruct (leaves_bind R f l1 l2 HR E) as [|(m1 & m2 & M1 & M2 & Hc)]; [by left|].
  right. exists m1, m2. split_and!; [by right|by right|done].
Qed.

Lemma body_sized_tx b t : body_sized b = true -> t ∈ body_txs b ->
  call_sized (tx_call t) = true.
Proof.
  unfold body_sized. rewrite !andb_true_iff, !forallb_forall. intros [[_ Hf] _] Ht.
  apply Hf. by apply list_elem_of_In.
Qed.

Lemma typed_body_tx b t : typed b = true -> t ∈ body_txs b -> typed t = true.
Proof.
  unfold typed at 1, typed_BlockBody. rewrite andb_true_iff. intros [Hf _] Ht.
  unfold typed, typed_list in Hf. rewrite forallb_forall in Hf.
  apply Hf. by apply list_elem_of_In.
Qed.

Lemma body_sized_witness b w : body_sized b = true -> w ∈ body_witnesses b ->
  witness_sized w = true.
Proof.
  unfold body_sized. rewrite !andb_true_iff, !forallb_forall. intros [_ Hf] Ht.
  apply Hf. by apply list_elem_of_In.
Qed.

Lemma typed_body_witness b w : typed b = true -> w ∈ body_witnesses b -> typed w = true.
Proof.
  unfold typed at 1, typed_BlockBody. rewrite andb_true_iff. intros [_ Hf] Ht.
  unfold typed, typed_list in Hf. rewrite forallb_forall in Hf.
  apply Hf. by apply list_elem_of_In.
Qed.

Lemma body_sized_lengths b : body_sized b = true ->
  fits_u32 (body_txs b) = true /\ fits_u32 (body_witnesses b) = true.
Proof. unfold body_sized. rewrite !andb_true_iff. naive_solver. Qed.

Lemma tx_root_binds b1 b2 :
  typed b1 = true -> typed b2 = true -> body_sized b1 = true -> body_sized b2 = true ->
  tx_root b1 = tx_root b2 ->
  Forall2 same_body (body_txs b1) (body_txs b2) \/
  collision_among (tx_root_messages b1) (tx_root_messages b2).
Proof.
  intros T1 T2 S1 S2 E. apply (vec_root_binds same_body body_preimage); [| | |exact E].
  - intros t1 t2 M1 M2. apply body_preimage_inj;
      eauto using typed_body_tx, body_sized_tx.
  - by apply body_sized_lengths.
  - by apply body_sized_lengths.
Qed.

Lemma witness_root_binds b1 b2 :
  typed b1 = true -> typed b2 = true -> body_sized b1 = true -> body_sized b2 = true ->
  witness_root b1 = witness_root b2 ->
  body_witnesses b1 = body_witnesses b2 \/
  collision_among (witness_root_messages b1) (witness_root_messages b2).
Proof.
  intros T1 T2 S1 S2 E.
  apply (vec_root_binds eq witness_preimage) in E as [E|E]; [left|by right|..].
  - by apply list_eq_Forall2.
  - intros w1 w2 M1 M2. apply witness_preimage_inj;
      eauto using typed_body_witness, body_sized_witness.
  - by apply body_sized_lengths.
  - by apply body_sized_lengths.
Qed.
End binding.

(** ** Properties *)

Section properties.
Context `{HashPrims}.

(** C35: a signature covers exactly the nonce, the sender, the fee and the call up to its
    governance proof and the order of a coordinator list.  Transactions that agree on
    these have the same signing hash, and two well-typed transactions with the same
    signing hash agree on them unless their two signing preimages collide in Blake3. *)
Theorem signing_hash_binding t1 t2 :
  typed t1 = true -> typed t2 = true ->
  call_sized (tx_call t1) = true -> call_sized (tx_call t2) = true ->
  (same_signed t1 t2 -> signing_hash t1 = signing_hash t2) /\
  (signing_hash t1 = signing_hash t2 ->
     same_signed t1 t2 \/ blake3_collision (signing_preimage t1) (signing_preimage t2)).
Proof.
  intros T1 T2 S1 S2. split.
  - intros Hs. unfold signing_hash. by rewrite Hs.
  - intros Hh. apply blake3_inj_or in Hh as [Hh|Hh]; [left|by right].
    by apply signing_preimage_inj.
Qed.

(** The [tx_root] and [witness_root] of a header bind the block body.  Two bodies with
    the same roots hold the same transactions in the same order (up to what [body_hash]
    leaves out: governance proofs and the order of coordinator lists) and identical
    witnesses, or two of the messages hashed for the roots collide in Blake3. *)
Lemma block_roots_binding b1 b2 :
  typed b1 = true -> typed b2 = true -> body_sized b1 = true -> body_sized b2 = true ->
  tx_root b1 = tx_root b2 -> witness_root b1 = witness_root b2 ->
  (Forall2 same_body (body_txs b1) (body_txs b2) /\ body_witnesses b1 = body_witnesses b2) \/
  collision_among (tx_root_messages b1) (tx_root_messages b2) \/
  collision_among (witness_root_messages b1) (witness_root_messages b2).
Proof.
  intros T1 T2 S1 S2 Et Ew.
  apply tx_root_binds in Et as [Et|Et]; [|by auto|done..].
  apply witness_root_binds in Ew as [Ew|Ew]; [|by auto|done..]. by left.
Qed.

(** [body_hash] does not depend on a governance proof nor on the order of the
    coordinators of a [RegisterAttestCoordinator], although both are part of the
    transaction the block carries: such blocks share their [tx_root]. *)
Theorem body_hash_malleable t job_id cs1 cs2 gp1 gp2 :
  cs1 ≡ₚ cs2 ->
  let with_call c := {| tx_nonce := tx_nonce t; tx_from_account := tx_from_account t;
    tx_call := c; tx_fee_sat := tx_fee_sat t; tx_gas_limit := tx_gas_limit t;
    tx_witness_hash := tx_witness_hash t |} in
  body_hash (with_call (RegisterAttestCoordinator job_id cs1 gp1)) =
  body_hash (with_call (RegisterAttestCoordinator job_id cs2 gp2)).
Proof.
  intros Hp wc. unfold body_hash. f_equal. apply body_preimage_proper.
  by repeat split.
Qed.
End properties.

(** ** Instances of the properties on concrete inputs *)

#[local] Existing Instance Checksum.prims.

Definition sample_tx (call : TxCall) : TxBody :=
  {| tx_nonce := 7; tx_from_account := replicate 20 x01; tx_call := call;
     tx_fee_sat := 10; tx_gas_limit := 21000; tx_witness_hash := replicate 32 x09 |}.

Definition sample_register (cs : list AccountId) : TxBody :=
  sample_tx (RegisterAttestCoordinator (replicate 32 x03) cs [x0a]).

Definition sample_witness : Witness :=
  {| wit_sig_algo := 3; wit_sig := [x01; x02]; wit_pubkey := Inline [x05] |}.

Lemma signing_hash_binding_witness :
  let t1 := sample_register [replicate 20 x04; replicate 20 x02] in
  let t2 := sample_register [replicate 20 x02; replicate 20 x04] in
  (same_signed t1 t2 -> signing_hash t1 = signing_hash t2) /\
  (signing_hash t1 = signing_hash t2 ->
     same_signed t1 t2 \/ blake3_collision (signing_preimage t1) (signing_preimage t2)).
Proof. cbv zeta. apply signing_hash_binding; reflexivity. Defined.

Lemma block_roots_binding_witness :
  let b := {| body_txs := [sample_register [replicate 20 x04]; sample_register []];
              body_witnesses := [sample_witness; sample_witness] |} in
  (Forall2 same_body (body_txs b) (body_txs b) /\ body_witnesses b = body_witnesses b) \/
  collision_among (tx_root_messages b) (tx_root_messages b) \/
  collision_among (witness_root_messages b) (witness_root_messages b).
Proof. cbv zeta. apply block_roots_binding; reflexivity. Defined.

Lemma body_hash_malleable_witness :
  let t1 := sample_register [replicate 20 x04; replicate 20 x02] in
  body_hash t1 =
  body_hash (sample_tx (RegisterAttestCoordinator (replicate 32 x03)
    [replicate 20 x02; replicate 20 x04] [])).
Proof.
  apply (body_hash_malleable (sample_tx (SetGovernance [] []))).
  constructor.
Defined.
