(* ===== verification/P2p.v ===== *)
(** * P2p: wire messages and the gossip broker (crates/p2p/src/lib.rs)

    Messages with their signing hash, and the in-process [Broker].  Its specification is the
    history of a peer: what a peer has received and what waits in its inbox is, in order, the
    list of publications it was subscribed to. *)

From S2P Require Export Tx.
From Stdlib Require Import Strings.Byte.

Local Open Scope Z_scope.

Definition WIRE_VERSION : Z := 1.
Definition TESTNET_P2P_PORT : Z := 8546.
Definition MAINNET_P2P_PORT : Z := 9546.

(** [topics] *)
Definition BLOCK_HEADER : string := "pg/v1/block-header".
Definition COMPACT_BLOCK : string := "pg/v1/compact-block".
Definition TX : string := "pg/v1/tx".
Definition FINALITY_VOTE : string := "pg/v1/finality-vote".
Definition FINALITY_CERT : string := "pg/v1/finality-cert".
Definition GOVERNANCE : string := "pg/v1/governance".
Definition PEER_INFO : string := "pg/v1/peer-info".
Definition ATTESTATION : string := "pg/v1/attestation".

Definition topics_ALL : list string :=
  [BLOCK_HEADER; COMPACT_BLOCK; TX; FINALITY_VOTE; FINALITY_CERT; GOVERNANCE; PEER_INFO;
   ATTESTATION].

Inductive P2pPayload :=
| PayloadBlockHeader (height : Z) (header_hash : bytes)
| PayloadTxBytes (tx_hash tx_cbor witness_cbor : bytes)
| PayloadFinalityVote (vote_hash vote_cbor : bytes)
| PayloadFinalityCert (cert_hash cert_cbor : bytes)
| PayloadPeerInfo (head_height : Z) (head_hash : bytes) (protocol_version : Z)
| PayloadGovernanceAnnounce (tx_hash tx_cbor : bytes)
| PayloadAttestation (tx_hash tx_cbor : bytes).

Record P2pMessage := {
  pm_version : Z;
  pm_from : bytes;
  pm_topic : string;
  pm_seq : Z;
  pm_payload : P2pPayload;
}.

Inductive P2pError :=
| UnknownPeer (peer : bytes)
| WireVersionMismatch (got expected : Z)
| UnknownTopic (topic : string)
| MalformedCbor (msg : string)
| NoSubscription.

#[export] Instance typed_P2pPayload : Typed P2pPayload := fun p =>
  match p with
  | PayloadBlockHeader h hash => in_ub 64 h && is_array 32 hash
  | PayloadTxBytes hash _ _ => is_array 32 hash
  | PayloadFinalityVote hash _ | PayloadFinalityCert hash _ => is_array 32 hash
  | PayloadPeerInfo h hash v => in_ub 64 h && is_array 32 hash && in_ub 32 v
  | PayloadGovernanceAnnounce hash _ | PayloadAttestation hash _ => is_array 32 hash
  end.

#[export] Instance typed_P2pMessage : Typed P2pMessage := fun m =>
  in_ub 8 (pm_version m) && is_array 32 (pm_from m) &&
  fits_u32 (ascii_bytes (pm_topic m)) && in_ub 64 (pm_seq m) && typed (pm_payload m).

(** ** Identities and hashes *)

Section hashes.
Context `{HashPrims}.

(** [PeerId::from_pubkey] *)
Definition peer_from_pubkey (pubkey : bytes) : bytes :=
  blake3 (ascii_bytes "PGpeer" ++ [x00] ++ pubkey).

Definition payload_preimage (p : P2pPayload) : bytes :=
  match p with
  | PayloadBlockHeader height header_hash => [x01] ++ le_bytes 8 height ++ header_hash
  | PayloadTxBytes tx_hash _ _ => [x02] ++ tx_hash
  | PayloadFinalityVote vote_hash _ => [x03] ++ vote_hash
  | PayloadFinalityCert cert_hash _ => [x04] ++ cert_hash
  | PayloadPeerInfo head_height _ _ => [x05] ++ le_bytes 8 head_height
  | PayloadGovernanceAnnounce tx_hash _ => [x06] ++ tx_hash
  | PayloadAttestation tx_hash _ => [x07] ++ tx_hash
  end.

Definition message_preimage (m : P2pMessage) : bytes :=
  ascii_bytes "PGp2pmsg" ++ [x00] ++ le_bytes 1 (pm_version m) ++ pm_from m ++
  len_u32_le (ascii_bytes (pm_topic m)) ++ ascii_bytes (pm_topic m) ++
  le_bytes 8 (pm_seq m) ++ payload_preimage (pm_payload m).

(** [P2pMessage::signing_hash] *)
Definition message_signing_hash (m : P2pMessage) : bytes := blake3 (message_preimage m).
End hashes.

(** ** The broker *)

(** Peers map to their topics and to their inboxes. *)
Record Broker := {
  br_subscriptions : gmap bytes (list string);
  br_inboxes : gmap bytes (list P2pMessage);
}.

Definition Broker_new : Broker := {| br_subscriptions := ∅; br_inboxes := ∅ |}.

(** [map.entry(k).or_default()], then the update [f] through the reference. *)
Definition update_entry {A} (f : list A -> list A) (k : bytes) (m : gmap bytes (list A))
    : gmap bytes (list A) :=
  <[k := f (default [] (m !! k))]> m.

Definition join (peer : bytes) (b : Broker) : Broker :=
  {| br_subscriptions := update_entry id peer (br_subscriptions b);
     br_inboxes := update_entry id peer (br_inboxes b) |}.

Definition subscribe (peer : bytes) (topic : string) (b : Broker)
    : outcome P2pError unit * Broker :=
  if negb (bool_decide (topic ∈ topics_ALL)) then (Err (UnknownTopic topic), b)
  else
    (Ok tt,
     {| br_subscriptions :=
          update_entry (fun subs => if bool_decide (topic ∈ subs) then subs else subs ++ [topic])
            peer (br_subscriptions b);
        br_inboxes := br_inboxes b |}).

(** The peers a message goes to, in the order the map is walked. *)
Definition recipients (msg : P2pMessage) (b : Broker) : list bytes :=
  fst <$> filter (fun e => e.1 <> pm_from msg /\ pm_topic msg ∈ e.2)
            (map_to_list (br_subscriptions b)).

Definition publish (msg : P2pMessage) (b : Broker) : outcome P2pError unit * Broker :=
  if negb (pm_version msg =? WIRE_VERSION)
  then (Err (WireVersionMismatch (pm_version msg) WIRE_VERSION), b)
  else if negb (bool_decide (pm_topic msg ∈ topics_ALL))
  then (Err (UnknownTopic (pm_topic msg)), b)
  else
    (Ok tt,
     {| br_subscriptions := br_subscriptions b;
        br_inboxes := foldl (fun inboxes r => update_entry (fun q => q ++ [msg]) r inboxes)
                        (br_inboxes b) (recipients msg b) |}).

Definition recv (peer : bytes) (b : Broker) : list P2pMessage * Broker :=
  (default [] (br_inboxes b !! peer),
   {| br_subscriptions := br_subscriptions b;
      br_inboxes := update_entry (fun _ => []) peer (br_inboxes b) |}).

(** ** Runs and their specification *)

Inductive broker_op :=
| OpJoin (peer : bytes)
| OpSubscribe (peer : bytes) (topic : string)
| OpPublish (msg : P2pMessage)
| OpRecv (peer : bytes).

(** One operation; the messages handed out, with the peer they went to. *)
Definition broker_step (op : broker_op) (b : Broker) : list (bytes * P2pMessage) * Broker :=
  match op with
  | OpJoin peer => ([], join peer b)
  | OpSubscribe peer topic => ([], (subscribe peer topic b).2)
  | OpPublish msg => ([], (publish msg b).2)
  | OpRecv peer => let '(msgs, b) := recv peer b in (pair peer <$> msgs, b)
  end.

Fixpoint broker_run (ops : list broker_op) (b : Broker) : list (bytes * P2pMessage) * Broker :=
  match ops with
  | [] => ([], b)
  | op :: ops =>
      let '(out, b) := broker_step op b in
      let '(outs, b) := broker_run ops b in
      (out ++ outs, b)
  end.

(** What peer [p] took out of its inbox during a run. *)
Definition received (p : bytes) (outs : list (bytes * P2pMessage)) : list P2pMessage :=
  snd <$> filter (fun e => e.1 = p) outs.

Definition inbox (p : bytes) (b : Broker) : list P2pMessage := default [] (br_inboxes b !! p).

Definition valid_message (m : P2pMessage) : Prop :=
  pm_version m = WIRE_VERSION /\ pm_topic m ∈ topics_ALL.

(** The specification: the publications [p] is entitled to, in order, when it starts with
    the topics [subs]. *)
Fixpoint entitled (p : bytes) (subs : gset string) (ops : list broker_op) : list P2pMessage :=
  match ops with
  | [] => []
  | OpSubscribe q topic :: ops =>
      entitled p (if bool_decide (q = p /\ topic ∈ topics_ALL) then {[topic]} ∪ subs else subs) ops
  | OpPublish m :: ops =>
      (if bool_decide ((pm_version m = WIRE_VERSION /\ pm_topic m ∈ topics_ALL) /\
                       pm_from m <> p /\ pm_topic m ∈ subs) then [m] else []) ++
      entitled p subs ops
  | (OpJoin _ | OpRecv _) :: ops => entitled p subs ops
  end.

(** ** Laws *)

Lemma lookup_update_entry {A} (f : list A -> list A) (k k' : bytes) (m : gmap bytes (list A)) :
  default [] (update_entry f k m !! k') =
  if decide (k = k') then f (default [] (m !! k')) else default [] (m !! k').
Proof.
  unfold update_entry. case_decide; subst; [by rewrite lookup_insert_eq|].
  by rewrite lookup_insert_ne.
Qed.

(** Pushing to every peer of a duplicate-free list. *)
Lemma lookup_push_all (msg : P2pMessage) (rs : list bytes) (m : gmap bytes (list P2pMessage)) (p : bytes) : NoDup rs ->
  default [] (foldl (fun inboxes r => update_entry (fun q => q ++ [msg]) r inboxes) m rs !! p) =
  default [] (m !! p) ++ (if decide (p ∈ rs) then [msg] else []).
Proof.
  intros Hnd. revert m; induction Hnd as [|r rs Hr Hnd IH]; intros m.
  { cbn. rewrite decide_False by apply not_elem_of_nil. by rewrite app_nil_r. }
  cbn [foldl]. rewrite IH, lookup_update_entry.
  destruct (decide (r = p)) as [->|Hne].
  - by rewrite (decide_False (P:=p ∈ rs)), decide_True, app_nil_r by set_solver.
  - f_equal. destruct (decide (p ∈ rs)); [rewrite decide_True by set_solver; done|].
    by rewrite decide_False by set_solver.
Qed.

Lemma NoDup_recipients msg b : NoDup (recipients msg b).
Proof.
  unfold recipients. eapply sublist_NoDup; [apply (NoDup_fst_map_to_list (br_subscriptions b))|].
  apply fmap_sublist, sublist_filter.
Qed.

Lemma elem_of_recipients msg b p : p ∈ recipients msg b <->
  p <> pm_from msg /\ pm_topic msg ∈ default [] (br_subscriptions b !! p).
Proof.
  unfold recipients. rewrite list_elem_of_fmap. split.
  - intros ([q subs] & -> & He). apply list_elem_of_filter in He as [[Hn Ht] He].
    apply elem_of_map_to_list in He. cbn in *. by rewrite He.
  - intros [Hn Ht]. destruct (br_subscriptions b !! p) as [subs|] eqn:Es; [|by apply not_elem_of_nil in Ht].
    exists (p, subs). split; [done|]. apply list_elem_of_filter.
    split; [done|]. by apply elem_of_map_to_list.
Qed.

(** The state of the broker as one peer sees it. *)
Definition sees (b : Broker) (p : bytes) (subs : gset string) : Prop :=
  forall t, t ∈ default [] (br_subscriptions b !! p) <-> t ∈ subs.

(** The topics of [p] after one operation. *)
Definition subs_after (p : bytes) (op : broker_op) (subs : gset string) : gset string :=
  match op with
  | OpSubscribe q topic =>
      if bool_decide (q = p /\ topic ∈ topics_ALL) then {[topic]} ∪ subs else subs
  | _ => subs
  end.

Lemma sees_step p op b subs : sees b p subs ->
  sees (broker_step op b).2 p (subs_after p op subs).
Proof.
  intros Hs t. destruct op as [q|q topic|m|q]; cbn [broker_step subs_after].
  - cbn [snd join br_subscriptions]. rewrite lookup_update_entry. case_decide; apply Hs.
  - unfold subscribe. destruct (bool_decide_reflect (topic ∈ topics_ALL)) as [Hv|Hv]; cbn [negb snd];
      [|rewrite bool_decide_eq_false_2 by tauto; apply Hs].
    cbn [br_subscriptions]. rewrite lookup_update_entry.
    destruct (decide (q = p)) as [->|Hne];
      [rewrite (bool_decide_eq_true_2 (p = p /\ topic ∈ topics_ALL)) by done
      |rewrite (bool_decide_eq_false_2 (q = p /\ topic ∈ topics_ALL)) by tauto; apply Hs].
    rewrite elem_of_union, elem_of_singleton, <- (Hs t). case_bool_decide; [naive_solver|].
    rewrite elem_of_app, list_elem_of_singleton. tauto.
  - unfold publish. destruct (negb _); [apply Hs|]. destruct (negb _); apply Hs.
  - apply Hs.
Qed.

Lemma received_app p o1 o2 : received p (o1 ++ o2) = received p o1 ++ received p o2.
Proof. unfold received. by rewrite filter_app, fmap_app. Qed.

Lemma received_pair p q (msgs : list P2pMessage) :
  received p (pair q <$> msgs) = if decide (q = p) then msgs else [].
Proof.
  unfold received. induction msgs as [|m msgs IH]; [by case_decide|].
  rewrite fmap_cons, filter_cons. cbn [fst]. destruct (decide (q = p)); [|done].
  rewrite fmap_cons. by rewrite IH.
Qed.

(** One operation: what is handed out and what waits, against what was waiting. *)
Lemma inbox_step p op b subs : sees b p subs ->
  received p (broker_step op b).1 ++ inbox p (broker_step op b).2 =
  inbox p b ++ entitled p subs [op].
Proof.
  intros Hs. unfold inbox. destruct op as [q|q topic|m|q]; cbn [broker_step entitled].
  - cbn [fst snd join br_inboxes]. rewrite lookup_update_entry, app_nil_r. by case_decide.
  - cbn [fst snd]. rewrite app_nil_r. unfold subscribe. by destruct (negb _).
  - cbn [fst snd received filter fmap app]. rewrite app_nil_r. unfold publish.
    destruct (Z.eqb_spec (pm_version m) WIRE_VERSION) as [Hw|Hw]; cbn [negb];
      [|by rewrite bool_decide_eq_false_2, app_nil_r by tauto].
    destruct (bool_decide_reflect (pm_topic m ∈ topics_ALL)) as [Ht|Ht]; cbn [negb];
      [|by rewrite bool_decide_eq_false_2, app_nil_r by tauto].
    cbn [snd br_inboxes]. change (received p []) with (@nil P2pMessage). cbn [app].
    rewrite lookup_push_all by apply NoDup_recipients. f_equal.
    pose proof (elem_of_recipients m b p) as Hr. rewrite (Hs (pm_topic m)) in Hr.
    case_decide as Hd; [rewrite bool_decide_eq_true_2; [done|]|rewrite bool_decide_eq_false_2; [done|]];
      naive_solver.
  - cbn [recv fst snd br_inboxes]. rewrite received_pair, lookup_update_entry, app_nil_r.
    by case_decide; subst; rewrite ?app_nil_r.
Qed.

(** ** Properties *)

(** C38: Gossip delivers exactly once, in order, to exactly the subscribers.  After any run
    of the broker, what a peer has received together with what waits in its inbox is what
    waited before, followed by the valid messages that other peers published on topics it
    was subscribed to at that moment, each once and in the order of publication. *)
Theorem gossip_exactly_once ops b p (subs : gset string) : sees b p subs ->
  let '(outs, b') := broker_run ops b in
  received p outs ++ inbox p b' = inbox p b ++ entitled p subs ops.
Proof.
  revert b subs; induction ops as [|op ops IH]; intros b subs Hs; [by rewrite app_nil_r|].
  cbn [broker_run]. pose proof (inbox_step p op b subs Hs) as Hi.
  pose proof (sees_step p op b subs Hs) as Hs1.
  destruct (broker_step op b) as [out b1]. cbn [fst snd] in *.
  specialize (IH b1 _ Hs1). destruct (broker_run ops b1) as [outs b2].
  rewrite received_app, <- app_assoc, IH, app_assoc, Hi, <- app_assoc. f_equal.
  by destruct op; cbn [entitled subs_after app]; rewrite ?app_nil_r.
Qed.

(** What the signing hash of a payload covers. *)
Definition signed_payload (p : P2pPayload) : P2pPayload :=
  match p with
  | PayloadBlockHeader h hash => PayloadBlockHeader h hash
  | PayloadTxBytes hash _ _ => PayloadTxBytes hash [] []
  | PayloadFinalityVote hash _ => PayloadFinalityVote hash []
  | PayloadFinalityCert hash _ => PayloadFinalityCert hash []
  | PayloadPeerInfo h _ _ => PayloadPeerInfo h [] 0
  | PayloadGovernanceAnnounce hash _ => PayloadGovernanceAnnounce hash []
  | PayloadAttestation hash _ => PayloadAttestation hash []
  end.

Definition signed_part (m : P2pMessage) : P2pMessage :=
  {| pm_version := pm_version m; pm_from := pm_from m; pm_topic := pm_topic m;
     pm_seq := pm_seq m; pm_payload := signed_payload (pm_payload m) |}.

Lemma ascii_bytes_inj s1 s2 : ascii_bytes s1 = ascii_bytes s2 -> s1 = s2.
Proof.
  intros E. rewrite <- (String.string_of_list_byte_of_string s1),
    <- (String.string_of_list_byte_of_string s2). by f_equal.
Qed.

Lemma payload_preimage_inj `{HashPrims} p1 p2 : typed p1 = true -> typed p2 = true ->
  payload_preimage p1 = payload_preimage p2 -> signed_payload p1 = signed_payload p2.
Proof.
  intros T1 T2 E. destruct p1, p2; try (cbn in E; discriminate E);
    cbn [payload_preimage] in E; apply app_inv_head in E;
    unfold typed, typed_P2pPayload in T1, T2; typed_props; cbn [signed_payload].
  - apply le_field_inj in E as [-> ->]; done.
  - by rewrite E.
  - by rewrite E.
  - by rewrite E.
  - apply le_bytes_inj in E; [by rewrite E|done..].
  - by rewrite E.
  - by rewrite E.
Qed.

Lemma message_preimage_inj `{HashPrims} m1 m2 : typed m1 = true -> typed m2 = true ->
  message_preimage m1 = message_preimage m2 -> signed_part m1 = signed_part m2.
Proof.
  intros T1 T2 E. unfold message_preimage in E. apply app_inv_head, app_inv_head in E.
  unfold typed, typed_P2pMessage in T1, T2. unfold signed_part.
  destruct m1 as [v1 f1 t1 s1 p1], m2 as [v2 f2 t2 s2 p2]. typed_props.
  apply le_field_inj in E as [-> E]; [|done..].
  split_app E Hf. apply len_u32_bytes_inj in E as [->%ascii_bytes_inj E]; [|done..].
  apply le_field_inj in E as [-> E]; [|done..].
  subst f2. by rewrite (payload_preimage_inj p1 p2).
Qed.

Section binding.
Context `{HashPrims}.

(** The signing hash of a message fixes its version, sender, topic, sequence number and
    the hashes and heights of its payload, unless Blake3 collides; it does not cover the
    bodies next to those hashes, nor the head hash and version of a peer-info message: two
    messages that agree on [signed_part] always have the same signing hash. *)
Theorem message_hash_binding m1 m2 : typed m1 = true -> typed m2 = true ->
  (signed_part m1 = signed_part m2 -> message_signing_hash m1 = message_signing_hash m2) /\
  (message_signing_hash m1 = message_signing_hash m2 ->
   signed_part m1 = signed_part m2 \/
   blake3_collision (message_preimage m1) (message_preimage m2)).
Proof.
  intros T1 T2. split.
  - assert (forall m, message_signing_hash (signed_part m) = message_signing_hash m) as Hs.
    { intros m. unfold message_signing_hash, message_preimage. by destruct m as [? ? ? ? []]. }
    intros E. by rewrite <- (Hs m1), <- (Hs m2), E.
  - intros E. apply blake3_inj_or in E as [E|E]; [left|by right].
    by apply message_preimage_inj.
Qed.
End binding.

(** ** Three peers *)

Module SampleP2p.
Definition peer (n : byte) : bytes := replicate 32 n.
Definition announce (n : byte) (topic : string) (seq : Z) (body : bytes) : P2pMessage :=
  {| pm_version := 1; pm_from := peer n; pm_topic := topic; pm_seq := seq;
     pm_payload := PayloadTxBytes (replicate 32 xaa) body [] |}.
(** Peer 1 joins late; the second publication is its own, the third of a wrong version. *)
Definition ops : list broker_op :=
  [OpPublish (announce x02 TX 0 []); OpSubscribe (peer x01) TX; OpSubscribe (peer x01) TX;
   OpPublish (announce x02 TX 1 []); OpPublish (announce x01 TX 0 []);
   OpPublish {| pm_version := 2; pm_from := peer x02; pm_topic := TX; pm_seq := 2;
                pm_payload := PayloadTxBytes (replicate 32 xaa) [] [] |};
   OpRecv (peer x01); OpPublish (announce x02 TX 3 [])].
End SampleP2p.
Import SampleP2p.

Lemma gossip_exactly_once_witness :
  let '(outs, b') := broker_run ops Broker_new in
  received (peer x01) outs ++ inbox (peer x01) b' =
    [announce x02 TX 1 []; announce x02 TX 3 []].
Proof.
  pose proof (gossip_exactly_once ops Broker_new (peer x01) ∅) as Hg.
  destruct (broker_run ops Broker_new) as [outs b']. rewrite Hg.
  - vm_compute. reflexivity.
  - intros t. cbn. rewrite lookup_empty. split; intros Ht; [by apply not_elem_of_nil in Ht|].
    by apply elem_of_empty in Ht.
Defined.

#[local] Existing Instance Checksum.prims.

(** A relay can swap the body of an announced transaction. *)
Lemma message_hash_binding_witness :
  message_signing_hash (announce x02 TX 1 [x01]) = message_signing_hash (announce x02 TX 1 [x02]).
Proof.
  apply (message_hash_binding (announce x02 TX 1 [x01]) (announce x02 TX 1 [x02]));
    vm_compute; reflexivity.
Defined.
