(* ===== verification/Vm.v ===== *)
(** * Vm: the contract VM (crates/vm/src/lib.rs, crates/vm/src/wasmtime_backend.rs)

    The trait [Vm], its rejecting backend, and the backend over [wasmtime].  The engine is
    the parameter [Wasmtime]; what is translated is what surrounds it: the packing of
    arguments and results, the classification of errors, and [chain_reflect_get], the host
    function through which a contract reads the chain.  The host function works on the bytes
    of the contract's linear memory. *)

From S2P Require Export Hashing.
From Stdlib Require Import Strings.Byte.

Local Open Scope Z_scope.

(** ** The interface *)

Inductive VmError :=
| NotEnabled
| CompileFailed (msg : string)
| InstantiateFailed (msg : string)
| Trap (msg : string)
| OutOfGas
| HostRejected (msg : string)
| MethodNotFound (method : string)
| BadArgs.

(** A [dyn ReflectionView] is its one method. *)
Record ReflectionView := { reflect_get : bytes -> option bytes }.

Definition NoReflection : ReflectionView := {| reflect_get := fun _ => None |}.

(** The trait [Vm] on an implementation [V] with its [Handle]. *)
Class Vm (V Handle : Type) := {
  vm_compile : V -> bytes -> outcome VmError Handle;
  vm_run : V -> Handle -> string -> bytes -> Z -> ReflectionView -> outcome VmError bytes;
}.
#[export] Hint Mode Vm ! - : typeclass_instances.

Inductive RejectingVm := RejectingVm_new.

#[export] Instance RejectingVm_vm {Handle} : Vm RejectingVm Handle := {
  vm_compile _ _ := Err NotEnabled;
  vm_run _ _ _ _ _ _ := Err NotEnabled;
}.

(** ** The host function *)

Record ContractCtx := { ctx_reflect : ReflectionView }.

(** [slice.get(start..end)] on a 64-bit target. *)
Definition slice_get (data : bytes) (start stop : Z) : option bytes :=
  if (start <=? stop) && (stop <=? Z.of_nat (length data))
  then Some (take (Z.to_nat (stop - start)) (drop (Z.to_nat start) data))
  else None.

(** [dst.copy_from_slice(value)] where [dst] starts at [start]. *)
Definition slice_set (data : bytes) (start : Z) (value : bytes) : bytes :=
  take (Z.to_nat start) data ++ value ++ drop (Z.to_nat start + length value) data.

(** [v as i32]. *)
Definition as_i32 (v : Z) : Z := (v + 2 ^ 31) mod 2 ^ 32 - 2 ^ 31.

(** The closure registered as [env.chain_reflect_get]: the memory export of the caller, when
    it has one, and the four arguments; it returns the result and the memory. *)
Definition chain_reflect_get (ctx : ContractCtx) (memory : option bytes)
    (key_ptr key_len out_ptr out_max_len : Z) : Z * option bytes :=
  match memory with
  | None => (-3, memory)
  | Some data =>
      if (key_ptr <? 0) || (key_len <? 0) || (out_ptr <? 0) || (out_max_len <? 0)
      then (-3, memory)
      else
        match slice_get data key_ptr (saturating_add 64 key_ptr key_len) with
        | None => (-3, memory)
        | Some key =>
            match reflect_get (ctx_reflect ctx) key with
            | None => (-1, memory)
            | Some value =>
                let len := Z.of_nat (length value) in
                if out_max_len <? len then (-2, memory)
                else
                  match slice_get data out_ptr (saturating_add 64 out_ptr len) with
                  | None => (-3, memory)
                  | Some _ => (as_i32 len, Some (slice_set data out_ptr value))
                  end
            end
        end
  end.

(** ** The engine *)

(** The options [WasmtimeVm::new] sets. *)
Record Config := {
  cfg_consume_fuel : bool; cfg_wasm_simd : bool; cfg_wasm_relaxed_simd : bool;
  cfg_wasm_bulk_memory : bool;
}.

(** [wasmtime::Val]; the values that are not [I64] are not told apart here. *)
Inductive Val := ValI64 (v : Z) | ValOther.

Definition val_i64 (v : Val) : option Z := match v with ValI64 z => Some z | ValOther => None end.

(** An error of a call: the trap it downcasts to, if any, and its text. *)
Inductive WasmTrap := OutOfFuel | OtherTrap.
Record CallError := { ce_trap : option WasmTrap; ce_text : string }.

Definition HostFn := option bytes -> Z -> Z -> Z -> Z -> Z * option bytes.

(** What is called of the [wasmtime] crate.  A store carries the fuel and the state of the
    guest; errors are their text. *)
Class Wasmtime := {
  Engine : Type; Module_ : Type; Store : Type; Linker : Type; Instance_ : Type; Func : Type;
  engine_new : Config -> outcome string Engine;
  module_new : Engine -> bytes -> outcome string Module_;
  store_new : Engine -> ContractCtx -> Store;
  set_fuel : Store -> Z -> outcome string Store;
  linker_new : Engine -> Linker;
  func_wrap : Linker -> string -> string -> (ContractCtx -> HostFn) -> outcome string Linker;
  instantiate : Linker -> Store -> Module_ -> outcome string (Instance_ * Store);
  get_func : Instance_ -> Store -> string -> option Func;
  func_params : Func -> Store -> nat;
  func_results : Func -> Store -> nat;
  func_call : Func -> Store -> list Val -> outcome CallError (list Val);
}.

#[export] Instance typed_Val : Typed Val := fun v =>
  match v with ValI64 z => in_sb 64 z | ValOther => true end.

(** A call that returns fills the results of its type, with values of their types. *)
Class WasmtimeLaws `{Wasmtime} := {
  func_call_results (f : Func) (s : Store) params results : func_call f s params = Ok results ->
    length results = func_results f s /\ typed results = true;
}.

Section wasmtime.
Context `{Wasmtime} `{HashPrims}.

Record WasmtimeVm := { wv_engine : Engine }.
Record ContractHandle := { ch_module : Module_; ch_code_hash : bytes }.

(** [WasmtimeVm::new] *)
Definition WasmtimeVm_new : outcome VmError WasmtimeVm :=
  engine ← map_err CompileFailed
    (engine_new {| cfg_consume_fuel := true; cfg_wasm_simd := false;
                   cfg_wasm_relaxed_simd := false; cfg_wasm_bulk_memory := true |});
  Ok {| wv_engine := engine |}.

(** [WasmtimeVm::default]: an error is a panic. *)
Definition WasmtimeVm_default : outcome VmError WasmtimeVm :=
  match WasmtimeVm_new with Ok vm => Ok vm | _ => Panic end.

Definition compile (vm : WasmtimeVm) (wasm_bytes : bytes) : outcome VmError ContractHandle :=
  module ← map_err CompileFailed (module_new (wv_engine vm) wasm_bytes);
  Ok {| ch_module := module; ch_code_hash := blake3 wasm_bytes |}.

(** [args.chunks_exact(8)], each chunk as an [i64]. *)
Definition i64_from_be (chunk : bytes) : Z := (be_to_Z chunk + 2 ^ 63) mod 2 ^ 64 - 2 ^ 63.

Fixpoint chunks_exact_8 (args : bytes) : list bytes :=
  match args with
  | a :: b :: c :: d :: e :: f :: g :: h :: args => [a; b; c; d; e; f; g; h] :: chunks_exact_8 args
  | _ => []
  end.

(** [s.contains(sub)]. *)
Definition contains (sub s : string) : bool := bool_decide (is_Some (String.index 0 sub s)).

(** The error arm of the call. *)
Definition call_error (e : CallError) : VmError :=
  match ce_trap e with
  | Some OutOfFuel => OutOfGas
  | _ =>
      if contains "all fuel consumed" (ce_text e) || contains "out of fuel" (ce_text e)
      then OutOfGas else Trap (ce_text e)
  end.

(** The bytes of the results; one that is not an [i64] is an error. *)
Fixpoint pack_results (results : list Val) : outcome VmError bytes :=
  match results with
  | [] => Ok []
  | r :: results =>
      v ← ok_or (Trap "non-i64 result not supported in v0.4 ABI") (val_i64 r);
      rest ← pack_results results;
      Ok (be_bytes 8 v ++ rest)
  end.

(** The store with its fuel, the host function, and the instance. *)
Definition load_instance (vm : WasmtimeVm) (handle : ContractHandle) (gas_limit : Z)
    (reflect : ReflectionView) : outcome VmError (Instance_ * Store) :=
  store ← map_err Trap
    (set_fuel (store_new (wv_engine vm) {| ctx_reflect := reflect |}) gas_limit);
  linker ← map_err InstantiateFailed
    (func_wrap (linker_new (wv_engine vm)) "env" "chain_reflect_get" chain_reflect_get);
  map_err InstantiateFailed (instantiate linker store (ch_module handle)).

Definition run (vm : WasmtimeVm) (handle : ContractHandle) (method : string) (args : bytes)
    (gas_limit : Z) (reflect : ReflectionView) : outcome VmError bytes :=
  '(instance, store) ← load_instance vm handle gas_limit reflect;
  func ← ok_or (MethodNotFound method) (get_func instance store method);
  let n_params := func_params func store in
  if negb (length args =? 8 * n_params)%nat then Err BadArgs
  else
    let params := (fun chunk => ValI64 (i64_from_be chunk)) <$> chunks_exact_8 args in
    match func_call func store params with
    | Ok results => pack_results results
    | Err e => Err (call_error e)
    | Panic => Panic
    end.

#[export] Instance WasmtimeVm_vm : Vm WasmtimeVm ContractHandle := {
  vm_compile := compile;
  vm_run := run;
}.
End wasmtime.

(** ** Memory windows *)

Lemma slice_get_spec data p n : 0 <= p -> 0 <= n -> p + n < 2 ^ 64 ->
  slice_get data p (saturating_add 64 p n) =
    if bool_decide (p + n <= Z.of_nat (length data))
    then Some (take (Z.to_nat n) (drop (Z.to_nat p) data)) else None.
Proof.
  intros Hp Hn Hlt. rewrite saturating_add_small by lia. unfold slice_get.
  rewrite (proj2 (Z.leb_le p (p + n))) by lia. cbn [andb].
  replace (p + n - p) with n by lia.
  by destruct (Z.leb_spec (p + n) (Z.of_nat (length data))), (bool_decide_reflect (p + n <= Z.of_nat (length data)));
    try lia.
Qed.

Lemma length_slice_set data p v : (Z.to_nat p + length v <= length data)%nat ->
  length (slice_set data p v) = length data.
Proof. intros Hle. unfold slice_set. rewrite !length_app, length_take, length_drop. lia. Qed.

Lemma slice_set_lookup data p v (i : nat) : (Z.to_nat p + length v <= length data)%nat ->
  slice_set data p v !! i =
    if decide (Z.to_nat p <= i < Z.to_nat p + length v)%nat then v !! (i - Z.to_nat p)%nat
    else data !! i.
Proof.
  intros Hle. unfold slice_set. case_decide as Hi.
  - rewrite lookup_app_r by (rewrite length_take; lia). rewrite length_take.
    rewrite lookup_app_l by lia. f_equal. lia.
  - destruct (decide (i < Z.to_nat p)%nat) as [Hlt|Hge].
    + rewrite lookup_app_l by (rewrite length_take; lia). by apply lookup_take_lt.
    + rewrite lookup_app_r by (rewrite length_take; lia). rewrite length_take.
      rewrite lookup_app_r by lia. rewrite lookup_drop. f_equal. lia.
Qed.

Lemma as_i32_id v : 0 <= v < 2 ^ 31 -> as_i32 v = v.
Proof. intros Hv. unfold as_i32. rewrite Z.mod_small; lia. Qed.

Lemma slice_set_window data p v : (Z.to_nat p + length v <= length data)%nat ->
  take (length v) (drop (Z.to_nat p) (slice_set data p v)) = v.
Proof.
  intros Hle. unfold slice_set. rewrite drop_app_length' by (rewrite length_take; lia).
  by rewrite take_app_length.
Qed.

(** The host function without its saturating arithmetic. *)
Lemma chain_reflect_get_eq ctx data kp kl op om :
  in_sb 32 kp = true -> in_sb 32 kl = true -> in_sb 32 op = true -> in_sb 32 om = true ->
  chain_reflect_get ctx (Some data) kp kl op om =
  if decide (0 <= kp /\ 0 <= kl /\ 0 <= op /\ 0 <= om /\ kp + kl <= Z.of_nat (length data)) then
    match reflect_get (ctx_reflect ctx) (take (Z.to_nat kl) (drop (Z.to_nat kp) data)) with
    | None => (-1, Some data)
    | Some v =>
        if om <? Z.of_nat (length v) then (-2, Some data)
        else if decide (op + Z.of_nat (length v) <= Z.of_nat (length data))
        then (Z.of_nat (length v), Some (slice_set data op v))
        else (-3, Some data)
    end
  else (-3, Some data).
Proof.
  unfold in_sb. intros Hkp Hkl Hop Hom. unfold chain_reflect_get.
  destruct ((kp <? 0) || (kl <? 0) || (op <? 0) || (om <? 0)) eqn:En.
  { rewrite decide_False; [done|]. lia. }
  rewrite slice_get_spec by lia. case_bool_decide as Hin; [|rewrite decide_False; [done|lia]].
  rewrite decide_True by lia. destruct (reflect_get _ _) as [v|]; [|done].
  destruct (Z.ltb_spec om (Z.of_nat (length v))); [done|].
  rewrite slice_get_spec by lia. rewrite as_i32_id by lia.
  by case_bool_decide; case_decide.
Qed.

(** ** Lanes *)

(** The argument and result format: big-endian [i64] lanes. *)
Definition pack (lanes : list Z) : bytes := lanes ≫= be_bytes 8.

Lemma i64_from_be_be_bytes z : in_sb 64 z = true -> i64_from_be (be_bytes 8 z) = z.
Proof.
  unfold in_sb, i64_from_be. intros Hz. rewrite be_to_Z_be_bytes.
  change (256 ^ Z.of_nat 8) with (2 ^ 64). rewrite Zplus_mod_idemp_l, Z.mod_small; lia.
Qed.

Lemma length_pack lanes : length (pack lanes) = (8 * length lanes)%nat.
Proof.
  unfold pack. induction lanes as [|z lanes IH]; [done|].
  rewrite bind_cons, length_app, IH, length_be_bytes. cbn [length]. lia.
Qed.

Lemma chunks_exact_8_app chunk args : length chunk = 8%nat ->
  chunks_exact_8 (chunk ++ args) = chunk :: chunks_exact_8 args.
Proof. intros Hl. do 9 (destruct chunk as [|? chunk]; [done|]). discriminate. Qed.

Lemma chunks_pack lanes : Forall (fun z => in_sb 64 z = true) lanes ->
  i64_from_be <$> chunks_exact_8 (pack lanes) = lanes.
Proof.
  induction 1 as [|z lanes Hz _ IH]; [done|]. unfold pack. rewrite bind_cons.
  rewrite chunks_exact_8_app by apply length_be_bytes.
  rewrite fmap_cons, i64_from_be_be_bytes by done. by f_equal.
Qed.

Lemma pack_inj l1 l2 : Forall (fun z => in_sb 64 z = true) l1 ->
  Forall (fun z => in_sb 64 z = true) l2 -> pack l1 = pack l2 -> l1 = l2.
Proof. intros H1 H2 E. by rewrite <- (chunks_pack l1), E, chunks_pack by done. Qed.

Lemma mapM_val_i64 results zs : mapM val_i64 results = Some zs <-> results = ValI64 <$> zs.
Proof.
  rewrite mapM_Some. split.
  - induction 1 as [|r z results zs Hr _ IH]; [done|]. destruct r; [|done].
    injection Hr as ->. by rewrite IH.
  - intros ->. by induction zs; constructor.
Qed.

Lemma call_error_spec e : call_error e = OutOfGas <->
  ce_trap e = Some OutOfFuel \/ contains "all fuel consumed" (ce_text e) = true \/
  contains "out of fuel" (ce_text e) = true.
Proof.
  unfold call_error. rewrite <- orb_true_iff.
  destruct (ce_trap e) as [[]|], (contains _ _ || _); naive_solver.
Qed.

Lemma call_error_cases e : call_error e = OutOfGas \/ exists msg, call_error e = Trap msg.
Proof.
  unfold call_error. destruct (ce_trap e) as [[]|]; [by left| |];
    (destruct (contains _ _ || _); [by left|right; by eexists]).
Qed.

Lemma pack_results_spec results :
  pack_results results =
    match mapM val_i64 results with
    | Some zs => Ok (pack zs)
    | None => Err (Trap "non-i64 result not supported in v0.4 ABI")
    end.
Proof.
  induction results as [|r results IH]; [done|]. cbn [pack_results]. rewrite IH.
  cbn. destruct r as [z|]; cbn; [|done]. by destruct (mapM val_i64 results).
Qed.

Lemma pack_results_Ok results out : pack_results results = Ok out <->
  exists zs, results = ValI64 <$> zs /\ out = pack zs.
Proof.
  rewrite pack_results_spec. setoid_rewrite <- mapM_val_i64.
  destruct (mapM val_i64 results); naive_solver.
Qed.

Lemma typed_ValI64 zs : typed (ValI64 <$> zs) = true <-> Forall (fun z => in_sb 64 z = true) zs.
Proof.
  induction zs as [|z zs IH]; [done|]. rewrite fmap_cons, Forall_cons, typed_cons, andb_true_iff.
  by rewrite IH.
Qed.

Section properties.
Context `{Wasmtime} `{WasmtimeLaws} `{HashPrims}.

(** C39: A contract cannot reach outside its memory through the host.  Whatever the four [i32]
    arguments of [chain_reflect_get], the result is an [i32] of at least -3 and the memory
    keeps its size and every byte outside the window of [r] bytes at [out_ptr], where [r] is
    the result.  The result is the length of the record of the key the contract named exactly
    when the key and the buffer are in bounds and the record fits the buffer, and the window
    then holds the record; it is -1 exactly when there is no such record, -2 exactly when the
    record is longer than [out_max_len], and -3 exactly when the key is out of bounds or a
    record that fits [out_max_len] does not fit the memory at [out_ptr]. *)
Theorem chain_reflect_get_safe ctx data kp kl op om :
  in_sb 32 kp = true -> in_sb 32 kl = true -> in_sb 32 op = true -> in_sb 32 om = true ->
  exists r data', chain_reflect_get ctx (Some data) kp kl op om = (r, Some data') /\
  in_sb 32 r = true /\ length data' = length data /\
  (forall i, ~ (op <= Z.of_nat i < op + r) -> data' !! i = data !! i) /\
  let valid := 0 <= kp /\ 0 <= kl /\ 0 <= op /\ 0 <= om /\ kp + kl <= Z.of_nat (length data) in
  let record := reflect_get (ctx_reflect ctx)
    (take (Z.to_nat kl) (drop (Z.to_nat kp) data)) in
  (0 <= r <-> valid /\ exists v, record = Some v /\ r = Z.of_nat (length v) /\ r <= om /\
     op + r <= Z.of_nat (length data) /\
     take (length v) (drop (Z.to_nat op) data') = v) /\
  (r = -1 <-> valid /\ record = None) /\
  (r = -2 <-> valid /\ exists v, record = Some v /\ om < Z.of_nat (length v)) /\
  (r = -3 <-> ~ valid \/ exists v, record = Some v /\ Z.of_nat (length v) <= om /\
     Z.of_nat (length data) < op + Z.of_nat (length v)) /\ -3 <= r.
Proof.
  intros Hkp Hkl Hop Hom. rewrite chain_reflect_get_eq by done.
  unfold in_sb in *. set (valid := 0 <= kp /\ _). set (record := reflect_get _ _).
  destruct (decide valid) as [Hv|Hv]; [|exists (-3), data; split_and!; naive_solver lia].
  destruct record as [v|] eqn:Er; [|exists (-1), data; split_and!; naive_solver lia].
  destruct (Z.ltb_spec om (Z.of_nat (length v))) as [Hlt|Hge];
    [exists (-2), data; split_and!; naive_solver lia|].
  case_decide as Hout; [|exists (-3), data; split_and!; naive_solver lia].
  assert (Z.to_nat op + length v <= length data)%nat as Hle by (subst valid; lia).
  exists (Z.of_nat (length v)), (slice_set data op v).
  pose proof (slice_set_window data op v Hle) as Hw. rewrite length_slice_set by done.
  split_and!; [done|lia|done| |naive_solver lia..].
  intros i Hi. rewrite slice_set_lookup by done. case_decide; [subst valid; lia|done].
Qed.

(** The calling convention.  Once a contract is loaded and exports [method], a run of it
    on [i64] lanes fails with [BadArgs] exactly when there are too few or too many lanes;
    otherwise the function gets exactly these lanes, and its [i64] results come back as
    lanes that decode to them; running out of fuel is [OutOfGas] and any other error a
    [Trap].  Argument bytes that are not whole lanes are [BadArgs]. *)
Lemma vm_calling_convention vm handle method gas view inst store f lanes :
  load_instance vm handle gas view = Ok (inst, store) -> get_func inst store method = Some f ->
  Forall (fun z => in_sb 64 z = true) lanes ->
  (run vm handle method (pack lanes) gas view = Err BadArgs <->
     length lanes <> func_params f store) /\
  (forall args, length args <> (8 * func_params f store)%nat ->
     run vm handle method args gas view = Err BadArgs) /\
  (length lanes = func_params f store ->
   (forall zs, Forall (fun z => in_sb 64 z = true) zs ->
      run vm handle method (pack lanes) gas view = Ok (pack zs) <->
      func_call f store (ValI64 <$> lanes) = Ok (ValI64 <$> zs)) /\
   (forall out, run vm handle method (pack lanes) gas view = Ok out ->
      length out = (8 * func_results f store)%nat) /\
   (run vm handle method (pack lanes) gas view = Err OutOfGas <->
      exists e, func_call f store (ValI64 <$> lanes) = Err e /\
        (ce_trap e = Some OutOfFuel \/
         contains "all fuel consumed" (ce_text e) = true \/
         contains "out of fuel" (ce_text e) = true))).
Proof.
  intros Hload Hget Hl.
  assert (forall args, run vm handle method args gas view =
    if negb (length args =? 8 * func_params f store)%nat then Err BadArgs
    else match func_call f store ((fun c => ValI64 (i64_from_be c)) <$> chunks_exact_8 args) with
         | Ok results => pack_results results
         | Err e => Err (call_error e)
         | Panic => Panic
         end) as Hrun.
  { intros args. unfold run. rewrite Hload. cbn. by rewrite Hget. }
  assert ((fun c => ValI64 (i64_from_be c)) <$> chunks_exact_8 (pack lanes) = ValI64 <$> lanes)
    as Hparams.
  { rewrite <- (chunks_pack lanes) at 2 by done. by rewrite <- list_fmap_compose. }
  pose proof (Hrun (pack lanes)) as Hpack. rewrite Hparams, length_pack in Hpack.
  split_and!.
  - rewrite Hpack. destruct (Nat.eqb_spec (8 * length lanes) (8 * func_params f store)) as [He|He];
      cbn [negb]; [|split; [lia|done]]. split; [|lia].
    destruct (func_call _ _ _) as [results|e|]; [rewrite pack_results_spec| |done].
    + by destruct (mapM _ _).
    + intros [= Hc]. destruct (call_error_cases e) as [He'|[msg He']]; congruence.
  - intros args Ha. rewrite Hrun. by rewrite (proj2 (Nat.eqb_neq _ _)) by done.
  - intros He. rewrite He, Nat.eqb_refl in Hpack. cbn [negb] in Hpack. rewrite Hpack.
    split_and!.
    + intros zs Hzs. destruct (func_call _ _ _) as [results|e|] eqn:Ef; [|done..].
      rewrite pack_results_Ok. split; [|intros [= ->]; by exists zs].
      intros (zs' & -> & Hp). apply func_call_results in Ef as [_ Ht%typed_ValI64].
      by apply pack_inj in Hp as ->.
    + intros out Ho. destruct (func_call _ _ _) as [results|e|] eqn:Ef; [|done..].
      apply pack_results_Ok in Ho as (zs & -> & ->). apply func_call_results in Ef as [Hn _].
      rewrite length_fmap in Hn. by rewrite length_pack, Hn.
    + destruct (func_call _ _ _) as [results|e|]; [| |naive_solver].
      * rewrite pack_results_spec. destruct (mapM _ _); naive_solver.
      * split; [intros [= He'%call_error_spec]; by exists e|].
        intros (e' & [= <-] & He'%call_error_spec). by rewrite He'.
Qed.
End properties.

(** ** A small engine *)

(** Three exported functions: [add] adds two lanes, [spin] runs out of fuel, and [read]
    calls the host for the key in its memory and returns what the host says. *)
Module SmallEngine.
Inductive export := Add | Spin | Read.
Record store := { s_fuel : Z; s_ctx : ContractCtx; s_host : option HostFn; s_memory : bytes }.

Definition i64_wrap (z : Z) : Z := (z + 2 ^ 63) mod 2 ^ 64 - 2 ^ 63.

Definition call (f : export) (s : store) (params : list Val) : outcome CallError (list Val) :=
  if s_fuel s <? 3 then Err {| ce_trap := Some OutOfFuel; ce_text := "" |}
  else
    match f, params with
    | Add, [ValI64 a; ValI64 b] => Ok [ValI64 (i64_wrap (a + b))]
    | Read, [ValI64 out] =>
        match s_host s with
        | Some host => Ok [ValI64 (i64_wrap (host (Some (s_memory s)) 0 6 out 32).1)]
        | None => Err {| ce_trap := Some OtherTrap; ce_text := "unreachable" |}
        end
    | _, _ => Err {| ce_trap := Some OutOfFuel; ce_text := "" |}
    end.

#[export] Instance engine : Wasmtime := {
  Engine := Config; Module_ := unit; Store := store; Linker := option (ContractCtx -> HostFn);
  Instance_ := unit; Func := export;
  engine_new := Ok;
  module_new _ wasm := if bool_decide (take 4 wasm = [x00; x61; x73; x6d]) then Ok tt
                       else Err "no magic number"%string;
  store_new _ ctx := {| s_fuel := 0; s_ctx := ctx; s_host := None; s_memory := [] |};
  set_fuel s fuel := Ok {| s_fuel := fuel; s_ctx := s_ctx s; s_host := None; s_memory := [] |};
  linker_new _ := None;
  func_wrap l _ _ host := if l then Err "defined twice"%string else Ok (Some host);
  instantiate l s _ :=
    Ok (tt, {| s_fuel := s_fuel s; s_ctx := s_ctx s;
               s_host := (fun host => host (s_ctx s)) <$> l;
               s_memory := ascii_bytes "latest" ++ replicate 26 x00 |});
  get_func _ _ name :=
    if bool_decide (name = "add"%string) then Some Add
    else if bool_decide (name = "spin"%string) then Some Spin
    else if bool_decide (name = "read"%string) then Some Read else None;
  func_params f _ := match f with Add => 2 | Spin => 0 | Read => 1 end%nat;
  func_results f _ := 1%nat;
  func_call := call;
}.

Lemma i64_wrap_range z : in_sb 64 (i64_wrap z) = true.
Proof.
  unfold in_sb, i64_wrap. pose proof (Z.mod_pos_bound (z + 2 ^ 63) (2 ^ 64) ltac:(lia)). lia.
Qed.

#[export] Instance laws : WasmtimeLaws.
Proof.
  split. intros f s params results. cbn. unfold call.
  destruct (s_fuel s <? 3); [discriminate|]. repeat case_match; try discriminate; intros [= <-];
    (split; [done|]; by rewrite typed_cons; cbn -[i64_wrap]; rewrite i64_wrap_range).
Qed.
End SmallEngine.

Section instances.
#[local] Existing Instance SmallEngine.engine.
#[local] Existing Instance SmallEngine.laws.
#[local] Existing Instance Checksum.prims.

Definition sample_view : ReflectionView :=
  {| reflect_get key := if bool_decide (key = ascii_bytes "latest")
                        then Some [xde; xad; xbe; xef] else None |}.

Definition sample_vm : WasmtimeVm :=
  {| wv_engine := {| cfg_consume_fuel := true; cfg_wasm_simd := false;
                     cfg_wasm_relaxed_simd := false; cfg_wasm_bulk_memory := true |} |}.
Definition sample_contract : ContractHandle :=
  {| ch_module := tt; ch_code_hash := blake3 [x00; x61; x73; x6d] |}.

Lemma chain_reflect_get_safe_witness :
  chain_reflect_get {| ctx_reflect := sample_view |} (Some (ascii_bytes "latest" ++ [x01; x02; x03; x04; x05]))
    0 6 6 32 = (4, Some (ascii_bytes "latest" ++ [xde; xad; xbe; xef; x05])) /\
  exists r data', chain_reflect_get {| ctx_reflect := sample_view |}
    (Some (ascii_bytes "latest")) 0 6 3 32 = (r, Some data') /\ length data' = 6%nat.
Proof.
  split; [reflexivity|].
  destruct (chain_reflect_get_safe {| ctx_reflect := sample_view |} (ascii_bytes "latest") 0 6 3 32
    eq_refl eq_refl eq_refl eq_refl) as (r & data' & Hr & _ & Hl & _).
  by exists r, data'.
Defined.

Lemma vm_calling_convention_witness :
  run sample_vm sample_contract "add" (pack [7; 35]) 100 sample_view = Ok (pack [42]) /\
  run sample_vm sample_contract "read" (pack [9]) 100 sample_view = Ok (pack [4]) /\
  run sample_vm sample_contract "spin" (pack []) 100 sample_view = Err OutOfGas /\
  run sample_vm sample_contract "add" (pack [7]) 100 sample_view = Err BadArgs.
Proof.
  pose proof (fun m f l Hg => vm_calling_convention sample_vm sample_contract m 100 sample_view tt
    _ f l eq_refl Hg) as Hc.
  split_and!.
  - apply (Hc "add"%string SmallEngine.Add [7; 35] eq_refl); [by repeat constructor|done| |done].
    by repeat constructor.
  - reflexivity.
  - apply (Hc "spin"%string SmallEngine.Spin [] eq_refl); [constructor|done|].
    eexists. split; [reflexivity|by left].
  - apply (Hc "add"%string SmallEngine.Add [7] eq_refl); [by repeat constructor|done].
Defined.
End instances.
