(* ===== verification/Json.v ===== *)
(** * Json: JSON values

    [serde_json]'s [Value] is a parameter: its constructors, its accessors and the length of
    its text.  [struct_fields] is what a derived [Deserialize] does first: it finds the
    fields of a struct in a value.  A number is what the parser makes of the digits of an
    integer; one that does not fit 64 bits becomes a float, which no integer accessor
    reads. *)

From S2P Require Export Prelude.
From Stdlib Require Import Strings.String.

Local Open Scope Z_scope.

Class Json := {
  Value : Type;
  jnull : Value;
  jbool : bool -> Value;
  jint : Z -> Value;
  jstr : string -> Value;
  jarr : list Value -> Value;
  jobj : list (string * Value) -> Value;
  jget : string -> Value -> option Value;
  as_u64 : Value -> option Z;
  as_i64 : Value -> option Z;
  as_str : Value -> option string;
  as_bool : Value -> option bool;
  as_array : Value -> option (list Value);
  is_null : Value -> bool;
  struct_fields : list string -> Value -> option (list (option Value));
  text_len : Value -> Z;
}.

(** The first entry of a key; the keys of an object are distinct. *)
Fixpoint alist_lookup {A} (k : string) (fs : list (string * A)) : option A :=
  match fs with
  | [] => None
  | (k', v) :: fs => if String.eqb k k' then Some v else alist_lookup k fs
  end.

Definition sum_len {A} (f : A -> Z) (l : list A) : Z := foldr (fun a n => f a + n) 0 l.

Class JsonLaws `{Json} := {
  jget_obj k fs : NoDup fs.*1 -> jget k (jobj fs) = alist_lookup k fs;
  as_u64_int n : as_u64 (jint n) = if in_ub 64 n then Some n else None;
  as_i64_int n : as_i64 (jint n) = if in_sb 64 n then Some n else None;
  as_u64_null : as_u64 jnull = None;
  as_str_str s : as_str (jstr s) = Some s;
  as_str_null : as_str jnull = None;
  as_bool_bool b : as_bool (jbool b) = Some b;
  as_array_arr l : as_array (jarr l) = Some l;
  is_null_null : is_null jnull = true;
  is_null_str s : is_null (jstr s) = false;
  is_null_int n : is_null (jint n) = false;
  is_null_arr l : is_null (jarr l) = false;
  is_null_obj fs : is_null (jobj fs) = false;
  struct_fields_obj names fs : NoDup fs.*1 ->
    struct_fields names (jobj fs) = Some ((fun k => alist_lookup k fs) <$> names);
  text_len_nonneg v : 0 <= text_len v;
  text_len_str s : Z.of_nat (String.length s) <= text_len (jstr s);
  text_len_arr l : sum_len text_len l <= text_len (jarr l);
  text_len_obj fs : sum_len (fun f => text_len f.2) fs <= text_len (jobj fs);
}.

Lemma sum_len_nonneg {A} (f : A -> Z) l : (forall a, 0 <= f a) -> 0 <= sum_len f l.
Proof.
  intros Hf. induction l as [|a l IH]; [done|]. cbn. pose proof (Hf a). unfold sum_len in IH. lia.
Qed.

(** A required field of a struct, and one with a serde default. *)
Definition required {V A} (read : V -> option A) (field : option V) : option A := field ≫= read.
Definition defaulted {V A} (d : A) (read : V -> option A) (field : option V) : option A :=
  match field with None => Some d | Some v => read v end.

Section json.
Context `{Json}.

(** [v["key"]]: null when it is absent. *)
Definition index (k : string) (v : Value) : Value := default jnull (jget k v).

(** Unsigned fields; [serde_json] offers a [u128] no more than 64 bits of a [Value]. *)
Definition read_u (w : Z) (v : Value) : option Z :=
  n ← as_u64 v; if in_ub w n then Some n else None.
Definition read_usize (v : Value) : option nat := Z.to_nat <$> as_u64 v.

(** [Vec<String>]. *)
Definition read_strings (v : Value) : option (list string) := as_array v ≫= mapM as_str.
End json.

Section laws.
Context `{JsonLaws}.

Lemma read_u_int w n : w <= 64 -> in_u w n -> read_u w (jint n) = Some n.
Proof.
  intros Hw Hn. unfold read_u. rewrite as_u64_int.
  assert (in_u 64 n) as H64.
  { unfold in_u in *. pose proof (Z.pow_le_mono_r 2 w 64 ltac:(lia) Hw). lia. }
  rewrite (proj2 (in_ub_spec 64 n) H64). cbn. by rewrite (proj2 (in_ub_spec w n) Hn).
Qed.

Lemma read_u128_int n : in_u 64 n -> read_u 128 (jint n) = Some n.
Proof.
  intros Hn. unfold read_u. rewrite as_u64_int, (proj2 (in_ub_spec 64 n) Hn). cbn.
  rewrite (proj2 (in_ub_spec 128 n)); [done|]. unfold in_u in *. lia.
Qed.

Lemma read_strings_arr l : read_strings (jarr (jstr <$> l)) = Some l.
Proof.
  unfold read_strings. rewrite as_array_arr. cbn. induction l as [|s l IH]; [done|].
  cbn. rewrite as_str_str. cbn. by rewrite IH.
Qed.

Lemma sum_len_strings l : sum_len (fun s => Z.of_nat (String.length s)) l <= text_len (jarr (jstr <$> l)).
Proof.
  etrans; [|apply text_len_arr]. induction l as [|s l IH]; [done|].
  rewrite fmap_cons. cbn [sum_len foldr] in *. pose proof (text_len_str s). unfold sum_len in *. lia.
Qed.

Lemma text_len_field fs k v : (k, v) ∈ fs -> text_len v <= text_len (jobj fs).
Proof.
  intros Hin. etrans; [|apply text_len_obj]. revert Hin. induction fs as [|[k' v'] fs IH]; [by intros ?%not_elem_of_nil|].
  intros [[= <- <-]|Hin]%elem_of_cons; cbn [sum_len foldr snd].
  - pose proof (sum_len_nonneg (fun f : string * Value => text_len f.2) fs). unfold sum_len in *.
    specialize (H1 (fun f => text_len_nonneg f.2)). lia.
  - specialize (IH Hin). pose proof (text_len_nonneg v'). unfold sum_len in *. lia.
Qed.
End laws.

(** Reads the fields of an object that is spelled out. *)
Ltac json_fields :=
  repeat first
    [ rewrite jget_obj by (refine (bool_decide_unpack _ _); vm_compute; exact I)
    | rewrite struct_fields_obj by (refine (bool_decide_unpack _ _); vm_compute; exact I)
    | progress cbn [alist_lookup fmap list_fmap map String.eqb Ascii.eqb Bool.eqb] ].

(** ** JSON trees *)

Module PlainJson.
Inductive tree :=
| Null | Bool (b : bool) | Int (n : Z) | Str (s : string) | Arr (l : list tree)
| Obj (fs : list (string * tree)).

Fixpoint len (v : tree) : Z :=
  match v with
  | Null => 4
  | Bool b => if b then 4 else 5
  | Int n => 1
  | Str s => Z.of_nat (String.length s) + 2
  | Arr l => sum_len len l + 2
  | Obj fs => sum_len (fun f => len f.2) fs + 2
  end.

#[export] Instance json : Json := {
  Value := tree; jnull := Null; jbool := Bool; jint := Int; jstr := Str; jarr := Arr; jobj := Obj;
  jget k v := match v with Obj fs => alist_lookup k fs | _ => None end;
  as_u64 v := match v with Int n => if in_ub 64 n then Some n else None | _ => None end;
  as_i64 v := match v with Int n => if in_sb 64 n then Some n else None | _ => None end;
  as_str v := match v with Str s => Some s | _ => None end;
  as_bool v := match v with Bool b => Some b | _ => None end;
  as_array v := match v with Arr l => Some l | _ => None end;
  is_null v := match v with Null => true | _ => false end;
  struct_fields names v :=
    match v with
    | Obj fs => Some ((fun k => alist_lookup k fs) <$> names)
    | Arr l => if (List.length l =? List.length names)%nat then Some (Some <$> l) else None
    | _ => None
    end;
  text_len := len;
}.

Lemma len_nonneg v : 0 <= len v.
Proof.
  revert v. fix IH 1. intros [| [] | | | l | fs]; cbn; try lia.
  - assert (0 <= sum_len len l); [|lia]. induction l as [|v l IHl]; cbn; [lia|].
    pose proof (IH v). unfold sum_len in *. lia.
  - assert (0 <= sum_len (fun f => len f.2) fs); [|lia]. induction fs as [|[k v] fs IHl]; cbn; [lia|].
    pose proof (IH v). unfold sum_len in *. lia.
Qed.

#[export] Instance json_laws : JsonLaws.
Proof. split; try done; cbn; try lia. apply len_nonneg. Qed.
End PlainJson.
