(* ===== verification/Crypto.v ===== *)
(** * Crypto: signature dispatch and build profiles (crates/crypto)

    The signature libraries ([fn-dsa], [fips205], [ed25519-dalek], [blst]) are values of
    [SigLib], one per scheme, collected in the class [SigPrims]; what the code relies on is
    [sig_lib_ok]: generated keys parse and their signatures have the declared size and
    verify.  The Cargo features that select the wired schemes are the record [Features], an
    argument of the dispatch. *)

From S2P Require Export Tx.
From Stdlib Require Import Strings.Byte.

Local Open Scope Z_scope.

Inductive CryptoError :=
| UnknownAlgo (algo : Z)
| BadSignature
| Malformed
| NotWired
| NotAllowedInFipsBuild (algo : Z).

#[export] Instance CryptoError_eq_dec : EqDecision CryptoError.
Proof. solve_decision. Defined.

(** ** The libraries *)

(** One signature library at the level of bytes.  The first argument of [lib_keygen] and
    [lib_sign] is the entropy drawn. *)
Record SigLib := {
  lib_keygen : bytes -> bytes * bytes;
  lib_sk_parse : bytes -> bool;
  lib_vk_parse : bytes -> bool;
  lib_sig_parse : bytes -> bool;
  lib_sign : bytes -> bytes -> bytes -> option bytes;
  lib_verify : bytes -> bytes -> bytes -> bool;
}.

(** What a key pair of the library is good for. *)
Record sig_lib_ok (sk_len vk_len sig_len : nat) (L : SigLib) : Prop := {
  lib_keygen_ok rng sk vk : lib_keygen L rng = (sk, vk) ->
    length sk = sk_len /\ length vk = vk_len /\
    lib_sk_parse L sk = true /\ lib_vk_parse L vk = true;
  lib_sign_ok rng sk vk rng' msg : lib_keygen L rng = (sk, vk) ->
    exists sig, lib_sign L rng' sk msg = Some sig /\ length sig = sig_len /\
      lib_sig_parse L sig = true /\ lib_verify L vk sig msg = true;
}.

Class SigPrims := {
  fn_dsa_512 : SigLib;
  slh_dsa_shake_128s : SigLib;
  ed25519_dalek : SigLib;
  blst_min_pk : SigLib;
  (** [AggregateSignature::aggregate], [AggregatePublicKey::aggregate] *)
  blst_aggregate_sigs : list bytes -> option bytes;
  blst_aggregate_pks : list bytes -> option bytes;
}.

Definition FALCON512_VK_LEN : nat := 897.
Definition FALCON512_SK_LEN : nat := 1281.
Definition FALCON512_SIG_LEN : nat := 666.
Definition SLHDSA128S_VK_LEN : nat := 32.
Definition SLHDSA128S_SK_LEN : nat := 64.
Definition SLHDSA128S_SIG_LEN : nat := 7856.
Definition ED_SIG_LEN : nat := 64.
Definition ED_SK_LEN : nat := 32.
Definition BLS_VK_LEN : nat := 48.
Definition BLS_SK_LEN : nat := 32.
Definition BLS_SIG_LEN : nat := 96.

(** ** The four scheme modules *)

Definition reject_unless {E} (b : bool) (e : E) : outcome E unit :=
  if b then Ok tt else Err e.

Section schemes.
Context `{SigPrims}.

Definition falcon_keypair (rng : bytes) : bytes * bytes := lib_keygen fn_dsa_512 rng.

Definition falcon_sign (rng sk_bytes msg : bytes) : outcome CryptoError bytes :=
  if negb (is_array FALCON512_SK_LEN sk_bytes) then Err Malformed
  else if negb (lib_sk_parse fn_dsa_512 sk_bytes) then Err Malformed
  else expect (lib_sign fn_dsa_512 rng sk_bytes msg).

Definition falcon_verify (vk_bytes sig msg : bytes) : outcome CryptoError unit :=
  if negb (is_array FALCON512_VK_LEN vk_bytes) then Err Malformed
  else if negb (is_array FALCON512_SIG_LEN sig) then Err Malformed
  else if negb (lib_vk_parse fn_dsa_512 vk_bytes) then Err Malformed
  else reject_unless (lib_verify fn_dsa_512 vk_bytes sig msg) BadSignature.

Definition slhdsa_keypair (rng : bytes) : outcome CryptoError (bytes * bytes) :=
  let '(sk, vk) := lib_keygen slh_dsa_shake_128s rng in Ok (sk, vk).

Definition slhdsa_sign (sk_bytes msg : bytes) : outcome CryptoError bytes :=
  if negb (is_array SLHDSA128S_SK_LEN sk_bytes) then Err Malformed
  else if negb (lib_sk_parse slh_dsa_shake_128s sk_bytes) then Err Malformed
  else ok_or Malformed (lib_sign slh_dsa_shake_128s [] sk_bytes msg).

Definition slhdsa_verify (vk_bytes sig_bytes msg : bytes) : outcome CryptoError unit :=
  if negb (is_array SLHDSA128S_VK_LEN vk_bytes) then Err Malformed
  else if negb (is_array SLHDSA128S_SIG_LEN sig_bytes) then Err Malformed
  else if negb (lib_vk_parse slh_dsa_shake_128s vk_bytes) then Err Malformed
  else reject_unless (lib_verify slh_dsa_shake_128s vk_bytes sig_bytes msg) BadSignature.

Definition ed25519_keypair (rng : bytes) : bytes * bytes := lib_keygen ed25519_dalek rng.

(** [EdSigningKey::from_bytes] accepts every 32-byte seed. *)
Definition ed25519_sign (sk msg : bytes) : outcome CryptoError bytes :=
  if negb (is_array ED_SK_LEN sk) then Err Malformed
  else expect (lib_sign ed25519_dalek [] sk msg).

Definition ed25519_verify (pk sig msg : bytes) : outcome CryptoError unit :=
  if negb (is_array 32 pk) then Err Malformed
  else if negb (is_array ED_SIG_LEN sig) then Err Malformed
  else if negb (lib_vk_parse ed25519_dalek pk) then Err Malformed
  else reject_unless (lib_verify ed25519_dalek pk sig msg) BadSignature.

Definition bls_keypair (rng : bytes) : bytes * bytes := lib_keygen blst_min_pk rng.

Definition bls_sign (sk_bytes msg : bytes) : outcome CryptoError bytes :=
  if negb (is_array BLS_SK_LEN sk_bytes) then Err Malformed
  else if negb (lib_sk_parse blst_min_pk sk_bytes) then Err Malformed
  else expect (lib_sign blst_min_pk [] sk_bytes msg).

Definition bls_verify (vk_bytes sig_bytes msg : bytes) : outcome CryptoError unit :=
  if negb (is_array BLS_VK_LEN vk_bytes) then Err Malformed
  else if negb (is_array BLS_SIG_LEN sig_bytes) then Err Malformed
  else if negb (lib_vk_parse blst_min_pk vk_bytes) then Err Malformed
  else if negb (lib_sig_parse blst_min_pk sig_bytes) then Err Malformed
  else reject_unless (lib_verify blst_min_pk vk_bytes sig_bytes msg) BadSignature.

Definition aggregate_signatures (sigs : list bytes) : outcome CryptoError bytes :=
  if bool_decide (sigs = []) then Err Malformed
  else if negb (forallb (fun b => is_array BLS_SIG_LEN b && lib_sig_parse blst_min_pk b) sigs)
  then Err Malformed
  else ok_or BadSignature (blst_aggregate_sigs sigs).

Definition aggregate_pubkeys (pks : list bytes) : outcome CryptoError bytes :=
  if bool_decide (pks = []) then Err Malformed
  else if negb (forallb (fun b => is_array BLS_VK_LEN b && lib_vk_parse blst_min_pk b) pks)
  then Err Malformed
  else ok_or BadSignature (blst_aggregate_pks pks).

Definition verify_aggregated (agg_vk agg_sig msg : bytes) : outcome CryptoError unit :=
  bls_verify agg_vk agg_sig msg.
End schemes.

(** ** Build profiles and dispatch *)

Record Features := {
  ft_ed25519 : bool;
  ft_falcon : bool;
  ft_slhdsa : bool;
  ft_bls : bool;
  ft_fips : bool;
}.

(** [default = ["ed25519", "falcon", "slhdsa", "bls"]] *)
Definition default_features : Features :=
  {| ft_ed25519 := true; ft_falcon := true; ft_slhdsa := true; ft_bls := true;
     ft_fips := false |}.

(** [--no-default-features --features fips]; [fips = ["slhdsa"]] *)
Definition fips_features : Features :=
  {| ft_ed25519 := false; ft_falcon := false; ft_slhdsa := true; ft_bls := false;
     ft_fips := true |}.

(** [--features fips] with the default features still on: Cargo features add up. *)
Definition fips_with_defaults : Features :=
  {| ft_ed25519 := true; ft_falcon := true; ft_slhdsa := true; ft_bls := true;
     ft_fips := true |}.

(** The arm of a scheme whose feature is off. *)
Definition unwired {A} (ft : Features) (algo : Z) : outcome CryptoError A :=
  if ft_fips ft then Err (NotAllowedInFipsBuild algo) else Err NotWired.

Definition sign `{SigPrims} (ft : Features) (rng : bytes) (algo : Z) (sk msg : bytes)
    : outcome CryptoError bytes :=
  if algo =? 1 then (if ft_falcon ft then falcon_sign rng sk msg else unwired ft 1)
  else if algo =? 2 then (if ft_slhdsa ft then slhdsa_sign sk msg else Err NotWired)
  else if algo =? 4 then Err NotWired
  else if algo =? 3 then (if ft_ed25519 ft then ed25519_sign sk msg else unwired ft 3)
  else if algo =? 5 then (if ft_bls ft then bls_sign sk msg else Err NotWired)
  else Err (UnknownAlgo algo).

Definition verify `{SigPrims} (ft : Features) (algo : Z) (pk sig msg : bytes)
    : outcome CryptoError unit :=
  if algo =? 1 then (if ft_falcon ft then falcon_verify pk sig msg else unwired ft 1)
  else if algo =? 2 then (if ft_slhdsa ft then slhdsa_verify pk sig msg else Err NotWired)
  else if algo =? 4 then Err NotWired
  else if algo =? 3 then (if ft_ed25519 ft then ed25519_verify pk sig msg else unwired ft 3)
  else if algo =? 5 then (if ft_bls ft then bls_verify pk sig msg else Err NotWired)
  else Err (UnknownAlgo algo).

Definition sizes (algo : Z) : option (nat * nat) :=
  if algo =? 1 then Some (897, 666)%nat
  else if algo =? 2 then Some (32, 7856)%nat
  else if algo =? 3 then Some (32%nat, ED_SIG_LEN)
  else if algo =? 4 then Some (1952, 3309)%nat
  else if algo =? 5 then Some (48, 96)%nat
  else None.

Definition FIPS_ALLOWLIST_SIG : list Z := [2; 4].
Definition FIPS_ALLOWLIST_HASH : list Z := [3].
Definition DEFAULT_ALLOWLIST_SIG : list Z := [1; 2; 3; 4; 5].
Definition DEFAULT_ALLOWLIST_HASH : list Z := [1; 2; 3].

Definition active_allowlist_sig (ft : Features) : list Z :=
  if ft_fips ft then FIPS_ALLOWLIST_SIG else DEFAULT_ALLOWLIST_SIG.

Definition active_allowlist_hash (ft : Features) : list Z :=
  if ft_fips ft then FIPS_ALLOWLIST_HASH else DEFAULT_ALLOWLIST_HASH.

Definition allowed_sig (ft : Features) (algo : Z) : bool :=
  bool_decide (algo ∈ active_allowlist_sig ft).

Definition allowed_hash (ft : Features) (algo : Z) : bool :=
  bool_decide (algo ∈ active_allowlist_hash ft).

Definition is_fips_build (ft : Features) : bool := ft_fips ft.

(** ** Laws *)

Lemma reject_unless_Ok {E} b (e : E) : reject_unless b e = Ok tt <-> b = true.
Proof. destruct b; cbn; split; congruence. Qed.

(** Reads the guards of a successful [if .. then Err .. else ..] chain. *)
Ltac guards H :=
  repeat match type of H with
  | (if ?b then Err _ else _) = Ok _ =>
      let Hg := fresh "Hg" in destruct b eqn:Hg; [discriminate H|];
      first [apply negb_false_iff in Hg | idtac]
  | (if ?b then Ok _ else Err _) = Ok _ =>
      let Hg := fresh "Hg" in destruct b eqn:Hg; [|discriminate H]
  end.

(** Whether the build wires an algorithm, and the library behind it. *)
Definition wired (ft : Features) (algo : Z) : bool :=
  ((algo =? 1) && ft_falcon ft) || ((algo =? 2) && ft_slhdsa ft) ||
  ((algo =? 3) && ft_ed25519 ft) || ((algo =? 5) && ft_bls ft).

Definition lib_of `{SigPrims} (algo : Z) : SigLib :=
  if algo =? 1 then fn_dsa_512
  else if algo =? 2 then slh_dsa_shake_128s
  else if algo =? 3 then ed25519_dalek
  else blst_min_pk.

Definition sk_len_of (algo : Z) : nat :=
  if algo =? 1 then FALCON512_SK_LEN
  else if algo =? 2 then SLHDSA128S_SK_LEN
  else if algo =? 3 then ED_SK_LEN
  else BLS_SK_LEN.

(** The documented behaviour of every wired library. *)
Definition libs_ok `{SigPrims} : Prop := forall algo pk_len sig_len,
  algo <> 4 -> sizes algo = Some (pk_len, sig_len) ->
  sig_lib_ok (sk_len_of algo) pk_len sig_len (lib_of algo).

Section laws.
Context `{SigPrims}.

Lemma wired_cases ft algo : wired ft algo = true ->
  (algo = 1 /\ ft_falcon ft = true) \/ (algo = 2 /\ ft_slhdsa ft = true) \/
  (algo = 3 /\ ft_ed25519 ft = true) \/ (algo = 5 /\ ft_bls ft = true).
Proof.
  unfold wired. rewrite !orb_true_iff, !andb_true_iff, !Z.eqb_eq. tauto.
Qed.

Lemma falcon_verify_Ok pk sig msg :
  falcon_verify pk sig msg = Ok tt <->
  length pk = FALCON512_VK_LEN /\ length sig = FALCON512_SIG_LEN /\
  lib_vk_parse fn_dsa_512 pk = true /\ lib_verify fn_dsa_512 pk sig msg = true.
Proof.
  unfold falcon_verify. rewrite <- !is_array_spec.
  destruct (is_array _ pk), (is_array _ sig), (lib_vk_parse _ _); cbn;
    rewrite ?reject_unless_Ok; naive_solver.
Qed.

Lemma slhdsa_verify_Ok pk sig msg :
  slhdsa_verify pk sig msg = Ok tt <->
  length pk = SLHDSA128S_VK_LEN /\ length sig = SLHDSA128S_SIG_LEN /\
  lib_vk_parse slh_dsa_shake_128s pk = true /\
  lib_verify slh_dsa_shake_128s pk sig msg = true.
Proof.
  unfold slhdsa_verify. rewrite <- !is_array_spec.
  destruct (is_array _ pk), (is_array _ sig), (lib_vk_parse _ _); cbn;
    rewrite ?reject_unless_Ok; naive_solver.
Qed.

Lemma ed25519_verify_Ok pk sig msg :
  ed25519_verify pk sig msg = Ok tt <->
  length pk = 32%nat /\ length sig = ED_SIG_LEN /\
  lib_vk_parse ed25519_dalek pk = true /\ lib_verify ed25519_dalek pk sig msg = true.
Proof.
  unfold ed25519_verify. rewrite <- !is_array_spec.
  destruct (is_array _ pk), (is_array _ sig), (lib_vk_parse _ _); cbn;
    rewrite ?reject_unless_Ok; naive_solver.
Qed.

Lemma bls_verify_Ok pk sig msg :
  bls_verify pk sig msg = Ok tt <->
  length pk = BLS_VK_LEN /\ length sig = BLS_SIG_LEN /\
  lib_vk_parse blst_min_pk pk = true /\ lib_sig_parse blst_min_pk sig = true /\
  lib_verify blst_min_pk pk sig msg = true.
Proof.
  unfold bls_verify. rewrite <- !is_array_spec.
  destruct (is_array _ pk), (is_array _ sig), (lib_vk_parse _ _), (lib_sig_parse _ _); cbn;
    rewrite ?reject_unless_Ok; naive_solver.
Qed.

Lemma verify_wired ft algo pk sig msg :
  verify ft algo pk sig msg = Ok tt -> wired ft algo = true.
Proof.
  unfold verify, wired, unwired. intros Hv.
  destruct (Z.eqb_spec algo 1), (Z.eqb_spec algo 2), (Z.eqb_spec algo 4),
    (Z.eqb_spec algo 3), (Z.eqb_spec algo 5); subst; try discriminate; try lia;
    destruct (ft_falcon ft), (ft_slhdsa ft), (ft_ed25519 ft), (ft_bls ft), (ft_fips ft);
    done.
Qed.

Lemma verify_Ok ft algo pk sig msg :
  verify ft algo pk sig msg = Ok tt ->
  sizes algo = Some (length pk, length sig) /\ lib_verify (lib_of algo) pk sig msg = true.
Proof.
  intros Hv. pose proof (verify_wired _ _ _ _ _ Hv) as Hw.
  apply wired_cases in Hw as [[-> Hf]|[[-> Hf]|[[-> Hf]|[-> Hf]]]];
    unfold verify in Hv; cbn in Hv; rewrite Hf in Hv.
  - apply falcon_verify_Ok in Hv as (-> & -> & _ & ?). done.
  - apply slhdsa_verify_Ok in Hv as (-> & -> & _ & ?). done.
  - apply ed25519_verify_Ok in Hv as (-> & -> & _ & ?). done.
  - apply bls_verify_Ok in Hv as (-> & -> & _ & _ & ?). done.
Qed.

Lemma verify_lib ft algo pk sig msg :
  wired ft algo = true -> sizes algo = Some (length pk, length sig) ->
  lib_vk_parse (lib_of algo) pk = true -> lib_sig_parse (lib_of algo) sig = true ->
  lib_verify (lib_of algo) pk sig msg = true ->
  verify ft algo pk sig msg = Ok tt.
Proof.
  intros Hw Hsz Hpk Hsig Hv.
  apply wired_cases in Hw as [[-> Hf]|[[-> Hf]|[[-> Hf]|[-> Hf]]]];
    cbn in Hsz; simplify_eq; unfold verify; cbn; rewrite Hf.
  - by apply falcon_verify_Ok.
  - by apply slhdsa_verify_Ok.
  - by apply ed25519_verify_Ok.
  - by apply bls_verify_Ok.
Qed.

Lemma sign_lib ft rng algo sk vk rng' msg pk_len sig_len :
  wired ft algo = true -> sizes algo = Some (pk_len, sig_len) ->
  sig_lib_ok (sk_len_of algo) pk_len sig_len (lib_of algo) ->
  lib_keygen (lib_of algo) rng = (sk, vk) ->
  exists sig rng'', sign ft rng' algo sk msg = Ok sig /\
    lib_sign (lib_of algo) rng'' sk msg = Some sig.
Proof.
  intros Hw Hsz HL Hk. destruct (lib_keygen_ok _ _ _ _ HL _ _ _ Hk) as (Hsk & _ & Hp & _).
  apply wired_cases in Hw as [[-> Hf]|[[-> Hf]|[[-> Hf]|[-> Hf]]]];
    unfold sign; cbn in *; rewrite Hf; apply is_array_spec in Hsk.
  - destruct (lib_sign_ok _ _ _ _ HL _ _ _ rng' msg Hk) as (sig & Hs & _).
    exists sig, rng'. unfold falcon_sign. by rewrite Hsk, Hp, Hs.
  - destruct (lib_sign_ok _ _ _ _ HL _ _ _ [] msg Hk) as (sig & Hs & _).
    exists sig, []. unfold slhdsa_sign. by rewrite Hsk, Hp, Hs.
  - destruct (lib_sign_ok _ _ _ _ HL _ _ _ [] msg Hk) as (sig & Hs & _).
    exists sig, []. unfold ed25519_sign. by rewrite Hsk, Hs.
  - destruct (lib_sign_ok _ _ _ _ HL _ _ _ [] msg Hk) as (sig & Hs & _).
    exists sig, []. unfold bls_sign. by rewrite Hsk, Hp, Hs.
Qed.

Lemma allowed_sig_wired_default algo :
  wired default_features algo = true -> allowed_sig default_features algo = true.
Proof. intros Hw. apply wired_cases in Hw. destruct_or!; destruct_and!; by subst. Qed.
End laws.

(** ** Properties *)

Section properties.
Context `{SigPrims}.

(** Dispatch round trip.  In every build, for every algorithm the build wires, a
    signature that [sign] makes with a generated key has exactly the size [sizes]
    declares and [verify] accepts it under the matching public key. *)
Theorem sign_verify_roundtrip ft algo rng rng' sk vk msg :
  libs_ok -> wired ft algo = true -> lib_keygen (lib_of algo) rng = (sk, vk) ->
  exists sig, sign ft rng' algo sk msg = Ok sig /\
    sizes algo = Some (length vk, length sig) /\
    verify ft algo vk sig msg = Ok tt.
Proof.
  intros Hlibs Hw Hk.
  assert (exists p s, algo <> 4 /\ sizes algo = Some (p, s)) as (p & s & H4 & Hsz).
  { apply wired_cases in Hw. destruct_or!; destruct_and!; subst; by eexists _, _. }
  pose proof (Hlibs algo p s H4 Hsz) as HL.
  destruct (sign_lib ft rng algo sk vk rng' msg p s) as (sig & r & Hs & Hl); [done..|].
  destruct (lib_sign_ok _ _ _ _ HL _ _ _ r msg Hk) as (sig' & Hs' & Hlen & Hsp & Hv).
  destruct (lib_keygen_ok _ _ _ _ HL _ _ _ Hk) as (_ & Hvl & _ & Hvp).
  rewrite Hl in Hs'. injection Hs' as ->.
  exists sig'. split_and!; [done|by rewrite Hsz, Hvl, Hlen|].
  apply verify_lib; [done|by rewrite Hsz, Hvl, Hlen|done..].
Qed.

(** in the FIPS build ([--no-default-features --features fips]) every signature that
    [verify] accepts is an SLH-DSA-128s signature of the declared size, whose algorithm is
    on the FIPS allowlist, while Ed25519 and Falcon are refused as not allowed; and in
    every build an accepted signature has the sizes declared for its algorithm. *)
Theorem verify_profiles ft algo pk sig msg :
  verify ft algo pk sig msg = Ok tt ->
  sizes algo = Some (length pk, length sig) /\
  (ft = fips_features -> algo = 2 /\ allowed_sig ft algo = true) /\
  verify fips_features 1 pk sig msg = Err (NotAllowedInFipsBuild 1) /\
  verify fips_features 3 pk sig msg = Err (NotAllowedInFipsBuild 3).
Proof.
  intros Hv. split_and!; [by apply verify_Ok in Hv as [? _]| |done|done].
  intros ->. apply verify_wired, wired_cases in Hv.
  cbn in Hv. destruct_or!; destruct_and!; subst; done.
Qed.

(** Cargo features only add up, so [cargo build --features fips] keeps the default
    schemes: that build still accepts every Ed25519 signature the default build accepts,
    although [allowed_sig] refuses the algorithm and [is_fips_build] is true. *)
Theorem fips_with_defaults_accepts_ed25519 pk sig msg :
  verify fips_with_defaults 3 pk sig msg = verify default_features 3 pk sig msg /\
  is_fips_build fips_with_defaults = true /\ allowed_sig fips_with_defaults 3 = false.
Proof. done. Qed.
End properties.

(** ** A concrete instance

    Keys and signatures are checksums of the declared sizes.  The BLS one is linear in the
    key, so that aggregates verify. *)
Module ChecksumSig.
Import Checksum.

Definition lib (sk_len vk_len sig_len : nat) : SigLib := {|
  lib_keygen rng := let sk := le_bytes sk_len (poly rng) in
                    (sk, le_bytes vk_len (poly sk));
  lib_sk_parse _ := true;
  lib_vk_parse _ := true;
  lib_sig_parse _ := true;
  lib_sign _ sk msg := Some (le_bytes sig_len (poly (le_bytes vk_len (poly sk) ++ msg)));
  lib_verify vk sig msg := bool_decide (sig = le_bytes sig_len (poly (vk ++ msg)));
|}.

Definition bls_lib : SigLib := {|
  lib_keygen rng := let sk := le_bytes 32 (poly rng) in (sk, le_bytes 48 (poly sk));
  lib_sk_parse _ := true;
  lib_vk_parse _ := true;
  lib_sig_parse _ := true;
  lib_sign _ sk msg := Some (le_bytes 96 (le_to_Z (le_bytes 48 (poly sk)) * poly msg));
  lib_verify vk sig msg := bool_decide (sig = le_bytes 96 (le_to_Z vk * poly msg));
|}.

Definition sum_le (n : nat) (l : list bytes) : bytes :=
  le_bytes n (foldr (fun b acc => le_to_Z b + acc) 0 l).

#[export] Instance prims : SigPrims := {
  fn_dsa_512 := lib 1281 897 666;
  slh_dsa_shake_128s := lib 64 32 7856;
  ed25519_dalek := lib 32 32 64;
  blst_min_pk := bls_lib;
  blst_aggregate_sigs l := Some (sum_le 96 l);
  blst_aggregate_pks l := Some (sum_le 48 l);
}.

Lemma lib_ok a b c : sig_lib_ok a b c (lib a b c).
Proof.
  split; cbn.
  - intros rng sk vk [= <- <-]. by rewrite !length_le_bytes.
  - intros rng sk vk rng' msg [= <- <-]. eexists. split; [done|].
    rewrite length_le_bytes, bool_decide_eq_true. done.
Qed.

Lemma bls_lib_ok : sig_lib_ok 32 48 96 bls_lib.
Proof.
  split; cbn.
  - intros rng sk vk [= <- <-]. by rewrite !length_le_bytes.
  - intros rng sk vk rng' msg [= <- <-]. eexists. split; [done|].
    rewrite length_le_bytes, bool_decide_eq_true. done.
Qed.

Lemma all_ok : libs_ok.
Proof.
  intros algo p s H4. unfold sizes, sk_len_of, lib_of.
  destruct (Z.eqb_spec algo 1); [intros [= <- <-]; apply lib_ok|].
  destruct (Z.eqb_spec algo 2); [intros [= <- <-]; apply lib_ok|].
  destruct (Z.eqb_spec algo 3); [intros [= <- <-]; apply lib_ok|].
  destruct (Z.eqb_spec algo 4); [done|].
  destruct (Z.eqb_spec algo 5); [intros [= <- <-]; apply bls_lib_ok|done].
Qed.
End ChecksumSig.

#[local] Existing Instance ChecksumSig.prims.

Lemma sign_verify_roundtrip_witness :
  exists sig, sign fips_features [] 2 (lib_keygen (lib_of 2) [x07]).1 [x01] = Ok sig /\
    sizes 2 = Some (length (lib_keygen (lib_of 2) [x07]).2, length sig) /\
    verify fips_features 2 (lib_keygen (lib_of 2) [x07]).2 sig [x01] = Ok tt.
Proof.
  apply (sign_verify_roundtrip fips_features 2 [x07] []);
    [exact ChecksumSig.all_ok|reflexivity|reflexivity].
Defined.

Lemma verify_profiles_witness :
  let pk := replicate 32 x01 in
  let sig := le_bytes 64 (Checksum.poly (pk ++ [x05])) in
  sizes 3 = Some (length pk, length sig) /\
  (default_features = fips_features -> 3 = 2 /\ allowed_sig default_features 3 = true) /\
  verify fips_features 1 pk sig [x05] = Err (NotAllowedInFipsBuild 1) /\
  verify fips_features 3 pk sig [x05] = Err (NotAllowedInFipsBuild 3).
Proof. cbv zeta. apply verify_profiles. vm_compute. reflexivity. Defined.
