(* ===== verification/Store.v ===== *)
(** * Store: the authenticated key-value store
    (crates/state/src/store.rs, crates/state/src/subtrees.rs)

    The trait [StateStore] is a class with its laws in a class of their own: the client
    ([Apply]) is proved against the laws, the in-memory store [MemState] discharges them here
    and the RocksDB store refines [MemState] in [Rocks].  A [BTreeMap] is a [gmap] and its
    iteration order the sorted list of its entries. *)

From S2P Require Export Crypto.
From Stdlib Require Import Strings.Byte.

Local Open Scope Z_scope.

Inductive Subtree :=
| Accounts | Code | Storage | Meta | Reflect | Blocks | Headers | Witnesses | Attest.

#[export] Instance Subtree_eq_dec : EqDecision Subtree.
Proof. solve_decision. Defined.

(** [Subtree as u8]: the position of the constructor. *)
Definition Subtree_as_u8 (s : Subtree) : byte :=
  match s with
  | Accounts => x00 | Code => x01 | Storage => x02 | Meta => x03 | Reflect => x04
  | Blocks => x05 | Headers => x06 | Witnesses => x07 | Attest => x08
  end.

(** [Subtree::tag] *)
Definition Subtree_tag (s : Subtree) : bytes :=
  ascii_bytes match s with
  | Accounts => "accounts" | Code => "code" | Storage => "storage" | Meta => "meta"
  | Reflect => "reflect" | Blocks => "blocks" | Headers => "headers"
  | Witnesses => "witnesses" | Attest => "attest"
  end.

(** ** The trait and its laws *)

Class StateStore (St : Type) := {
  put : St -> Subtree -> bytes -> bytes -> St;
  get : St -> Subtree -> bytes -> option bytes;
  root : St -> bytes;
}.
#[export] Hint Mode StateStore ! : typeclass_instances.

Class StateStoreLaws (St : Type) `{StateStore St} := {
  get_put_same (s : St) sub k v : get (put s sub k v) sub k = Some v;
  get_put_other (s : St) sub k v sub' k' :
    (sub, k) <> (sub', k') -> get (put s sub k v) sub' k' = get s sub' k';
  length_root (s : St) : length (root s) = 32%nat;
}.
#[export] Hint Mode StateStoreLaws ! - : typeclass_instances.

(** ** The in-memory store *)

Abbreviation MemState := (gmap (byte * bytes) bytes).

Definition MemState_new : MemState := ∅.

(** The order of [(u8, Vec<u8>)] keys is the lexicographic order of tag and key. *)
Definition entry_le (e1 e2 : (byte * bytes) * bytes) : Prop :=
  bytes_le (e1.1.1 :: e1.1.2) (e2.1.1 :: e2.1.2).

#[export] Instance entry_le_dec : RelDecision entry_le.
Proof. intros e1 e2. unfold entry_le. apply _. Defined.

Definition iter_canonical (m : MemState) : list ((byte * bytes) * bytes) :=
  merge_sort entry_le (map_to_list m).

Definition mem_put (m : MemState) (sub : Subtree) (key value : bytes) : MemState :=
  <[(Subtree_as_u8 sub, key) := value]> m.

Definition mem_get (m : MemState) (sub : Subtree) (key : bytes) : option bytes :=
  m !! (Subtree_as_u8 sub, key).

(** What one entry contributes to the root preimage. *)
Definition root_entry (e : (byte * bytes) * bytes) : bytes :=
  let '((s, k), v) := e in [s] ++ len_u32_le k ++ k ++ len_u32_le v ++ v.

(** The digest of an already ordered list of entries. *)
Definition root_of_entries `{HashPrims} (es : list ((byte * bytes) * bytes)) : bytes :=
  truncate_to_32 (hash_with_domain Blake3Xof512 (ascii_bytes "memroot")
    (concat (root_entry <$> es))).

Definition mem_root `{HashPrims} (m : MemState) : bytes := root_of_entries (iter_canonical m).

#[export] Instance MemState_store `{HashPrims} : StateStore MemState := {
  put := mem_put;
  get := mem_get;
  root := mem_root;
}.

(** ** Laws *)

Lemma Subtree_as_u8_inj s1 s2 : Subtree_as_u8 s1 = Subtree_as_u8 s2 -> s1 = s2.
Proof. by destruct s1, s2. Qed.

Section order.
#[local] Instance entry_le_total : Total entry_le.
Proof. intros e1 e2. apply bytes_le_total. Qed.

#[local] Instance entry_le_trans : Transitive entry_le.
Proof. intros e1 e2 e3. unfold entry_le. apply bytes_le_trans. Qed.

Lemma iter_canonical_perm m : iter_canonical m ≡ₚ map_to_list m.
Proof. apply merge_sort_Permutation. Qed.

Lemma iter_canonical_sorted m : StronglySorted entry_le (iter_canonical m).
Proof. apply StronglySorted_merge_sort; apply _. Qed.

Lemma elem_of_iter_canonical m k v : (k, v) ∈ iter_canonical m <-> m !! k = Some v.
Proof. rewrite iter_canonical_perm. apply elem_of_map_to_list. Qed.

Lemma entry_le_antisymm m e1 e2 :
  e1 ∈ iter_canonical m -> e2 ∈ iter_canonical m ->
  entry_le e1 e2 -> entry_le e2 e1 -> e1 = e2.
Proof.
  destruct e1 as [[s1 k1] v1], e2 as [[s2 k2] v2]. rewrite !elem_of_iter_canonical.
  unfold entry_le; cbn. intros H1 H2 L1 L2.
  pose proof (bytes_le_antisymm _ _ L1 L2) as [= -> ->]. congruence.
Qed.

(** The sorted walk is the only sorted list of the entries. *)
Lemma iter_canonical_unique m l :
  l ≡ₚ map_to_list m -> StronglySorted entry_le l -> l = iter_canonical m.
Proof.
  intros Hp Hs. eapply (StronglySorted_unique_strong entry_le).
  - intros e1 e2 M1 M2. apply (entry_le_antisymm m).
    + by rewrite iter_canonical_perm, <- Hp.
    + done.
  - done.
  - apply iter_canonical_sorted.
  - by rewrite iter_canonical_perm.
Qed.

Lemma iter_canonical_inj m1 m2 : iter_canonical m1 = iter_canonical m2 -> m1 = m2.
Proof.
  intros E. apply map_eq. intros k. apply option_eq. intros v.
  by rewrite <- !elem_of_iter_canonical, E.
Qed.
End order.

(** Keys and values small enough for the 4-byte length prefixes. *)
Definition mem_sized (m : MemState) : Prop :=
  forall k v, m !! k = Some v -> fits_u32 k.2 = true /\ fits_u32 v = true.

Lemma mem_sized_new : mem_sized MemState_new.
Proof. intros k v Hk. by apply (lookup_empty_Some (M:=gmap _) k v) in Hk. Qed.

Lemma mem_sized_put m sub k v :
  fits_u32 k = true -> fits_u32 v = true -> mem_sized m -> mem_sized (mem_put m sub k v).
Proof.
  intros Hk Hv Hm k' v' E. unfold mem_put in E. apply lookup_insert_Some in E as [[<- <-]|[_ E]]; [done|].
  by apply Hm.
Qed.

Section root.
Context `{HashPrims}.

Lemma root_of_entries_blake3 es :
  root_of_entries es = blake3 (domain_tag (ascii_bytes "memroot") ++ concat (root_entry <$> es)).
Proof.
  unfold root_of_entries, truncate_to_32, hash_with_domain.
  by rewrite blake3_xof_prefix by lia.
Qed.

Lemma root_entries_inj es1 es2 :
  Forall (fun e => fits_u32 e.1.2 = true /\ fits_u32 e.2 = true) es1 ->
  Forall (fun e => fits_u32 e.1.2 = true /\ fits_u32 e.2 = true) es2 ->
  concat (root_entry <$> es1) = concat (root_entry <$> es2) -> es1 = es2.
Proof.
  intros F1. revert es2. induction F1 as [|[[s1 k1] v1] es1 [K1 V1] F1 IH];
    intros es2 F2 E; destruct F2 as [|[[s2 k2] v2] es2 [K2 V2] F2]; try done.
  cbn in E, K1, K2, V1, V2. apply cons_eq_inv in E as [-> E].
  rewrite <- !app_assoc in E.
  apply len_u32_bytes_inj in E as [-> E]; [|done..].
  apply len_u32_bytes_inj in E as [-> E]; [|done..].
  f_equal. by apply IH.
Qed.

Lemma mem_sized_entries m : mem_sized m ->
  Forall (fun e => fits_u32 e.1.2 = true /\ fits_u32 e.2 = true) (iter_canonical m).
Proof.
  intros Hm. apply Forall_elem. intros [k v] He.
  apply elem_of_iter_canonical in He. by apply (Hm k v).
Qed.
End root.

#[export] Instance MemState_laws `{HashPrims} : StateStoreLaws MemState.
Proof.
  split.
  - intros s sub k v. cbn. unfold mem_get, mem_put. apply lookup_insert_eq.
  - intros s sub k v sub' k' Hne. cbn. unfold mem_get, mem_put.
    apply lookup_insert_ne. intros [= E1%Subtree_as_u8_inj ->]. by subst.
  - intros s. change (length (root_of_entries (iter_canonical s)) = 32%nat).
    rewrite root_of_entries_blake3. apply length_blake3.
Qed.

(** ** Properties *)

Section properties.
Context `{HashPrims}.

(** The state root of the in-memory store commits to its whole content.  Two stores
    with the same root hold the same entries, or the two root preimages collide in
    Blake3; equal contents always give equal roots, whatever the order of the writes. *)
Lemma mem_root_binding m1 m2 :
  mem_sized m1 -> mem_sized m2 -> mem_root m1 = mem_root m2 ->
  (forall sub k, mem_get m1 sub k = mem_get m2 sub k) \/
  blake3_collision
    (domain_tag (ascii_bytes "memroot") ++ concat (root_entry <$> iter_canonical m1))
    (domain_tag (ascii_bytes "memroot") ++ concat (root_entry <$> iter_canonical m2)).
Proof.
  intros S1 S2 E. unfold mem_root in E. rewrite !root_of_entries_blake3 in E.
  apply blake3_inj_or in E as [E|E]; [left|by right].
  apply app_inv_head, root_entries_inj in E; [|by apply mem_sized_entries..].
  apply iter_canonical_inj in E. by subst.
Qed.
End properties.

#[local] Existing Instance Checksum.prims.

Lemma mem_root_binding_witness :
  let m1 := mem_put (mem_put MemState_new Accounts [x01] [x02]) Meta [x03] [x04] in
  let m2 := mem_put (mem_put MemState_new Meta [x03] [x04]) Accounts [x01] [x02] in
  (forall sub k, mem_get m1 sub k = mem_get m2 sub k) \/
  blake3_collision
    (domain_tag (ascii_bytes "memroot") ++ concat (root_entry <$> iter_canonical m1))
    (domain_tag (ascii_bytes "memroot") ++ concat (root_entry <$> iter_canonical m2)).
Proof.
  cbv zeta. apply mem_root_binding; [..|vm_compute; reflexivity];
    repeat (apply mem_sized_put; [reflexivity|reflexivity|]); apply mem_sized_new.
Defined.
