(* ===== verification/Rocks.v ===== *)
(** * Rocks: the persistent store (crates/state/src/rocks_store.rs)

    The RocksDB library is a parameter: fallible reads and writes on a database type, with a
    finite map as its documented meaning.  [RocksState] keeps a cache of the root in front of
    it.  The abstract specification is [MemState]: every run of operations on the persistent
    store answers what the in-memory store answers. *)

From S2P Require Export Store.
From Stdlib Require Import Strings.Byte.

Local Open Scope Z_scope.

(** The calls of the [rocksdb] crate; [None] is an error. *)
Class RocksDb (DB : Type) := {
  db_put : DB -> bytes -> bytes -> option DB;
  db_write : DB -> list (bytes * bytes) -> option DB;
  db_get : DB -> bytes -> option (option bytes);
  db_iter : DB -> list (option (bytes * bytes));
}.
#[export] Hint Mode RocksDb ! : typeclass_instances.

Definition key_sorted (es : list (bytes * bytes)) : Prop :=
  StronglySorted (fun e1 e2 => bytes_le e1.1 e2.1) es.

(** What a call means when it does not fail: an ordered map of byte strings. *)
Class RocksDbLaws (DB : Type) `{RocksDb DB} := {
  db_map : DB -> gmap bytes bytes;
  db_put_map (db : DB) k v db' : db_put db k v = Some db' -> db_map db' = <[k := v]> (db_map db);
  db_write_map (db : DB) batch db' : db_write db batch = Some db' ->
    db_map db' = foldl (fun m e => <[e.1 := e.2]> m) (db_map db) batch;
  db_get_map (db : DB) k r : db_get db k = Some r -> r = db_map db !! k;
  db_iter_map (db : DB) es : db_iter db = Some <$> es ->
    es ≡ₚ map_to_list (db_map db) /\ key_sorted es;
}.
#[export] Hint Mode RocksDbLaws ! - : typeclass_instances.

(** A disk that can be read; writes may still fail. *)
Class ReadableDb (DB : Type) `{RocksDb DB} := {
  db_get_reads (db : DB) k : is_Some (db_get db k);
  db_iter_reads (db : DB) : exists es, db_iter db = Some <$> es;
}.
#[export] Hint Mode ReadableDb ! - : typeclass_instances.

Inductive RocksError := RocksDbError | RocksIoError.

Record RocksState {DB : Type} := {
  rs_db : DB;
  rs_cached_root : option bytes;
}.
Arguments RocksState : clear implicits.

Section rocks.
Context {DB : Type} `{RocksDb DB} `{HashPrims}.
Notation Rocks := (RocksState DB).

(** [RocksState::open] on the database found at the path. *)
Definition rocks_open (dir_ok : bool) (db : option DB) : outcome RocksError Rocks :=
  if negb dir_ok then Err RocksIoError
  else db ← ok_or RocksDbError db; Ok {| rs_db := db; rs_cached_root := None |}.

Definition encode_key (sub : Subtree) (key : bytes) : bytes := Subtree_as_u8 sub :: key.

(** One item of the iterator: errors and empty keys are skipped. *)
Definition decode_item (item : option (bytes * bytes)) : option ((byte * bytes) * bytes) :=
  match item with
  | Some (sub :: key, v) => Some ((sub, key), v)
  | _ => None
  end.

Definition rocks_iter_canonical (s : Rocks) : list ((byte * bytes) * bytes) :=
  omap decode_item (db_iter (rs_db s)).

Definition import_from (src : MemState) (s : Rocks) : outcome RocksError Rocks :=
  db ← ok_or RocksDbError
         (db_write (rs_db s) ((fun e => (e.1.1 :: e.1.2, e.2)) <$> iter_canonical src));
  Ok {| rs_db := db; rs_cached_root := None |}.

(** A write error is a panic. *)
Definition rocks_put (s : Rocks) (sub : Subtree) (key value : bytes) : outcome RocksError Rocks :=
  match db_put (rs_db s) (encode_key sub key) value with
  | Some db => Ok {| rs_db := db; rs_cached_root := None |}
  | None => Panic
  end.

(** A read error is an absent key. *)
Definition rocks_get (s : Rocks) (sub : Subtree) (key : bytes) : option bytes :=
  match db_get (rs_db s) (encode_key sub key) with
  | Some v => v
  | None => None
  end.

(** The root, and the store with the root in its cache. *)
Definition rocks_root (s : Rocks) : bytes * Rocks :=
  match rs_cached_root s with
  | Some cached => (cached, s)
  | None =>
      let r := root_of_entries (rocks_iter_canonical s) in
      (r, {| rs_db := rs_db s; rs_cached_root := Some r |})
  end.

(** ** Runs of operations *)

Inductive store_op :=
| OpPut (sub : Subtree) (key value : bytes)
| OpGet (sub : Subtree) (key : bytes)
| OpRoot
| OpImport (src : MemState).

Inductive store_out :=
| OutUnit
| OutValue (v : option bytes)
| OutRoot (r : bytes).

Definition rocks_step (op : store_op) (s : Rocks) : outcome RocksError (store_out * Rocks) :=
  match op with
  | OpPut sub k v => s ← rocks_put s sub k v; Ok (OutUnit, s)
  | OpGet sub k => Ok (OutValue (rocks_get s sub k), s)
  | OpRoot => let '(r, s) := rocks_root s in Ok (OutRoot r, s)
  | OpImport src => s ← import_from src s; Ok (OutUnit, s)
  end.

(** The specification. *)
Definition mem_step (op : store_op) (m : MemState) : store_out * MemState :=
  match op with
  | OpPut sub k v => (OutUnit, mem_put m sub k v)
  | OpGet sub k => (OutValue (mem_get m sub k), m)
  | OpRoot => (OutRoot (mem_root m), m)
  | OpImport src => (OutUnit, src ∪ m)
  end.

Fixpoint rocks_run (ops : list store_op) (s : Rocks)
    : outcome RocksError (list store_out * Rocks) :=
  match ops with
  | [] => Ok ([], s)
  | op :: ops =>
      '(out, s) ← rocks_step op s;
      '(outs, s) ← rocks_run ops s;
      Ok (out :: outs, s)
  end.

Fixpoint mem_run (ops : list store_op) (m : MemState) : list store_out * MemState :=
  match ops with
  | [] => ([], m)
  | op :: ops =>
      let '(out, m) := mem_step op m in
      let '(outs, m) := mem_run ops m in
      (out :: outs, m)
  end.

(** ** The simulation *)

Context `{!RocksDbLaws DB}.

(** The persistent store holds what the in-memory store holds, and its cache is right. *)
Definition represents (s : Rocks) (m : MemState) : Prop :=
  (forall tag key, db_map (rs_db s) !! (tag :: key) = m !! (tag, key)) /\
  forall r, rs_cached_root s = Some r -> r = mem_root m.

Lemma sorted_decode es : key_sorted es ->
  StronglySorted entry_le (omap decode_item (Some <$> es)).
Proof.
  induction 1 as [|[k v] es Hs IH Hall]; [constructor|]. cbn. destruct k as [|t k]; [exact IH|].
  constructor; [exact IH|]. apply Forall_elem. intros e He.
  apply list_elem_of_omap in He as (item & Hi & He). apply list_elem_of_fmap in Hi as ([k' v'] & -> & Hi).
  destruct k' as [|t' k']; [discriminate|]. injection He as <-.
  apply (proj1 (Forall_elem _ _) Hall _ Hi).
Qed.

Lemma NoDup_decode es : NoDup es -> NoDup (omap decode_item (Some <$> es)).
Proof.
  induction 1 as [|[k v] es Hn Hd IH]; [constructor|]. cbn. destruct k as [|t k]; [exact IH|].
  constructor; [|exact IH]. intros He. apply Hn.
  apply list_elem_of_omap in He as (item & Hi & He). apply list_elem_of_fmap in Hi as ([k' v'] & -> & Hi).
  destruct k' as [|t' k']; [discriminate|]. by injection He as -> -> ->.
Qed.

(** The walk of the database is the canonical walk of the map. *)
Lemma rocks_walk `{!ReadableDb DB} s m : represents s m ->
  rocks_iter_canonical s = iter_canonical m.
Proof.
  intros [Hm _]. destruct (db_iter_reads (rs_db s)) as [es He].
  destruct (db_iter_map _ _ He) as [Hp Hs]. unfold rocks_iter_canonical. rewrite He.
  apply iter_canonical_unique; [|by apply sorted_decode].
  apply NoDup_Permutation.
  - apply NoDup_decode. rewrite Hp. apply NoDup_map_to_list.
  - apply NoDup_map_to_list.
  - intros [[t k] v]. rewrite elem_of_map_to_list, <- Hm, <- elem_of_map_to_list, <- Hp.
    rewrite list_elem_of_omap. split.
    + intros (item & Hi & Hd). apply list_elem_of_fmap in Hi as ([k' v'] & -> & Hi).
      destruct k' as [|t' k']; [discriminate|]. by injection Hd as -> -> ->.
    + intros Hi. exists (Some (t :: k, v)). split; [|done]. by apply list_elem_of_fmap_2.
Qed.

Lemma represents_put s m sub k v db : represents s m ->
  db_put (rs_db s) (encode_key sub k) v = Some db ->
  represents {| rs_db := db; rs_cached_root := None |} (mem_put m sub k v).
Proof.
  intros [Hm _] Hp. split; [|done]. intros tag key. cbn [rs_db].
  rewrite (db_put_map _ _ _ _ Hp). unfold mem_put, encode_key.
  destruct (decide ((Subtree_as_u8 sub, k) = (tag, key))) as [[= <- <-]|Hne].
  - by rewrite !lookup_insert_eq.
  - rewrite !lookup_insert_ne by congruence. apply Hm.
Qed.

(** A batch of the entries of a map, in any order. *)
Lemma write_entries (es : list ((byte * bytes) * bytes)) : NoDup es.*1 ->
  forall (dm : gmap bytes bytes) tag key,
  foldl (fun m e => <[e.1 := e.2]> m) dm ((fun e => (e.1.1 :: e.1.2, e.2)) <$> es) !! (tag :: key) =
  match (list_to_map es : MemState) !! (tag, key) with
  | Some v => Some v
  | None => dm !! (tag :: key)
  end.
Proof.
  induction es as [|[[t k] v] es IH]; intros Hnd dm tag key; [done|].
  cbn [fmap list_fmap fst snd foldl] in Hnd |- *. apply NoDup_cons in Hnd as [Hk Hnd].
  rewrite (IH Hnd). cbn [list_to_map foldr]. 
  destruct (decide ((t, k) = (tag, key))) as [[= -> ->]|Hne].
  - rewrite not_elem_of_list_to_map_1 by done. cbn. by rewrite !lookup_insert_eq.
  - cbn. rewrite !lookup_insert_ne by congruence. done.
Qed.

Lemma iter_canonical_map m : NoDup (iter_canonical m).*1 /\ list_to_map (iter_canonical m) = m.
Proof.
  assert (NoDup (iter_canonical m).*1) as Hnd.
  { rewrite (iter_canonical_perm m). apply NoDup_fst_map_to_list. }
  split; [done|]. rewrite <- (list_to_map_to_list m) at 2.
  apply list_to_map_proper; [done|apply iter_canonical_perm].
Qed.

Lemma represents_import s m src db : represents s m ->
  db_write (rs_db s) ((fun e => (e.1.1 :: e.1.2, e.2)) <$> iter_canonical src) = Some db ->
  represents {| rs_db := db; rs_cached_root := None |} (src ∪ m).
Proof.
  intros [Hm _] Hw. split; [|done]. intros tag key. cbn [rs_db].
  destruct (iter_canonical_map src) as [Hnd Hl].
  rewrite (db_write_map _ _ _ Hw), write_entries, Hl by done. rewrite lookup_union, Hm.
  by destruct (src !! (tag, key)), (m !! (tag, key)).
Qed.

(** The write of an operation fails. *)
Definition write_fails (s : Rocks) (op : store_op) : Prop :=
  match op with
  | OpPut sub k v => db_put (rs_db s) (encode_key sub k) v = None
  | OpImport src =>
      db_write (rs_db s) ((fun e => (e.1.1 :: e.1.2, e.2)) <$> iter_canonical src) = None
  | _ => False
  end.

Lemma rocks_step_refines `{!ReadableDb DB} op s m : represents s m ->
  match rocks_step op s with
  | Ok (out, s') => out = (mem_step op m).1 /\ represents s' (mem_step op m).2
  | Err e => write_fails s op /\ e = RocksDbError
  | Panic => write_fails s op
  end.
Proof.
  intros Hr. destruct op as [sub k v|sub k| |src]; cbn [rocks_step mem_step write_fails fst snd].
  - unfold rocks_put. destruct (db_put _ _ _) as [db|] eqn:Hp; [|done].
    split; [done|]. by apply (represents_put s).
  - split; [|done]. f_equal. unfold rocks_get, mem_get.
    destruct (db_get_reads (rs_db s) (encode_key sub k)) as [r Hg]. rewrite Hg.
    apply db_get_map in Hg as ->. apply Hr.
  - unfold rocks_root. destruct (rs_cached_root s) as [c|] eqn:Hc.
    + split; [|done]. by rewrite (proj2 Hr c Hc).
    + rewrite (rocks_walk s m Hr). split; [done|]. split; [apply Hr|]. by intros r [= <-].
  - unfold import_from. destruct (db_write _ _) as [db|] eqn:Hw; [|done].
    split; [done|]. by apply (represents_import s).
Qed.
End rocks.

(** ** Properties *)

Section properties.
Context {DB : Type} `{RocksDb DB} `{HashPrims} `{!RocksDbLaws DB} `{!ReadableDb DB}.

(** C14: The persistent store implements the in-memory one, on a database whose reads never
    fail ([ReadableDb]; a failed read makes [get] answer as if the key were absent and [root]
    leave the entry out).  Every run of writes, reads, roots and imports on a store that
    represents an in-memory store gives the same answers (the roots byte for byte, cached or
    not) and ends in a store that represents the end of the in-memory run, where an import
    lays its entries over those already there; a run that does not finish stopped at an
    operation whose write failed, after agreeing up to there. *)
Theorem rocks_refines_memstate ops (s : RocksState DB) m : represents s m ->
  match rocks_run ops s with
  | Ok (outs, s') => outs = (mem_run ops m).1 /\ represents s' (mem_run ops m).2
  | _ => exists pre op post outs s1, ops = pre ++ op :: post /\
      rocks_run pre s = Ok (outs, s1) /\ outs = (mem_run pre m).1 /\
      represents s1 (mem_run pre m).2 /\ write_fails s1 op
  end.
Proof.
  revert s m; induction ops as [|op ops IH]; intros s m Hr; [done|].
  cbn [rocks_run mem_run]. pose proof (rocks_step_refines op s m Hr) as Hs.
  destruct (mem_step op m) as [out' m1] eqn:Em. cbn [fst snd] in Hs.
  destruct (rocks_step op s) as [[out s1]|e|] eqn:Es; cbn [mbind outcome_bind].
  - destruct Hs as [-> Hr1]. specialize (IH s1 m1 Hr1).
    destruct (rocks_run ops s1) as [[outs s2]|e|]; cbn [mbind outcome_bind];
      destruct (mem_run ops m1) as [outs' m2] eqn:Er; cbn [fst snd] in *.
    1: by destruct IH as [-> Hr2].
    all: destruct IH as (pre & op' & post & outs & s2 & -> & Hrun & Ho & Hr2 & Hw);
      exists (op :: pre), op', post, (out' :: outs), s2; cbn [rocks_run mem_run app];
      rewrite Es, Em; cbn [mbind outcome_bind]; rewrite Hrun; cbn [mbind outcome_bind];
      destruct (mem_run pre m1) as [outs1 m3]; cbn [fst snd] in *; by subst.
  - destruct Hs as [Hw ->]. by exists [], op, ops, [], s.
  - by exists [], op, ops, [], s.
Qed.
End properties.

(** ** A database in memory *)

Module ListDb.
(** At most [cap] keys. *)
Record db := { db_cap : nat; db_entries : gmap bytes bytes }.

Definition full (d : db) : bool := (db_cap d <? size (db_entries d))%nat.

Definition key_le (e1 e2 : bytes * bytes) : Prop := bytes_le e1.1 e2.1.
#[export] Instance key_le_dec : RelDecision key_le.
Proof. intros e1 e2. unfold key_le. apply _. Defined.
#[export] Instance key_le_total : Total key_le.
Proof. intros e1 e2. apply bytes_le_total. Qed.
#[export] Instance key_le_trans : Transitive key_le.
Proof. intros e1 e2 e3. unfold key_le. apply bytes_le_trans. Qed.

#[export] Instance ops : RocksDb db := {
  db_put d k v := if full d then None
                  else Some {| db_cap := db_cap d; db_entries := <[k := v]> (db_entries d) |};
  db_write d batch :=
    if full d then None
    else Some {| db_cap := db_cap d;
                 db_entries := foldl (fun m e => <[e.1 := e.2]> m) (db_entries d) batch |};
  db_get d k := Some (db_entries d !! k);
  db_iter d := Some <$> merge_sort key_le (map_to_list (db_entries d));
}.

#[export] Instance laws : RocksDbLaws db.
Proof.
  refine {| db_map := db_entries |}.
  - intros d k v d' Hp. cbn -[full] in Hp. destruct (full d); [discriminate|]. by injection Hp as <-.
  - intros d batch d' Hw. cbn -[full] in Hw. destruct (full d); [discriminate|]. by injection Hw as <-.
  - cbn. congruence.
  - cbn. intros d es He. apply (inj (fmap Some)) in He as <-. split.
    + apply merge_sort_Permutation.
    + apply (StronglySorted_merge_sort key_le).
Defined.

#[export] Instance readable : ReadableDb db.
Proof. split; [by eexists|]. intros d. by eexists. Defined.

Definition empty (cap : nat) : RocksState db :=
  {| rs_db := {| db_cap := cap; db_entries := ∅ |}; rs_cached_root := None |}.
End ListDb.

#[local] Existing Instance Checksum.prims.
#[local] Existing Instance ListDb.ops.
#[local] Existing Instance ListDb.laws.
#[local] Existing Instance ListDb.readable.

Lemma empty_represents cap : represents (ListDb.empty cap) MemState_new.
Proof. split; [done|]. intros r Hr. discriminate Hr. Qed.

(** An import over a key already there: the root is not the root of the source. *)
Lemma rocks_refines_memstate_witness :
  let src := mem_put MemState_new Meta [x03] [x04] in
  let ops := [OpPut Accounts [x01] [x02]; OpRoot; OpImport src; OpRoot; OpGet Accounts [x01]] in
  exists outs s', rocks_run ops (ListDb.empty 10) = Ok (outs, s') /\
    outs = (mem_run ops MemState_new).1 /\ represents s' (mem_run ops MemState_new).2 /\
    nth_error outs 3 <> Some (OutRoot (mem_root src)).
Proof.
  intros src ops.
  pose proof (rocks_refines_memstate ops (ListDb.empty 10) MemState_new (empty_represents 10)) as Hr.
  assert (is_ok (rocks_run ops (ListDb.empty 10)) = true) as Hok by (vm_compute; reflexivity).
  destruct (rocks_run ops (ListDb.empty 10)) as [[outs s']|e|]; [|discriminate Hok..].
  destruct Hr as [Ho Hr']. exists outs, s'. split; [reflexivity|]. split; [exact Ho|].
  split; [exact Hr'|].
  rewrite Ho. vm_compute. discriminate.
Defined.
