(* ===== verification/Codec.v ===== *)
(** * Codec: the CBOR interface and a concrete codec

    [ciborium] is the class [Cbor]: one serializer and one deserializer per type, with the
    two facts the code relies on - a value of the type decodes back from its encoding, and a
    decoded value is one the Rust type can hold.  The module [Wire] builds self-delimiting
    codecs from which the examples take their instances. *)

From S2P Require Export Store.
From Stdlib Require Import Strings.Byte.

Local Open Scope Z_scope.

Class Cbor (A : Type) `{Typed A} := {
  cbor_ser : A -> option bytes;
  cbor_de : bytes -> option A;
  cbor_roundtrip a : typed a = true ->
    exists b, cbor_ser a = Some b /\ cbor_de b = Some a;
  cbor_de_typed b a : cbor_de b = Some a -> typed a = true;
}.
#[export] Hint Mode Cbor ! - : typeclass_instances.

Lemma cbor_ser_de {A} `{Cbor A} (a : A) b :
  typed a = true -> cbor_ser a = Some b -> cbor_de b = Some a.
Proof. intros Ht Hs. destruct (cbor_roundtrip a Ht) as (b' & Hs' & Hd). congruence. Qed.

Lemma cbor_ser_inj {A} `{Cbor A} (a1 a2 : A) b :
  typed a1 = true -> typed a2 = true ->
  cbor_ser a1 = Some b -> cbor_ser a2 = Some b -> a1 = a2.
Proof.
  intros T1 T2 S1 S2. apply cbor_ser_de in S1, S2; [|done..]. congruence.
Qed.

(** ** Reading a typed record out of a store *)

Section store_cbor.
Context {St : Type} `{StateStoreLaws St} {A : Type} `{Cbor A}.

(** [store.get(..)] followed by [ciborium::de::from_reader(..).ok()]. *)
Definition get_cbor (s : St) (sub : Subtree) (key : bytes) : option A :=
  b ← get s sub key; cbor_de b.

Lemma get_cbor_put_same (s : St) sub key (a : A) b :
  typed a = true -> cbor_ser a = Some b -> get_cbor (put s sub key b) sub key = Some a.
Proof.
  intros Ht Hs. unfold get_cbor. rewrite get_put_same. cbn. by apply cbor_ser_de.
Qed.

Lemma get_cbor_put_other (s : St) sub key b sub' key' :
  (sub, key) <> (sub', key') ->
  get_cbor (put s sub key b) sub' key' = get_cbor s sub' key'.
Proof. intros Hne. unfold get_cbor. by rewrite get_put_other. Qed.

Lemma get_cbor_typed (s : St) sub key a : get_cbor s sub key = Some a -> typed a = true.
Proof.
  unfold get_cbor. destruct (get s sub key) as [b|]; [|done]. apply cbor_de_typed.
Qed.
End store_cbor.

(** ** Self-delimiting codecs *)
Module Wire.
Record codec (A : Type) := {
  enc : A -> bytes;
  dec : bytes -> option (A * bytes);
}.
Arguments enc {A} c.
Arguments dec {A} c.

Definition ok {A} (wf : A -> bool) (c : codec A) : Prop :=
  forall a rest, wf a = true -> dec c (enc c a ++ rest) = Some (a, rest).

Definition chunk (n : nat) (l : bytes) : option (bytes * bytes) :=
  if bool_decide (n <= length l)%nat then Some (take n l, drop n l) else None.

(** An [n]-byte integer, an array of [n] bytes. *)
Definition cint (n : nat) : codec Z := {|
  enc z := le_bytes n z;
  dec l := '(b, r) ← chunk n l; Some (le_to_Z b, r);
|}.
Definition carr (n : nat) : codec bytes := {| enc b := b; dec l := chunk n l |}.

(** A list: every element behind an [x01], [x00] at the end. *)
Fixpoint dec_list {A} (c : codec A) (fuel : nat) (l : bytes) : option (list A * bytes) :=
  match fuel, l with
  | S fuel, x00 :: r => Some ([], r)
  | S fuel, x01 :: r =>
      '(a, r) ← dec c r; '(s, r) ← dec_list c fuel r; Some (a :: s, r)
  | _, _ => None
  end.
Definition clist {A} (c : codec A) : codec (list A) := {|
  enc l := concat ((fun a => x01 :: enc c a) <$> l) ++ [x00];
  dec l := dec_list c (length l) l;
|}.

Definition cbyte : codec byte := {|
  enc b := [b];
  dec l := match l with b :: r => Some (b, r) | [] => None end;
|}.
Definition cbytes : codec bytes := clist cbyte.

Definition cpair {A B} (ca : codec A) (cb : codec B) : codec (A * B) := {|
  enc p := enc ca p.1 ++ enc cb p.2;
  dec l := '(a, r) ← dec ca l; '(b, r) ← dec cb r; Some ((a, b), r);
|}.

Definition cmap {A B} (f : B -> A) (g : A -> B) (c : codec A) : codec B := {|
  enc b := enc c (f b);
  dec l := '(a, r) ← dec c l; Some (g a, r);
|}.

Lemma chunk_app n l rest : length l = n -> chunk n (l ++ rest) = Some (l, rest).
Proof.
  intros <-. unfold chunk. rewrite bool_decide_eq_true_2 by (rewrite length_app; lia).
  by rewrite take_app_length, drop_app_length.
Qed.

Lemma cint_ok n : ok (in_ub (8 * Z.of_nat n)) (cint n).
Proof.
  intros z rest [Hz1 Hz2]%in_ub_spec. cbn [enc dec cint].
  rewrite chunk_app by apply length_le_bytes. cbn.
  rewrite le_to_Z_le_bytes, Z.mod_small; [done|].
  rewrite Z.pow_mul_r in Hz2 by lia. done.
Qed.

Lemma carr_ok n : ok (is_array n) (carr n).
Proof. intros b rest Hb%is_array_spec. by apply chunk_app. Qed.

Lemma cbyte_ok : ok (fun _ => true) cbyte.
Proof. done. Qed.

Lemma cpair_ok {A B} wa wb (ca : codec A) (cb : codec B) :
  ok wa ca -> ok wb cb -> ok (fun p => wa p.1 && wb p.2) (cpair ca cb).
Proof.
  intros Ha Hb [a b] rest [Wa Wb]%andb_true_iff. cbn in *.
  rewrite <- app_assoc, Ha by done. cbn. by rewrite Hb by done.
Qed.

Lemma cmap_ok {A B} wa wb (f : B -> A) g (c : codec A) :
  (forall b, wb b = true -> wa (f b) = true) -> (forall b, g (f b) = b) ->
  ok wa c -> ok wb (cmap f g c).
Proof. intros Hw Hg Hc b rest Wb. cbn. rewrite Hc by auto. cbn. by rewrite Hg. Qed.

(** [g] needs to undo [f] on the values of the type only. *)
Lemma cmap_ok_on {A B} wa wb (f : B -> A) g (c : codec A) :
  (forall b, wb b = true -> wa (f b) = true /\ g (f b) = b) ->
  ok wa c -> ok wb (cmap f g c).
Proof. intros Hw Hc b rest Wb. cbn. destruct (Hw b Wb) as [Ha Hg]. rewrite Hc by done. cbn. by rewrite Hg. Qed.

Lemma dec_list_ok {A} wa (c : codec A) (l : list A) rest fuel :
  ok wa c -> forallb wa l = true ->
  (length (concat ((fun a => x01 :: enc c a) <$> l)) < fuel)%nat ->
  dec_list c fuel (concat ((fun a => x01 :: enc c a) <$> l) ++ x00 :: rest) = Some (l, rest).
Proof.
  intros Hc. revert fuel. induction l as [|a l IH]; intros [|fuel] Hl Hf; cbn in *; try lia.
  - done.
  - apply andb_true_iff in Hl as [Ha Hl]. rewrite length_app in Hf.
    rewrite <- app_assoc, Hc by done. cbn. rewrite IH by (done || lia). done.
Qed.

Lemma clist_ok {A} wa (c : codec A) : ok wa c -> ok (forallb wa) (clist c).
Proof.
  intros Hc l rest Hl. cbn [enc dec clist]. rewrite <- app_assoc. cbn [app].
  apply (dec_list_ok wa); [done..|]. rewrite length_app. cbn. lia.
Qed.

Lemma cbytes_ok : ok (fun _ => true) cbytes.
Proof.
  intros l rest _. apply (clist_ok (fun _ => true) cbyte cbyte_ok).
  by apply forallb_forall.
Qed.

(** The [Cbor] instance of a codec. *)
Section instance.
Context {A : Type} `{Typed A} (c : codec A) (Hc : ok typed c).

Definition ser (a : A) : option bytes := Some (enc c a).
Definition de (b : bytes) : option A :=
  '(a, _) ← dec c b; if typed a then Some a else None.

Lemma ser_de a : typed a = true -> exists b, ser a = Some b /\ de b = Some a.
Proof.
  intros Ha. exists (enc c a). split; [done|]. unfold de.
  rewrite <- (app_nil_r (enc c a)), (Hc a [] Ha). cbn. by rewrite Ha.
Qed.

Lemma de_typed b a : de b = Some a -> typed a = true.
Proof.
  unfold de. destruct (dec c b) as [[a' r]|]; cbn; [|done].
  destruct (typed a') eqn:Ha; [|done]. by intros [= <-].
Qed.

Definition cbor : Cbor A := {|
  cbor_ser := ser;
  cbor_de := de;
  cbor_roundtrip := ser_de;
  cbor_de_typed := de_typed;
|}.
End instance.

Ltac codec_ok :=
  repeat first
  [ apply cint_ok | apply carr_ok | apply cbytes_ok
  | apply clist_ok | apply cpair_ok | apply cbyte_ok ].
End Wire.
