(* ===== verification/Accounts.v ===== *)
(** * Accounts: account records in the store (crates/state/src/accounts.rs)

    [load], [load_or_default] and [save] over any [StateStore], and the balance sheet
    [total_balance] of a list of accounts that the conservation theorems count with. *)

From S2P Require Export Codec.
From Stdlib Require Import Strings.Byte.

Local Open Scope Z_scope.

Record Account := {
  acc_balance : Z;
  acc_nonce : Z;
  acc_pubkey : bytes;
  acc_sig_algo : Z;
}.

#[export] Instance Account_eq_dec : EqDecision Account.
Proof. solve_decision. Defined.

#[export] Instance typed_Account : Typed Account := fun a =>
  in_ub 128 (acc_balance a) && in_ub 64 (acc_nonce a) && in_ub 8 (acc_sig_algo a).

(** [Account::default()] *)
Definition Account_default : Account :=
  {| acc_balance := 0; acc_nonce := 0; acc_pubkey := []; acc_sig_algo := 0 |}.

Section operations.
Context {St : Type} `{StateStore St} {CA : Cbor Account}.

Definition load (s : St) (id : AccountId) : option Account := get_cbor s Accounts id.

Definition load_or_default (s : St) (id : AccountId) : Account :=
  default Account_default (load s id).

Definition save {E} (id : AccountId) (account : Account) : stm St E unit := fun s =>
  match cbor_ser account with
  | Some buf => (Ok tt, put s Accounts id buf)
  | None => (Panic, s)
  end.
End operations.

Section laws.
Context {St : Type} `{StateStoreLaws St} {CA : Cbor Account}.

Definition balance (s : St) (id : AccountId) : Z := acc_balance (load_or_default s id).
Definition nonce (s : St) (id : AccountId) : Z := acc_nonce (load_or_default s id).

(** The balance sheet of a list of accounts. *)
Definition total_balance (s : St) (ids : list AccountId) : Z :=
  foldr (fun id acc => balance s id + acc) 0 ids.

Lemma load_typed (s : St) id : typed (load_or_default s id) = true.
Proof.
  unfold load_or_default, load. destruct (get_cbor s Accounts id) as [a|] eqn:E; [|reflexivity].
  by apply get_cbor_typed in E.
Qed.

Lemma load_or_default_ranges (s : St) id :
  let a := load_or_default s id in
  in_u 128 (acc_balance a) /\ in_u 64 (acc_nonce a) /\ in_u 8 (acc_sig_algo a).
Proof.
  cbv zeta. pose proof (load_typed s id) as Ht. unfold typed, typed_Account in Ht.
  rewrite !andb_true_iff, !in_ub_spec in Ht. tauto.
Qed.

(** A well-typed account is always saved. *)
Lemma save_Ok {E} id a (s : St) : typed a = true ->
  exists buf, cbor_ser a = Some buf /\ save (E:=E) id a s = (Ok tt, put s Accounts id buf).
Proof.
  intros Ht. destruct (cbor_roundtrip a Ht) as (b & Hs & _).
  exists b. unfold save. by rewrite Hs.
Qed.

Lemma load_save {E} id a (s s' : St) id' :
  typed a = true -> save (E:=E) id a s = (Ok tt, s') ->
  load_or_default s' id' = if decide (id' = id) then a else load_or_default s id'.
Proof.
  intros Ht Hs. destruct (save_Ok (E:=E) id a s Ht) as (b & Hb & Hs').
  rewrite Hs in Hs'. injection Hs' as ->. unfold load_or_default, load. case_decide.
  - subst. by rewrite (get_cbor_put_same s Accounts id a b).
  - by rewrite get_cbor_put_other by congruence.
Qed.

Lemma save_frame {E} id a (s s' : St) r sub k :
  sub <> Accounts -> save (E:=E) id a s = (r, s') -> get s' sub k = get s sub k.
Proof.
  intros Hne. unfold save. destruct (cbor_ser a); intros [= <- <-]; [|done].
  apply get_put_other. congruence.
Qed.

Lemma balance_save {E} id a (s s' : St) id' :
  typed a = true -> save (E:=E) id a s = (Ok tt, s') ->
  balance s' id' = if decide (id' = id) then acc_balance a else balance s id'.
Proof.
  intros Ht Hs. unfold balance. rewrite (load_save id a s s') by done. by case_decide.
Qed.

Lemma nonce_save {E} id a (s s' : St) id' :
  typed a = true -> save (E:=E) id a s = (Ok tt, s') ->
  nonce s' id' = if decide (id' = id) then acc_nonce a else nonce s id'.
Proof.
  intros Ht Hs. unfold nonce. rewrite (load_save id a s s') by done. by case_decide.
Qed.

Lemma total_balance_cons (s : St) id ids : total_balance s (id :: ids) = balance s id + total_balance s ids.
Proof. done. Qed.

Lemma total_balance_ext (s s' : St) ids :
  (forall id, id ∈ ids -> balance s' id = balance s id) -> total_balance s' ids = total_balance s ids.
Proof.
  induction ids as [|id ids IH]; intros Hb; [done|].
  rewrite !total_balance_cons, Hb by by left. rewrite IH; [done|]. intros i Hi. apply Hb. by right.
Qed.

(** Saving one account of the sheet moves the total by the change of its balance. *)
Lemma total_balance_save {E} id a (s s' : St) ids :
  NoDup ids -> id ∈ ids -> typed a = true -> save (E:=E) id a s = (Ok tt, s') ->
  total_balance s' ids = total_balance s ids + (acc_balance a - balance s id).
Proof.
  intros Hnd Hin Ht Hs. induction Hnd as [|i ids Hi Hnd IH]; [by apply elem_of_nil in Hin|].
  rewrite !total_balance_cons, (balance_save id a s s') by done. apply elem_of_cons in Hin as [<-|Hin].
  - rewrite decide_True by done.
    rewrite (total_balance_ext s s'); [lia|]. intros j Hj.
    rewrite (balance_save id a s s') by done. rewrite decide_False; [done|]. by intros ->.
  - rewrite decide_False by (by intros ->). rewrite IH by done. lia.
Qed.
End laws.

(** ** A concrete codec *)
Module AccountWire.
Import Wire.

Definition codec : codec Account :=
  cmap (fun a => (acc_balance a, (acc_nonce a, (acc_sig_algo a, acc_pubkey a))))
       (fun p => {| acc_balance := p.1; acc_nonce := p.2.1;
                    acc_sig_algo := p.2.2.1; acc_pubkey := p.2.2.2 |})
       (cpair (cint 16) (cpair (cint 8) (cpair (cint 1) cbytes))).

Lemma account_codec_typed : ok typed codec.
Proof.
  eapply cmap_ok; [| |codec_ok].
  - intros a. unfold typed, typed_Account. cbn. rewrite !andb_true_iff. tauto.
  - by intros [].
Qed.

#[export] Instance Account_cbor : Cbor Account := cbor codec account_codec_typed.
End AccountWire.
