(* ===== verification/Governance.v ===== *)
(** * Governance: the k-of-N threshold (crates/state/src/apply.rs, lines 77-261)

    The committee record, its validation, the verifier of threshold proofs and the three
    domain-tagged payloads a committee signs.  The verifier is the loop of the code; its
    specification [approving_signers] is the set of members whose first signature in the
    proof verifies. *)

From S2P Require Export Accounts.
From Stdlib Require Import Strings.Byte.

Local Open Scope Z_scope.

(** ** Data *)

Record GovernanceSigner := {
  gs_signer_id : bytes;
  gs_sig_algo : Z;
  gs_pubkey : bytes;
}.

Record GovernanceConfig := {
  gc_epoch : Z;
  gc_threshold : Z;
  gc_signers : list GovernanceSigner;
}.

Record GovernanceSig := {
  gsig_signer_id : bytes;
  gsig_sig : bytes;
}.

(** [GovernanceProof] is its [signatures] field. *)
Record GovernanceProof := { gp_signatures : list GovernanceSig }.

Inductive GovernanceError := BelowThreshold (got need : Z).

#[export] Instance GovernanceSigner_eq_dec : EqDecision GovernanceSigner.
Proof. solve_decision. Defined.
#[export] Instance GovernanceConfig_eq_dec : EqDecision GovernanceConfig.
Proof. solve_decision. Defined.
#[export] Instance GovernanceSig_eq_dec : EqDecision GovernanceSig.
Proof. solve_decision. Defined.
#[export] Instance GovernanceProof_eq_dec : EqDecision GovernanceProof.
Proof. solve_decision. Defined.

#[export] Instance typed_GovernanceSigner : Typed GovernanceSigner := fun s =>
  is_array 32 (gs_signer_id s) && in_ub 8 (gs_sig_algo s).
#[export] Instance typed_GovernanceConfig : Typed GovernanceConfig := fun c =>
  in_ub 64 (gc_epoch c) && in_ub 32 (gc_threshold c) && typed (gc_signers c).
#[export] Instance typed_GovernanceSig : Typed GovernanceSig := fun s =>
  is_array 32 (gsig_signer_id s).
#[export] Instance typed_GovernanceProof : Typed GovernanceProof := fun p =>
  typed (gp_signatures p).

(** ** Operations *)

(** [x.len() as u32] *)
Definition len_as_u32 {A} (l : list A) : Z := Z.of_nat (length l) mod 2 ^ 32.

(** [GovernanceConfig::validate] *)
Definition validate (c : GovernanceConfig) : outcome string unit :=
  if bool_decide (gc_signers c = []) then Err "governance: signers cannot be empty"%string
  else if gc_threshold c =? 0 then Err "governance: threshold must be > 0"%string
  else if Z.of_nat (length (gc_signers c)) <? gc_threshold c
  then Err "governance: threshold > signers.len()"%string
  else if negb (bool_decide (NoDup (gs_signer_id <$> gc_signers c)))
  then Err "governance: duplicate signer_id"%string
  else Ok tt.

(** [cfg.signers.iter().find(|s| s.signer_id == id)] *)
Definition find_signer (c : GovernanceConfig) (id : bytes) : option GovernanceSigner :=
  find_elem (fun s => gs_signer_id s = id) (gc_signers c).

Section verifier.
Context `{SigPrims} (ft : Features).

(** The loop over [proof.signatures] with its [seen] set and [verified] counter. *)
Fixpoint verify_loop (cfg : GovernanceConfig) (msg : bytes) (seen : gset bytes)
    (verified : Z) (sigs : list GovernanceSig) : outcome GovernanceError unit :=
  match sigs with
  | [] => Err (BelowThreshold verified (gc_threshold cfg))
  | sg :: sigs =>
      if bool_decide (gsig_signer_id sg ∈ seen) then verify_loop cfg msg seen verified sigs
      else
        let seen := {[gsig_signer_id sg]} ∪ seen in
        match find_signer cfg (gsig_signer_id sg) with
        | None => verify_loop cfg msg seen verified sigs
        | Some signer =>
            if is_ok (verify ft (gs_sig_algo signer) (gs_pubkey signer) (gsig_sig sg) msg)
            then
              let verified := wrapping_add 32 verified 1 in
              if gc_threshold cfg <=? verified then Ok tt
              else verify_loop cfg msg seen verified sigs
            else verify_loop cfg msg seen verified sigs
        end
  end.

Definition verify_governance_proof (cfg : GovernanceConfig) (proof : GovernanceProof)
    (msg : bytes) : outcome GovernanceError unit :=
  if len_as_u32 (gp_signatures proof) <? gc_threshold cfg
  then Err (BelowThreshold (len_as_u32 (gp_signatures proof)) (gc_threshold cfg))
  else verify_loop cfg msg ∅ 0 (gp_signatures proof).
End verifier.

Definition upgrade_crypto_gov_preimage (target_height sig_algo hash_algo : Z) : bytes :=
  ascii_bytes "PGgov:upgrade" ++ [x00] ++ le_bytes 8 target_height ++
  le_bytes 1 sig_algo ++ le_bytes 1 hash_algo.

Definition upgrade_crypto_gov_payload `{HashPrims} (target_height sig_algo hash_algo : Z)
    : bytes := blake3 (upgrade_crypto_gov_preimage target_height sig_algo hash_algo).

Definition register_attest_gov_preimage (job_id : bytes) (coordinators : list AccountId)
    : bytes :=
  ascii_bytes "PGgov:regattest" ++ [x00] ++ job_id ++ len_u32_le coordinators ++
  concat (sort_bytes coordinators).

Definition register_attest_gov_payload `{HashPrims} (job_id : bytes)
    (coordinators : list AccountId) : bytes :=
  blake3 (register_attest_gov_preimage job_id coordinators).

Section set_governance.
Context {CG : Cbor GovernanceConfig}.

(** The result of the serializer is ignored ([let _ =]): a failed one leaves the buffer
    as it was. *)
Definition set_governance_gov_preimage (new_config : GovernanceConfig) : bytes :=
  let buf := default [] (cbor_ser new_config) in
  ascii_bytes "PGgov:setgov" ++ [x00] ++ len_u32_le buf ++ buf.

Definition set_governance_gov_payload `{HashPrims} (new_config : GovernanceConfig) : bytes :=
  blake3 (set_governance_gov_preimage new_config).

Definition load_governance {St} `{StateStore St} (s : St) : option GovernanceConfig :=
  get_cbor s Meta (ascii_bytes "governance").
End set_governance.

(** ** Specification of the verifier *)

Section spec.
Context `{SigPrims} (ft : Features).

Definition first_sig (proof : GovernanceProof) (id : bytes) : option GovernanceSig :=
  find_elem (fun sg => gsig_signer_id sg = id) (gp_signatures proof).

(** Member [id] of the committee approves [msg]: its first signature in the proof
    verifies under the key the committee lists for it. *)
Definition sig_approves (cfg : GovernanceConfig) (msg : bytes) (sg : GovernanceSig) : bool :=
  match find_signer cfg (gsig_signer_id sg) with
  | Some signer => is_ok (verify ft (gs_sig_algo signer) (gs_pubkey signer) (gsig_sig sg) msg)
  | None => false
  end.

Definition approves (cfg : GovernanceConfig) (proof : GovernanceProof) (msg id : bytes) : bool :=
  match first_sig proof id with
  | Some sg => sig_approves cfg msg sg
  | None => false
  end.

Definition approving_signers (cfg : GovernanceConfig) (proof : GovernanceProof) (msg : bytes)
    : gset bytes :=
  filter (fun id => approves cfg proof msg id = true)
    (list_to_set (gsig_signer_id <$> gp_signatures proof)).
End spec.

(** ** Laws *)

Lemma validate_Ok c :
  validate c = Ok tt <->
  gc_signers c <> [] /\ gc_threshold c <> 0 /\
  gc_threshold c <= Z.of_nat (length (gc_signers c)) /\ NoDup (gs_signer_id <$> gc_signers c).
Proof.
  unfold validate.
  destruct (bool_decide (gc_signers c = [])) eqn:E1;
    [apply bool_decide_eq_true in E1|apply bool_decide_eq_false in E1]; [naive_solver|].
  destruct (Z.eqb_spec (gc_threshold c) 0); [naive_solver|].
  destruct (Z.ltb_spec (Z.of_nat (length (gc_signers c))) (gc_threshold c)).
  { split; [done|]. intros (_ & _ & ? & _). lia. }
  destruct (bool_decide (NoDup (gs_signer_id <$> gc_signers c))) eqn:E2;
    [apply bool_decide_eq_true in E2|apply bool_decide_eq_false in E2]; naive_solver.
Qed.

Lemma find_signer_Some c id s :
  find_signer c id = Some s -> s ∈ gc_signers c /\ gs_signer_id s = id.
Proof.
  apply (find_elem_Some (fun s => gs_signer_id s = id)).
Qed.

Section verifier_laws.
Context `{SigPrims} (ft : Features) (cfg : GovernanceConfig) (msg : bytes).

(** The signatures the loop looks at: the first one of every signer not in [seen]. *)
Fixpoint fresh (seen : gset bytes) (sigs : list GovernanceSig) : list GovernanceSig :=
  match sigs with
  | [] => []
  | sg :: sigs =>
      if bool_decide (gsig_signer_id sg ∈ seen) then fresh seen sigs
      else sg :: fresh ({[gsig_signer_id sg]} ∪ seen) sigs
  end.

Definition count_fresh (seen : gset bytes) (sigs : list GovernanceSig) : Z :=
  Z.of_nat (length (filter (fun sg => sig_approves ft cfg msg sg = true) (fresh seen sigs))).

Lemma verify_loop_count seen verified sigs :
  0 <= verified < gc_threshold cfg -> gc_threshold cfg < 2 ^ 32 ->
  verify_loop ft cfg msg seen verified sigs = Ok tt <->
  gc_threshold cfg <= verified + count_fresh seen sigs.
Proof.
  unfold count_fresh. revert seen verified.
  induction sigs as [|sg sigs IH]; intros seen verified Hv Ht; cbn [verify_loop fresh].
  { cbn. split; [discriminate|lia]. }
  case_bool_decide; [by apply IH|].
  rewrite filter_cons.
  destruct (decide (sig_approves ft cfg msg sg = true)) as [Ha|Ha]; unfold sig_approves in Ha.
  - destruct (find_signer cfg _) as [signer|]; [|done]. rewrite Ha.
    rewrite wrapping_add_small by lia. cbn [length].
    destruct (Z.leb_spec (gc_threshold cfg) (verified + 1)).
    + split; [lia|done].
    + rewrite IH by lia. lia.
  - destruct (find_signer cfg _) as [signer|]; [|by apply IH].
    destruct (is_ok _); [done|]. by apply IH.
Qed.

Lemma elem_of_fresh seen sigs sg :
  sg ∈ fresh seen sigs <->
  gsig_signer_id sg ∉ seen /\
  find_elem (fun s => gsig_signer_id s = gsig_signer_id sg) sigs = Some sg.
Proof.
  revert seen. induction sigs as [|s sigs IH]; intros seen; cbn [fresh].
  { rewrite elem_of_nil. split; [done|]. by intros [_ ?]. }
  rewrite find_elem_cons. case_bool_decide as Hs; [|rewrite elem_of_cons]; rewrite IH;
    case_decide as E.
  - rewrite <- E. split; intros [Hn _]; done.
  - done.
  - split; [|intros [_ Es]; left; congruence].
    rewrite <- E. intros [->|[Hn _]]; [done|set_solver].
  - split; [|intros [Hn ?]; right; set_solver].
    intros [->|[Hn ?]]; [done|set_solver].
Qed.

Lemma fresh_NoDup seen sigs : NoDup (gsig_signer_id <$> fresh seen sigs).
Proof.
  revert seen. induction sigs as [|s sigs IH]; intros seen; cbn; [constructor|].
  case_bool_decide; [done|]. cbn. constructor; [|done].
  rewrite list_elem_of_fmap. intros (sg & E & Hsg).
  apply elem_of_fresh in Hsg as [Hn _]. set_solver.
Qed.

Lemma approving_fresh proof :
  approving_signers ft cfg proof msg =
  list_to_set (gsig_signer_id <$>
    filter (fun sg => sig_approves ft cfg msg sg = true) (fresh ∅ (gp_signatures proof))).
Proof.
  apply set_eq. intros id. unfold approving_signers, approves, first_sig.
  rewrite elem_of_filter, !elem_of_list_to_set, !list_elem_of_fmap. split.
  - intros [Ha _]. destruct (find_elem _ _) as [sg|] eqn:Ef; [|done].
    pose proof (find_elem_Some _ _ _ Ef) as [_ <-].
    exists sg. split; [done|]. apply list_elem_of_filter. split; [done|].
    apply elem_of_fresh. split; [set_solver|done].
  - intros (sg & -> & Hsg). apply list_elem_of_filter in Hsg as [Ha Hsg].
    apply elem_of_fresh in Hsg as [_ Hf]. rewrite Hf. split; [done|].
    exists sg. split; [done|]. by apply find_elem_Some in Hf as [? _].
Qed.

Lemma filter_NoDup_fmap {A B} (f : A -> B) (P : A -> Prop) `{forall x, Decision (P x)} l :
  NoDup (f <$> l) -> NoDup (f <$> filter P l).
Proof.
  induction l as [|x l IH]; [done|]. rewrite fmap_cons, NoDup_cons. intros [Hx Hl].
  rewrite filter_cons. case_decide; [|by apply IH].
  rewrite fmap_cons, NoDup_cons. split; [|by apply IH].
  contradict Hx. apply list_elem_of_fmap in Hx as (y & -> & Hy).
  apply list_elem_of_filter in Hy as [_ Hy]. by apply list_elem_of_fmap_2.
Qed.

Lemma count_approving proof :
  count_fresh ∅ (gp_signatures proof) = Z.of_nat (size (approving_signers ft cfg proof msg)).
Proof.
  unfold count_fresh. rewrite approving_fresh, size_list_to_set.
  - by rewrite length_fmap.
  - apply filter_NoDup_fmap, fresh_NoDup.
Qed.

Lemma count_fresh_le seen sigs : count_fresh seen sigs <= Z.of_nat (length sigs).
Proof.
  unfold count_fresh.
  assert (length (fresh seen sigs) <= length sigs)%nat as Hl.
  { revert seen. induction sigs as [|s sigs IH]; intros seen; cbn; [lia|].
    case_bool_decide; cbn; [etrans; [apply IH|lia]|]. apply le_n_S, IH. }
  pose proof (length_filter (fun sg => sig_approves ft cfg msg sg = true) (fresh seen sigs)).
  lia.
Qed.
End verifier_laws.

(** ** Payloads of the three governed actions *)

Inductive GovAction :=
| GovUpgrade (target_height sig_algo hash_algo : Z)
| GovRegister (job_id : bytes) (coordinators : list AccountId)
| GovSet (new_config : GovernanceConfig).

Section payloads.
Context {CG : Cbor GovernanceConfig}.

Definition gov_preimage (a : GovAction) : bytes :=
  match a with
  | GovUpgrade h s g => upgrade_crypto_gov_preimage h s g
  | GovRegister j cs => register_attest_gov_preimage j cs
  | GovSet c => set_governance_gov_preimage c
  end.

Definition gov_payload `{HashPrims} (a : GovAction) : bytes :=
  match a with
  | GovUpgrade h s g => upgrade_crypto_gov_payload h s g
  | GovRegister j cs => register_attest_gov_payload j cs
  | GovSet c => set_governance_gov_payload c
  end.

(** Well-typed actions whose variable-size parts fit their length prefixes. *)
Definition gov_action_ok (a : GovAction) : Prop :=
  match a with
  | GovUpgrade h s g => in_u 64 h /\ in_u 8 s /\ in_u 8 g
  | GovRegister j cs =>
      length j = 32%nat /\ (forall x, x ∈ cs -> account_ok x = true) /\ fits_u32 cs = true
  | GovSet c =>
      typed c = true /\ (forall b, cbor_ser c = Some b -> fits_u32 b = true)
  end.

Definition gov_action_equiv (a1 a2 : GovAction) : Prop :=
  match a1, a2 with
  | GovRegister j1 cs1, GovRegister j2 cs2 => j1 = j2 /\ cs1 ≡ₚ cs2
  | _, _ => a1 = a2
  end.

Lemma gov_payload_blake3 `{HashPrims} a : gov_payload a = blake3 (gov_preimage a).
Proof. by destruct a. Qed.

Lemma gov_preimage_inj a1 a2 :
  gov_action_ok a1 -> gov_action_ok a2 ->
  gov_preimage a1 = gov_preimage a2 -> gov_action_equiv a1 a2.
Proof.
  destruct a1 as [h1 s1 g1|j1 cs1|c1], a2 as [h2 s2 g2|j2 cs2|c2]; cbn [gov_action_ok];
    intros O1 O2 E; try discriminate E; destruct_and!;
    do 2 apply app_inv_head in E; cbn [gov_action_equiv].
  - apply le_field_inj in E as [-> E]; [|done..].
    apply le_field_inj in E as [-> E]; [|done..].
    rewrite <- (app_nil_r (le_bytes 1 g1)), <- (app_nil_r (le_bytes 1 g2)) in E.
    by apply le_field_inj in E as [-> _].
  - apply app_inv_length in E as [-> E]; [|congruence].
    apply len_u32_field_inj in E as [Hl E]; [|done..]. split; [done|].
    rewrite <- (app_nil_r (concat (sort_bytes cs1))),
      <- (app_nil_r (concat (sort_bytes cs2))) in E.
    by apply sorted_ids_inj in E as [? _].
  - destruct (cbor_roundtrip c1) as (b1 & S1 & D1); [done|].
    destruct (cbor_roundtrip c2) as (b2 & S2 & D2); [done|].
    rewrite S1, S2 in E. cbn in E. apply len_u32_last_inj in E; [|auto..].
    subst. congruence.
Qed.
End payloads.

(** ** Properties *)

Section properties.
Context `{HashPrims} `{SigPrims} {CG : Cbor GovernanceConfig}.

(** C15: a governance proof is accepted exactly when at least [threshold] distinct members
    of the committee approve the message, a member approving when its first signature in
    the proof verifies under the key the committee records for it.  Repeated and unknown
    signers never count. *)
Theorem verify_governance_proof_iff ft cfg proof msg :
  1 <= gc_threshold cfg < 2 ^ 32 -> Z.of_nat (length (gp_signatures proof)) < 2 ^ 32 ->
  (verify_governance_proof ft cfg proof msg = Ok tt <->
   gc_threshold cfg <= Z.of_nat (size (approving_signers ft cfg proof msg))) /\
  (forall id, id ∈ approving_signers ft cfg proof msg ->
     exists signer sg, signer ∈ gc_signers cfg /\ gs_signer_id signer = id /\
       sg ∈ gp_signatures proof /\ gsig_signer_id sg = id /\
       verify ft (gs_sig_algo signer) (gs_pubkey signer) (gsig_sig sg) msg = Ok tt).
Proof.
  intros Ht Hl. split.
  - unfold verify_governance_proof, len_as_u32. rewrite Z.mod_small by lia.
    pose proof (count_fresh_le ft cfg msg ∅ (gp_signatures proof)) as Hc.
    rewrite <- count_approving.
    destruct (Z.ltb_spec (Z.of_nat (length (gp_signatures proof))) (gc_threshold cfg)).
    + split; [done|lia].
    + rewrite verify_loop_count by lia. lia.
  - intros id Hid. unfold approving_signers in Hid. apply elem_of_filter in Hid as [Ha _].
    unfold approves, first_sig in Ha.
    destruct (find_elem _ _) as [sg|] eqn:Ef; [|done].
    apply find_elem_Some in Ef as [Hin <-]. unfold sig_approves in Ha.
    destruct (find_signer cfg _) as [signer|] eqn:Es; [|done].
    apply find_signer_Some in Es as [Hs E]. exists signer, sg. split_and!; try done.
    destruct (verify _ _ _ _ _) as [[]| |]; done.
Qed.

(** A signature over one governance action cannot be replayed for another: the
    payloads of two well-typed actions agree only when the actions do (up to the order of
    a coordinator list), or the two payload preimages collide in Blake3. *)
Lemma gov_payload_binding a1 a2 :
  gov_action_ok a1 -> gov_action_ok a2 -> gov_payload a1 = gov_payload a2 ->
  gov_action_equiv a1 a2 \/ blake3_collision (gov_preimage a1) (gov_preimage a2).
Proof.
  intros O1 O2 E. rewrite !gov_payload_blake3 in E.
  apply blake3_inj_or in E as [E|E]; [left|by right]. by apply gov_preimage_inj.
Qed.
End properties.

(** ** Concrete codecs and examples *)
Module GovernanceWire.
Import Wire.

Definition signer_codec : codec GovernanceSigner :=
  cmap (fun s => (gs_signer_id s, (gs_sig_algo s, gs_pubkey s)))
       (fun p => {| gs_signer_id := p.1; gs_sig_algo := p.2.1; gs_pubkey := p.2.2 |})
       (cpair (carr 32) (cpair (cint 1) cbytes)).

Definition config_codec : codec GovernanceConfig :=
  cmap (fun c => (gc_epoch c, (gc_threshold c, gc_signers c)))
       (fun p => {| gc_epoch := p.1; gc_threshold := p.2.1; gc_signers := p.2.2 |})
       (cpair (cint 8) (cpair (cint 4) (clist signer_codec))).

Definition sig_codec : codec GovernanceSig :=
  cmap (fun s => (gsig_signer_id s, gsig_sig s))
       (fun p => {| gsig_signer_id := p.1; gsig_sig := p.2 |})
       (cpair (carr 32) cbytes).

Definition proof_codec : codec GovernanceProof :=
  cmap gp_signatures (fun l => {| gp_signatures := l |}) (clist sig_codec).

Lemma signer_codec_typed : ok typed signer_codec.
Proof.
  eapply cmap_ok; [| |codec_ok].
  - intros a. unfold typed, typed_GovernanceSigner. cbn. rewrite !andb_true_iff. tauto.
  - by intros [].
Qed.

Lemma config_codec_typed : ok typed config_codec.
Proof.
  eapply cmap_ok; [| |repeat first [apply signer_codec_typed|apply clist_ok
    |apply cint_ok|apply cpair_ok]].
  - intros a. unfold typed, typed_GovernanceConfig. cbn. rewrite !andb_true_iff. tauto.
  - by intros [].
Qed.

Lemma sig_codec_typed : ok typed sig_codec.
Proof.
  eapply cmap_ok; [| |codec_ok].
  - intros a. unfold typed, typed_GovernanceSig. cbn. rewrite andb_true_r. tauto.
  - by intros [].
Qed.

Lemma proof_codec_typed : ok typed proof_codec.
Proof.
  eapply cmap_ok; [| |apply clist_ok, sig_codec_typed].
  - by intros [].
  - by intros [].
Qed.

#[export] Instance GovernanceConfig_cbor : Cbor GovernanceConfig :=
  cbor config_codec config_codec_typed.
#[export] Instance GovernanceProof_cbor : Cbor GovernanceProof :=
  cbor proof_codec proof_codec_typed.
End GovernanceWire.

(** A 2-of-3 Ed25519 committee of checksum keys. *)
Module SampleCommittee.
Import Checksum ChecksumSig.

Definition member_key (n : byte) : bytes * bytes := lib_keygen (lib_of 3) [n].
Definition member (n : byte) : GovernanceSigner :=
  {| gs_signer_id := replicate 32 n; gs_sig_algo := 3; gs_pubkey := (member_key n).2 |}.
Definition config : GovernanceConfig :=
  {| gc_epoch := 1; gc_threshold := 2; gc_signers := [member x01; member x02; member x03] |}.
Definition sign_by (n : byte) (msg : bytes) : GovernanceSig :=
  {| gsig_signer_id := replicate 32 n;
     gsig_sig := default [] (lib_sign (lib_of 3) [] (member_key n).1 msg) |}.
Definition proof_by (ns : list byte) (msg : bytes) : GovernanceProof :=
  {| gp_signatures := (fun n => sign_by n msg) <$> ns |}.

Example two_members_suffice :
  verify_governance_proof default_features config (proof_by [x03; x03; x01] [x07]) [x07] = Ok tt.
Proof. vm_compute. reflexivity. Qed.

Example one_member_twice_does_not :
  verify_governance_proof default_features config (proof_by [x03; x03] [x07]) [x07] =
  Err (BelowThreshold 1 2).
Proof. vm_compute. reflexivity. Qed.
End SampleCommittee.

#[local] Existing Instance Checksum.prims.
#[local] Existing Instance ChecksumSig.prims.

Lemma verify_governance_proof_iff_witness :
  let cfg := SampleCommittee.config in
  let proof := SampleCommittee.proof_by [x03; x09; x01] [x07] in
  (verify_governance_proof default_features cfg proof [x07] = Ok tt <->
   gc_threshold cfg <= Z.of_nat (size (approving_signers default_features cfg proof [x07]))) /\
  (forall id, id ∈ approving_signers default_features cfg proof [x07] ->
     exists signer sg, signer ∈ gc_signers cfg /\ gs_signer_id signer = id /\
       sg ∈ gp_signatures proof /\ gsig_signer_id sg = id /\
       verify default_features (gs_sig_algo signer) (gs_pubkey signer) (gsig_sig sg) [x07] = Ok tt).
Proof.
  cbv zeta. apply (verify_governance_proof_iff default_features); cbn; lia.
Defined.

Lemma gov_payload_binding_witness :
  let a1 := GovRegister (replicate 32 x01) [replicate 20 x02; replicate 20 x03] in
  let a2 := GovRegister (replicate 32 x01) [replicate 20 x03; replicate 20 x02] in
  gov_action_equiv a1 a2 \/
  blake3_collision (gov_preimage (CG:=GovernanceWire.GovernanceConfig_cbor) a1)
    (gov_preimage (CG:=GovernanceWire.GovernanceConfig_cbor) a2).
Proof.
  cbv zeta. apply gov_payload_binding; [| |vm_compute; reflexivity];
    (split_and!; [reflexivity| |reflexivity]; intros x Hx;
     rewrite !elem_of_cons, elem_of_nil in Hx; by destruct_or!; subst).
Defined.
