(* ===== verification/Reflection.v ===== *)
(** * Reflection: rolling chain statistics (crates/consensus/src/reflection.rs)

    The record [apply_block] commits for every block, the three windows, and the stability
    bias computed from two windows by cross-multiplication. *)

From S2P Require Export Codec.

Local Open Scope Z_scope.

Inductive ReflectWindow := Short | Long | Epoch.

Definition window_blocks (w : ReflectWindow) : Z :=
  match w with Short => 144 | Long => 2016 | Epoch => 210000 end.

Definition window_path_tag (w : ReflectWindow) : string :=
  match w with
  | Short => "window_short"
  | Long => "window_long"
  | Epoch => "window_epoch"
  end.

Record Reflection := {
  rf_hashrate_proxy : Z;
  rf_active_addresses : Z;
  rf_fee_sum : Z;
  rf_emission : Z;
  rf_r_h_q64 : Z;
  rf_r_a_q64 : Z;
  rf_stability_bias : Z;
}.

#[export] Instance Reflection_eq_dec : EqDecision Reflection.
Proof. solve_decision. Defined.

#[export] Instance typed_Reflection : Typed Reflection := fun r =>
  in_ub 128 (rf_hashrate_proxy r) && in_ub 64 (rf_active_addresses r) &&
  in_ub 128 (rf_fee_sum r) && in_ub 128 (rf_emission r) &&
  in_sb 128 (rf_r_h_q64 r) && in_sb 128 (rf_r_a_q64 r) && in_sb 8 (rf_stability_bias r).

Definition compute_stability_bias (prev curr : Reflection) : Z :=
  if (rf_active_addresses prev =? 0) || (rf_active_addresses curr =? 0) then 0
  else
    let lhs := saturating_mul 128 (rf_fee_sum curr) (rf_active_addresses prev) in
    let rhs := saturating_mul 128 (rf_fee_sum prev) (rf_active_addresses curr) in
    if rhs <? lhs then 1 else if lhs <? rhs then -1 else 0.

Section properties.
(** the stability bias is the sign of the change of fees per active address.  For two
    windows with activity and cross products below 2^128 it is the sign of
    [curr.fee_sum / curr.active - prev.fee_sum / prev.active] compared exactly; it is
    always one of -1, 0 and 1, it is 0 when either window has no activity, and swapping
    the windows negates it even where the products saturate. *)
Theorem stability_bias_sign prev curr :
  typed prev = true -> typed curr = true ->
  (rf_active_addresses prev <> 0 -> rf_active_addresses curr <> 0 ->
   rf_fee_sum curr * rf_active_addresses prev < 2 ^ 128 ->
   rf_fee_sum prev * rf_active_addresses curr < 2 ^ 128 ->
   compute_stability_bias prev curr =
     Z.sgn (rf_fee_sum curr * rf_active_addresses prev -
            rf_fee_sum prev * rf_active_addresses curr)) /\
  (rf_active_addresses prev = 0 \/ rf_active_addresses curr = 0 ->
   compute_stability_bias prev curr = 0) /\
  compute_stability_bias curr prev = - compute_stability_bias prev curr /\
  in_sb 8 (compute_stability_bias prev curr) = true.
Proof.
  intros _ _. unfold compute_stability_bias.
  set (l := rf_fee_sum curr * rf_active_addresses prev).
  set (r := rf_fee_sum prev * rf_active_addresses curr).
  set (ls := saturating_mul 128 (rf_fee_sum curr) _).
  set (rs := saturating_mul 128 (rf_fee_sum prev) _).
  destruct (Z.eqb_spec (rf_active_addresses prev) 0), (Z.eqb_spec (rf_active_addresses curr) 0);
    cbn [orb]; try (split_and!; [lia|done|done|done]).
  split_and!; [|lia| |].
  - intros _ _ Hl Hr. unfold ls, rs. rewrite !saturating_mul_small by done. fold l r.
    destruct (Z.ltb_spec r l); [lia|]. destruct (Z.ltb_spec l r); lia.
  - destruct (Z.ltb_spec rs ls), (Z.ltb_spec ls rs); lia.
  - destruct (Z.ltb_spec rs ls), (Z.ltb_spec ls rs); done.
Qed.
End properties.

Definition sample_reflection (fees active : Z) : Reflection :=
  {| rf_hashrate_proxy := 1; rf_active_addresses := active; rf_fee_sum := fees;
     rf_emission := 0; rf_r_h_q64 := 0; rf_r_a_q64 := 0; rf_stability_bias := 0 |}.

Lemma stability_bias_sign_witness :
  let prev := sample_reflection 10 5 in
  let curr := sample_reflection 9 4 in
  (rf_active_addresses prev <> 0 -> rf_active_addresses curr <> 0 ->
   rf_fee_sum curr * rf_active_addresses prev < 2 ^ 128 ->
   rf_fee_sum prev * rf_active_addresses curr < 2 ^ 128 ->
   compute_stability_bias prev curr =
     Z.sgn (rf_fee_sum curr * rf_active_addresses prev -
            rf_fee_sum prev * rf_active_addresses curr)) /\
  (rf_active_addresses prev = 0 \/ rf_active_addresses curr = 0 ->
   compute_stability_bias prev curr = 0) /\
  compute_stability_bias curr prev = - compute_stability_bias prev curr /\
  in_sb 8 (compute_stability_bias prev curr) = true.
Proof. apply stability_bias_sign; reflexivity. Defined.

(** ** A concrete codec; signed fields are stored with an offset. *)
Module ReflectionWire.
Import Wire.

Definition csint (n : nat) : codec Z :=
  let h := 2 ^ (8 * Z.of_nat n - 1) in cmap (fun z => z + h) (fun z => z - h) (cint n).

Lemma csint_ok n : (0 < n)%nat -> ok (in_sb (8 * Z.of_nat n)) (csint n).
Proof.
  intros Hn. eapply cmap_ok; [| |apply cint_ok].
  - intros z. unfold in_sb, in_ub. rewrite !andb_true_iff, !Z.leb_le, !Z.ltb_lt.
    assert (2 ^ (8 * Z.of_nat n) = 2 * 2 ^ (8 * Z.of_nat n - 1))
      by (rewrite <- Z.pow_succ_r by lia; f_equal; lia). lia.
  - intros z. lia.
Qed.

Definition codec : codec Reflection :=
  cmap (fun r => (rf_hashrate_proxy r, (rf_active_addresses r, (rf_fee_sum r,
          (rf_emission r, (rf_r_h_q64 r, (rf_r_a_q64 r, rf_stability_bias r)))))))
       (fun p => {| rf_hashrate_proxy := p.1; rf_active_addresses := p.2.1;
          rf_fee_sum := p.2.2.1; rf_emission := p.2.2.2.1; rf_r_h_q64 := p.2.2.2.2.1;
          rf_r_a_q64 := p.2.2.2.2.2.1; rf_stability_bias := p.2.2.2.2.2.2 |})
       (cpair (cint 16) (cpair (cint 8) (cpair (cint 16) (cpair (cint 16)
          (cpair (csint 16) (cpair (csint 16) (csint 1))))))).

Lemma reflection_codec_typed : ok typed codec.
Proof.
  eapply cmap_ok; [| |repeat first [apply cpair_ok|apply cint_ok|apply csint_ok; lia]].
  - intros a. unfold typed, typed_Reflection. cbn. rewrite !andb_true_iff. tauto.
  - by intros [].
Qed.

#[export] Instance Reflection_cbor : Cbor Reflection := cbor codec reflection_codec_typed.
End ReflectionWire.
