(* ===== verification/Records.v ===== *)
(** * Records: what [apply_block] writes outside the accounts
    (crates/state/src/apply.rs, lines 23-75 and 263-352)

    The records of the [Attest] and [Meta] subtrees, their keys and loaders, and the class
    [StateCodecs] that collects the CBOR codecs of the state crate. *)

From S2P Require Export Governance Reflection.
From Stdlib Require Import Strings.Byte.

Local Open Scope Z_scope.

Record AttestRecord := {
  ar_job_id : bytes;
  ar_round_id : Z;
  ar_model_hash : bytes;
  ar_dp_epsilon_milli : Z;
  ar_coordinator : bytes;
  ar_block_height : Z;
  ar_block_timestamp_ms : Z;
}.

Record PendingCryptoUpgrade := {
  pu_target_height : Z;
  pu_sig_algo : Z;
  pu_hash_algo : Z;
  pu_announced_at_height : Z;
}.

Record ActiveCrypto := {
  ac_sig_algo : Z;
  ac_hash_algo : Z;
  ac_activated_at_height : Z;
}.

Record CoordinatorAuthority := {
  ca_job_id : bytes;
  ca_coordinators : list bytes;
  ca_registered_at_height : Z;
}.

Record PedigreeRecord := {
  pr_job_id : bytes;
  pr_lot_id : bytes;
  pr_supplier : bytes;
  pr_cage_code : bytes;
  pr_attestation_authority : bytes;
  pr_attester : bytes;
  pr_block_height : Z;
  pr_block_timestamp_ms : Z;
}.

#[export] Instance typed_AttestRecord : Typed AttestRecord := fun r =>
  is_array 32 (ar_job_id r) && in_ub 64 (ar_round_id r) && is_array 32 (ar_model_hash r) &&
  in_ub 32 (ar_dp_epsilon_milli r) && account_ok (ar_coordinator r) &&
  in_ub 64 (ar_block_height r) && in_ub 64 (ar_block_timestamp_ms r).
#[export] Instance typed_PendingCryptoUpgrade : Typed PendingCryptoUpgrade := fun p =>
  in_ub 64 (pu_target_height p) && in_ub 8 (pu_sig_algo p) && in_ub 8 (pu_hash_algo p) &&
  in_ub 64 (pu_announced_at_height p).
#[export] Instance typed_ActiveCrypto : Typed ActiveCrypto := fun a =>
  in_ub 8 (ac_sig_algo a) && in_ub 8 (ac_hash_algo a) && in_ub 64 (ac_activated_at_height a).
#[export] Instance typed_CoordinatorAuthority : Typed CoordinatorAuthority := fun c =>
  is_array 32 (ca_job_id c) && forallb account_ok (ca_coordinators c) &&
  in_ub 64 (ca_registered_at_height c).
#[export] Instance typed_PedigreeRecord : Typed PedigreeRecord := fun r =>
  is_array 32 (pr_job_id r) && is_array 16 (pr_lot_id r) && is_array 32 (pr_supplier r) &&
  is_array 5 (pr_cage_code r) && is_array 32 (pr_attestation_authority r) &&
  account_ok (pr_attester r) && in_ub 64 (pr_block_height r) &&
  in_ub 64 (pr_block_timestamp_ms r).

(** The codecs of the state crate. *)
Class StateCodecs := {
  sc_account :: Cbor Account;
  sc_config :: Cbor GovernanceConfig;
  sc_proof :: Cbor GovernanceProof;
  sc_attest :: Cbor AttestRecord;
  sc_pending :: Cbor PendingCryptoUpgrade;
  sc_active :: Cbor ActiveCrypto;
  sc_authority :: Cbor CoordinatorAuthority;
  sc_pedigree :: Cbor PedigreeRecord;
  sc_reflection :: Cbor Reflection;
}.

(** ** Keys *)

Definition PEDIGREE_KEY_PREFIX : bytes := ascii_bytes "ped/".
Definition ATTEST_AUTH_KEY_PREFIX : bytes := ascii_bytes "attau".

Definition pedigree_key (job_id lot_id : bytes) : bytes :=
  PEDIGREE_KEY_PREFIX ++ job_id ++ lot_id.

Definition attest_auth_key (job_id : bytes) : bytes := ATTEST_AUTH_KEY_PREFIX ++ job_id.

(** [key[..32] = job_id; key[32..] = round_id.to_be_bytes()] *)
Definition attest_key (job_id : bytes) (round_id : Z) : bytes := job_id ++ be_bytes 8 round_id.

Definition block_key (height : Z) : bytes := ascii_bytes "block/" ++ be_bytes 8 height.

Definition is_valid_cage (cage : bytes) : bool :=
  forallb (fun b => ((65 <=? byte_to_Z b) && (byte_to_Z b <=? 90)) ||
                    ((48 <=? byte_to_Z b) && (byte_to_Z b <=? 57))) cage.

(** ** Loaders *)

Section loaders.
Context {St : Type} `{StateStore St} `{StateCodecs}.

Definition load_active_crypto (s : St) : option ActiveCrypto :=
  get_cbor s Meta (ascii_bytes "active_crypto").

Definition load_latest_reflection (s : St) : option Reflection :=
  get_cbor s Reflect (ascii_bytes "latest").

Definition load_reflection_at (s : St) (height : Z) : option Reflection :=
  get_cbor s Reflect (block_key height).

Definition load_attest_authority (s : St) (job_id : bytes) : option CoordinatorAuthority :=
  get_cbor s Meta (attest_auth_key job_id).

(** The pending rotation, read inline by [apply_block]. *)
Definition load_pending_upgrade (s : St) : option PendingCryptoUpgrade :=
  get_cbor s Meta (ascii_bytes "upgrade_crypto").
End loaders.

(** ** The keys of one subtree never clash *)

Lemma attest_auth_key_inj j1 j2 : attest_auth_key j1 = attest_auth_key j2 -> j1 = j2.
Proof. apply app_inv_head. Qed.

Lemma length_attest_auth_key j : length j = 32%nat -> length (attest_auth_key j) = 37%nat.
Proof. intros Hj. unfold attest_auth_key. rewrite length_app, Hj. done. Qed.

Lemma block_key_inj h1 h2 : in_u 64 h1 -> in_u 64 h2 -> block_key h1 = block_key h2 -> h1 = h2.
Proof.
  intros H1 H2 E. apply app_inv_head in E. apply be_bytes_inj in E; [done|exact H1|exact H2].
Qed.

Lemma block_key_latest h : block_key h <> ascii_bytes "latest".
Proof.
  intros E. apply (f_equal length) in E. unfold block_key in E.
  rewrite length_app, length_be_bytes in E. discriminate E.
Qed.

Lemma attest_key_inj j1 j2 r1 r2 :
  length j1 = 32%nat -> length j2 = 32%nat -> in_u 64 r1 -> in_u 64 r2 ->
  attest_key j1 r1 = attest_key j2 r2 -> j1 = j2 /\ r1 = r2.
Proof.
  intros L1 L2 H1 H2 E. apply app_inv_length in E as [-> E]; [|congruence].
  apply be_bytes_inj in E; [done|exact H1|exact H2].
Qed.

Lemma attest_pedigree_keys j1 r j2 l :
  length j1 = 32%nat -> length j2 = 32%nat -> length l = 16%nat ->
  attest_key j1 r <> pedigree_key j2 l.
Proof.
  intros L1 L2 L3 E. apply (f_equal length) in E. unfold attest_key, pedigree_key in E.
  rewrite !length_app, length_be_bytes, L1, L2, L3 in E. discriminate E.
Qed.

(** ** Concrete codecs *)
Module RecordsWire.
Import Wire.

Definition attest_codec : codec AttestRecord :=
  cmap (fun r => (ar_job_id r, (ar_round_id r, (ar_model_hash r, (ar_dp_epsilon_milli r,
          (ar_coordinator r, (ar_block_height r, ar_block_timestamp_ms r)))))))
       (fun p => {| ar_job_id := p.1; ar_round_id := p.2.1; ar_model_hash := p.2.2.1;
          ar_dp_epsilon_milli := p.2.2.2.1; ar_coordinator := p.2.2.2.2.1;
          ar_block_height := p.2.2.2.2.2.1; ar_block_timestamp_ms := p.2.2.2.2.2.2 |})
       (cpair (carr 32) (cpair (cint 8) (cpair (carr 32) (cpair (cint 4)
          (cpair (carr 20) (cpair (cint 8) (cint 8))))))).

Definition pending_codec : codec PendingCryptoUpgrade :=
  cmap (fun r => (pu_target_height r, (pu_sig_algo r,
          (pu_hash_algo r, pu_announced_at_height r))))
       (fun p => {| pu_target_height := p.1; pu_sig_algo := p.2.1; pu_hash_algo := p.2.2.1;
          pu_announced_at_height := p.2.2.2 |})
       (cpair (cint 8) (cpair (cint 1) (cpair (cint 1) (cint 8)))).

Definition active_codec : codec ActiveCrypto :=
  cmap (fun r => (ac_sig_algo r, (ac_hash_algo r, ac_activated_at_height r)))
       (fun p => {| ac_sig_algo := p.1; ac_hash_algo := p.2.1;
          ac_activated_at_height := p.2.2 |})
       (cpair (cint 1) (cpair (cint 1) (cint 8))).

Definition authority_codec : codec CoordinatorAuthority :=
  cmap (fun r => (ca_job_id r, (ca_coordinators r, ca_registered_at_height r)))
       (fun p => {| ca_job_id := p.1; ca_coordinators := p.2.1;
          ca_registered_at_height := p.2.2 |})
       (cpair (carr 32) (cpair (clist (carr 20)) (cint 8))).

Definition pedigree_codec : codec PedigreeRecord :=
  cmap (fun r => (pr_job_id r, (pr_lot_id r, (pr_supplier r, (pr_cage_code r,
          (pr_attestation_authority r, (pr_attester r,
          (pr_block_height r, pr_block_timestamp_ms r))))))))
       (fun p => {| pr_job_id := p.1; pr_lot_id := p.2.1; pr_supplier := p.2.2.1;
          pr_cage_code := p.2.2.2.1; pr_attestation_authority := p.2.2.2.2.1;
          pr_attester := p.2.2.2.2.2.1; pr_block_height := p.2.2.2.2.2.2.1;
          pr_block_timestamp_ms := p.2.2.2.2.2.2.2 |})
       (cpair (carr 32) (cpair (carr 16) (cpair (carr 32) (cpair (carr 5)
          (cpair (carr 32) (cpair (carr 20) (cpair (cint 8) (cint 8)))))))).

Ltac record_codec :=
  eapply cmap_ok; [| |codec_ok];
  [ intros a; unfold typed; match goal with |- ?f a = true -> _ => unfold f end; cbn;
    rewrite !andb_true_iff; tauto
  | by intros [] ].

Lemma attest_codec_typed : ok typed attest_codec.
Proof. record_codec. Qed.
Lemma pending_codec_typed : ok typed pending_codec.
Proof. record_codec. Qed.
Lemma active_codec_typed : ok typed active_codec.
Proof. record_codec. Qed.
Lemma authority_codec_typed : ok typed authority_codec.
Proof. record_codec. Qed.
Lemma pedigree_codec_typed : ok typed pedigree_codec.
Proof. record_codec. Qed.

#[export] Instance codecs : StateCodecs := {|
  sc_account := AccountWire.Account_cbor;
  sc_config := GovernanceWire.GovernanceConfig_cbor;
  sc_proof := GovernanceWire.GovernanceProof_cbor;
  sc_attest := cbor attest_codec attest_codec_typed;
  sc_pending := cbor pending_codec pending_codec_typed;
  sc_active := cbor active_codec active_codec_typed;
  sc_authority := cbor authority_codec authority_codec_typed;
  sc_pedigree := cbor pedigree_codec pedigree_codec_typed;
  sc_reflection := ReflectionWire.Reflection_cbor;
|}.
End RecordsWire.
