(* ===== verification/Pow.v ===== *)
(** * Pow: compact targets and the proof-of-work hash (crates/consensus/src/pow.rs)

    A target is a big-endian [[u8; 32]]; [be_to_Z] is the number it stands for.  The compact
    encoding keeps the three leading bytes of that number: [compact_value] is the number a
    [bits] field denotes, the specification of [target_from_bits]. *)

From S2P Require Export Tx.
From Stdlib Require Import Strings.Byte.

Local Open Scope Z_scope.

(** ** The code *)

Definition zero_target : bytes := replicate 32 x00.

Definition target_from_bits (bits : Z) : bytes :=
  let exponent := Z.shiftr bits 24 in
  let mantissa := Z.land bits 0x007fffff in
  let target := zero_target in
  if (exponent =? 0) || (32 <? exponent) then target
  else
    let m_bytes := be_bytes 4 mantissa in
    foldl (fun target '(i, b) =>
      let idx := saturating_add 64 (saturating_sub 32 exponent) (Z.of_nat i) in
      if idx <? 32 then <[Z.to_nat idx := b]> target else target)
      target (enumerate (take 3 (drop 1 m_bytes))).

(** [iter().take_while(|b| b == 0).count()] *)
Fixpoint leading_zero_bytes (l : bytes) : nat :=
  match l with
  | [] => 0
  | b :: l => if byte_to_Z b =? 0 then S (leading_zero_bytes l) else 0
  end.

(** The three bytes from the first non-zero one, zero-extended on the right. *)
Definition leading_mantissa (target : bytes) (leading_zeros : nat) : Z :=
  foldl (fun mantissa i =>
    let idx := (leading_zeros + i)%nat in
    let b := if (idx <? 32)%nat then byte_to_Z (default x00 (target !! idx)) else 0 in
    Z.lor (Z.shiftl mantissa 8 mod 2 ^ 32) b) 0 (seq 0 3).

Definition bits_from_target (target : bytes) : Z :=
  let leading_zeros := leading_zero_bytes target in
  if (32 <=? leading_zeros)%nat then 0
  else
    let exponent := 32 - Z.of_nat leading_zeros in
    let mantissa := leading_mantissa target leading_zeros in
    let '(mantissa, exponent) :=
      if Z.land mantissa 0x00800000 =? 0 then (mantissa, exponent)
      else (Z.shiftr mantissa 8, exponent + 1) in
    if 0xff <? exponent then 0
    else Z.lor (Z.shiftl exponent 24 mod 2 ^ 32) (Z.land mantissa 0x007fffff).

Definition header_preimage (h : BlockHeader) : bytes :=
  le_bytes 4 (bh_version h) ++ le_bytes 8 (bh_height h) ++ bh_parent h ++
  le_bytes 8 (bh_timestamp_ms h) ++ le_bytes 4 (bh_bits h) ++ le_bytes 8 (bh_nonce h) ++
  bh_tx_root h ++ bh_witness_root h ++ bh_state_root h ++ bh_reflect_root h ++
  bh_coinbase h ++ [Z_to_byte (bh_sig_algo h); Z_to_byte (bh_hash_algo h)].

Definition hash_header `{HashPrims} (h : BlockHeader) : bytes :=
  truncate_to_32 (hash_with_domain Blake3Xof512 (ascii_bytes "hdr") (header_preimage h)).

(** [for (h, t) in hash.iter().zip(target.iter())] *)
Fixpoint meets_target (hash target : bytes) : bool :=
  match hash, target with
  | h :: hash, t :: target =>
      if byte_to_Z h <? byte_to_Z t then true
      else if byte_to_Z t <? byte_to_Z h then false
      else meets_target hash target
  | _, _ => true
  end.

(** ** The number a compact field denotes *)

Definition compact_exponent (bits : Z) : Z := bits / 2 ^ 24.
Definition compact_mantissa (bits : Z) : Z := bits mod 2 ^ 23.

Definition compact_scale (exponent mantissa : Z) : Z :=
  if 3 <=? exponent then mantissa * 256 ^ (exponent - 3)
  else mantissa / 256 ^ (3 - exponent).

Definition compact_value (bits : Z) : Z :=
  let e := compact_exponent bits in
  if (1 <=? e) && (e <=? 32) then compact_scale e (compact_mantissa bits) else 0.

(** The encodings that keep no redundant leading byte: the leading one is non-zero, or it
    holds the cleared sign bit of the next one, and no bit falls below the last byte. *)
Definition compact_canonical (bits : Z) : bool :=
  let e := compact_exponent bits in
  let m := compact_mantissa bits in
  (1 <=? e) && (e <=? 32) && (bits =? e * 2 ^ 24 + m) && (0x8000 <=? m) &&
  (m mod 256 ^ (Z.max 0 (3 - e)) =? 0).

(** ** Laws *)

Lemma lor_shiftl_add a b n :
  0 <= n -> 0 <= b < 2 ^ n -> Z.lor (Z.shiftl a n) b = a * 2 ^ n + b.
Proof.
  intros Hn Hb. rewrite <- Z.shiftl_mul_pow2 by done.
  assert (Z.land (Z.shiftl a n) b = 0) as Hl.
  { apply Z.bits_inj'. intros k Hk. rewrite Z.land_spec, Z.bits_0, Z.shiftl_spec by done.
    destruct (Z.lt_ge_cases k n); [by rewrite Z.testbit_neg_r by lia|].
    rewrite <- (Z.mod_small b (2 ^ n)), Z.mod_pow2_bits_high by lia. apply andb_false_r. }
  pose proof (Z.add_lor_land (Z.shiftl a n) b) as E. lia.
Qed.

Lemma land_mantissa m : Z.land m 0x007fffff = m mod 2 ^ 23.
Proof. change 0x007fffff with (Z.ones 23). by rewrite Z.land_ones by lia. Qed.

(** The sign bit of a three-byte mantissa. *)
Lemma land_sign m : 0 <= m < 2 ^ 24 -> (Z.land m 0x00800000 =? 0) = (m <? 2 ^ 23).
Proof.
  intros Hm. assert (Z.testbit m 23 = negb (m <? 2 ^ 23)) as Hb.
  { rewrite Z.testbit_odd, Z.shiftr_div_pow2 by lia.
    destruct (Z.ltb_spec m (2 ^ 23)).
    - by rewrite Z.div_small by lia.
    - replace (m / 2 ^ 23) with 1; [done|]. apply (Z.div_unique _ _ _ (m - 2 ^ 23)); lia. }
  change 0x00800000 with (2 ^ 23).
  assert (Z.land m (2 ^ 23) = if Z.testbit m 23 then 2 ^ 23 else 0) as ->.
  { apply Z.bits_inj'. intros k Hk. rewrite Z.land_spec, Z.pow2_bits_eqb by lia.
    destruct (Z.eqb_spec 23 k) as [<-|Hne].
    - destruct (Z.testbit m 23); [|done]. by rewrite Z.pow2_bits_true by lia.
    - rewrite andb_false_r. destruct (Z.testbit m 23); [|by rewrite Z.bits_0].
      by rewrite Z.pow2_bits_false by lia. }
  rewrite Hb. by destruct (m <? 2 ^ 23).
Qed.

Lemma length_zero_target : length zero_target = 32%nat.
Proof. done. Qed.

(** Writing the three mantissa bytes at offset [32 - e]. *)
Lemma place_mantissa (e : nat) b1 b2 b3 : (1 <= e <= 32)%nat ->
  foldl (fun target '(i, b) =>
    let idx := saturating_add 64 (saturating_sub 32 (Z.of_nat e)) (Z.of_nat i) in
    if idx <? 32 then <[Z.to_nat idx := b]> target else target)
    zero_target (enumerate [b1; b2; b3]) =
  replicate (32 - e) x00 ++ take e [b1; b2; b3] ++ replicate (e - 3) x00.
Proof. intros He. do 33 (destruct e as [|e]; [try lia; reflexivity|]). lia. Qed.

Lemma be_bytes_4_drop m : 0 <= m < 2 ^ 24 -> drop 1 (be_bytes 4 m) = be_bytes 3 m.
Proof.
  intros Hm. unfold be_bytes. rewrite !le_bytes_S. cbn.
  unfold le_bytes at 1. cbn. done.
Qed.

Lemma be_bytes_3_cases m : exists b1 b2 b3, be_bytes 3 m = [b1; b2; b3].
Proof.
  pose proof (length_be_bytes 3 m) as Hl.
  destruct (be_bytes 3 m) as [|b1 [|b2 [|b3 [|]]]]; try done. by exists b1, b2, b3.
Qed.

Lemma target_from_bits_shape bits (e : nat) :
  0 <= bits -> compact_exponent bits = Z.of_nat e -> (1 <= e <= 32)%nat ->
  target_from_bits bits =
  replicate (32 - e) x00 ++ take e (be_bytes 3 (compact_mantissa bits)) ++
  replicate (e - 3) x00.
Proof.
  intros Hb He Hr. unfold target_from_bits.
  rewrite Z.shiftr_div_pow2, land_mantissa by lia. fold (compact_exponent bits).
  fold (compact_mantissa bits). rewrite He.
  destruct (Z.eqb_spec (Z.of_nat e) 0); [lia|]. destruct (Z.ltb_spec 32 (Z.of_nat e)); [lia|].
  cbn [orb].
  pose proof (Z.mod_pos_bound bits (2 ^ 23) ltac:(lia)) as Hm. fold (compact_mantissa bits) in Hm.
  rewrite be_bytes_4_drop by lia.
  destruct (be_bytes_3_cases (compact_mantissa bits)) as (b1 & b2 & b3 & ->).
  by apply place_mantissa.
Qed.

(** [target_from_bits] denotes [compact_value]. *)
Lemma target_from_bits_value bits :
  0 <= bits -> length (target_from_bits bits) = 32%nat /\
  be_to_Z (target_from_bits bits) = compact_value bits.
Proof.
  intros Hb. unfold compact_value.
  destruct (decide (1 <= compact_exponent bits <= 32)) as [He|He].
  2:{ assert ((1 <=? compact_exponent bits) && (compact_exponent bits <=? 32) = false) as ->
        by lia.
      unfold target_from_bits. rewrite Z.shiftr_div_pow2 by lia. fold (compact_exponent bits).
      assert (0 <= compact_exponent bits) by (apply Z.div_pos; lia).
      assert ((compact_exponent bits =? 0) || (32 <? compact_exponent bits) = true) as -> by lia.
      split; [done|apply be_to_Z_replicate_zero]. }
  assert ((1 <=? compact_exponent bits) && (compact_exponent bits <=? 32) = true) as -> by lia.
  set (e := Z.to_nat (compact_exponent bits)).
  assert (compact_exponent bits = Z.of_nat e) as He' by lia.
  rewrite (target_from_bits_shape bits e), He' by lia.
  pose proof (Z.mod_pos_bound bits (2 ^ 23) ltac:(lia)) as Hm. fold (compact_mantissa bits) in Hm.
  set (m := compact_mantissa bits) in *.
  split.
  { rewrite !length_app, !length_replicate, length_take, length_be_bytes. lia. }
  rewrite be_to_Z_zeros_app, be_to_Z_app_zeros. unfold compact_scale.
  destruct (be_to_Z_split e (be_bytes 3 m)) as [-> _].
  rewrite be_to_Z_be_bytes, length_be_bytes, (Z.mod_small m) by lia.
  destruct (Z.leb_spec 3 (Z.of_nat e)).
  - replace (3 - e)%nat with 0%nat by lia. rewrite Z.div_1_r. do 2 f_equal. lia.
  - replace (e - 3)%nat with 0%nat by lia. rewrite Z.mul_1_r. do 2 f_equal. lia.
Qed.

Lemma leading_zero_bytes_split l :
  l = replicate (leading_zero_bytes l) x00 ++ drop (leading_zero_bytes l) l /\
  (drop (leading_zero_bytes l) l = [] \/
   256 ^ (Z.of_nat (length l - leading_zero_bytes l) - 1) <= be_to_Z l) /\
  (leading_zero_bytes l <= length l)%nat.
Proof.
  induction l as [|b l (IH & IH1 & IH2)]; [by auto using le_n|].
  cbn [leading_zero_bytes]. destruct (Z.eqb_spec (byte_to_Z b) 0) as [Hb|Hb].
  - apply (byte_to_Z_inj b x00) in Hb as ->.
    cbn [replicate drop app length]. rewrite be_to_Z_cons, <- IH.
    change (byte_to_Z x00) with 0. cbn [Nat.sub]. split_and!; [done|by destruct IH1; auto with lia|lia].
  - split_and!; [done| |cbn; lia]. right. rewrite be_to_Z_cons.
    pose proof (be_to_Z_range l). pose proof (byte_to_Z_range b). cbn [length].
    replace (Z.of_nat (S (length l) - 0) - 1) with (Z.of_nat (length l)) by lia.
    assert (0 < 256 ^ Z.of_nat (length l)) by lia. nia.
Qed.

(** The encoder keeps the leading 24 bits of the number, left-aligned. *)
Definition top_mantissa (e V : Z) : Z :=
  if 3 <=? e then V / 256 ^ (e - 3) else V * 256 ^ (3 - e).

Lemma push_byte m b :
  0 <= m < 2 ^ 16 -> 0 <= b < 256 -> Z.lor (Z.shiftl m 8 mod 2 ^ 32) b = m * 256 + b.
Proof.
  intros Hm Hb. rewrite Z.mod_small by (rewrite Z.shiftl_mul_pow2 by lia; lia).
  by rewrite lor_shiftl_add by lia.
Qed.

Lemma leading_mantissa_bytes t lz : length t = 32%nat ->
  leading_mantissa t lz =
  let b i := byte_to_Z (default x00 (drop lz t !! i)) in
  b 0%nat * 65536 + b 1%nat * 256 + b 2%nat.
Proof.
  intros Ht. unfold leading_mantissa. cbn -[Z.pow Z.shiftl Nat.ltb].
  assert (forall i, (if ((lz + i) <? 32)%nat then byte_to_Z (default x00 (t !! (lz + i)%nat)) else 0)
    = byte_to_Z (default x00 (drop lz t !! i))) as Hl.
  { intros i. rewrite lookup_drop. destruct (Nat.ltb_spec (lz + i) 32); [done|].
    by rewrite lookup_ge_None_2 by lia. }
  rewrite !Hl.
  pose proof (fun i => byte_to_Z_range (default x00 (drop lz t !! i))) as Hr.
  pose proof (Hr 0%nat). pose proof (Hr 1%nat). pose proof (Hr 2%nat).
  rewrite (push_byte 0) by lia. rewrite (push_byte (0 * 256 + _)) by lia.
  rewrite push_byte by lia. lia.
Qed.

Lemma leading_mantissa_top t lz : length t = 32%nat -> (lz < 32)%nat ->
  be_to_Z (drop lz t) = be_to_Z t ->
  leading_mantissa t lz = top_mantissa (32 - Z.of_nat lz) (be_to_Z t).
Proof.
  intros Ht Hlz HV. rewrite leading_mantissa_bytes by done. rewrite <- HV. cbn zeta.
  pose proof (length_drop t lz) as Hl. rewrite Ht in Hl. unfold top_mantissa.
  destruct (drop lz t) as [|a [|b [|c l]]]; cbn in Hl; [lia| | |].
  - replace (32 - Z.of_nat lz) with 1 by lia.
    rewrite (be_to_Z_cons a []). change (be_to_Z []) with 0. cbn. lia.
  - replace (32 - Z.of_nat lz) with 2 by lia.
    rewrite !be_to_Z_cons. change (be_to_Z []) with 0. cbn. lia.
  - destruct (Z.leb_spec 3 (32 - Z.of_nat lz)); [|lia].
    rewrite !be_to_Z_cons. cbn [lookup list_lookup default length].
    replace (32 - Z.of_nat lz - 3) with (Z.of_nat (length l)) by lia.
    rewrite !Nat2Z.inj_succ, !Z.pow_succ_r by lia.
    pose proof (be_to_Z_range l). apply (Z.div_unique _ _ _ (be_to_Z l)); [by left|].
    cbn. nia.
Qed.

(** The encoder as a function of the number and its size in bytes. *)
Definition encode_compact (e V : Z) : Z :=
  let m := top_mantissa e V in
  if m <? 2 ^ 23 then e * 2 ^ 24 + m else (e + 1) * 2 ^ 24 + m / 256.

Lemma top_mantissa_range e V : 1 <= e -> 256 ^ (e - 1) <= V < 256 ^ e ->
  2 ^ 16 <= top_mantissa e V < 2 ^ 24.
Proof.
  intros He HV. unfold top_mantissa. destruct (Z.leb_spec 3 e).
  - replace e with ((e - 3) + 3) in HV at 2 by lia.
    replace (e - 1) with ((e - 3) + 2) in HV by lia. rewrite !Z.pow_add_r in HV by lia.
    assert (0 < 256 ^ (e - 3)) by lia. split.
    + apply Z.div_le_lower_bound; lia.
    + apply Z.div_lt_upper_bound; lia.
  - assert (e = 1 \/ e = 2) as [-> | ->] by lia; cbn in HV |- *; lia.
Qed.

Lemma encode_parts e m : 0 <= e < 256 -> 0 <= m < 2 ^ 23 ->
  Z.lor (Z.shiftl e 24 mod 2 ^ 32) (Z.land m 0x007fffff) = e * 2 ^ 24 + m.
Proof.
  intros He Hm. rewrite land_mantissa, (Z.mod_small m) by lia.
  rewrite Z.mod_small by (rewrite Z.shiftl_mul_pow2 by lia; lia).
  by rewrite lor_shiftl_add by lia.
Qed.

Lemma bits_from_target_spec t (lz := leading_zero_bytes t) : length t = 32%nat ->
  (lz = 32%nat /\ be_to_Z t = 0 /\ bits_from_target t = 0) \/
  (let e := 32 - Z.of_nat lz in
   1 <= e <= 32 /\ 256 ^ (e - 1) <= be_to_Z t < 256 ^ e /\
   bits_from_target t = encode_compact e (be_to_Z t)).
Proof.
  intros Ht. unfold bits_from_target. fold lz.
  destruct (leading_zero_bytes_split t) as (E & Hlow & Hle). fold lz in E, Hlow, Hle.
  rewrite Ht in Hlow, Hle. destruct (Nat.leb_spec 32 lz) as [H32|H32].
  { left. split_and!; [lia| |done]. rewrite E, be_to_Z_zeros_app, drop_ge by lia. done. }
  right. cbn zeta. assert (be_to_Z (drop lz t) = be_to_Z t) as HV.
  { rewrite E at 2. by rewrite be_to_Z_zeros_app. }
  pose proof (be_to_Z_range (drop lz t)) as Hr. rewrite length_drop, HV, Ht in Hr.
  replace (Z.of_nat (32 - lz)) with (32 - Z.of_nat lz) in Hr, Hlow by lia.
  assert (256 ^ (32 - Z.of_nat lz - 1) <= be_to_Z t) as Hlo.
  { destruct Hlow as [Hd|?]; [|done]. pose proof (length_drop t lz) as Hl.
    rewrite Hd, Ht in Hl. cbn in Hl. lia. }
  split_and!; [lia|lia|lia|lia|]. rewrite leading_mantissa_top by done.
  set (e := 32 - Z.of_nat lz) in *.
  pose proof (top_mantissa_range e (be_to_Z t) ltac:(lia) ltac:(lia)) as Hm.
  unfold encode_compact. set (m := top_mantissa e (be_to_Z t)) in *.
  rewrite land_sign by lia. destruct (Z.ltb_spec m (2 ^ 23)).
  - destruct (Z.ltb_spec 0xff e); [lia|]. by apply encode_parts; lia.
  - destruct (Z.ltb_spec 0xff (e + 1)); [lia|]. rewrite Z.shiftr_div_pow2 by lia.
    apply encode_parts; [lia|]. change (2 ^ 8) with 256.
    split; [apply Z.div_pos; lia|apply Z.div_lt_upper_bound; lia].
Qed.

Lemma size_unique e1 e2 V : 1 <= e1 -> 1 <= e2 ->
  256 ^ (e1 - 1) <= V < 256 ^ e1 -> 256 ^ (e2 - 1) <= V < 256 ^ e2 -> e1 = e2.
Proof.
  intros H1 H2 R1 R2. apply Z.le_antisymm; apply Z.lt_pred_le, (Z.pow_lt_mono_r_iff 256); lia.
Qed.

(** The size and the leading bits of a number decide its encoding. *)
Lemma bits_from_target_of t e V bits : length t = 32%nat -> be_to_Z t = V ->
  1 <= e -> 256 ^ (e - 1) <= V < 256 ^ e -> encode_compact e V = bits ->
  bits_from_target t = bits.
Proof.
  intros Ht HV He Hr <-. destruct (bits_from_target_spec t Ht) as [(_ & H0 & _)|(He' & Hr' & ->)].
  - assert (0 < 256 ^ (e - 1)) by lia. lia.
  - rewrite HV in *. f_equal. by eapply size_unique; [lia|lia|exact Hr'|].
Qed.

Lemma compact_parts bits : 0 <= bits < 2 ^ 32 ->
  0 <= compact_exponent bits < 256 /\ 0 <= compact_mantissa bits < 2 ^ 23.
Proof.
  intros Hb. unfold compact_exponent, compact_mantissa. split.
  - split; [apply Z.div_pos; lia|apply Z.div_lt_upper_bound; lia].
  - apply Z.mod_pos_bound; lia.
Qed.

(** A canonical field is the encoding of the number it denotes. *)
Lemma encode_compact_value k m : 1 <= k -> 0x8000 <= m < 2 ^ 23 ->
  m mod 256 ^ Z.max 0 (3 - k) = 0 ->
  exists e, 1 <= e /\ 256 ^ (e - 1) <= compact_scale k m < 256 ^ e /\
    encode_compact e (compact_scale k m) = k * 2 ^ 24 + m.
Proof.
  intros Hk Hm Hdiv. unfold compact_scale, encode_compact, top_mantissa.
  destruct (Z.leb_spec 3 k) as [H3|H3].
  - assert (0 < 256 ^ (k - 3)) as Hp by lia. destruct (Z.lt_ge_cases m (2 ^ 16)).
    + exists (k - 1). replace (256 ^ (k - 1 - 1)) with (256 * 256 ^ (k - 3))
        by (rewrite <- Z.pow_succ_r by lia; f_equal; lia).
      replace (256 ^ (k - 1)) with (65536 * 256 ^ (k - 3))
        by (change 65536 with (256 ^ 2); rewrite <- Z.pow_add_r by lia; f_equal; lia).
      assert ((if 3 <=? k - 1 then m * 256 ^ (k - 3) / 256 ^ (k - 1 - 3)
               else m * 256 ^ (k - 3) * 256 ^ (3 - (k - 1))) = m * 256) as ->.
      { destruct (Z.leb_spec 3 (k - 1)).
        - replace (k - 3) with (Z.succ (k - 1 - 3)) by lia. rewrite Z.pow_succ_r by lia.
          rewrite Z.mul_assoc. apply Z.div_mul. lia.
        - replace k with 3 by lia. cbn. lia. }
      destruct (Z.ltb_spec (m * 256) (2 ^ 23)); [lia|].
      rewrite Z.div_mul by lia. split_and!; nia.
    + exists k. replace (256 ^ (k - 1)) with (65536 * 256 ^ (k - 3))
        by (change 65536 with (256 ^ 2); rewrite <- Z.pow_add_r by lia; f_equal; lia).
      replace (256 ^ k) with (16777216 * 256 ^ (k - 3))
        by (change 16777216 with (256 ^ 3); rewrite <- Z.pow_add_r by lia; f_equal; lia).
      destruct (Z.leb_spec 3 k); [|lia]. rewrite Z.div_mul by lia.
      destruct (Z.ltb_spec m (2 ^ 23)); [|lia]. split_and!; nia.
  - assert (k = 1 \/ k = 2) as [-> | ->] by lia; eval_num; apply Z.mod_divide in Hdiv as [q ->];
      try lia; rewrite Z.div_mul by lia.
    + exists 1. eval_num. destruct (Z.ltb_spec (q * 65536) 8388608); lia.
    + destruct (Z.lt_ge_cases q 256).
      * exists 1. eval_num. destruct (Z.ltb_spec (q * 65536) 8388608); [lia|].
        replace (q * 65536 / 256) with (q * 256); [lia|]. apply Z.div_unique_exact; lia.
      * exists 2. eval_num. destruct (Z.ltb_spec (q * 256) 8388608); lia.
Qed.

(** A decoded encoding is the number cut to its leading bits. *)
Lemma compact_scale_top e V : 1 <= e -> 256 ^ (e - 1) <= V < 256 ^ e ->
  let '(m, k) := if top_mantissa e V <? 2 ^ 23 then (top_mantissa e V, e)
                 else (top_mantissa e V / 256, e + 1) in
  0x8000 <= m < 2 ^ 23 /\ m mod 256 ^ Z.max 0 (3 - k) = 0 /\
  compact_scale k m <= V < compact_scale k m + 256 ^ Z.max 0 (k - 3).
Proof.
  intros He HV. pose proof (top_mantissa_range e V He HV) as Hm.
  unfold top_mantissa, compact_scale in *. destruct (Z.leb_spec 3 e) as [H3|H3].
  - assert (0 < 256 ^ (e - 3)) as Hp by lia.
    pose proof (Z.div_mod V (256 ^ (e - 3)) ltac:(lia)) as Hd.
    pose proof (Z.mod_pos_bound V (256 ^ (e - 3)) ltac:(lia)) as Hmod.
    set (m := V / 256 ^ (e - 3)) in *. destruct (Z.ltb_spec m (2 ^ 23)).
    + destruct (Z.leb_spec 3 e); [|lia]. rewrite !Z.max_l, !Z.max_r by lia.
      split_and!; [lia|lia|by rewrite Z.mod_1_r|nia|nia].
    + destruct (Z.leb_spec 3 (e + 1)); [|lia]. rewrite !Z.max_l, !Z.max_r by lia.
      replace (e + 1 - 3) with (Z.succ (e - 3)) by lia. rewrite Z.pow_succ_r by lia.
      pose proof (Z.div_mod m 256 ltac:(lia)). pose proof (Z.mod_pos_bound m 256 ltac:(lia)).
      split_and!; [lia|lia|by rewrite Z.mod_1_r|nia|nia].
  - assert (e = 1 \/ e = 2) as [-> | ->] by lia; eval_num.
    + destruct (Z.ltb_spec (V * 65536) 8388608); eval_num.
      * rewrite Z.mod_mul, Z.div_mul by lia. lia.
      * replace (V * 65536 / 256) with (V * 256) by (apply Z.div_unique_exact; lia).
        rewrite Z.mod_mul, Z.div_mul by lia. lia.
    + destruct (Z.ltb_spec (V * 256) 8388608); eval_num.
      * rewrite Z.mod_mul, Z.div_mul by lia. lia.
      * rewrite Z.div_mul, Z.mod_1_r by lia. lia.
Qed.

Lemma compact_decompose e m : 0 <= m < 2 ^ 23 ->
  compact_exponent (e * 2 ^ 24 + m) = e /\ compact_mantissa (e * 2 ^ 24 + m) = m.
Proof.
  intros Hm. unfold compact_exponent, compact_mantissa. split.
  - rewrite Z.add_comm, Z.div_add, Z.div_small by lia. lia.
  - replace (e * 2 ^ 24) with (e * 2 * 2 ^ 23) by lia.
    by rewrite Z.add_comm, Z.mod_add, Z.mod_small by lia.
Qed.

Lemma compact_value_of e m : 1 <= e <= 32 -> 0 <= m < 2 ^ 23 ->
  compact_value (e * 2 ^ 24 + m) = compact_scale e m.
Proof.
  intros He Hm. unfold compact_value. destruct (compact_decompose e m Hm) as [-> ->].
  by assert ((1 <=? e) && (e <=? 32) = true) as -> by lia.
Qed.

(** What the encoder emits for a number below [2^255]. *)
Lemma encode_compact_canonical e V : 1 <= e <= 32 -> 256 ^ (e - 1) <= V < 256 ^ e ->
  V < 2 ^ 255 ->
  let bits := encode_compact e V in
  0 <= bits < 2 ^ 32 /\ compact_canonical bits = true /\
  compact_value bits <= V < compact_value bits + 256 ^ Z.max 0 (compact_exponent bits - 3).
Proof.
  intros He HV Htop. pose proof (compact_scale_top e V ltac:(lia) HV) as Hs.
  unfold encode_compact. cbn zeta.
  assert (e = 32 -> top_mantissa e V < 2 ^ 23) as H32.
  { intros ->. unfold top_mantissa. cbn [Z.leb Z.compare Pos.compare Pos.compare_cont].
    apply Z.div_lt_upper_bound; [lia|]. change (256 ^ (32 - 3)) with (2 ^ 232). lia. }
  assert (forall k m, 1 <= k <= 32 ->
    0x8000 <= m < 2 ^ 23 /\ m mod 256 ^ Z.max 0 (3 - k) = 0 /\
    compact_scale k m <= V < compact_scale k m + 256 ^ Z.max 0 (k - 3) ->
    0 <= k * 2 ^ 24 + m < 2 ^ 32 /\ compact_canonical (k * 2 ^ 24 + m) = true /\
    compact_value (k * 2 ^ 24 + m) <= V < compact_value (k * 2 ^ 24 + m) +
      256 ^ Z.max 0 (compact_exponent (k * 2 ^ 24 + m) - 3)) as Hk.
  { intros k m Hk (Hm & Hdiv & Hr). unfold compact_canonical.
    rewrite compact_value_of by lia.
    destruct (compact_decompose k m ltac:(lia)) as [-> ->]. rewrite Hdiv.
    split_and!; lia. }
  destruct (Z.ltb_spec (top_mantissa e V) (2 ^ 23)) as [Hlt|Hge].
  - by apply Hk.
  - apply Hk; [|done]. split; [lia|]. destruct (decide (e = 32)); [|lia].
    pose proof (H32 ltac:(done)). lia.
Qed.

Lemma meets_target_spec h t : length h = length t ->
  meets_target h t = true <-> be_to_Z h <= be_to_Z t.
Proof.
  revert t; induction h as [|a h IH]; intros [|b t] Hl; try done. cbn [meets_target].
  injection Hl as Hl. rewrite !be_to_Z_cons, Hl.
  pose proof (be_to_Z_range h) as Rh. pose proof (be_to_Z_range t) as Rt. rewrite Hl in Rh.
  destruct (Z.ltb_spec (byte_to_Z a) (byte_to_Z b)); [split; [nia|done]|].
  destruct (Z.ltb_spec (byte_to_Z b) (byte_to_Z a)); [split; [done|nia]|].
  rewrite IH by done. assert (byte_to_Z a = byte_to_Z b) as -> by lia. lia.
Qed.

Lemma header_preimage_inj h1 h2 : typed h1 = true -> typed h2 = true ->
  header_preimage h1 = header_preimage h2 -> h1 = h2.
Proof.
  intros T1 T2 E. destruct h1, h2. unfold header_preimage in E.
  unfold typed, typed_BlockHeader in T1, T2. cbn -[Z.pow] in *. typed_props.
  apply le_field_inj in E as [-> E]; [|done..]. apply le_field_inj in E as [-> E]; [|done..].
  split_app E Hp. apply le_field_inj in E as [-> E]; [|done..].
  apply le_field_inj in E as [-> E]; [|done..]. apply le_field_inj in E as [-> E]; [|done..].
  split_app E Ht. split_app E Hw. split_app E Hs. split_app E Hr. split_app E Hc.
  apply cons_eq_inv in E as [E1 E]. apply cons_eq_inv in E as [E2 _].
  apply Z_to_byte_inj in E1; [|done..]. apply Z_to_byte_inj in E2; [|done..]. by subst.
Qed.

Section header_hash.
Context `{HashPrims}.

(** The message whose digest is the proof of work of [h]. *)
Definition pow_message (h : BlockHeader) : bytes :=
  domain_tag (ascii_bytes "hdr") ++ header_preimage h.

Lemma hash_header_blake3 h : hash_header h = blake3 (pow_message h).
Proof. unfold hash_header, truncate_to_32. cbn [hash_with_domain]. by apply blake3_xof_prefix; lia. Qed.

Lemma length_hash_header h : length (hash_header h) = 32%nat.
Proof. rewrite hash_header_blake3. apply length_blake3. Qed.

Lemma hash_header_inj_or h1 h2 : typed h1 = true -> typed h2 = true ->
  hash_header h1 = hash_header h2 -> h1 = h2 \/ blake3_collision (pow_message h1) (pow_message h2).
Proof.
  intros T1 T2. rewrite !hash_header_blake3. intros E.
  apply blake3_inj_or in E as [E|]; [left|by right].
  apply header_preimage_inj; [done..|]. by apply app_inv_head in E.
Qed.
End header_hash.

(** A canonical field survives decoding and encoding. *)
Lemma bits_canonical_roundtrip bits :
  compact_canonical bits = true -> bits_from_target (target_from_bits bits) = bits.
Proof.
  intros Hc. unfold compact_canonical in Hc.
  set (e := compact_exponent bits) in *. set (m := compact_mantissa bits) in *.
  assert (0 <= m < 2 ^ 23) by (apply Z.mod_pos_bound; lia). clearbody e m.
  assert (bits = e * 2 ^ 24 + m /\ 1 <= e <= 32 /\ 0x8000 <= m /\
          m mod 256 ^ Z.max 0 (3 - e) = 0) as (-> & He & Hm & Hdiv) by lia.
  destruct (encode_compact_value e m ltac:(lia) ltac:(lia) Hdiv) as (k & Hk & Hr & Henc).
  destruct (target_from_bits_value (e * 2 ^ 24 + m)) as [Hl HV]; [lia|].
  rewrite compact_value_of in HV by lia. by eapply bits_from_target_of.
Qed.

(** Below [2^255] the encoder rounds down to a canonical field. *)
Lemma bits_from_target_rounds t (bits := bits_from_target t) :
  length t = 32%nat -> 0 < be_to_Z t < 2 ^ 255 ->
  compact_canonical bits = true /\ 0 <= bits < 2 ^ 32 /\
  compact_value bits <= be_to_Z t < compact_value bits + 256 ^ Z.max 0 (compact_exponent bits - 3).
Proof.
  intros Ht HV. destruct (bits_from_target_spec t Ht) as [(_ & H0 & _)|(He & Hr & Hb)]; [lia|].
  subst bits. rewrite Hb.
  destruct (encode_compact_canonical _ (be_to_Z t) He Hr ltac:(lia)) as (? & ? & ?). done.
Qed.

(** From [2^255] on it emits exponent 33, which decodes to zero. *)
Lemma bits_from_target_overflow t : length t = 32%nat -> 2 ^ 255 <= be_to_Z t ->
  target_from_bits (bits_from_target t) = zero_target.
Proof.
  intros Ht Htop. pose proof (be_to_Z_range t) as Rt. rewrite Ht in Rt.
  change (256 ^ Z.of_nat 32) with (2 ^ 256) in Rt.
  rewrite (bits_from_target_of t 32 (be_to_Z t) (33 * 2 ^ 24 + be_to_Z t / 2 ^ 232 / 256));
    [|done|done|lia|change (256 ^ (32 - 1)) with (2 ^ 248); change (256 ^ 32) with (2 ^ 256); lia|].
  - unfold target_from_bits. rewrite Z.shiftr_div_pow2 by lia.
    assert (0 <= be_to_Z t / 2 ^ 232 / 256 < 2 ^ 16).
    { split; [apply Z.div_pos; [apply Z.div_pos; lia|lia]|].
      do 2 (apply Z.div_lt_upper_bound; [lia|]). lia. }
    replace ((33 * 2 ^ 24 + be_to_Z t / 2 ^ 232 / 256) / 2 ^ 24) with 33; [done|].
    apply (Z.div_unique _ _ _ (be_to_Z t / 2 ^ 232 / 256)); lia.
  - unfold encode_compact, top_mantissa. change (256 ^ (32 - 3)) with (2 ^ 232).
    cbn [Z.leb Z.compare Pos.compare Pos.compare_cont].
    assert (2 ^ 23 <= be_to_Z t / 2 ^ 232) by (apply Z.div_le_lower_bound; lia).
    destruct (Z.ltb_spec (be_to_Z t / 2 ^ 232) (2 ^ 23)); [lia|]. done.
Qed.

(** ** Properties *)

(** Decoding a canonical compact field and encoding the target again gives the field
    back.  For every 256-bit target, the encoder emits a canonical field that denotes the
    target cut to its leading bits, never a larger target; from 2^255 on the field has
    exponent 33, which decodes to the unreachable target zero. *)
Lemma compact_target_roundtrip :
  (forall bits, compact_canonical bits = true -> bits_from_target (target_from_bits bits) = bits) /\
  (forall target, length target = 32%nat ->
     let bits := bits_from_target target in
     let decoded := be_to_Z (target_from_bits bits) in
     (0 < be_to_Z target < 2 ^ 255 -> compact_canonical bits = true /\
        decoded <= be_to_Z target < decoded + 256 ^ Z.max 0 (compact_exponent bits - 3)) /\
     (2 ^ 255 <= be_to_Z target -> target_from_bits bits = zero_target)).
Proof.
  split; [exact bits_canonical_roundtrip|].
  intros t Ht bits decoded. split; [|by apply bits_from_target_overflow].
  intros HV. destruct (bits_from_target_rounds t Ht HV) as (Hc & Hb & Hs).
  split; [done|]. subst decoded bits. destruct (target_from_bits_value _ (proj1 Hb)) as [_ Hd].
  by rewrite Hd.
Qed.

(** A header meets its own target exactly when its hash, read as a number, is at most
    the number its [bits] field denotes; and the hash commits to every field of the header,
    unless Blake3 collides on the two messages.  Decoding a canonical compact field and
    encoding the target again gives the field back; for a 256-bit target the encoder emits a
    canonical field that denotes the target cut to its leading bits, never a larger one; from
    2^255 on the field has exponent 33, which decodes to the unreachable target zero. *)
Lemma pow_seal `{HashPrims} h1 h2 :
  typed h1 = true -> typed h2 = true ->
  (meets_target (hash_header h1) (target_from_bits (bh_bits h1)) = true <->
   be_to_Z (hash_header h1) <= compact_value (bh_bits h1)) /\
  (hash_header h1 = hash_header h2 ->
   h1 = h2 \/ blake3_collision (pow_message h1) (pow_message h2)) /\
  (forall bits, compact_canonical bits = true -> bits_from_target (target_from_bits bits) = bits) /\
  (forall target, length target = 32%nat ->
     let bits := bits_from_target target in
     let decoded := be_to_Z (target_from_bits bits) in
     (0 < be_to_Z target < 2 ^ 255 -> compact_canonical bits = true /\
        decoded <= be_to_Z target < decoded + 256 ^ Z.max 0 (compact_exponent bits - 3)) /\
     (2 ^ 255 <= be_to_Z target -> target_from_bits bits = zero_target)).
Proof.
  intros T1 T2. split; [|split; [by apply hash_header_inj_or|exact compact_target_roundtrip]].
  assert (0 <= bh_bits h1) as Hb.
  { unfold typed, typed_BlockHeader in T1. typed_props. unfold in_u in *. lia. }
  destruct (target_from_bits_value _ Hb) as [Hl <-].
  apply meets_target_spec. by rewrite length_hash_header.
Qed.

(** ** Instances *)

Section pow_example.
#[local] Existing Instance Checksum.prims.

Definition sample_header (nonce : Z) : BlockHeader :=
  {| bh_version := 1; bh_height := 7; bh_parent := replicate 32 x11;
     bh_timestamp_ms := 1700000000000; bh_bits := 0x1f00ffff; bh_nonce := nonce;
     bh_tx_root := replicate 32 x00; bh_witness_root := replicate 32 x00;
     bh_state_root := replicate 32 x00; bh_reflect_root := replicate 32 x00;
     bh_coinbase := replicate 32 x00; bh_sig_algo := 3; bh_hash_algo := 1 |}.

Lemma pow_seal_witness :
  hash_header (sample_header 1) = hash_header (sample_header 1) /\
  ~ (meets_target (hash_header (sample_header 1)) (target_from_bits 0x1f00ffff) = true /\
     compact_value 0x1f00ffff < be_to_Z (hash_header (sample_header 1))) /\
  bits_from_target (target_from_bits 0x1f00ffff) = 0x1f00ffff /\
  target_from_bits (bits_from_target (replicate 32 xff)) = zero_target.
Proof.
  pose proof (pow_seal (sample_header 1) (sample_header 1) ltac:(reflexivity) ltac:(reflexivity))
    as (Hm & _ & Hr & He).
  split; [reflexivity|]. split; [|split; [apply Hr; vm_compute; reflexivity|]].
  2:{ apply (He (replicate 32 xff)); [reflexivity|vm_compute; discriminate]. }
  intros [H1 H2]. apply Hm in H1. cbn [bh_bits sample_header] in H1. lia.
Defined.
End pow_example.
