(* ===== verification/Retarget.v ===== *)
(** * Retarget: the Bitcoin-style difficulty rule (crates/consensus/src/retarget.rs)

    The routine multiplies a 256-bit target by a 64-bit timespan and divides by another, limb
    by limb over [u64] arrays (most significant limb first).  The loops are the folds below,
    with the [u128] intermediate values cut to their width; the theorem says that they
    compute the exact quotient, saturated at [2^256 - 1]. *)

From S2P Require Export Pow.
From Stdlib Require Import Strings.Byte.

Local Open Scope Z_scope.

Definition clamp_retarget {E} (actual_timespan_ms expected_timespan_ms : Z)
    : outcome E (Z * Z) :=
  let min := expected_timespan_ms / 4 in
  let max := saturating_mul 64 expected_timespan_ms 4 in
  rust_clamp actual_timespan_ms min max ≫= fun actual =>
  mret (actual, expected_timespan_ms).

(** [limb l i] is [l[i]]; the indices of the loops are within the arrays. *)
Definition limb (l : list Z) (i : nat) : Z := default 0 (l !! i).

Definition mul_u256_u64 (a : bytes) (b : Z) : list Z :=
  let limbs := [be_to_Z (take 8 a); be_to_Z (take 8 (drop 8 a));
                be_to_Z (take 8 (drop 16 a)); be_to_Z (take 8 (drop 24 a))] in
  let '(out, carry) :=
    foldl (fun '(out, carry) i =>
      let p := wrapping_add 128 (wrapping_mul 128 (limb limbs i) b) carry in
      (<[S i := p mod 2 ^ 64]> out, Z.shiftr p 64))
      (replicate 5 0, 0) (reverse (seq 0 4)) in
  <[0%nat := carry mod 2 ^ 64]> out.

Definition div_u320_u64 (num : list Z) (d : Z) : list Z * Z :=
  let '(q, rem) :=
    foldl (fun '(q, rem) i =>
      let acc := Z.lor (Z.shiftl rem 64 mod 2 ^ 128) (limb num i) in
      (<[i := (acc / d) mod 2 ^ 64]> q, acc mod d))
      (replicate 5 0, 0) (seq 0 5) in
  (q, rem mod 2 ^ 64).

Definition bitcoin_retarget {E} (old_target : bytes) (actual_ms expected_ms : Z)
    : outcome E bytes :=
  clamp_retarget actual_ms expected_ms ≫= fun '(actual, expected) =>
  if expected =? 0 then Ok old_target
  else
    let prod := mul_u256_u64 old_target actual in
    let '(quot, _) := div_u320_u64 prod expected in
    if negb (limb quot 0 =? 0) then Ok (replicate 32 xff)
    else Ok (be_bytes 8 (limb quot 1) ++ be_bytes 8 (limb quot 2) ++
             be_bytes 8 (limb quot 3) ++ be_bytes 8 (limb quot 4)).

(** ** The number an array of limbs stands for *)

Fixpoint limbs_value (l : list Z) : Z :=
  match l with
  | [] => 0
  | x :: l => x * (2 ^ 64) ^ Z.of_nat (length l) + limbs_value l
  end.

(** One step of a carry chain keeps the value. *)
Lemma carry_step p : p mod 2 ^ 64 + 2 ^ 64 * Z.shiftr p 64 = p.
Proof. rewrite Z.shiftr_div_pow2 by lia. pose proof (Z.div_mod p (2 ^ 64)). lia. Qed.

Lemma mul_step l b c : in_u 64 l -> in_u 64 b -> in_u 64 c ->
  wrapping_add 128 (wrapping_mul 128 l b) c = l * b + c /\ in_u 64 (Z.shiftr (l * b + c) 64).
Proof.
  unfold in_u, wrapping_add, wrapping_mul. intros Hl Hb Hc.
  assert (0 <= l * b <= (2 ^ 64 - 1) * (2 ^ 64 - 1)) as Hp by nia.
  rewrite (Z.mod_small (l * b)), Z.mod_small by lia. split; [done|].
  rewrite Z.shiftr_div_pow2 by lia. split; [apply Z.div_pos; lia|].
  apply Z.div_lt_upper_bound; lia.
Qed.

Lemma be_to_Z_limbs a : length a = 32%nat ->
  be_to_Z a = limbs_value [be_to_Z (take 8 a); be_to_Z (take 8 (drop 8 a));
                be_to_Z (take 8 (drop 16 a)); be_to_Z (take 8 (drop 24 a))].
Proof.
  intros Ha. rewrite <- (take_drop 8 a) at 1. rewrite be_to_Z_app, length_drop.
  rewrite <- (take_drop 8 (drop 8 a)) at 1. rewrite be_to_Z_app, !length_drop, drop_drop.
  rewrite <- (take_drop 8 (drop (8 + 8) a)) at 1. rewrite be_to_Z_app, !length_drop, drop_drop.
  rewrite (take_ge (drop 24 a)) by (rewrite length_drop; lia).
  rewrite Ha. cbn [limbs_value length Nat.sub Nat.add]. lia.
Qed.

Lemma be_limb_range a n : in_u 64 (be_to_Z (take 8 (drop n a))).
Proof.
  pose proof (be_to_Z_range (take 8 (drop n a))) as Hr. rewrite length_take in Hr.
  unfold in_u. change (2 ^ 64) with (256 ^ 8).
  assert (256 ^ Z.of_nat (8 `min` length (drop n a)) <= 256 ^ 8) by (apply Z.pow_le_mono_r; lia).
  lia.
Qed.

(** The product is exact. *)
Lemma mul_u256_u64_value a b : length a = 32%nat -> in_u 64 b ->
  length (mul_u256_u64 a b) = 5%nat /\ Forall (in_u 64) (mul_u256_u64 a b) /\
  limbs_value (mul_u256_u64 a b) = be_to_Z a * b.
Proof.
  intros Ha Hb. rewrite (be_to_Z_limbs a Ha). unfold mul_u256_u64.
  pose proof (be_limb_range a 0) as R0. pose proof (be_limb_range a 8) as R1.
  pose proof (be_limb_range a 16) as R2. pose proof (be_limb_range a 24) as R3.
  rewrite drop_0 in R0.
  set (l0 := be_to_Z (take 8 a)) in *. set (l1 := be_to_Z (take 8 (drop 8 a))) in *.
  set (l2 := be_to_Z (take 8 (drop 16 a))) in *. set (l3 := be_to_Z (take 8 (drop 24 a))) in *.
  clearbody l0 l1 l2 l3.
  cbn -[Z.pow wrapping_add wrapping_mul Z.shiftr Z.modulo].
  destruct (mul_step l3 b 0 R3 Hb ltac:(done)) as [-> C3].
  destruct (mul_step l2 b _ R2 Hb C3) as [-> C2].
  destruct (mul_step l1 b _ R1 Hb C2) as [-> C1].
  destruct (mul_step l0 b _ R0 Hb C1) as [-> C0].
  unfold limb. cbn -[Z.pow Z.shiftr Z.modulo].
  pose proof (carry_step (l3 * b + 0)) as E3. set (c3 := Z.shiftr (l3 * b + 0) 64) in *.
  pose proof (carry_step (l2 * b + c3)) as E2. set (c2 := Z.shiftr (l2 * b + c3) 64) in *.
  pose proof (carry_step (l1 * b + c2)) as E1. set (c1 := Z.shiftr (l1 * b + c2) 64) in *.
  pose proof (carry_step (l0 * b + c1)) as E0. set (c0 := Z.shiftr (l0 * b + c1) 64) in *.
  rewrite (Z.mod_small c0) by done.
  split; [done|]. split.
  - repeat constructor; try apply Z.mod_pos_bound; unfold in_u in *; lia.
  - cbn [length limbs_value]. lia.
Qed.

Lemma div_step r n d acc : acc = Z.lor (Z.shiftl r 64 mod 2 ^ 128) n ->
  0 < d < 2 ^ 64 -> 0 <= r < d -> in_u 64 n ->
  acc = r * 2 ^ 64 + n /\ (acc / d) mod 2 ^ 64 = acc / d /\ in_u 64 (acc / d) /\
  0 <= acc mod d < d /\ acc / d * d + acc mod d = r * 2 ^ 64 + n.
Proof.
  unfold in_u. intros Hacc Hd Hr Hn. assert (acc = r * 2 ^ 64 + n) as Ha.
  { rewrite Hacc, Z.mod_small by (rewrite Z.shiftl_mul_pow2 by lia; lia).
    by apply lor_shiftl_add. }
  clear Hacc. subst acc.
  pose proof (Z.mod_pos_bound (r * 2 ^ 64 + n) d ltac:(lia)).
  pose proof (Z.div_mod (r * 2 ^ 64 + n) d ltac:(lia)).
  assert (0 <= (r * 2 ^ 64 + n) / d < 2 ^ 64) as Hq.
  { split; [apply Z.div_pos; lia|apply Z.div_lt_upper_bound; nia]. }
  rewrite (Z.mod_small _ (2 ^ 64)) by done. split_and!; lia.
Qed.

(** The quotient is exact, whatever fits in the five limbs. *)
Lemma div_u320_u64_value num d : length num = 5%nat -> Forall (in_u 64) num ->
  0 < d < 2 ^ 64 ->
  let '(q, rem) := div_u320_u64 num d in
  length q = 5%nat /\ Forall (in_u 64) q /\ 0 <= rem < d /\
  limbs_value num = limbs_value q * d + rem.
Proof.
  intros Hl Hn Hd. destruct num as [|n0 [|n1 [|n2 [|n3 [|n4 [|]]]]]]; try done.
  repeat match goal with H : Forall _ (_ :: _) |- _ => inversion_clear H end.
  unfold div_u320_u64, limb. cbn -[Z.pow Z.shiftl Z.lor Z.modulo Z.div].
  destruct (div_step 0 n0 d _ eq_refl Hd ltac:(lia) ltac:(done)) as (E0 & -> & Q0 & R0 & S0).
  set (a0 := Z.lor (Z.shiftl 0 64 mod 2 ^ 128) n0) in *.
  destruct (div_step (a0 mod d) n1 d _ eq_refl Hd R0 ltac:(done)) as (E1 & -> & Q1 & R1 & S1).
  set (a1 := Z.lor (Z.shiftl (a0 mod d) 64 mod 2 ^ 128) n1) in *.
  destruct (div_step (a1 mod d) n2 d _ eq_refl Hd R1 ltac:(done)) as (E2 & -> & Q2 & R2 & S2).
  set (a2 := Z.lor (Z.shiftl (a1 mod d) 64 mod 2 ^ 128) n2) in *.
  destruct (div_step (a2 mod d) n3 d _ eq_refl Hd R2 ltac:(done)) as (E3 & -> & Q3 & R3 & S3).
  set (a3 := Z.lor (Z.shiftl (a2 mod d) 64 mod 2 ^ 128) n3) in *.
  destruct (div_step (a3 mod d) n4 d _ eq_refl Hd R3 ltac:(done)) as (E4 & -> & Q4 & R4 & S4).
  set (a4 := Z.lor (Z.shiftl (a3 mod d) 64 mod 2 ^ 128) n4) in *.
  clearbody a0 a1 a2 a3 a4. rewrite (Z.mod_small (a4 mod d)) by lia.
  split; [done|]. split; [by rewrite !Forall_cons|]. split; [done|].
  cbn [limbs_value length]. lia.
Qed.

(** ** The rule *)

Definition clamped_timespan (actual expected : Z) : Z :=
  Z.max (expected / 4) (Z.min actual (Z.min (expected * 4) (2 ^ 64 - 1))).

(** The abstract rule, over the integers. *)
Definition retarget_spec (old actual expected : Z) : Z :=
  if expected =? 0 then old
  else Z.min (2 ^ 256 - 1) (old * clamped_timespan actual expected / expected).

Lemma clamp_retarget_Ok {E} actual expected : in_u 64 actual -> in_u 64 expected ->
  clamp_retarget (E:=E) actual expected = Ok (clamped_timespan actual expected, expected) /\
  in_u 64 (clamped_timespan actual expected).
Proof.
  unfold in_u. intros Ha He. unfold clamp_retarget.
  assert (0 <= expected / 4 <= expected) as H4.
  { split; [apply Z.div_pos; lia|]. apply Z.div_le_upper_bound; lia. }
  assert (rust_clamp (E:=E) actual (expected / 4) (saturating_mul 64 expected 4) =
          Ok (clamped_timespan actual expected)) as ->.
  { apply rust_clamp_Ok. unfold saturating_mul, u_max, clamped_timespan. lia. }
  split; [done|]. unfold clamped_timespan. lia.
Qed.

Lemma limbs_bytes l : length l = 5%nat -> Forall (in_u 64) l -> limb l 0 = 0 ->
  limbs_value l < 2 ^ 256 /\
  be_bytes 8 (limb l 1) ++ be_bytes 8 (limb l 2) ++ be_bytes 8 (limb l 3) ++
  be_bytes 8 (limb l 4) = be_bytes 32 (limbs_value l).
Proof.
  intros Hl Hf H0. destruct l as [|x0 [|x1 [|x2 [|x3 [|x4 [|]]]]]]; try done.
  repeat match goal with H : Forall _ (_ :: _) |- _ => inversion_clear H end.
  unfold limb in *. cbn [lookup list_lookup default] in *. cbn in H0. subst x0.
  unfold in_u in *. cbn [limbs_value length] in *. unfold id.
  assert (forall x, 0 <= x < 2 ^ 64 -> be_to_Z (be_bytes 8 x) = x) as Hbe.
  { intros x Hx. rewrite be_to_Z_be_bytes. by apply Z.mod_small. }
  split; [lia|]. apply be_to_Z_inj.
  { by rewrite !length_app, !length_be_bytes. }
  rewrite !be_to_Z_app, !length_app, !length_be_bytes, !Hbe, be_to_Z_be_bytes by done.
  rewrite Z.mod_small; lia.
Qed.

Lemma be_bytes_32_max : replicate 32 xff = be_bytes 32 (2 ^ 256 - 1).
Proof. reflexivity. Qed.

Lemma div_u320_quotient num d : length num = 5%nat -> Forall (in_u 64) num ->
  0 < d < 2 ^ 64 ->
  let q := (div_u320_u64 num d).1 in
  length q = 5%nat /\ Forall (in_u 64) q /\ limbs_value q = limbs_value num / d.
Proof.
  intros Hl Hn Hd. pose proof (div_u320_u64_value num d Hl Hn Hd) as Hv.
  destruct (div_u320_u64 num d) as [q rem]. destruct Hv as (Hq & Hf & Hr & Hv).
  split_and!; [done|done|]. apply (Z.div_unique _ _ _ rem); [by left|cbn; lia].
Qed.

(** C10: The limb arithmetic of the Bitcoin retarget computes the exact 256-bit result
    old * clamp(actual) / expected, saturated at 2^256 - 1, and it never panics: the bounds
    of the clamp are ordered for every timespan. *)
Theorem bitcoin_retarget_exact {E} old actual expected :
  length old = 32%nat -> in_u 64 actual -> in_u 64 expected ->
  bitcoin_retarget (E:=E) old actual expected =
  Ok (be_bytes 32 (retarget_spec (be_to_Z old) actual expected)).
Proof.
  intros Hold Ha He. unfold bitcoin_retarget, retarget_spec.
  destruct (clamp_retarget_Ok (E:=E) actual expected Ha He) as [-> Hc].
  cbn [mbind outcome_bind].
  destruct (Z.eqb_spec expected 0) as [->|He0].
  { f_equal. rewrite <- Hold. symmetry. apply be_bytes_be_to_Z. }
  destruct (mul_u256_u64_value old _ Hold Hc) as (Hl & Hf & Hv).
  unfold in_u in He. destruct (div_u320_quotient _ expected Hl Hf) as (Hql & Hqf & Hqv); [lia|].
  destruct (div_u320_u64 _ expected) as [q rem]. cbn [fst] in *.
  rewrite Hv in Hqv. rewrite <- Hqv. destruct (Z.eqb_spec (limb q 0) 0) as [H0|H0]; cbn [negb].
  - destruct (limbs_bytes q Hql Hqf H0) as [Hlt ->]. by rewrite Z.min_r by lia.
  - rewrite Z.min_l; [by rewrite be_bytes_32_max|].
    destruct q as [|q0 [|q1 [|q2 [|q3 [|q4 [|]]]]]]; try done.
    repeat match goal with H : Forall _ (_ :: _) |- _ => inversion_clear H end.
    unfold limb in H0. cbn in H0. unfold in_u in *. cbn [limbs_value length]. lia.
Qed.

Lemma bitcoin_retarget_exact_witness :
  bitcoin_retarget (E:=unit) (target_from_bits 0x1d00ffff) 2419200000 1209600000 =
  Ok (be_bytes 32 (2 * compact_value 0x1d00ffff)).
Proof.
  rewrite (bitcoin_retarget_exact (target_from_bits 0x1d00ffff) 2419200000 1209600000);
    [vm_compute; reflexivity|reflexivity|unfold in_u; lia|unfold in_u; lia].
Defined.
