(* ===== verification/Asert.v ===== *)
(** * Asert: the per-block difficulty rule (crates/consensus/src/asert.rs)

    The exponent of the ASERT formula is computed in [i128] and the new target in the high
    128 bits of the 256-bit target, both cut to their width as in the release build.  The
    final [clamp] asserts that its bounds are ordered, so the step is an [outcome]. *)

From S2P Require Export Retarget.
From Stdlib Require Import Strings.Byte.

Local Open Scope Z_scope.

Definition MAX_BITS_MULT_NUMERATOR : Z := 108.
Definition MAX_BITS_MULT_DENOMINATOR : Z := 100.
Definition DEFAULT_ASERT_TAU_MS : Z := 2 * 24 * 60 * 60 * 1000.
Definition BOOTSTRAP_ASERT_TAU_MS : Z := 60 * 60 * 1000.
Definition LN2_Q16 : Z := 45426.

(** [i128] division truncates; [>>] on [i128] is arithmetic. *)
Definition pow2_q16 (num den : Z) : Z :=
  let x_q16 := Z.quot (i128_saturating_mul num (2 ^ 16)) (Z.max den 1) in
  let delta_q16 := Z.shiftr (i128_saturating_mul x_q16 LN2_Q16) 16 in
  i128_wrap (2 ^ 16 + delta_q16).

(** The multiplier and the clamp on the high half of the target. *)
Definition asert_hi {E} (hi mult_q16 : Z) : outcome E Z :=
  let raw_new_hi :=
    if mult_q16 <? 0 then 0
    else Z.max (Z.shiftr (saturating_mul 128 hi mult_q16) 16) 1 in
  let max_hi := saturating_mul 128 hi MAX_BITS_MULT_NUMERATOR / MAX_BITS_MULT_DENOMINATOR in
  let min_hi := saturating_mul 128 hi MAX_BITS_MULT_DENOMINATOR / MAX_BITS_MULT_NUMERATOR in
  rust_clamp raw_new_hi (Z.max min_hi 1) max_hi.

(** The signed distance from the schedule, in milliseconds. *)
Definition schedule_error (anchor_timestamp_ms anchor_height new_block_timestamp_ms
    new_block_height target_block_time_ms : Z) : Z :=
  let height_diff := new_block_height - anchor_height in
  let elapsed_ms := new_block_timestamp_ms - anchor_timestamp_ms in
  let expected_elapsed_ms := i128_wrap (height_diff * target_block_time_ms) in
  i128_wrap (elapsed_ms - expected_elapsed_ms).

Definition asert_target {E} (anchor_bits anchor_timestamp_ms anchor_height
    new_block_timestamp_ms new_block_height target_block_time_ms tau_ms : Z)
    : outcome E bytes :=
  if (new_block_height <=? anchor_height) || (tau_ms =? 0) then
    Ok (target_from_bits anchor_bits)
  else
    let exponent_num_ms := schedule_error anchor_timestamp_ms anchor_height
      new_block_timestamp_ms new_block_height target_block_time_ms in
    let mult_q16 := pow2_q16 exponent_num_ms tau_ms in
    let anchor := target_from_bits anchor_bits in
    let hi := be_to_Z (take 16 anchor) in
    asert_hi hi mult_q16 ≫= fun clamped_hi =>
    Ok (be_bytes 16 clamped_hi ++ drop 16 anchor).

Definition next_bits_from_parent {E} (parent_bits parent_height parent_timestamp_ms
    new_block_timestamp_ms target_block_time_ms bootstrap_height bootstrap_asert_tau_ms
    asert_tau_ms : Z) : outcome E Z :=
  let new_height := wrapping_add 64 parent_height 1 in
  let tau_ms :=
    if new_height <? bootstrap_height then bootstrap_asert_tau_ms else asert_tau_ms in
  asert_target parent_bits parent_timestamp_ms parent_height new_block_timestamp_ms
    new_height target_block_time_ms tau_ms ≫= fun target =>
  Ok (bits_from_target target).

(** ** The multiplier *)

Lemma i128_saturating_mul_range a b : i128_min <= i128_saturating_mul a b <= i128_max.
Proof. unfold i128_saturating_mul, i128_min, i128_max. lia. Qed.

Lemma i128_saturating_mul_mono a a' b :
  0 <= b -> a <= a' -> i128_saturating_mul a b <= i128_saturating_mul a' b.
Proof. intros. unfold i128_saturating_mul. assert (a * b <= a' * b) by nia. lia. Qed.

Lemma pow2_q16_plain num den :
  pow2_q16 num den = 2 ^ 16 + Z.shiftr (i128_saturating_mul
    (Z.quot (i128_saturating_mul num (2 ^ 16)) (Z.max den 1)) LN2_Q16) 16.
Proof.
  unfold pow2_q16. apply i128_wrap_id.
  set (x := i128_saturating_mul _ LN2_Q16).
  pose proof (i128_saturating_mul_range
    (Z.quot (i128_saturating_mul num (2 ^ 16)) (Z.max den 1)) LN2_Q16) as Hx. fold x in Hx.
  rewrite Z.shiftr_div_pow2 by lia. unfold i128_min, i128_max in *.
  assert (- 2 ^ 111 <= x / 2 ^ 16 <= 2 ^ 111); [|lia].
  split; [apply Z.div_le_lower_bound; lia|apply Z.div_le_upper_bound; lia].
Qed.

Lemma pow2_q16_zero den : pow2_q16 0 den = 2 ^ 16.
Proof.
  rewrite pow2_q16_plain. change (i128_saturating_mul 0 (2 ^ 16)) with 0.
  by rewrite Z.quot_0_l by lia.
Qed.

Lemma pow2_q16_mono n1 n2 den : n1 <= n2 -> pow2_q16 n1 den <= pow2_q16 n2 den.
Proof.
  intros Hn. rewrite !pow2_q16_plain. apply Z.add_le_mono_l.
  rewrite !Z.shiftr_div_pow2 by lia. apply Z.div_le_mono; [lia|].
  apply i128_saturating_mul_mono; [done|]. apply Z.quot_le_mono; [lia|].
  by apply i128_saturating_mul_mono.
Qed.

(** ** The step on the high half *)

Definition band_max (hi : Z) : Z := saturating_mul 128 hi 108 / 100.
Definition band_min (hi : Z) : Z := Z.max (saturating_mul 128 hi 100 / 108) 1.

Definition raw_hi (hi mult : Z) : Z :=
  if mult <? 0 then 0 else Z.max (Z.shiftr (saturating_mul 128 hi mult) 16) 1.

Lemma asert_hi_band {E} hi mult : in_u 128 hi ->
  asert_hi (E:=E) hi mult =
  if hi =? 0 then Panic else Ok (Z.max (band_min hi) (Z.min (raw_hi hi mult) (band_max hi))).
Proof.
  unfold in_u. intros Hhi. unfold asert_hi. fold (raw_hi hi mult).
  unfold MAX_BITS_MULT_DENOMINATOR, MAX_BITS_MULT_NUMERATOR. fold (band_max hi) (band_min hi).
  destruct (Z.eqb_spec hi 0) as [->|Hne]; [reflexivity|].
  apply rust_clamp_Ok. split; [|done].
  unfold band_min, band_max, saturating_mul, u_max. apply Z.max_lub.
  - apply Z.div_le_upper_bound; [lia|].
    pose proof (Z.div_mod (Z.min (hi * 108) (2 ^ 128 - 1)) 100 ltac:(lia)).
    pose proof (Z.mod_pos_bound (Z.min (hi * 108) (2 ^ 128 - 1)) 100 ltac:(lia)).
    lia.
  - apply Z.div_le_lower_bound; lia.
Qed.

Lemma raw_hi_mono hi m1 m2 : 0 <= hi -> m1 <= m2 -> raw_hi hi m1 <= raw_hi hi m2.
Proof.
  intros Hh Hm. unfold raw_hi. destruct (Z.ltb_spec m1 0), (Z.ltb_spec m2 0); try lia.
  apply Z.max_le_compat_r. rewrite !Z.shiftr_div_pow2 by lia. apply Z.div_le_mono; [lia|].
  by apply saturating_mul_mono.
Qed.

(** The product of [hi] and the multiplier saturates at 128 bits before the shift. *)
Lemma raw_hi_ceiling hi mult : raw_hi hi mult <= 2 ^ 112 - 1.
Proof.
  unfold raw_hi. destruct (mult <? 0); [lia|]. apply Z.max_lub; [|lia].
  rewrite Z.shiftr_div_pow2 by lia. unfold saturating_mul, u_max.
  apply Z.lt_le_pred, Z.div_lt_upper_bound; lia.
Qed.

Lemma raw_hi_one hi : 1 <= hi < 2 ^ 112 -> raw_hi hi (2 ^ 16) = hi.
Proof.
  intros Hh. unfold raw_hi. destruct (Z.ltb_spec (2 ^ 16) 0); [lia|].
  rewrite saturating_mul_small, Z.shiftr_div_pow2, Z.div_mul by lia. lia.
Qed.

(** ** The target *)

(** The high half of the number a field denotes: the part the rule moves. *)
Definition anchor_hi (bits : Z) : Z := be_to_Z (take 16 (target_from_bits bits)).
Definition anchor_lo (bits : Z) : Z := be_to_Z (drop 16 (target_from_bits bits)).

Lemma anchor_split bits : 0 <= bits ->
  compact_value bits = anchor_hi bits * 2 ^ 128 + anchor_lo bits /\
  in_u 128 (anchor_hi bits) /\ in_u 128 (anchor_lo bits).
Proof.
  intros Hb. destruct (target_from_bits_value bits Hb) as [Hl <-]. unfold anchor_hi, anchor_lo, in_u.
  set (t := target_from_bits bits) in *.
  pose proof (be_to_Z_range (take 16 t)) as R1. pose proof (be_to_Z_range (drop 16 t)) as R2.
  rewrite length_take, Hl in R1. rewrite length_drop, Hl in R2.
  split_and!; [|apply R1|apply R1|apply R2|apply R2].
  rewrite <- (take_drop 16 t) at 1. rewrite be_to_Z_app, length_drop, Hl. done.
Qed.

Lemma asert_target_value {E} bits ts h ts' h' tbt tau : 0 <= bits -> h < h' -> tau <> 0 ->
  let mult := pow2_q16 (schedule_error ts h ts' h' tbt) tau in
  (anchor_hi bits = 0 /\ asert_target (E:=E) bits ts h ts' h' tbt tau = Panic) \/
  (1 <= anchor_hi bits /\ exists target, asert_target (E:=E) bits ts h ts' h' tbt tau = Ok target /\
     length target = 32%nat /\ drop 16 target = drop 16 (target_from_bits bits) /\
     be_to_Z target = Z.max (band_min (anchor_hi bits))
       (Z.min (raw_hi (anchor_hi bits) mult) (band_max (anchor_hi bits))) * 2 ^ 128
       + anchor_lo bits).
Proof.
  intros Hb Hh Ht. cbn zeta. unfold asert_target.
  destruct (Z.leb_spec h' h); [lia|]. destruct (Z.eqb_spec tau 0); [done|]. cbn [orb].
  set (mult := pow2_q16 _ tau). fold (anchor_hi bits).
  destruct (anchor_split bits Hb) as (_ & Rh & Rl). rewrite asert_hi_band by done.
  destruct (Z.eqb_spec (anchor_hi bits) 0) as [->|H0]; [by left|]. right.
  unfold in_u in Rh. split; [lia|]. eexists. split; [reflexivity|].
  destruct (target_from_bits_value bits Hb) as [Hl _].
  assert (length (drop 16 (target_from_bits bits)) = 16%nat) as Hd
    by (rewrite length_drop, Hl; done).
  split_and!.
  - by rewrite length_app, length_be_bytes, Hd.
  - by rewrite drop_app_length' by (by rewrite length_be_bytes).
  - rewrite be_to_Z_app, Hd, be_to_Z_be_bytes. fold (anchor_lo bits).
    rewrite Z.mod_small; [done|].
    set (hi := anchor_hi bits) in *.
    pose proof (raw_hi_ceiling hi mult). unfold band_min, saturating_mul, u_max.
    change (256 ^ Z.of_nat 16) with (2 ^ 128).
    assert (Z.min (hi * 100) (2 ^ 128 - 1) / 108 < 2 ^ 128) by (apply Z.div_lt_upper_bound; lia).
    lia.
Qed.

Lemma band_bounds hi : 1 <= hi -> 108 * hi < 2 ^ 128 ->
  band_max hi = 108 * hi / 100 /\ band_min hi = Z.max (100 * hi / 108) 1 /\
  100 * band_max hi <= 108 * hi /\ 100 * hi <= 108 * (band_min hi + 1) /\
  band_min hi <= hi <= band_max hi.
Proof.
  intros H1 H2. unfold band_max, band_min. rewrite !saturating_mul_small by lia.
  rewrite !(Z.mul_comm hi).
  pose proof (Z.div_mod (108 * hi) 100). pose proof (Z.mod_pos_bound (108 * hi) 100).
  pose proof (Z.div_mod (100 * hi) 108). pose proof (Z.mod_pos_bound (100 * hi) 108).
  lia.
Qed.

Lemma schedule_error_next ts ts' h tbt : in_u 64 ts -> in_u 64 ts' -> in_u 64 tbt ->
  schedule_error ts h ts' (h + 1) tbt = ts' - ts - tbt.
Proof.
  unfold in_u. intros. unfold schedule_error.
  replace (h + 1 - h) with 1 by lia.
  rewrite (i128_wrap_id (1 * tbt)), i128_wrap_id; unfold i128_min, i128_max; lia.
Qed.

Lemma canonical_range bits : compact_canonical bits = true -> 0 <= bits < 2 ^ 32.
Proof.
  unfold compact_canonical. intros Hc.
  assert (0 <= compact_mantissa bits < 2 ^ 23) by (apply Z.mod_pos_bound; lia). lia.
Qed.

(** ** Properties *)

(** Near the easy end the 128-bit product saturates and the clamp decides alone. *)
Lemma clamped_hi_easy hi mult : 2 ^ 113 <= hi -> 108 * hi < 2 ^ 128 ->
  Z.max (band_min hi) (Z.min (raw_hi hi mult) (band_max hi)) = 100 * hi / 108.
Proof.
  intros H1 H2. destruct (band_bounds hi) as (_ & B2 & _ & _ & B5); [lia|lia|].
  pose proof (raw_hi_ceiling hi mult).
  assert (2 ^ 112 <= 100 * hi / 108) by (apply Z.div_le_lower_bound; lia). lia.
Qed.

(** C16: The validator's difficulty rule, on parent targets from 2^128 up to 2^249.  It moves
    the target by at most 8 per cent per block, whatever timestamps the header claims; the
    new field is canonical and denotes the new target cut to its leading bits.  A block that
    arrives on schedule keeps the bits of its parent when the parent's target is below
    2^240; from 2^241 on the product of the rule saturates, and the target shrinks by the
    full 8 per cent whatever the timestamps, on schedule or late. *)
Theorem next_bits_band {E} bits h ts ts' tbt boot tau_boot tau :
  compact_canonical bits = true -> 2 ^ 128 <= compact_value bits < 2 ^ 249 ->
  0 <= h < 2 ^ 64 - 1 -> in_u 64 ts -> in_u 64 ts' -> in_u 64 tbt ->
  tau_boot <> 0 -> tau <> 0 ->
  exists target bits',
    next_bits_from_parent (E:=E) bits h ts ts' tbt boot tau_boot tau = Ok bits' /\
    100 * target <= 108 * compact_value bits /\
    100 * compact_value bits <= 108 * (target + 2 ^ 128) /\
    compact_canonical bits' = true /\
    compact_value bits' <= target <
      compact_value bits' + 256 ^ Z.max 0 (compact_exponent bits' - 3) /\
    (ts' - ts = tbt -> compact_value bits < 2 ^ 240 -> bits' = bits) /\
    (2 ^ 241 <= compact_value bits ->
     target = 100 * anchor_hi bits / 108 * 2 ^ 128 + anchor_lo bits).
Proof.
  intros Hc HV Hh T1 T2 T3 Hb Ht. pose proof (canonical_range bits Hc) as Hr.
  unfold next_bits_from_parent. rewrite wrapping_add_small by lia.
  set (tau' := if h + 1 <? boot then tau_boot else tau).
  assert (tau' <> 0) as Ht' by (subst tau'; by destruct (h + 1 <? boot)).
  destruct (anchor_split bits ltac:(lia)) as (Hv & Rh & Rl).
  unfold in_u in Rh, Rl. destruct (asert_target_value (E:=E) bits ts h ts' (h + 1) tbt tau' ltac:(lia) ltac:(lia) Ht')
    as [[H0 _]|(H1 & target & -> & Hl & Hd & Hval)]; [lia|].
  rewrite schedule_error_next in Hval by done.
  destruct (band_bounds (anchor_hi bits)) as (B1 & B2 & B3 & B4 & B5); [lia|lia|].
  set (hi := anchor_hi bits) in *. set (mult := pow2_q16 (ts' - ts - tbt) tau') in *.
  set (hi' := Z.max (band_min hi) (Z.min (raw_hi hi mult) (band_max hi))) in *.
  assert (band_min hi <= hi' <= band_max hi) as Hhi' by lia.
  exists (be_to_Z target), (bits_from_target target). cbn [mbind outcome_bind].
  destruct (bits_from_target_rounds target Hl) as (Hcan & _ & Hdec); [lia|].
  split_and!; [done|lia|lia|done|lia|lia| |].
  2:{ intros Heasy. rewrite Hval. do 2 f_equal. apply clamped_hi_easy; lia. }
  intros Hs Hsmall. assert (target = target_from_bits bits) as ->; [|by apply bits_canonical_roundtrip].
  destruct (target_from_bits_value bits ltac:(lia)) as [Hl' Hv'].
  apply be_to_Z_inj; [congruence|]. rewrite Hval, Hv', Hv. do 2 f_equal.
  subst hi' mult. replace (ts' - ts - tbt) with 0 by lia.
  rewrite pow2_q16_zero, raw_hi_one by lia. lia.
Qed.

(** A later block never gets a harder target: the new target is monotone in the
    timestamp of the block. *)
Theorem asert_monotone {E} bits ts h ts1 ts2 h' tbt tau target1 target2 :
  in_u 32 bits -> in_u 64 ts -> in_u 64 ts1 -> in_u 64 ts2 -> in_u 64 h -> in_u 64 h' ->
  in_u 62 tbt -> ts1 <= ts2 ->
  asert_target (E:=E) bits ts h ts1 h' tbt tau = Ok target1 ->
  asert_target (E:=E) bits ts h ts2 h' tbt tau = Ok target2 ->
  be_to_Z target1 <= be_to_Z target2.
Proof.
  unfold in_u. intros Hb T T1 T2 Hh Hh' Htbt Hle E1 E2.
  destruct (decide (h' <= h \/ tau = 0)) as [Hearly|Hlate].
  { unfold asert_target in E1, E2.
    assert ((h' <=? h) || (tau =? 0) = true) as Hc by lia. rewrite Hc in *. simplify_eq. done. }
  destruct (asert_target_value (E:=E) bits ts h ts1 h' tbt tau) as [[_ ?]|(_ & t1 & Q1 & _ & _ & V1)];
    [lia|lia|lia|congruence|].
  destruct (asert_target_value (E:=E) bits ts h ts2 h' tbt tau) as [[_ ?]|(H1 & t2 & Q2 & _ & _ & V2)];
    [lia|lia|lia|congruence|].
  rewrite Q1 in E1. rewrite Q2 in E2. injection E1 as <-. injection E2 as <-. rewrite V1, V2.
  apply Z.add_le_mono_r, Z.mul_le_mono_nonneg_r, Z.max_le_compat_l, Z.min_le_compat_r; [lia|].
  apply raw_hi_mono; [lia|]. apply pow2_q16_mono. unfold schedule_error.
  assert (0 <= (h' - h) * tbt < 2 ^ 126) as Hp by nia.
  rewrite (i128_wrap_id ((h' - h) * tbt)) by (unfold i128_min, i128_max; lia).
  rewrite !i128_wrap_id by (unfold i128_min, i128_max; lia). lia.
Qed.

(** Limits of the rule.  An anchor whose high half is zero panics, because the lower
    bound of the clamp is raised to one.  The 128-bit product saturates, so no target leaves
    the rule above 2^240: from 2^241 on the difficulty rises by the full 8 per cent per
    block, even when the block is on schedule or late. *)
Theorem asert_limits {E} bits ts h ts' h' tbt tau :
  in_u 32 bits -> h < h' -> tau <> 0 ->
  (compact_value bits < 2 ^ 128 ->
   asert_target (E:=E) bits ts h ts' h' tbt tau = Panic) /\
  (2 ^ 241 <= compact_value bits < 2 ^ 249 ->
   exists target, asert_target (E:=E) bits ts h ts' h' tbt tau = Ok target /\
     be_to_Z target = 100 * anchor_hi bits / 108 * 2 ^ 128 + anchor_lo bits).
Proof.
  unfold in_u. intros Hb Hh Ht.
  destruct (anchor_split bits ltac:(lia)) as (Hv & Rh & Rl). unfold in_u in Rh, Rl.
  destruct (asert_target_value (E:=E) bits ts h ts' h' tbt tau ltac:(lia) Hh Ht)
    as [[H0 HP]|(H1 & target & HT & Hl & Hd & Hval)].
  - split; [done|]. intros. lia.
  - split; [intros; lia|]. intros HV. exists target. split; [done|]. rewrite Hval. do 2 f_equal.
    apply clamped_hi_easy; lia.
Qed.

(** ** Instances *)

Lemma next_bits_band_witness :
  next_bits_from_parent (E:=unit) 0x1e00ffff 9 1700000000000 1700000600000 600000 2016
    BOOTSTRAP_ASERT_TAU_MS DEFAULT_ASERT_TAU_MS = Ok 0x1e00ffff /\
  exists bits', next_bits_from_parent (E:=unit) 0x1f7fffff 9 1700000000000 1700000600000 600000 2016
    BOOTSTRAP_ASERT_TAU_MS DEFAULT_ASERT_TAU_MS = Ok bits' /\
    compact_value bits' <= 100 * anchor_hi 0x1f7fffff / 108 * 2 ^ 128 + anchor_lo 0x1f7fffff.
Proof.
  split.
  - destruct (next_bits_band (E:=unit) 0x1e00ffff 9 1700000000000 1700000600000 600000 2016
      BOOTSTRAP_ASERT_TAU_MS DEFAULT_ASERT_TAU_MS) as (target & bits' & H & _ & _ & _ & _ & Hs & _);
      [reflexivity|vm_compute; split; congruence|lia|unfold in_u; lia|unfold in_u; lia
      |unfold in_u; lia|discriminate|discriminate|].
    rewrite H. f_equal. apply Hs; vm_compute; reflexivity.
  - destruct (next_bits_band (E:=unit) 0x1f7fffff 9 1700000000000 1700000600000 600000 2016
      BOOTSTRAP_ASERT_TAU_MS DEFAULT_ASERT_TAU_MS) as (target & bits' & H & _ & _ & _ & [Hv _] & _ & He);
      [reflexivity|vm_compute; split; congruence|lia|unfold in_u; lia|unfold in_u; lia
      |unfold in_u; lia|discriminate|discriminate|].
    exists bits'. split; [exact H|]. rewrite <- He; [exact Hv|]. vm_compute. discriminate.
Defined.

Lemma asert_monotone_witness :
  exists target1 target2,
  asert_target (E:=unit) 0x1e00ffff 0 0 500000 1 600000 3600000 = Ok target1 /\
  asert_target (E:=unit) 0x1e00ffff 0 0 600000 1 600000 3600000 = Ok target2 /\
  be_to_Z target1 <= be_to_Z target2.
Proof.
  eexists _, _. split; [vm_compute; reflexivity|]. split; [vm_compute; reflexivity|].
  apply (asert_monotone (E:=unit) 0x1e00ffff 0 0 500000 600000 1 600000 3600000);
    first [vm_compute; reflexivity | unfold in_u; lia | lia].
Defined.

Lemma asert_limits_witness :
  asert_target (E:=unit) 0x1000ffff 0 0 600000 1 600000 3600000 = Panic /\
  exists target, asert_target (E:=unit) 0x2000ffff 0 0 9600000 1 600000 3600000 = Ok target /\
    be_to_Z target = 100 * anchor_hi 0x2000ffff / 108 * 2 ^ 128 + anchor_lo 0x2000ffff.
Proof.
  split.
  - apply (asert_limits (E:=unit)); first [unfold in_u; lia | lia | vm_compute; reflexivity].
  - apply (asert_limits (E:=unit)); first [unfold in_u; lia | lia | vm_compute; split; congruence].
Defined.
