(* ===== verification/Emission.v ===== *)
(** * Emission: the calendar schedule and the per-block reward
    (crates/consensus/src/emission.rs)

    [scheduled_supply_at] is the cumulative supply the calendar allows at a time;
    [current_reward_with_height] pays a block the part of it that is still owed, under three
    caps, the bootstrap cap and the slew-rate limit.  [emit_chain] folds the reward over the
    blocks of a chain with the two counters the node keeps, as the replay and the live path
    do, so that bounds on the supply are statements about chains. *)

From S2P Require Export Prelude.

Local Open Scope Z_scope.

Record EmissionParams := {
  initial_reward_sat : Z;
  seconds_per_halving : Z;
  em_target_block_time_ms : Z;
  supply_cap_sat : Z;
  max_reward_pct_change_per_block : Z;
  em_bootstrap_height : Z;
  bootstrap_reward_pct : Z;
}.

#[export] Instance typed_EmissionParams : Typed EmissionParams := fun p =>
  in_ub 128 (initial_reward_sat p) && in_ub 64 (seconds_per_halving p) &&
  in_ub 64 (em_target_block_time_ms p) && in_ub 128 (supply_cap_sat p) &&
  in_ub 32 (max_reward_pct_change_per_block p) && in_ub 64 (em_bootstrap_height p) &&
  in_ub 32 (bootstrap_reward_pct p).

Definition bitcoin_like : EmissionParams := {|
  initial_reward_sat := 5000000000;
  seconds_per_halving := 210000 * 600;
  em_target_block_time_ms := 600000;
  supply_cap_sat := 21000000 * 100000000;
  max_reward_pct_change_per_block := 25;
  em_bootstrap_height := 2016;
  bootstrap_reward_pct := 50;
|}.

(** ** The code *)

(** One completed epoch of the loop: its supply is added and the reward halved. *)
Definition epoch_step (blocks_per_halving : Z) (acc : Z * Z) : Z * Z :=
  let '(cumulative, current_reward) := acc in
  (saturating_add 128 cumulative (saturating_mul 128 current_reward blocks_per_halving),
   Z.shiftr current_reward 1).

Definition scheduled_supply_at (t_ms_since_genesis : Z) (p : EmissionParams) : Z :=
  if t_ms_since_genesis =? 0 then 0
  else
    let t_h_ms := seconds_per_halving p * 1000 in
    let target_ms := em_target_block_time_ms p in
    if (t_h_ms =? 0) || (target_ms =? 0) then 0
    else
      let blocks_per_halving := t_h_ms / target_ms in
      let t_ms := t_ms_since_genesis in
      let epoch_u128 := t_ms / t_h_ms in
      if 64 <=? epoch_u128 then supply_cap_sat p
      else
        let epoch := Z.to_nat epoch_u128 in
        let '(cumulative, current_reward) :=
          Nat.iter epoch (epoch_step blocks_per_halving) (0, initial_reward_sat p) in
        let elapsed_in_epoch := t_ms - epoch_u128 * t_h_ms in
        let partial_blocks := saturating_mul 128 elapsed_in_epoch blocks_per_halving / t_h_ms in
        let cumulative :=
          saturating_add 128 cumulative (saturating_mul 128 current_reward partial_blocks) in
        Z.min cumulative (supply_cap_sat p).

(** The nominal reward of the epoch of a time. *)
Definition epoch_reward (p : EmissionParams) (t_ms : Z) : Z :=
  let t_h_ms := seconds_per_halving p * 1000 in
  let epoch_u128 := t_ms / Z.max t_h_ms 1 in
  if 64 <=? epoch_u128 then 0 else Z.shiftr (initial_reward_sat p) epoch_u128.

(** The slew-rate limit; its [clamp] has ordered bounds whatever the percentage. *)
Definition slew_limit {E} (p : EmissionParams) (prev_block_reward : option Z) (reward : Z)
    : outcome E Z :=
  match prev_block_reward with
  | Some prev =>
      if 0 <? prev then
        let pct := Z.max (max_reward_pct_change_per_block p) 1 in
        let max_up := saturating_mul 128 prev (100 + pct) / 100 in
        let max_down := saturating_mul 128 prev (saturating_sub 100 pct) / 100 in
        rust_clamp reward max_down max_up
      else Ok reward
  | None => Ok reward
  end.

(** The calendar remainder under the three caps and the bootstrap cap. *)
Definition raw_reward (p : EmissionParams) (t_ms elapsed_ms minted_so_far_sat block_height : Z)
    : Z :=
  let scheduled := scheduled_supply_at t_ms p in
  let calendar_remaining := saturating_sub scheduled minted_so_far_sat in
  let epoch_reward := epoch_reward p t_ms in
  let elapsed_for_cap := Z.max elapsed_ms 1 in
  let proportional_cap :=
    saturating_mul 128 epoch_reward elapsed_for_cap / Z.max (em_target_block_time_ms p) 1 in
  let reward := Z.min (Z.min calendar_remaining epoch_reward) proportional_cap in
  if block_height <? em_bootstrap_height p then
    let bootstrap_cap := saturating_mul 128 epoch_reward (bootstrap_reward_pct p) / 100 in
    Z.min reward bootstrap_cap
  else reward.

Definition current_reward_with_height {E} (p : EmissionParams) (genesis_time_ms
    block_timestamp_ms parent_timestamp_ms minted_so_far_sat block_height : Z)
    (prev_block_reward : option Z) : outcome E Z :=
  if block_timestamp_ms <=? genesis_time_ms then Ok 0
  else
    let t_ms := block_timestamp_ms - genesis_time_ms in
    let elapsed_ms := saturating_sub block_timestamp_ms parent_timestamp_ms in
    slew_limit p prev_block_reward
      (raw_reward p t_ms elapsed_ms minted_so_far_sat block_height).

Definition current_reward {E} (p : EmissionParams) (genesis_time_ms block_timestamp_ms
    parent_timestamp_ms minted_so_far_sat : Z) : outcome E Z :=
  current_reward_with_height p genesis_time_ms block_timestamp_ms parent_timestamp_ms
    minted_so_far_sat (u_max 64) None.

(** ** The emission of a chain *)

(** What the reward of a block depends on. *)
Record EmissionBlock := {
  eb_timestamp_ms : Z;
  eb_parent_timestamp_ms : Z;
  eb_height : Z;
}.

(** The counters [minted_so_far] and [prev_reward] of the node after one more block. *)
Definition emit_block {E} (p : EmissionParams) (genesis_time_ms : Z)
    (st : Z * option Z) (b : EmissionBlock) : outcome E (Z * option Z) :=
  let '(minted, prev) := st in
  current_reward_with_height p genesis_time_ms (eb_timestamp_ms b) (eb_parent_timestamp_ms b)
    minted (eb_height b) prev ≫= fun reward =>
  Ok (saturating_add 128 minted reward, Some reward).

Fixpoint emit_chain {E} (p : EmissionParams) (genesis_time_ms : Z) (bs : list EmissionBlock)
    (st : Z * option Z) : outcome E (Z * option Z) :=
  match bs with
  | [] => Ok st
  | b :: bs => emit_block p genesis_time_ms st b ≫= emit_chain p genesis_time_ms bs
  end.

(** ** The schedule *)

Section schedule.
Context (p : EmissionParams) (Tp : typed p = true).

Definition t_h_ms : Z := seconds_per_halving p * 1000.
Definition blocks_per_halving : Z := t_h_ms / em_target_block_time_ms p.

(** Supply and reward after [k] completed epochs. *)
Definition after_epochs (k : nat) : Z * Z :=
  Nat.iter k (epoch_step blocks_per_halving) (0, initial_reward_sat p).

Lemma params_ranges :
  in_u 128 (initial_reward_sat p) /\ 0 <= t_h_ms /\ 0 <= em_target_block_time_ms p /\
  in_u 128 (supply_cap_sat p) /\ 0 <= max_reward_pct_change_per_block p < 2 ^ 32 /\
  0 <= bootstrap_reward_pct p /\ 0 <= blocks_per_halving.
Proof using Tp.
  unfold typed, typed_EmissionParams in Tp. unfold blocks_per_halving, t_h_ms.
  rewrite !andb_true_iff, !in_ub_spec in Tp. destruct Tp as [[[[[[H1 H2] H3] H4] H5] H6] H7].
  assert (0 <= seconds_per_halving p * 1000) by (unfold in_u in *; lia).
  assert (0 <= em_target_block_time_ms p) by (unfold in_u in *; lia).
  assert (0 <= seconds_per_halving p * 1000 / em_target_block_time_ms p).
  { destruct (decide (em_target_block_time_ms p = 0)) as [->|]; [by rewrite Zdiv_0_r|].
    apply Z.div_pos; lia. }
  unfold in_u in *. split_and!; lia.
Qed.

Lemma after_epochs_S k : after_epochs (S k) = epoch_step blocks_per_halving (after_epochs k).
Proof using. done. Qed.

Lemma after_epochs_reward k :
  (after_epochs k).2 = Z.shiftr (initial_reward_sat p) (Z.of_nat k).
Proof using.
  induction k as [|k IH]; [by rewrite Z.shiftr_0_r|].
  rewrite after_epochs_S. destruct (after_epochs k) as [c r]. cbn [epoch_step snd] in *.
  rewrite IH, Z.shiftr_shiftr by lia. f_equal. lia.
Qed.

Lemma after_epochs_range k : 0 <= (after_epochs k).1 /\ 0 <= (after_epochs k).2.
Proof using Tp.
  destruct params_ranges as (H1 & H2 & H3 & H4 & H5 & H6 & H7).
  split.
  - induction k as [|k IH]; [done|]. rewrite after_epochs_S.
    assert (0 <= (after_epochs k).2).
    { rewrite after_epochs_reward. apply Z.shiftr_nonneg. apply H1. }
    destruct (after_epochs k) as [c r]. cbn [epoch_step fst snd] in *.
    unfold saturating_add, saturating_mul, u_max. assert (0 <= r * blocks_per_halving) by nia. lia.
  - rewrite after_epochs_reward. apply Z.shiftr_nonneg. apply H1.
Qed.

(** The supply within an epoch, after [n] of its blocks. *)
Definition within_epoch (k : nat) (n : Z) : Z :=
  saturating_add 128 (after_epochs k).1 (saturating_mul 128 (after_epochs k).2 n).

Lemma within_epoch_mono k n1 n2 : 0 <= n1 <= n2 -> within_epoch k n1 <= within_epoch k n2.
Proof using Tp.
  intros Hn. unfold within_epoch. destruct (after_epochs_range k) as [_ H2].
  pose proof (saturating_mul_mono 128 (after_epochs k).2 n1 (after_epochs k).2 n2).
  unfold saturating_add. lia.
Qed.

Lemma within_epoch_full k : within_epoch k blocks_per_halving = (after_epochs (S k)).1.
Proof using.
  rewrite after_epochs_S. unfold within_epoch. by destruct (after_epochs k).
Qed.

Lemma within_epoch_start k : (after_epochs k).1 <= u_max 128 -> (after_epochs k).1 <= within_epoch k 0.
Proof using. unfold within_epoch, saturating_add, saturating_mul, u_max. rewrite Z.mul_0_r. lia. Qed.

Lemma after_epochs_max k : (after_epochs k).1 <= u_max 128.
Proof using.
  destruct k as [|k]; [done|]. rewrite <- within_epoch_full. unfold within_epoch, saturating_add. lia.
Qed.

Lemma after_epochs_mono k1 k2 : (k1 <= k2)%nat -> (after_epochs k1).1 <= (after_epochs k2).1.
Proof using Tp.
  induction 1 as [|k2 _ IH]; [done|]. etrans; [exact IH|]. rewrite <- within_epoch_full.
  etrans; [apply within_epoch_start, after_epochs_max|]. apply within_epoch_mono.
  pose proof params_ranges. lia.
Qed.

Definition partial_blocks (t : Z) : Z :=
  saturating_mul 128 (t mod t_h_ms) blocks_per_halving / t_h_ms.

Lemma partial_blocks_range t : 0 < t_h_ms -> 0 <= partial_blocks t <= blocks_per_halving.
Proof using Tp.
  intros Hh. pose proof params_ranges as (_ & _ & _ & _ & _ & _ & Hb).
  pose proof (Z.mod_pos_bound t t_h_ms Hh) as Hm. unfold partial_blocks. split.
  - apply Z.div_pos; [|lia]. apply saturating_mul_range; lia.
  - apply Z.div_le_upper_bound; [lia|]. etrans; [apply saturating_mul_le|]. nia.
Qed.

Lemma scheduled_supply_epoch t : 0 < t -> 0 < t_h_ms -> 0 < em_target_block_time_ms p ->
  scheduled_supply_at t p =
  if 64 <=? t / t_h_ms then supply_cap_sat p
  else Z.min (within_epoch (Z.to_nat (t / t_h_ms)) (partial_blocks t)) (supply_cap_sat p).
Proof using.
  intros Ht Hh Htb. unfold scheduled_supply_at. fold t_h_ms. fold blocks_per_halving.
  destruct (Z.eqb_spec t 0); [lia|]. destruct (Z.eqb_spec t_h_ms 0); [lia|].
  destruct (Z.eqb_spec (em_target_block_time_ms p) 0); [lia|]. cbn [orb].
  destruct (64 <=? t / t_h_ms); [done|].
  unfold within_epoch, after_epochs, partial_blocks.
  destruct (Nat.iter _ _ _) as [c r]. cbn [fst snd].
  by replace (t - t / t_h_ms * t_h_ms) with (t mod t_h_ms) by (rewrite Z.mod_eq; lia).
Qed.

Lemma scheduled_supply_range t : 0 <= t -> 0 <= scheduled_supply_at t p <= supply_cap_sat p.
Proof using Tp.
  intros Ht. pose proof params_ranges as (_ & Hh & Htb & Hc & _). unfold in_u in Hc.
  destruct (decide (t = 0 \/ t_h_ms = 0 \/ em_target_block_time_ms p = 0)) as [Hz|Hz].
  - unfold scheduled_supply_at. fold t_h_ms.
    destruct (Z.eqb_spec t 0); [lia|]. destruct (Z.eqb_spec t_h_ms 0); [cbn; lia|].
    destruct (Z.eqb_spec (em_target_block_time_ms p) 0); [cbn; lia|]. lia.
  - rewrite scheduled_supply_epoch by lia. destruct (64 <=? t / t_h_ms); [lia|].
    assert (0 <= within_epoch (Z.to_nat (t / t_h_ms)) (partial_blocks t)); [|lia].
    pose proof (after_epochs_range (Z.to_nat (t / t_h_ms))).
    pose proof (partial_blocks_range t ltac:(lia)).
    unfold within_epoch, saturating_add, saturating_mul, u_max.
    assert (0 <= (after_epochs (Z.to_nat (t / t_h_ms))).2 * partial_blocks t) by nia. lia.
Qed.

Lemma scheduled_supply_mono t1 t2 : 0 <= t1 <= t2 ->
  scheduled_supply_at t1 p <= scheduled_supply_at t2 p.
Proof using Tp.
  intros Ht. pose proof params_ranges as (_ & Hh & Htb & Hc & _ & _ & Hbph).
  destruct (decide (t1 = 0)) as [->|H1].
  { apply (scheduled_supply_range t2). lia. }
  destruct (decide (t_h_ms = 0 \/ em_target_block_time_ms p = 0)) as [Hz|Hz].
  { unfold scheduled_supply_at. fold t_h_ms.
    destruct (Z.eqb_spec t1 0), (Z.eqb_spec t2 0); try lia.
    assert ((t_h_ms =? 0) || (em_target_block_time_ms p =? 0) = true) as -> by lia. done. }
  pose proof (scheduled_supply_range t1 ltac:(lia)) as R1.
  assert (t1 / t_h_ms <= t2 / t_h_ms) as Hk by (apply Z.div_le_mono; lia).
  rewrite !scheduled_supply_epoch in * by lia.
  destruct (Z.leb_spec 64 (t2 / t_h_ms)); [lia|]. destruct (Z.leb_spec 64 (t1 / t_h_ms)); [lia|].
  apply Z.min_le_compat_r.
  assert (0 <= t1 / t_h_ms) by (apply Z.div_pos; lia).
  destruct (decide (t1 / t_h_ms = t2 / t_h_ms)) as [Hkk|Hkk].
  - rewrite Hkk. apply within_epoch_mono.
    pose proof (partial_blocks_range t1 ltac:(lia)). split; [lia|].
    apply Z.div_le_mono; [lia|]. apply saturating_mul_mono; [|lia].
    pose proof (Z.mod_pos_bound t1 t_h_ms ltac:(lia)).
    pose proof (Z.div_mod t1 t_h_ms ltac:(lia)). pose proof (Z.div_mod t2 t_h_ms ltac:(lia)).
    rewrite Hkk in *. lia.
  - pose proof (partial_blocks_range t1 ltac:(lia)) as P1.
    pose proof (partial_blocks_range t2 ltac:(lia)) as P2.
    etrans; [by apply (within_epoch_mono _ (partial_blocks t1) blocks_per_halving)|]. rewrite within_epoch_full.
    etrans; [apply (after_epochs_mono _ (Z.to_nat (t2 / t_h_ms))); lia|].
    etrans; [apply within_epoch_start, after_epochs_max|]. apply within_epoch_mono. lia.
Qed.
End schedule.

(** ** The reward *)

Section reward.
Context (p : EmissionParams) (Tp : typed p = true).

Lemma epoch_reward_range t : 0 <= t -> 0 <= epoch_reward p t <= initial_reward_sat p.
Proof using Tp.
  intros Ht. destruct (params_ranges p Tp) as (Hi & _). unfold in_u in Hi. unfold epoch_reward.
  set (k := t / _). assert (0 <= k) by (apply Z.div_pos; lia).
  destruct (64 <=? k); [lia|]. rewrite Z.shiftr_div_pow2 by done. split.
  - apply Z.div_pos; lia.
  - apply Z.div_le_upper_bound; [lia|]. assert (0 < 2 ^ k) by lia. nia.
Qed.

Lemma raw_reward_range t elapsed minted h : 0 <= t ->
  0 <= raw_reward p t elapsed minted h <=
    Z.min (Z.max 0 (scheduled_supply_at t p - minted)) (epoch_reward p t).
Proof using Tp.
  intros Ht. pose proof (epoch_reward_range t Ht) as He.
  destruct (params_ranges p Tp) as (_ & _ & _ & _ & _ & Hb & _). unfold raw_reward, saturating_sub.
  set (prop := saturating_mul 128 _ _ / _).
  assert (0 <= prop).
  { apply Z.div_pos; [|lia]. apply saturating_mul_range; lia. }
  set (boot := saturating_mul 128 _ _ / 100).
  assert (0 <= boot).
  { apply Z.div_pos; [|lia]. apply saturating_mul_range; lia. }
  destruct (h <? em_bootstrap_height p); lia.
Qed.

(** The share of the previous reward that the slew-rate limit always pays. *)
Definition slew_keep : Z := Z.max 0 (100 - Z.max (max_reward_pct_change_per_block p) 1).
Definition slew_floor (prev : Z) : Z := saturating_mul 128 prev slew_keep / 100.
Definition slew_ceiling (prev : Z) : Z :=
  saturating_mul 128 prev (100 + Z.max (max_reward_pct_change_per_block p) 1) / 100.

Lemma slew_limit_Some {E} prev reward : 0 < prev ->
  slew_limit (E:=E) p (Some prev) reward =
  Ok (Z.max (slew_floor prev) (Z.min reward (slew_ceiling prev))).
Proof using Tp.
  intros Hp. unfold slew_limit. destruct (Z.ltb_spec 0 prev); [|lia].
  apply rust_clamp_Ok. unfold saturating_sub. fold slew_keep. fold (slew_floor prev).
  fold (slew_ceiling prev). split; [|done].
  apply Z.div_le_mono; [lia|]. apply saturating_mul_mono; [lia|]. unfold slew_keep.
  destruct (params_ranges p Tp) as (_ & _ & _ & _ & Hm & _). lia.
Qed.

Lemma slew_keep_range : 0 <= slew_keep <= 99.
Proof using. unfold slew_keep. lia. Qed.

Lemma slew_floor_range prev : 0 <= prev -> 0 <= slew_floor prev /\
  100 * slew_floor prev <= slew_keep * prev.
Proof using.
  intros Hp. pose proof slew_keep_range. unfold slew_floor.
  assert (0 <= saturating_mul 128 prev slew_keep) by (apply saturating_mul_range; lia).
  split; [apply Z.div_pos; lia|]. etrans; [apply Z.mul_div_le; lia|].
  rewrite (Z.mul_comm slew_keep). apply saturating_mul_le.
Qed.

(** Without a positive previous reward the limit does nothing. *)
Lemma slewed_reward prev raw : 0 <= default 0 prev -> 0 <= raw ->
  match prev with
  | Some q => if 0 <? q then Z.max (slew_floor q) (Z.min raw (slew_ceiling q)) else raw
  | None => raw
  end = Z.max (slew_floor (default 0 prev))
          (Z.min raw (if 0 <? default 0 prev then slew_ceiling (default 0 prev) else raw)).
Proof using.
  intros Hq Hraw. assert (slew_floor 0 = 0) as Hz.
  { unfold slew_floor, saturating_mul, u_max. by rewrite Z.mul_0_l. }
  destruct prev as [q|].
  - change (default 0 (Some q)) with q in *.
    destruct (Z.ltb_spec 0 q); [done|]. assert (q = 0) as -> by lia. rewrite Hz. lia.
  - change (default 0 None) with 0. rewrite Hz. cbn. lia.
Qed.

Lemma current_reward_with_height_Ok {E} g ts pts minted h prev : exists r,
  current_reward_with_height (E:=E) p g ts pts minted h prev = Ok r /\ 0 <= r /\
  (ts <= g -> r = 0) /\
  (g < ts -> let raw := raw_reward p (ts - g) (saturating_sub ts pts) minted h in
   r = match prev with
       | Some q => if 0 <? q then Z.max (slew_floor q) (Z.min raw (slew_ceiling q)) else raw
       | None => raw
       end).
Proof using Tp.
  unfold current_reward_with_height. destruct (Z.leb_spec ts g).
  { exists 0. split_and!; [done|done|done|lia]. }
  pose proof (raw_reward_range (ts - g) (saturating_sub ts pts) minted h ltac:(lia)) as Hraw.
  set (raw := raw_reward _ _ _ _ _) in *.
  destruct prev as [q|]; [|by exists raw; split_and!; [done|lia|lia|done]].
  destruct (Z.ltb_spec 0 q) as [Hq|Hq].
  - exists (Z.max (slew_floor q) (Z.min raw (slew_ceiling q))).
    pose proof (slew_floor_range q). rewrite slew_limit_Some by done. split_and!; [done|lia|lia|done].
  - exists raw. unfold slew_limit. destruct (Z.ltb_spec 0 q); [lia|]. split_and!; [done|lia|lia|done].
Qed.
End reward.

(** ** Chains *)

(** The supply the calendar allows at an absolute time. *)
Definition supply_at (p : EmissionParams) (genesis_time_ms t : Z) : Z :=
  if t <=? genesis_time_ms then 0 else scheduled_supply_at (t - genesis_time_ms) p.

Section chain.
Context (p : EmissionParams) (Tp : typed p = true) (g : Z).

Lemma supply_at_range t : 0 <= supply_at p g t <= supply_cap_sat p.
Proof using Tp.
  unfold supply_at. destruct (params_ranges p Tp) as (_ & _ & _ & Hc & _). unfold in_u in Hc.
  destruct (Z.leb_spec t g); [lia|]. apply scheduled_supply_range; [done|lia].
Qed.

Lemma supply_at_mono t1 t2 : t1 <= t2 -> supply_at p g t1 <= supply_at p g t2.
Proof using Tp.
  intros Ht. pose proof (supply_at_range t2) as H2. unfold supply_at in *.
  destruct (Z.leb_spec t1 g); [lia|]. destruct (Z.leb_spec t2 g); [lia|].
  apply scheduled_supply_mono; [done|lia].
Qed.

(** What a reward of [prev] may still make the chain pay above the schedule. *)
Definition emission_potential (minted prev : Z) : Z :=
  (100 - slew_keep p) * minted + slew_keep p * prev.

Definition emission_inv (t : Z) (st : Z * option Z) : Prop :=
  0 <= st.1 /\ 0 <= default 0 st.2 /\
  emission_potential st.1 (default 0 st.2) <=
    emission_potential (supply_at p g t) (initial_reward_sat p).

Lemma emission_inv_later t1 t2 st : t1 <= t2 -> emission_inv t1 st -> emission_inv t2 st.
Proof using Tp.
  intros Ht (H1 & H2 & H3). split_and!; [done|done|].
  pose proof (supply_at_mono t1 t2 Ht). pose proof (slew_keep_range p).
  unfold emission_potential in *. nia.
Qed.

(** Paying at least the slew floor of the previous reward never raises the potential; paying
    from the calendar keeps the total within the schedule. *)
Lemma reward_potential minted q raw ceiling S I : 0 <= minted -> 0 <= q ->
  0 <= raw -> (0 < raw -> minted + raw <= S /\ raw <= I) ->
  emission_potential minted q <= emission_potential S I ->
  forall r, r = Z.max (slew_floor p q) (Z.min raw ceiling) ->
  emission_potential (minted + r) r <= emission_potential S I.
Proof using Tp.
  intros Hm Hq Hraw Hs Hp r Hrdef. pose proof (slew_keep_range p) as Hk.
  destruct (slew_floor_range p q Hq) as [Hf1 Hf2].
  unfold emission_potential in *. destruct (Z.le_gt_cases r (slew_floor p q)) as [Hr|Hr].
  - assert (r = slew_floor p q) as -> by lia. clear Hs Hrdef. nia.
  - assert (r <= raw /\ 0 < r) as [Hr1 Hr2] by lia. destruct Hs as [Hs1 Hs2]; [lia|]. nia.
Qed.

Lemma emit_block_inv {E} t st b : emission_inv t st -> t <= eb_timestamp_ms b ->
  exists st', emit_block (E:=E) p g st b = Ok st' /\ emission_inv (eb_timestamp_ms b) st'.
Proof using Tp.
  destruct st as [minted prev]. intros Hinv Ht.
  apply (emission_inv_later t (eb_timestamp_ms b)) in Hinv; [|done].
  destruct Hinv as (H1 & H2 & H3). cbn [fst snd] in *.
  unfold emit_block. set (ts := eb_timestamp_ms b) in *.
  destruct (current_reward_with_height_Ok p Tp (E:=E) g ts (eb_parent_timestamp_ms b) minted
    (eb_height b) prev) as (r & -> & Hr & Hr0 & Hr1).
  cbn [mbind outcome_bind].
  eexists. split; [reflexivity|].
  assert (emission_potential (minted + r) r <=
          emission_potential (supply_at p g ts) (initial_reward_sat p)) as Hpot.
  { destruct (Z.le_gt_cases ts g) as [Hg|Hg].
    { rewrite Hr0 by done. pose proof (slew_keep_range p). unfold emission_potential in *. nia. }
    specialize (Hr1 Hg). cbn zeta in Hr1.
    pose proof (raw_reward_range p Tp (ts - g) (saturating_sub ts (eb_parent_timestamp_ms b))
      minted (eb_height b) ltac:(lia)) as Hraw.
    pose proof (epoch_reward_range p Tp (ts - g) ltac:(lia)) as He.
    assert (supply_at p g ts = scheduled_supply_at (ts - g) p) as HS.
    { unfold supply_at. by destruct (Z.leb_spec ts g); [lia|]. }
    rewrite <- HS in Hraw. set (raw := raw_reward _ _ _ _ _) in *.
    assert (0 < raw -> minted + raw <= supply_at p g ts /\ raw <= initial_reward_sat p) as Hs by lia.
    pose proof (slewed_reward p prev raw H2 ltac:(lia)) as Hrdef. rewrite <- Hr1 in Hrdef.
    apply (reward_potential minted (default 0 prev) raw _ _ _ H1 H2 ltac:(lia) Hs H3 r Hrdef). }
  assert (saturating_add 128 minted r <= minted + r) by (unfold saturating_add; lia).
  pose proof (slew_keep_range p). split_and!; cbn [fst snd default]; unfold id.
  - unfold saturating_add, u_max. lia.
  - done.
  - unfold emission_potential in *. nia.
Qed.

(** Timestamps in the order the chain enforces. *)
Fixpoint times_ordered (t : Z) (bs : list EmissionBlock) : bool :=
  match bs with
  | [] => true
  | b :: bs => (t <=? eb_timestamp_ms b) && times_ordered (eb_timestamp_ms b) bs
  end.

Definition last_time (t : Z) (bs : list EmissionBlock) : Z :=
  default t (eb_timestamp_ms <$> last bs).

Lemma last_time_cons t b bs : last_time t (b :: bs) = last_time (eb_timestamp_ms b) bs.
Proof using.
  unfold last_time. destruct bs as [|b' bs]; [done|]. rewrite last_cons_cons.
  by destruct (last (b' :: bs)) as [x|] eqn:El; [|apply last_None in El].
Qed.

Lemma emit_chain_inv {E} t bs st : emission_inv t st -> times_ordered t bs = true ->
  exists st', emit_chain (E:=E) p g bs st = Ok st' /\ emission_inv (last_time t bs) st'.
Proof using Tp.
  revert t st; induction bs as [|b bs IH]; intros t st Hinv Ho; [by exists st|].
  cbn [times_ordered] in Ho. apply andb_true_iff in Ho as [Ht Ho]. apply Z.leb_le in Ht.
  destruct (emit_block_inv (E:=E) t st b Hinv Ht) as (st1 & E1 & Hinv1).
  cbn [emit_chain]. rewrite E1. cbn [mbind outcome_bind]. rewrite last_time_cons. by apply IH.
Qed.
End chain.

(** ** Properties *)

(** The calendar schedule is monotone in time and never leaves [0, supply_cap]. *)
Theorem scheduled_supply_monotone p t1 t2 : typed p = true -> 0 <= t1 <= t2 ->
  0 <= scheduled_supply_at t1 p /\ scheduled_supply_at t1 p <= scheduled_supply_at t2 p /\
  scheduled_supply_at t2 p <= supply_cap_sat p.
Proof.
  intros Tp Ht. split_and!.
  - apply scheduled_supply_range; [done|lia].
  - by apply scheduled_supply_mono.
  - apply scheduled_supply_range; [done|lia].
Qed.

(** C17: Along every chain whose timestamps do not decrease, the rewards are defined and the
    total minted exceeds the calendar schedule, hence the supply cap, by at most
    (100 - pct) / pct initial rewards, where pct is the slew-rate limit: three rewards for
    the default of 25 per cent, none from 100 per cent on. *)
Theorem emission_supply_bound {E} p g t bs : typed p = true ->
  times_ordered t bs = true ->
  exists minted prev, emit_chain (E:=E) p g bs (0, None) = Ok (minted, prev) /\
    let keep := slew_keep p in
    0 <= minted /\
    (100 - keep) * minted <= (100 - keep) * supply_at p g (last_time t bs)
                             + keep * initial_reward_sat p /\
    supply_at p g (last_time t bs) <= supply_cap_sat p.
Proof.
  intros Tp Ho. destruct (emit_chain_inv p Tp g (E:=E) t bs (0, None)) as ([minted prev] & HE & Hi).
  - split_and!; [done|done|]. unfold emission_potential. cbn.
    pose proof (supply_at_range p Tp g t). pose proof (slew_keep_range p).
    destruct (params_ranges p Tp) as (Hr & _). unfold in_u in Hr. nia.
  - done.
  - exists minted, prev. split; [done|]. destruct Hi as (H1 & H2 & H3). cbn [fst snd] in *.
    pose proof (slew_keep_range p). pose proof (supply_at_range p Tp g (last_time t bs)).
    unfold emission_potential in H3. split_and!; [done|nia|lia].
Qed.

(** Without a previous reward the reward is the smallest of what the calendar still
    owes, the nominal reward of the epoch, its share of the time since the parent, and,
    below the bootstrap height, the bootstrap share. *)
Theorem reward_caps {E} p g ts pts minted h prev :
  typed p = true -> g < ts -> prev = None \/ prev = Some 0 ->
  exists r, current_reward_with_height (E:=E) p g ts pts minted h prev = Ok r /\
    let nominal := epoch_reward p (ts - g) in
    let share := saturating_mul 128 nominal (Z.max 1 (ts - pts)) /
                 Z.max 1 (em_target_block_time_ms p) in
    let caps := Z.min (Z.max 0 (supply_at p g ts - minted)) (Z.min nominal share) in
    r = if h <? em_bootstrap_height p
        then Z.min caps (saturating_mul 128 nominal (bootstrap_reward_pct p) / 100) else caps.
Proof.
  intros Tp Hg Hp. unfold current_reward_with_height, supply_at.
  destruct (Z.leb_spec ts g); [lia|]. eexists. split.
  { destruct Hp as [-> | ->]; reflexivity. }
  cbn zeta. unfold raw_reward, saturating_sub.
  replace (Z.max (Z.max 0 (ts - pts)) 1) with (Z.max 1 (ts - pts)) by lia.
  rewrite (Z.max_comm _ 1). destruct (h <? em_bootstrap_height p); lia.
Qed.

(** With a previous reward the limit is also a floor: a chain that has minted its whole
    schedule, or its whole supply cap, still pays (100 - pct) per cent of the previous
    reward. *)
Theorem slew_pays_past_schedule {E} p g ts pts minted h prev :
  typed p = true -> g < ts -> supply_at p g ts <= minted -> 0 < prev ->
  current_reward_with_height (E:=E) p g ts pts minted h (Some prev) = Ok (slew_floor p prev).
Proof.
  intros Tp Hg Hm Hprev.
  destruct (current_reward_with_height_Ok p Tp (E:=E) g ts pts minted h (Some prev))
    as (r & -> & _ & _ & Hr). specialize (Hr Hg). cbn zeta in Hr.
  pose proof (raw_reward_range p Tp (ts - g) (saturating_sub ts pts) minted h ltac:(lia)) as Hraw.
  unfold supply_at in Hm. destruct (Z.leb_spec ts g); [lia|].
  set (raw := raw_reward _ _ _ _ _) in *. destruct (Z.ltb_spec 0 prev); [|lia].
  pose proof (slew_floor_range p prev ltac:(lia)). f_equal. lia.
Qed.

(** ** Instances *)

Lemma scheduled_supply_monotone_witness :
  0 <= scheduled_supply_at 600000 bitcoin_like /\
  scheduled_supply_at 600000 bitcoin_like <= scheduled_supply_at 200000000000 bitcoin_like /\
  scheduled_supply_at 200000000000 bitcoin_like <= 2100000000000000.
Proof. apply (scheduled_supply_monotone bitcoin_like); [reflexivity|lia]. Defined.

(** Ten minutes of schedule, then ten blocks one millisecond apart. *)
Definition quick_chain : list EmissionBlock :=
  {| eb_timestamp_ms := 600000; eb_parent_timestamp_ms := 0; eb_height := 1 |} ::
  ((fun i => {| eb_timestamp_ms := 600000 + Z.of_nat i;
                eb_parent_timestamp_ms := 600000 + Z.of_nat i - 1;
                eb_height := 1 + Z.of_nat i |}) <$> seq 1 10).

Lemma emission_supply_bound_witness :
  exists minted prev,
    emit_chain (E:=unit) bitcoin_like 0 quick_chain (0, None) = Ok (minted, prev) /\
    25 * minted <= 25 * supply_at bitcoin_like 0 600010 + 75 * 5000000000.
Proof.
  destruct (emission_supply_bound (E:=unit) bitcoin_like 0 0 quick_chain)
    as (minted & prev & HE & H); [reflexivity|reflexivity|].
  exists minted, prev. split; [exact HE|]. apply H.
Defined.

Lemma reward_caps_witness :
  current_reward_with_height (E:=unit) bitcoin_like 0 1200000 600000 2500000000 2 None =
  Ok 2500000000.
Proof.
  destruct (reward_caps (E:=unit) bitcoin_like 0 1200000 600000 2500000000 2 None)
    as (r & -> & ->); [reflexivity|lia|by left|]. vm_compute. reflexivity.
Defined.

Lemma slew_pays_past_schedule_witness :
  (** The whole supply cap is minted, and a block still pays 37.5 coins. *)
  current_reward_with_height (E:=unit) bitcoin_like 0 10000000000000 9999999999999
    (supply_cap_sat bitcoin_like) 5000000 (Some 5000000000) = Ok 3750000000 /\
  (** The quick chain mints more than the schedule allows at its last block. *)
  match emit_chain (E:=unit) bitcoin_like 0 quick_chain (0, None) with
  | Ok (minted, _) => supply_at bitcoin_like 0 600010 <? minted
  | _ => false
  end = true.
Proof.
  split; [|vm_compute; reflexivity].
  rewrite (slew_pays_past_schedule (E:=unit) bitcoin_like 0);
    [vm_compute; reflexivity|reflexivity|lia|vm_compute; discriminate|lia].
Defined.
