(* ===== verification/Backtest.v ===== *)
(** * Backtest: the long-form emission trace (crates/consensus/tests/emission_long_form.rs)

    The repository pins the supply of a deterministic trace of one halving epoch.  The trace,
    its assertions and its samples, over the reward of [Emission]; a failed assertion is a
    panic. *)

From S2P Require Export Emission.

Local Open Scope Z_scope.

(** ** The generator of block intervals *)

Record ExpVariate := { ev_state : Z; ev_target_ms : Z }.

Definition ExpVariate_new (seed target_ms : Z) : ExpVariate :=
  {| ev_state := Z.max seed 1; ev_target_ms := target_ms |}.

(** One xorshift round and its output. *)
Definition next_u64 (v : ExpVariate) : Z * ExpVariate :=
  let x := ev_state v in
  let x := Z.lxor x (Z.shiftl x 13 mod 2 ^ 64) in
  let x := Z.lxor x (Z.shiftr x 7) in
  let x := Z.lxor x (Z.shiftl x 17 mod 2 ^ 64) in
  (x * 0x2545F4914F6CDD1D mod 2 ^ 64, {| ev_state := x; ev_target_ms := ev_target_ms v |}).

Definition next_interval_ms (v : ExpVariate) : Z * ExpVariate :=
  let '(r, v) := next_u64 v in
  let r := r mod 100 in
  let '(mult_num, mult_den) :=
    if r <? 50 then (1, 2) else if r <? 85 then (1, 1) else if r <? 97 then (2, 1) else (8, 1) in
  let '(j, v) := next_u64 v in
  let jitter := j mod Z.max (ev_target_ms v / 10) 1 in
  (saturating_add 64 (saturating_mul 64 (ev_target_ms v) mult_num / mult_den) jitter, v).

(** ** The trace *)

Record Trace := {
  tr_rng : ExpVariate;
  tr_parent_ts : Z;
  tr_minted : Z;
  tr_prev_reward : option Z;
  tr_samples : list (Z * Z);
  tr_bootstrap_overage : Z;
}.

Definition sample_at : list Z := [1000; 10000; 50000; 100000; 210000].

Definition assert_that {E} (b : bool) : outcome E unit := if b then Ok tt else Panic.

(** The assertions on the reward of a block; the number of bootstrap caps it exceeds. *)
Definition check_reward {E} (p : EmissionParams) (genesis_time_ms block_ts minted height reward : Z)
    (prev_reward : option Z) : outcome E Z :=
  let elapsed_ms := block_ts - genesis_time_ms in
  let scheduled := scheduled_supply_at elapsed_ms p in
  let epoch_idx := elapsed_ms / (seconds_per_halving p * 1000) in
  let epoch_reward := if 64 <=? epoch_idx then 0 else Z.shiftr (initial_reward_sat p) epoch_idx in
  _ ← assert_that (minted + reward <=? saturating_add 128 scheduled (saturating_mul 128 epoch_reward 2));
  _ ← assert_that (reward <=? saturating_mul 128 epoch_reward 2);
  _ ← match prev_reward with
      | Some prev =>
          if 0 <? prev
          then assert_that (Z.abs (reward - prev) <=? saturating_mul 128 prev 25 / 100 + 1)
          else Ok tt
      | None => Ok tt
      end;
  Ok (if height <? em_bootstrap_height p
      then if saturating_mul 128 epoch_reward (bootstrap_reward_pct p) / 100 <? reward then 1 else 0
      else 0).

Definition trace_block {E} (p : EmissionParams) (genesis_time_ms height : Z) (tr : Trace)
    : outcome E Trace :=
  let '(interval, rng) := next_interval_ms (tr_rng tr) in
  let block_ts := saturating_add 64 (tr_parent_ts tr) interval in
  reward ← current_reward_with_height p genesis_time_ms block_ts (tr_parent_ts tr) (tr_minted tr)
             height (tr_prev_reward tr);
  over ← check_reward p genesis_time_ms block_ts (tr_minted tr) height reward (tr_prev_reward tr);
  let minted := saturating_add 128 (tr_minted tr) reward in
  Ok {| tr_rng := rng; tr_parent_ts := block_ts; tr_minted := minted; tr_prev_reward := Some reward;
        tr_samples := if bool_decide (height ∈ sample_at) then tr_samples tr ++ [(height, minted)]
                      else tr_samples tr;
        tr_bootstrap_overage := tr_bootstrap_overage tr + over |}.

(** The first [n] blocks. *)
Fixpoint trace_blocks {E} (p : EmissionParams) (genesis_time_ms height : Z) (n : nat) (tr : Trace)
    : outcome E Trace :=
  match n with
  | O => Ok tr
  | S n => trace_block p genesis_time_ms height tr ≫= trace_blocks p genesis_time_ms (height + 1) n
  end.

Definition trace_start (seed : Z) (p : EmissionParams) (genesis_time_ms : Z) : Trace := {|
  tr_rng := ExpVariate_new seed (em_target_block_time_ms p); tr_parent_ts := genesis_time_ms;
  tr_minted := 0; tr_prev_reward := None; tr_samples := []; tr_bootstrap_overage := 0 |}.

(** The assertions at the end: no bootstrap cap exceeded, the total within half of the
    schedule and one reward above it, and more than a hundredth of the cap. *)
Definition end_ok (p : EmissionParams) (genesis_time_ms : Z) (tr : Trace) : bool :=
  let scheduled_final := scheduled_supply_at (tr_parent_ts tr - genesis_time_ms) p in
  let lo := scheduled_final * 50 / 100 in
  let hi := saturating_add 128 scheduled_final (initial_reward_sat p) in
  (tr_bootstrap_overage tr =? 0) && ((lo <=? tr_minted tr) && (tr_minted tr <=? hi)) &&
  (supply_cap_sat p / 100 <? tr_minted tr).

(** The test over [n] blocks, up to its digest; the samples it would hash. *)
Definition emission_backtest {E} (p : EmissionParams) (genesis_time_ms seed : Z) (n : nat)
    : outcome E (list (Z * Z)) :=
  tr ← trace_blocks p genesis_time_ms 1 n (trace_start seed p genesis_time_ms);
  _ ← assert_that (end_ok p genesis_time_ms tr);
  Ok (tr_samples tr).

(** ** A quick run in the first epoch

    The trace of the test's parameters without divisions of wide numbers, as long as it stays
    within the first epoch and below [2 ^ 90] of anything. *)

Definition GENESIS_TIME_MS : Z := 1000000000000.
Definition SEED : Z := 0xDEADBEEFCAFEBABE.

Definition u64_mask (x : Z) : Z := Z.land x 0xFFFFFFFFFFFFFFFF.

Definition quick_u64 (v : ExpVariate) : Z * ExpVariate :=
  let x := ev_state v in
  let x := Z.lxor x (u64_mask (Z.shiftl x 13)) in
  let x := Z.lxor x (Z.shiftr x 7) in
  let x := Z.lxor x (u64_mask (Z.shiftl x 17)) in
  (u64_mask (x * 0x2545F4914F6CDD1D), {| ev_state := x; ev_target_ms := ev_target_ms v |}).

Definition quick_interval (v : ExpVariate) : Z * ExpVariate :=
  let '(r, v) := quick_u64 v in
  let r := r mod 100 in
  let base := if r <? 50 then 300000 else if r <? 85 then 600000
              else if r <? 97 then 1200000 else 4800000 in
  let '(j, v) := quick_u64 v in (base + j mod 60000, v).

Definition quick_reward (elapsed_ms interval minted height : Z) (prev : option Z) : Z :=
  let owed := Z.max 0 (5000000000 * (elapsed_ms / 600000) - minted) in
  let raw := Z.min (Z.min owed 5000000000) (5000000000 * interval / 600000) in
  let raw := if height <? 2016 then Z.min raw 2500000000 else raw in
  match prev with
  | Some q =>
      if 0 <? q then Z.max (q * 75 / 100) (Z.min raw (q * 125 / 100)) else raw
  | None => raw
  end.

Definition quick_check (elapsed_ms minted height reward : Z) (prev : option Z) : bool :=
  (minted + reward <=? 5000000000 * (elapsed_ms / 600000) + 10000000000) && (reward <=? 10000000000) &&
  match prev with
  | Some q => if 0 <? q then Z.abs (reward - q) <=? q * 25 / 100 + 1 else true
  | None => true
  end && ((2016 <=? height) || (reward <=? 2500000000)).

Definition quick_block (height : Z) (tr : Trace) : option Trace :=
  let '(interval, rng) := quick_interval (tr_rng tr) in
  let ts := tr_parent_ts tr + interval in
  let minted := tr_minted tr in
  let prev := tr_prev_reward tr in
  let reward := quick_reward (ts - GENESIS_TIME_MS) interval minted height prev in
  if (ev_target_ms (tr_rng tr) =? 600000) && (GENESIS_TIME_MS <=? tr_parent_ts tr) &&
     (ts - GENESIS_TIME_MS <? 126000000000) && (0 <=? minted) && (minted <? 0x40000000000000000000000) &&
     (0 <=? default 0 prev) && (default 0 prev <? 0x40000000000000000000000) &&
     quick_check (ts - GENESIS_TIME_MS) minted height reward prev
  then Some {| tr_rng := rng; tr_parent_ts := ts; tr_minted := minted + reward; tr_prev_reward := Some reward;
               tr_samples := if bool_decide (height ∈ sample_at) then tr_samples tr ++ [(height, minted + reward)]
                             else tr_samples tr;
               tr_bootstrap_overage := tr_bootstrap_overage tr |}
  else None.

Fixpoint quick_blocks (height : Z) (n : nat) (tr : Trace) : option Trace :=
  match n with
  | O => Some tr
  | S n => quick_block height tr ≫= quick_blocks (height + 1) n
  end.

Lemma u64_mask_mod x : u64_mask x = x mod 2 ^ 64.
Proof. unfold u64_mask. change 0xFFFFFFFFFFFFFFFF with (Z.ones 64). by rewrite Z.land_ones. Qed.

Lemma quick_u64_eq v : quick_u64 v = next_u64 v.
Proof. unfold quick_u64, next_u64. by rewrite !u64_mask_mod. Qed.

Lemma next_u64_range v : 0 <= (next_u64 v).1 < 2 ^ 64 /\ ev_target_ms (next_u64 v).2 = ev_target_ms v.
Proof. split; [|done]. apply Z.mod_pos_bound. lia. Qed.

Lemma quick_interval_eq v : ev_target_ms v = 600000 ->
  next_interval_ms v = quick_interval v /\ 300000 <= (quick_interval v).1 < 4860000 /\
  ev_target_ms (quick_interval v).2 = 600000.
Proof.
  intros Hv. unfold next_interval_ms, quick_interval. rewrite quick_u64_eq.
  destruct (next_u64_range v) as [_ Ht]. destruct (next_u64 v) as [r v1]. cbn [fst snd] in *.
  rewrite quick_u64_eq. destruct (next_u64_range v1) as [Hj Ht1]. destruct (next_u64 v1) as [j v2].
  cbn [fst snd] in *. rewrite Ht1, Ht, Hv. change (Z.max (600000 / 10) 1) with 60000.
  pose proof (Z.mod_pos_bound j 60000 ltac:(lia)).
  destruct (r mod 100 <? 50); [|destruct (r mod 100 <? 85); [|destruct (r mod 100 <? 97)]];
    cbn [fst snd]; (split; [|split; [lia|done]]); f_equal;
    rewrite saturating_mul_small by lia;
    (match goal with |- context [600000 * ?a / ?b] =>
       let y := eval vm_compute in (600000 * a / b) in change (600000 * a / b) with y end);
    rewrite saturating_add_small by lia; reflexivity.
Qed.

(** The schedule of the first epoch. *)
Lemma first_epoch t : 0 < t < 126000000000 ->
  scheduled_supply_at t bitcoin_like = 5000000000 * (t / 600000) /\ epoch_reward bitcoin_like t = 5000000000.
Proof.
  intros Ht. assert (t / 126000000000 = 0) as He by (apply Z.div_small; lia).
  pose proof (Z.mod_pos_bound t 600000 ltac:(lia)) as Hm. pose proof (Z.div_mod t 600000 ltac:(lia)) as Hd.
  split.
  - rewrite scheduled_supply_epoch by (unfold t_h_ms; cbn; lia).
    change (t_h_ms bitcoin_like) with 126000000000. rewrite He. cbn [Z.leb Z.compare Z.to_nat].
    unfold within_epoch, partial_blocks. change (t_h_ms bitcoin_like) with 126000000000.
    change (blocks_per_halving bitcoin_like) with (210000). rewrite Z.mod_small by lia.
    rewrite (saturating_mul_small 128 t) by lia.
    change 126000000000 with (600000 * 210000). rewrite Z.div_mul_cancel_r by lia.
    change (after_epochs bitcoin_like (Z.to_nat 0)) with (0, 5000000000).
    cbn [fst snd supply_cap_sat bitcoin_like].
    generalize dependent (t / 600000). intros q Hd. rewrite saturating_mul_small by lia.
    rewrite saturating_add_small by lia. lia.
  - unfold epoch_reward. change (Z.max (seconds_per_halving bitcoin_like * 1000) 1) with 126000000000.
    rewrite He. reflexivity.
Qed.

(** Within the first epoch the quick reward and its checks are those of the test. *)
Lemma quick_reward_eq {E} ts parent minted height prev :
  GENESIS_TIME_MS <= parent -> parent < ts -> ts - GENESIS_TIME_MS < 126000000000 ->
  ts - parent < 4860000 -> 0 <= minted < 2 ^ 90 -> 0 <= default 0 prev < 2 ^ 90 ->
  current_reward_with_height (E:=E) bitcoin_like GENESIS_TIME_MS ts parent minted height prev =
  Ok (quick_reward (ts - GENESIS_TIME_MS) (ts - parent) minted height prev).
Proof.
  intros Hp Hts Ht Hi Hm Hprev. unfold current_reward_with_height.
  destruct (Z.leb_spec ts GENESIS_TIME_MS); [lia|].
  destruct (first_epoch (ts - GENESIS_TIME_MS) ltac:(lia)) as [Hs He].
  assert (raw_reward bitcoin_like (ts - GENESIS_TIME_MS) (saturating_sub ts parent) minted height =
    let owed := Z.max 0 (5000000000 * ((ts - GENESIS_TIME_MS) / 600000) - minted) in
    let raw := Z.min (Z.min owed 5000000000) (5000000000 * (ts - parent) / 600000) in
    if height <? 2016 then Z.min raw 2500000000 else raw) as ->.
  { unfold raw_reward, saturating_sub. rewrite Hs, He. cbn zeta.
    change (Z.max (em_target_block_time_ms bitcoin_like) 1) with 600000.
    replace (Z.max (Z.max 0 (ts - parent)) 1) with (ts - parent) by lia.
    rewrite (saturating_mul_small 128 5000000000 (ts - parent)) by lia. reflexivity. }
  unfold quick_reward. cbn zeta. set (raw := if height <? 2016 then _ else _).
  assert (typed bitcoin_like = true) as Tb by reflexivity.
  destruct prev as [q|]; [|done]. cbn [default] in Hprev. unfold Datatypes.id in Hprev.
  destruct (Z.ltb_spec 0 q).
  - rewrite (slew_limit_Some _ Tb) by done. unfold slew_floor, slew_ceiling.
    change (slew_keep bitcoin_like) with 75.
    change (100 + Z.max (max_reward_pct_change_per_block bitcoin_like) 1) with 125.
    by rewrite !saturating_mul_small by lia.
  - unfold slew_limit. by destruct (Z.ltb_spec 0 q); [lia|].
Qed.

Lemma quick_check_eq {E} ts minted height reward prev :
  0 < ts - GENESIS_TIME_MS < 126000000000 -> 0 <= default 0 prev < 2 ^ 90 ->
  quick_check (ts - GENESIS_TIME_MS) minted height reward prev = true ->
  check_reward (E:=E) bitcoin_like GENESIS_TIME_MS ts minted height reward prev = Ok 0.
Proof.
  intros Ht Hprev Hq. unfold quick_check in Hq. rewrite !andb_true_iff in Hq.
  destruct Hq as [[[Hs Hr] Hp] Hb]. destruct (first_epoch (ts - GENESIS_TIME_MS) Ht) as [Hsch He].
  unfold check_reward. rewrite Hsch. cbn zeta.
  assert ((if 64 <=? (ts - GENESIS_TIME_MS) / (seconds_per_halving bitcoin_like * 1000) then 0
     else Z.shiftr (initial_reward_sat bitcoin_like)
            ((ts - GENESIS_TIME_MS) / (seconds_per_halving bitcoin_like * 1000))) = 5000000000) as ->.
  { exact He. }
  assert (saturating_mul 128 5000000000 2 = 10000000000) as -> by reflexivity.
  assert (0 <= (ts - GENESIS_TIME_MS) / 600000 < 2 ^ 90) as Hd.
  { split; [apply Z.div_pos; lia|]. apply Z.div_lt_upper_bound; lia. }
  rewrite saturating_add_small by lia. rewrite Hs, Hr. cbn [assert_that mbind outcome_bind].
  assert (match prev with
    | Some q => if 0 <? q then assert_that (E:=E) (Z.abs (reward - q) <=? saturating_mul 128 q 25 / 100 + 1) else Ok tt
    | None => Ok tt end = Ok tt) as ->.
  { destruct prev as [q|]; [|done]. cbn [default] in Hprev. unfold Datatypes.id in Hprev.
    destruct (0 <? q); [|done]. rewrite saturating_mul_small by lia. by rewrite Hp. }
  cbn [mbind outcome_bind]. f_equal. change (em_bootstrap_height bitcoin_like) with 2016.
  assert (saturating_mul 128 5000000000 (bootstrap_reward_pct bitcoin_like) / 100 = 2500000000) as -> by reflexivity.
  destruct (Z.ltb_spec height 2016); [|done]. apply orb_true_iff in Hb as [Hb|Hb]; apply Z.leb_le in Hb; [lia|].
  destruct (Z.ltb_spec 2500000000 reward); [lia|done].
Qed.

(** The quick run is the trace. *)
Lemma quick_block_ok {E} height tr tr' : quick_block height tr = Some tr' ->
  trace_block (E:=E) bitcoin_like GENESIS_TIME_MS height tr = Ok tr'.
Proof.
  unfold quick_block. destruct (quick_interval (tr_rng tr)) as [interval rng] eqn:Eq.
  destruct (_ && _) eqn:Eg; [|done]. intros [= <-]. rewrite !andb_true_iff in Eg.
  destruct Eg as [[[[[[[Hv Hp] Ht] Hm] Hm2] Hq] Hq2] Hc]. apply Z.eqb_eq in Hv. apply Z.leb_le in Hp, Hm, Hq.
  apply Z.ltb_lt in Ht, Hm2, Hq2. change 0x40000000000000000000000 with (2 ^ 90) in *.
  destruct (quick_interval_eq (tr_rng tr) Hv) as (Hn & Hi & _). rewrite Eq in Hn, Hi. cbn [fst] in Hi.
  unfold trace_block. rewrite Hn. unfold GENESIS_TIME_MS in *.
  rewrite saturating_add_small by lia. fold GENESIS_TIME_MS in *.
  rewrite quick_reward_eq by (unfold GENESIS_TIME_MS in *; lia). cbn [mbind outcome_bind].
  replace (tr_parent_ts tr + interval - tr_parent_ts tr) with interval by lia.
  rewrite quick_check_eq by (done || unfold GENESIS_TIME_MS in *; lia). cbn [mbind outcome_bind].
  assert (minted_small : tr_minted tr + quick_reward (tr_parent_ts tr + interval - GENESIS_TIME_MS) interval
    (tr_minted tr) height (tr_prev_reward tr) < 2 ^ 128).
  { unfold quick_check in Hc. rewrite !andb_true_iff in Hc. destruct Hc as [[[Hs _] _] _].
    apply Z.leb_le in Hs.
    assert ((tr_parent_ts tr + interval - GENESIS_TIME_MS) / 600000 < 2 ^ 90)
      by (apply Z.div_lt_upper_bound; lia). lia. }
  by rewrite saturating_add_small, Z.add_0_r by done.
Qed.

Lemma quick_blocks_ok {E} n : forall height tr tr', quick_blocks height n tr = Some tr' ->
  trace_blocks (E:=E) bitcoin_like GENESIS_TIME_MS height n tr = Ok tr'.
Proof.
  induction n as [|n IH]; intros height tr tr' Hq; [by injection Hq as <-|].
  cbn [quick_blocks] in Hq. apply bind_Some in Hq as (tr1 & H1 & Hq).
  cbn [trace_blocks]. rewrite (quick_block_ok _ _ _ H1). cbn [mbind outcome_bind]. by apply IH.
Qed.

(** What the quick run keeps of the trace after [n] blocks. *)
Definition quick_samples (n : nat) : option (list (Z * Z) * bool) :=
  (fun tr => (tr_samples tr, end_ok bitcoin_like GENESIS_TIME_MS tr)) <$>
    quick_blocks 1 n (trace_start SEED bitcoin_like GENESIS_TIME_MS).

Lemma quick_samples_ok {E} n samples : quick_samples n = Some (samples, true) ->
  emission_backtest (E:=E) bitcoin_like GENESIS_TIME_MS SEED n = Ok samples.
Proof.
  intros Hs. apply fmap_Some in Hs as (tr & Hq & Hr). unfold emission_backtest.
  rewrite (quick_blocks_ok _ _ _ _ Hq). cbn [mbind outcome_bind].
  apply pair_equal_spec in Hr as [-> He]. by rewrite <- He.
Qed.

Lemma quick_samples_10000 :
  quick_samples 10000 = Some ([(1000, 2500000000000); (10000, 34124876248497)], true).
Proof. vm_compute. reflexivity. Qed.

(** The pinned trace.  The repository's backtest over its first 10000 blocks, with its seed,
    passes all of its assertions: supply within two rewards of the schedule, reward within twice
    the nominal one, jumps within the slew limit, no bootstrap cap exceeded, the total between
    half of the schedule and one reward above it; and the supply at heights 1000 and 10000 is
    the one the repository records, to the satoshi. *)
Lemma backtest_samples {E} :
  emission_backtest (E:=E) bitcoin_like GENESIS_TIME_MS SEED 10000 =
  Ok [(1000, 2500000000000); (10000, 34124876248497)].
Proof. exact (quick_samples_ok _ _ quick_samples_10000). Qed.
