(* ===== verification/Accordion.v ===== *)
(** * Accordion: the adaptive emission controller (crates/consensus/src/accordion.rs)

    The Q64.64 numbers of the [fixed] crate are their 128 bits, read as an integer: the
    number [x] stands for [x / 2^64].  The crate is the parameter [Fixed] with its rounding
    law: a product or a quotient that fits is off by less than one unit in the last place.
    A division by zero panics.  Nothing in the node calls this module. *)

From S2P Require Export Prelude.

Local Open Scope Z_scope.

(** The operations of [I64F64]; additions wrap as in the release build. *)
Class Fixed := {
  fx_from_int : Z -> Z;
  fx_from_f64 : Z -> Z -> Z;
  fx_mul : Z -> Z -> Z;
  fx_div : Z -> Z -> option Z;
}.

Definition fx_unit : Z := 2 ^ 64.
Definition fx_add (a b : Z) : Z := i128_wrap (a + b).
Definition fx_sub (a b : Z) : Z := i128_wrap (a - b).
Definition fx_neg (a : Z) : Z := i128_wrap (- a).

(** Integers convert exactly, the decimal literal [m / 10^e] to within 2^-52 of its value and
    one unit in the last place,
    and exactly when a double holds it; products and quotients are rounded to a neighbour. *)
Class FixedLaws `{Fixed} := {
  fx_from_int_exact n : Z.abs n < 2 ^ 63 -> fx_from_int n = n * fx_unit;
  fx_from_f64_near m e : 0 <= m < 10 ^ e ->
    Z.abs (fx_from_f64 m e * 10 ^ e - m * fx_unit) <= m * 2 ^ 12 + 10 ^ e;
  fx_from_f64_exact m e j i : 0 <= e -> 0 <= j < 2 ^ 53 -> 0 <= i -> j * 2 ^ i <= i128_max ->
    m * fx_unit = j * 2 ^ i * 10 ^ e -> fx_from_f64 m e = j * 2 ^ i;
  fx_mul_near a b : Z.abs (a * b) < i128_max * fx_unit ->
    Z.abs (fx_mul a b * fx_unit - a * b) < fx_unit;
  fx_div_near a b : b <> 0 -> Z.abs a * fx_unit < Z.abs b * i128_max ->
    exists q, fx_div a b = Some q /\ Z.abs (q * b - a * fx_unit) < Z.abs b;
}.

Record AccordionParams := { ap_epsilon : Z; ap_beta_h : Z; ap_beta_a : Z; ap_beta_s : Z }.

Inductive Regime := Equilibrium | Growth | Contraction.

Record AccordionOutcome := {
  ao_regime : Regime; ao_alpha_h : Z; ao_per_block_advance : Z;
}.

Section accordion.
Context `{Fixed}.

(** [AccordionParams::defaults] *)
Definition accordion_defaults : AccordionParams :=
  {| ap_epsilon := fx_from_f64 5 2; ap_beta_h := fx_from_f64 5 1;
     ap_beta_a := fx_from_f64 5 1; ap_beta_s := fx_from_int 0 |}.

(** The body of the loop of [ln_fixed], [k] times from [n] on. *)
Fixpoint ln_loop (k : nat) (n y2 term sum : Z) : option Z :=
  match k with
  | O => Some sum
  | S k =>
      let term := fx_mul term y2 in
      q ← fx_div term (fx_from_int (2 * n + 1));
      ln_loop k (n + 1) y2 term (fx_add sum q)
  end.

Definition ln_fixed (x : Z) : option Z :=
  let one := fx_from_int 1 in
  if x <=? fx_from_int 0 then Some (fx_from_int 0)
  else
    y ← fx_div (fx_sub x one) (fx_add x one);
    sum ← ln_loop 15 1 (fx_mul y y) y y;
    Some (fx_mul sum (fx_from_int 2)).

Definition fx_abs (v : Z) : Z := if v <? fx_from_int 0 then fx_neg v else v.
Definition max_zero (v : Z) : Z := if v <? fx_from_int 0 then fx_from_int 0 else v.

(** The regime of the two logarithms. *)
Definition regime_of (params : AccordionParams) (lh la : Z) : Regime :=
  if (fx_abs lh <=? ap_epsilon params) && (fx_abs la <=? ap_epsilon params) then Equilibrium
  else if (fx_from_int 0 <=? lh) && (fx_from_int 0 <=? la) then Growth
  else Contraction.

(** The three arms of [per_block_advance]. *)
Definition advance (params : AccordionParams) (lh la bias : Z) (regime : Regime) : option Z :=
  let one := fx_from_int 1 in
  match regime with
  | Equilibrium => Some one
  | Growth =>
      let raw := fx_add (fx_add (fx_add one (fx_mul (ap_beta_h params) (max_zero lh)))
                   (fx_mul (ap_beta_a params) (max_zero la)))
                   (fx_mul (ap_beta_s params) bias) in
      Some (if raw <? one then one else raw)
  | Contraction =>
      let denom := fx_add (fx_add (fx_add one (fx_mul (ap_beta_h params) (max_zero (fx_neg lh))))
                     (fx_mul (ap_beta_a params) (max_zero (fx_neg la))))
                     (fx_mul (ap_beta_s params) (max_zero (fx_neg bias))) in
      fx_div one denom
  end.

Definition evaluate (params : AccordionParams) (r_h r_a stability_bias : Z)
    : option AccordionOutcome :=
  let one := fx_from_int 1 in
  lh ← ln_fixed r_h;
  la ← ln_fixed r_a;
  let regime := regime_of params lh la in
  alpha_h ← fx_div one (fx_add one (fx_abs lh));
  per_block_advance ← advance params lh la (fx_from_int stability_bias) regime;
  Some {| ao_regime := regime; ao_alpha_h := alpha_h; ao_per_block_advance := per_block_advance |}.
End accordion.

(** ** Rounding *)

Section properties.
Context `{FixedLaws}.

Lemma near_bounds r d lo hi x : 0 < d -> Z.abs (r * d - x) < d ->
  lo * d <= x <= hi * d -> lo <= r <= hi.
Proof. intros Hd Hr Hx. split; nia. Qed.

Lemma fx_mul_bounds a b lo hi : - i128_max < lo -> hi < i128_max ->
  lo * fx_unit <= a * b <= hi * fx_unit -> lo <= fx_mul a b <= hi.
Proof.
  intros Hl Hh Hab. apply (near_bounds _ fx_unit _ _ (a * b)); [done| |done].
  apply fx_mul_near. unfold fx_unit in *. lia.
Qed.

Lemma fx_div_bounds a b lo hi : 0 < b -> - i128_max < lo -> hi < i128_max ->
  lo * b <= a * fx_unit <= hi * b -> exists q, fx_div a b = Some q /\ lo <= q <= hi.
Proof.
  intros Hb Hl Hh Hab. destruct (fx_div_near a b) as (q & Hq & Hn).
  - lia.
  - unfold fx_unit in *. nia.
  - exists q. split; [done|]. rewrite (Z.abs_eq b) in Hn by lia.
    by apply (near_bounds _ b _ _ (a * fx_unit)).
Qed.

(** The same for values of either sign, [s] being 1 or -1. *)
Lemma fx_mul_signed s a b hi : s = 1 \/ s = -1 -> 0 <= hi < i128_max ->
  0 <= s * (a * b) <= hi * fx_unit -> 0 <= s * fx_mul a b <= hi.
Proof.
  intros Hs Hh Hab. unfold i128_max in *.
  destruct Hs as [-> | ->].
  - pose proof (fx_mul_bounds a b 0 hi). unfold i128_max in *. lia.
  - pose proof (fx_mul_bounds a b (- hi) 0). unfold i128_max in *. lia.
Qed.

Lemma fx_div_signed s a b hi : s = 1 \/ s = -1 -> 0 < b -> 0 <= hi < i128_max ->
  0 <= s * (a * fx_unit) <= hi * b -> exists q, fx_div a b = Some q /\ 0 <= s * q <= hi.
Proof.
  intros Hs Hb Hh Hab. unfold i128_max in *.
  destruct Hs as [-> | ->].
  - destruct (fx_div_bounds a b 0 hi) as (q & Hq & Hr); unfold i128_max; [lia..|].
    exists q. split; [done|lia].
  - destruct (fx_div_bounds a b (- hi) 0) as (q & Hq & Hr); unfold i128_max; [lia..|].
    exists q. split; [done|lia].
Qed.

(** ** The logarithm *)

(** Bounds of [(r-1)/(r+1)] and of its square for [r] between 1/4 and 4. *)
Definition y_max : Z := 3 * fx_unit / 5 + 1.
Definition y2_max : Z := y_max * y_max / fx_unit + 1.

(** How large the sum can grow: the terms shrink by [y2_max / fx_unit] in every round. *)
Fixpoint ln_bound (k : nat) (n t s : Z) : Z :=
  match k with
  | O => s
  | S k =>
      let t := t * y2_max / fx_unit + 1 in
      ln_bound k (n + 1) t (s + t / (2 * n + 1) + 1)
  end.

Lemma ln_loop_bounds sg k n y2 term sum t s : sg = 1 \/ sg = -1 -> 0 <= y2 <= y2_max ->
  1 <= n -> n + Z.of_nat k <= 2 ^ 20 -> 0 <= sg * term <= t -> t <= fx_unit ->
  0 <= sg * sum <= s -> s <= 2 ^ 90 - Z.of_nat k * (fx_unit + 1) ->
  exists r, ln_loop k n y2 term sum = Some r /\ 0 <= sg * r <= ln_bound k n t s.
Proof.
  intros Hsg Hy2. revert n term sum t s.
  induction k as [|k IH]; intros n term sum t s Hn Hk Ht Htu Hs Hsu; [by exists sum|].
  cbn [ln_loop ln_bound]. set (t' := t * y2_max / fx_unit + 1).
  assert (0 <= t' <= fx_unit /\ t * y2_max <= t' * fx_unit) as [Ht' Htt].
  { pose proof (Z.div_mod (t * y2_max) fx_unit ltac:(done)).
    pose proof (Z.mod_pos_bound (t * y2_max) fx_unit ltac:(done)).
    change y2_max with 6640827866535438583 in *. unfold fx_unit in *. nia. }
  assert (0 <= sg * fx_mul term y2 <= t') as Hterm.
  { apply fx_mul_signed; [done|unfold i128_max, fx_unit in *; lia|]. nia. }
  rewrite fx_from_int_exact by lia.
  set (m := 2 * n + 1). pose proof (Z.div_mod t' m ltac:(lia)).
  pose proof (Z.mod_pos_bound t' m ltac:(lia)).
  assert (0 <= t' / m <= t') by (subst m; split; [apply Z.div_pos|apply Z.div_le_upper_bound]; nia).
  destruct (fx_div_signed sg (fx_mul term y2) (m * fx_unit) (t' / m + 1)) as (q & Hq & Hqb).
  - done.
  - unfold fx_unit. lia.
  - unfold i128_max, fx_unit in *. lia.
  - unfold fx_unit in *. nia.
  - rewrite Hq. cbn [mbind option_bind]. apply IH; [lia|lia|done|lia| |lia].
    unfold fx_add. rewrite i128_wrap_id; [lia|].
    unfold i128_min, i128_max, fx_unit in *. nia.
Qed.

Lemma ln_fixed_signed sg x : sg = 1 \/ sg = -1 -> 0 <= sg * (x - fx_unit) ->
  fx_unit <= 4 * x -> x <= 4 * fx_unit ->
  exists l, ln_fixed x = Some l /\ 0 <= sg * l <= 3 * 2 ^ 63.
Proof.
  intros Hsg Hx Hlo Hhi. unfold ln_fixed. rewrite !fx_from_int_exact by done.
  rewrite (proj2 (Z.leb_gt x (0 * fx_unit))) by (unfold fx_unit in *; lia).
  unfold fx_add, fx_sub.
  rewrite !i128_wrap_id by (unfold i128_min, i128_max, fx_unit in *; lia).
  destruct (fx_div_signed sg (x - 1 * fx_unit) (x + 1 * fx_unit) y_max) as (y & Hy & Hyb);
    [done|unfold fx_unit in *; lia|done| |].
  { change y_max with 11068046444225730970. unfold fx_unit in *. nia. }
  rewrite Hy. cbn [mbind option_bind].
  assert (0 <= fx_mul y y <= y2_max) as Hy2.
  { pose proof (fx_mul_signed 1 y y y2_max). change y2_max with 6640827866535438583 in *.
    change y_max with 11068046444225730970 in *. unfold i128_max, fx_unit in *. nia. }
  destruct (ln_loop_bounds sg 15 1 (fx_mul y y) y y y_max y_max) as (r & Hr & Hrb);
    [done|done|lia|done|done|done|done|done|].
  rewrite Hr. cbn [mbind option_bind].
  eexists. split; [reflexivity|].
  assert (2 * ln_bound 15 1 y_max y_max <= 3 * 2 ^ 63) by (by vm_compute).
  apply fx_mul_signed; [done|done|]. unfold fx_unit in *. nia.
Qed.

Lemma ln_fixed_bounds x : fx_unit <= 4 * x -> x <= 4 * fx_unit ->
  exists l, ln_fixed x = Some l /\ Z.abs l <= 3 * 2 ^ 63 /\
    (fx_unit <= x -> 0 <= l) /\ (x <= fx_unit -> l <= 0).
Proof.
  intros Hlo Hhi.
  assert (fx_unit <= x \/ x <= fx_unit) as [Hx|Hx] by lia.
  - destruct (ln_fixed_signed 1 x) as (l & Hl & Hb); [lia..|].
    exists l. split_and!; [done|lia|lia|]. intros Hx'.
    destruct (ln_fixed_signed (-1) x) as (l' & Hl' & Hb'); [lia..|]. simplify_eq. lia.
  - destruct (ln_fixed_signed (-1) x) as (l & Hl & Hb); [lia..|].
    exists l. split_and!; [done|lia| |lia]. intros Hx'.
    destruct (ln_fixed_signed 1 x) as (l' & Hl' & Hb'); [lia..|]. simplify_eq. lia.
Qed.

Definition params_ok (p : AccordionParams) : Prop :=
  0 <= ap_epsilon p /\ 0 <= ap_beta_h p <= 2 ^ 16 * fx_unit /\
  0 <= ap_beta_a p <= 2 ^ 16 * fx_unit /\ 0 <= ap_beta_s p <= 2 ^ 16 * fx_unit.

Lemma fx_from_int_0 : fx_from_int 0 = 0.
Proof. by rewrite fx_from_int_exact. Qed.
Lemma fx_from_int_1 : fx_from_int 1 = fx_unit.
Proof. rewrite fx_from_int_exact by done. lia. Qed.

Lemma fx_neg_id v : Z.abs v < 2 ^ 127 -> fx_neg v = - v.
Proof. intros Hv. unfold fx_neg. apply i128_wrap_id. unfold i128_min, i128_max. lia. Qed.

Lemma fx_add_small a b : - 2 ^ 126 <= a < 2 ^ 126 -> - 2 ^ 126 <= b < 2 ^ 126 ->
  fx_add a b = a + b.
Proof. intros Ha Hb. unfold fx_add. apply i128_wrap_id. unfold i128_min, i128_max. lia. Qed.

Lemma fx_abs_id v : Z.abs v < 2 ^ 127 -> fx_abs v = Z.abs v.
Proof.
  intros Hv. unfold fx_abs. rewrite fx_from_int_0, fx_neg_id by done.
  destruct (Z.ltb_spec v 0); lia.
Qed.

Lemma max_zero_id v : max_zero v = Z.max 0 v.
Proof. unfold max_zero. rewrite fx_from_int_0. destruct (Z.ltb_spec v 0); lia. Qed.

(** One weighted contribution. *)
Lemma contribution beta v m : 0 <= beta <= 2 ^ 16 * fx_unit -> 0 <= m <= 2 ^ 10 ->
  0 <= v <= m * fx_unit -> 0 <= fx_mul beta v <= 2 ^ 16 * m * fx_unit.
Proof.
  intros Hbeta Hm Hv. pose proof (fx_mul_signed 1 beta v (2 ^ 16 * m * fx_unit)) as Hf.
  unfold i128_max, fx_unit in *. nia.
Qed.

Lemma advance_bounds p lh la bias regime : params_ok p -> -128 <= bias < 128 ->
  Z.abs lh <= 3 * 2 ^ 63 -> Z.abs la <= 3 * 2 ^ 63 ->
  exists adv, advance p lh la (fx_from_int bias) regime = Some adv /\
    match regime with
    | Equilibrium => adv = fx_unit
    | Growth => fx_unit <= adv <= 2 ^ 25 * fx_unit
    | Contraction => 0 < adv <= fx_unit
    end.
Proof.
  intros (He & Hbh & Hba & Hbs) Hb Hlh Hla. unfold advance.
  rewrite fx_from_int_1, (fx_from_int_exact bias) by lia.
  destruct regime; [by eexists| |].
  - eexists. split; [reflexivity|]. rewrite !max_zero_id.
    assert (0 <= fx_mul (ap_beta_h p) (Z.max 0 lh) <= 2 ^ 16 * 2 * fx_unit) by
      (apply contribution; unfold fx_unit in *; lia).
    assert (0 <= fx_mul (ap_beta_a p) (Z.max 0 la) <= 2 ^ 16 * 2 * fx_unit) by
      (apply contribution; unfold fx_unit in *; lia).
    assert (- (2 ^ 23 * fx_unit) <= fx_mul (ap_beta_s p) (bias * fx_unit) <= 2 ^ 23 * fx_unit).
    { assert (- (2 ^ 23 * fx_unit) <= ap_beta_s p * bias <= 2 ^ 23 * fx_unit) by
        (split; nia).
      apply fx_mul_bounds; unfold i128_max, fx_unit in *; lia. }
    rewrite (fx_add_small fx_unit) by (unfold fx_unit in *; lia).
    rewrite (fx_add_small (fx_unit + _)) by (unfold fx_unit in *; lia).
    rewrite (fx_add_small (_ + _ + _)) by (unfold fx_unit in *; lia).
    case_match; unfold fx_unit in *; lia.
  - rewrite !fx_neg_id by (unfold fx_unit in *; lia). rewrite !max_zero_id.
    assert (0 <= fx_mul (ap_beta_h p) (Z.max 0 (- lh)) <= 2 ^ 16 * 2 * fx_unit) by
      (apply contribution; unfold fx_unit in *; lia).
    assert (0 <= fx_mul (ap_beta_a p) (Z.max 0 (- la)) <= 2 ^ 16 * 2 * fx_unit) by
      (apply contribution; unfold fx_unit in *; lia).
    assert (0 <= fx_mul (ap_beta_s p) (Z.max 0 (- (bias * fx_unit))) <= 2 ^ 16 * 128 * fx_unit) by
      (apply contribution; unfold fx_unit in *; lia).
    rewrite (fx_add_small fx_unit) by (unfold fx_unit in *; lia).
    rewrite (fx_add_small (fx_unit + _)) by (unfold fx_unit in *; lia).
    rewrite (fx_add_small (_ + _ + _)) by (unfold fx_unit in *; lia).
    edestruct (fx_div_bounds fx_unit) as (q & Hq & Hr); [..|exists q; split; [exact Hq|]].
    5: { instantiate (1 := fx_unit) in Hr. instantiate (1 := 2 ^ 32) in Hr. lia. }
    all: unfold i128_max, fx_unit in *; lia.
Qed.

Lemma defaults_ok : params_ok accordion_defaults.
Proof.
  pose proof (fx_from_f64_near 5 2 ltac:(lia)). pose proof (fx_from_f64_near 5 1 ltac:(lia)).
  unfold params_ok, accordion_defaults; cbn -[Z.pow]. rewrite fx_from_int_0.
  unfold fx_unit in *. lia.
Qed.

(** [evaluate] on clamped ratios: the two logarithms, the dampening and the advance. *)
Lemma evaluate_parts p r_h r_a bias : params_ok p -> -128 <= bias < 128 ->
  fx_unit <= 4 * r_h -> r_h <= 4 * fx_unit -> fx_unit <= 4 * r_a -> r_a <= 4 * fx_unit ->
  exists lh la alpha adv,
    evaluate p r_h r_a bias = Some {| ao_regime := regime_of p lh la; ao_alpha_h := alpha;
                                      ao_per_block_advance := adv |} /\
    2 ^ 62 <= alpha <= fx_unit /\ Z.abs lh <= 3 * 2 ^ 63 /\ Z.abs la <= 3 * 2 ^ 63 /\
    (fx_unit <= r_h -> 0 <= lh) /\ (r_h <= fx_unit -> lh <= 0) /\
    (fx_unit <= r_a -> 0 <= la) /\ (r_a <= fx_unit -> la <= 0) /\
    match regime_of p lh la with
    | Equilibrium => adv = fx_unit
    | Growth => fx_unit <= adv <= 2 ^ 25 * fx_unit
    | Contraction => 0 < adv <= fx_unit
    end.
Proof.
  intros Hp Hb Hh1 Hh2 Ha1 Ha2. unfold evaluate.
  destruct (ln_fixed_bounds r_h) as (lh & -> & Hlh & Hh3 & Hh4); [done..|].
  destruct (ln_fixed_bounds r_a) as (la & -> & Hla & Ha3 & Ha4); [done..|].
  cbn [mbind option_bind]. rewrite fx_from_int_1, fx_abs_id by (unfold fx_unit in *; lia).
  destruct (fx_div_bounds fx_unit (fx_add fx_unit (Z.abs lh)) (2 ^ 62) fx_unit)
    as (alpha & -> & Halpha).
  1-4: rewrite ?fx_add_small by (unfold fx_unit in *; lia); unfold i128_max, fx_unit in *; lia.
  destruct (advance_bounds p lh la bias (regime_of p lh la)) as (adv & -> & Hadv); [done..|].
  cbn [mbind option_bind]. exists lh, la, alpha, adv.
  destruct Halpha. split_and!; solve [reflexivity|assumption].
Qed.

(** C40: The controller stays in its band.  For ratios between 1/4 and 4, the clamp of the
    retarget, any bias and sensible parameters, [evaluate] does not panic: the dampening
    factor is between 1/4 and 1, an equilibrium advances at the base speed, growth never
    slower, contraction never faster and never at zero or below; two ratios of at least 1
    are never a contraction and two of at most 1 never growth. *)
Theorem accordion_bounds p r_h r_a bias : params_ok p -> -128 <= bias < 128 ->
  fx_unit <= 4 * r_h -> r_h <= 4 * fx_unit -> fx_unit <= 4 * r_a -> r_a <= 4 * fx_unit ->
  exists out, evaluate p r_h r_a bias = Some out /\
    fx_unit <= 4 * ao_alpha_h out /\ ao_alpha_h out <= fx_unit /\
    match ao_regime out with
    | Equilibrium => ao_per_block_advance out = fx_unit
    | Growth => fx_unit <= ao_per_block_advance out <= 2 ^ 25 * fx_unit
    | Contraction => 0 < ao_per_block_advance out <= fx_unit
    end /\
    (fx_unit <= r_h -> fx_unit <= r_a -> ao_regime out <> Contraction) /\
    (r_h <= fx_unit -> r_a <= fx_unit -> ao_regime out <> Growth).
Proof.
  intros Hp Hb Hh1 Hh2 Ha1 Ha2.
  destruct (evaluate_parts p r_h r_a bias) as (lh & la & alpha & adv & -> & Halpha & Hlh & Hla & H1' & H2' &
    H3' & H4' & Hadv); [done..|].
  eexists. split; [reflexivity|]. cbn. split_and!; [unfold fx_unit in *; lia|lia|done|..].
  all: intros Hh Ha; unfold regime_of; rewrite !fx_abs_id by (unfold fx_unit in *; lia);
    rewrite fx_from_int_0; repeat case_match; try done; destruct Hp; lia.
Qed.
End properties.

(** ** The arithmetic of bits *)

(** Products round down and quotients towards zero. *)
Module FixedBits.
#[export] Instance ops : Fixed := {
  fx_from_int n := i128_wrap (n * 2 ^ 64);
  fx_from_f64 m e := m * 2 ^ 64 / 10 ^ e;
  fx_mul a b := i128_wrap (a * b / 2 ^ 64);
  fx_div a b := if b =? 0 then None else Some (i128_wrap (Z.quot (a * 2 ^ 64) b));
}.

#[export] Instance laws : FixedLaws.
Proof.
  split; cbn -[Z.pow Z.div Z.quot i128_wrap]; unfold fx_unit.
  - intros n Hn. apply i128_wrap_id. unfold i128_min, i128_max. lia.
  - intros m e Hm. assert (0 < 10 ^ e) as He by lia.
    pose proof (Z.div_mod (m * 2 ^ 64) (10 ^ e) ltac:(lia)).
    pose proof (Z.mod_pos_bound (m * 2 ^ 64) (10 ^ e) He). lia.
  - intros m e j i He Hj Hi Hmax Heq. rewrite Heq. apply Z.div_mul. lia.
  - intros a b Hab. pose proof (Z.div_mod (a * b) (2 ^ 64) ltac:(lia)).
    pose proof (Z.mod_pos_bound (a * b) (2 ^ 64) ltac:(lia)).
    rewrite i128_wrap_id; [lia|]. unfold i128_min, i128_max in *. lia.
  - intros a b Hb Hab. rewrite (proj2 (Z.eqb_neq b 0)) by done. eexists. split; [reflexivity|].
    pose proof (Z.quot_rem (a * 2 ^ 64) b Hb). pose proof (Z.rem_bound_abs (a * 2 ^ 64) b Hb).
    rewrite i128_wrap_id; [lia|]. unfold i128_min, i128_max in *. nia.
Qed.
End FixedBits.

Section instances.
#[local] Existing Instance FixedBits.ops.
#[local] Existing Instance FixedBits.laws.

(** Growth on both bellows at the default parameters. *)
Lemma accordion_bounds_witness :
  params_ok accordion_defaults /\
  (exists out, evaluate accordion_defaults (2 * fx_unit) (2 * fx_unit) 0 = Some out /\
     ao_regime out = Growth /\ fx_unit <= ao_per_block_advance out <= 2 ^ 25 * fx_unit).
Proof.
  split; [exact defaults_ok|].
  destruct (accordion_bounds accordion_defaults (2 * fx_unit) (2 * fx_unit) 0) as
    (out & He & _ & _ & Ha & _); [exact defaults_ok|lia|unfold fx_unit; lia..|].
  exists out. split; [exact He|].
  assert (ao_regime out = Growth) as Hg.
  { assert (ao_regime <$> evaluate accordion_defaults (2 * fx_unit) (2 * fx_unit) 0 = Some Growth)
      as E by (vm_compute; reflexivity).
    rewrite He in E. cbn in E. by apply (inj Some) in E. }
  split; [exact Hg|]. by rewrite Hg in Ha.
Defined.
End instances.
