(* ===== verification/SupplyCap.v ===== *)
(** * SupplyCap: the fuzz tests of the controller
    (crates/consensus/tests/supply_cap.rs)

    The repository drives [evaluate] with a seeded generator and asserts that the advance is
    never negative and that its sum does not overflow.  Both loops, and the proof that they
    pass with every seed and for any number of rounds, not only the pinned ones. *)

From S2P Require Export Accordion Emission.

Local Open Scope Z_scope.

(** [Lcg]: the state after a step is its output. *)
Definition lcg_step (s : Z) : Z :=
  wrapping_add 64 (wrapping_mul 64 s 6364136223846793005) 1442695040888963407.

Section fuzz.
Context `{FixedLaws}.

(** A ratio in [[1/4, 4]], the clamp of the retarget, and the next state. *)
Definition ratio_in_clamp (s : Z) : Z * Z :=
  let s := lcg_step s in
  let frac32 := Z.shiftr s 32 in
  let frac_q := Z.shiftl frac32 32 in
  (fx_add (fx_from_f64 25 2) (fx_mul (fx_from_f64 375 2) frac_q), s).

Definition lcg_bias (s : Z) : Z * Z :=
  let s := lcg_step s in
  (if s mod 3 =? 0 then -1 else if s mod 3 =? 1 then 0 else 1, s).

(** The advance of one round; a panic of [evaluate] or a negative advance fails the test. *)
Definition fuzz_round {E} (p : AccordionParams) (s : Z) : outcome E (Z * Z) :=
  let '(r_h, s) := ratio_in_clamp s in
  let '(r_a, s) := ratio_in_clamp s in
  let '(bias, s) := lcg_bias s in
  out ← expect (evaluate p r_h r_a bias);
  if 0 <=? ao_per_block_advance out then Ok (ao_per_block_advance out, s) else Panic.

(** [halving_accumulator_does_not_overflow], [n] rounds at most. *)
Fixpoint accumulate {E} (p : AccordionParams) (n : nat) (prog s : Z) : outcome E Z :=
  match n with
  | O => Ok prog
  | S n =>
      '(advance, s) ← fuzz_round p s;
      prog ← expect (checked_add 128 prog advance);
      let int_part := Z.shiftr prog 64 in
      if 64 <=? int_part / 210000 then Ok prog else accumulate p n prog s
  end.

(** [per_block_advance_stays_non_negative], with its stability weight. *)
Definition biased_defaults : AccordionParams :=
  {| ap_epsilon := ap_epsilon accordion_defaults; ap_beta_h := ap_beta_h accordion_defaults;
     ap_beta_a := ap_beta_a accordion_defaults; ap_beta_s := fx_from_f64 5 1 |}.

Fixpoint rounds_pass {E} (p : AccordionParams) (n : nat) (s : Z) : outcome E unit :=
  match n with
  | O => Ok tt
  | S n => '(_, s) ← fuzz_round p s; rounds_pass p n s
  end.

(** ** Every seed *)

Lemma lcg_step_range s : 0 <= lcg_step s < 2 ^ 64.
Proof. apply Z.mod_pos_bound. lia. Qed.

Lemma ratio_in_clamp_range s :
  fx_unit <= 4 * (ratio_in_clamp s).1 /\ (ratio_in_clamp s).1 <= 4 * fx_unit.
Proof.
  unfold ratio_in_clamp. cbn [fst]. pose proof (lcg_step_range s) as Hs. set (x := lcg_step s) in *.
  rewrite Z.shiftr_div_pow2, Z.shiftl_mul_pow2 by lia.
  assert (0 <= x / 2 ^ 32 < 2 ^ 32) as Hf.
  { split; [apply Z.div_pos; lia|]. apply Z.div_lt_upper_bound; lia. }
  set (f := x / 2 ^ 32) in *.
  rewrite (fx_from_f64_exact 25 2 1 62) by (unfold i128_max, fx_unit; lia).
  rewrite (fx_from_f64_exact 375 2 15 62) by (unfold i128_max, fx_unit; lia).
  destruct (fx_mul_bounds (15 * 2 ^ 62) (f * 2 ^ 32) 0 (15 * 2 ^ 62)) as [Hl Hh];
    [unfold i128_max, fx_unit; lia..|].
  rewrite fx_add_small by lia. unfold fx_unit. lia.
Qed.

Lemma fuzz_round_ok {E} p s : params_ok p ->
  exists a, fuzz_round (E:=E) p s = Ok (a, (lcg_bias (ratio_in_clamp (ratio_in_clamp s).2).2).2) /\
    0 <= a <= 2 ^ 25 * fx_unit.
Proof.
  intros Hp. unfold fuzz_round. destruct (ratio_in_clamp_range s) as [Hh1 Hh2].
  destruct (ratio_in_clamp s) as [r_h s1]. cbn [fst snd] in *.
  destruct (ratio_in_clamp_range s1) as [Ha1 Ha2]. destruct (ratio_in_clamp s1) as [r_a s2]. cbn [fst snd] in *.
  assert (-128 <= (lcg_bias s2).1 < 128) as Hb.
  { unfold lcg_bias. cbn [fst]. destruct (_ =? 0); [lia|]. destruct (_ =? 1); lia. }
  destruct (lcg_bias s2) as [bias s3]. cbn [fst snd] in *.
  destruct (evaluate_parts p r_h r_a bias) as (lh & la & alpha & adv & -> & _ & _ & _ & _ & _ & _ & _ & Hadv);
    [done..|].
  assert (0 < adv <= 2 ^ 25 * fx_unit) by (destruct (regime_of p lh la); unfold fx_unit in *; lia).
  cbn [expect mbind outcome_bind ao_per_block_advance].
  rewrite (proj2 (Z.leb_le 0 adv)) by lia. exists adv. split; [done|lia].
Qed.

(** The fuzz tests pass with every seed: no round panics or advances backwards, and the sum of
    the advances does not overflow 128 bits before the loop stops at the 64th halving. *)
Lemma fuzz_tests_pass {E} n s :
  rounds_pass (E:=E) biased_defaults n s = Ok tt /\
  exists prog, accumulate (E:=E) accordion_defaults n 0 s = Ok prog /\ 0 <= prog < 2 ^ 113.
Proof.
  split.
  - assert (params_ok biased_defaults) as Hp.
    { destruct defaults_ok as (He & Hh & Ha & _).
      unfold params_ok, biased_defaults. cbn [ap_epsilon ap_beta_h ap_beta_a ap_beta_s].
      rewrite (fx_from_f64_exact 5 1 1 63) by (unfold i128_max, fx_unit; lia).
      unfold fx_unit in *. lia. }
    revert s. induction n as [|n IH]; intros s; [done|]. cbn [rounds_pass].
    destruct (fuzz_round_ok (E:=E) biased_defaults s Hp) as (a & -> & _). apply IH.
  - assert (forall prog, 0 <= prog < 64 * 210000 * fx_unit -> exists prog',
      accumulate (E:=E) accordion_defaults n prog s = Ok prog' /\ 0 <= prog' < 2 ^ 113) as Hacc;
      [|apply Hacc; unfold fx_unit; lia].
    revert s. induction n as [|n IH]; intros s prog Hprog.
    { exists prog. split; [done|]. unfold fx_unit in *. lia. }
    cbn [accumulate]. destruct (fuzz_round_ok (E:=E) accordion_defaults s defaults_ok) as (a & -> & Ha).
    cbn [mbind outcome_bind]. unfold checked_add, u_max.
    rewrite (proj2 (Z.leb_le _ _)) by (unfold fx_unit in *; lia). cbn [expect mbind outcome_bind].
    destruct (Z.leb_spec 64 (Z.shiftr (prog + a) 64 / 210000)) as [Hd|Hd].
    + exists (prog + a). split; [done|]. unfold fx_unit in *. lia.
    + apply IH. split; [unfold fx_unit in *; lia|]. rewrite Z.shiftr_div_pow2 in Hd by lia.
      destruct (Z.lt_ge_cases (prog + a) (64 * 210000 * fx_unit)) as [|Hge]; [done|]. exfalso.
      assert (64 * 210000 <= (prog + a) / 2 ^ 64) as Hq by (apply Z.div_le_lower_bound; unfold fx_unit in *; lia).
      assert (64 <= (prog + a) / 2 ^ 64 / 210000) by (apply Z.div_le_lower_bound; lia). lia.
Qed.
End fuzz.

(** ** The tests of the schedule *)

Lemma scheduled_supply_capped_at_horizon :
  scheduled_supply_at (1000 * seconds_per_halving bitcoin_like * 1000) bitcoin_like =
  supply_cap_sat bitcoin_like.
Proof. vm_compute. reflexivity. Qed.

Lemma scheduled_supply_at_one_halving_is_half_cap :
  scheduled_supply_at (seconds_per_halving bitcoin_like * 1000) bitcoin_like =
  supply_cap_sat bitcoin_like / 2.
Proof. vm_compute. reflexivity. Qed.

Lemma reward_is_zero_past_64th_halving {E} g t_far :
  g = 1000000000000 -> t_far = 100 * seconds_per_halving bitcoin_like * 1000 ->
  current_reward (E:=E) bitcoin_like g (g + t_far) (g + t_far - 600000) (supply_cap_sat bitcoin_like) = Ok 0.
Proof. intros -> ->. vm_compute. reflexivity. Qed.
