(* ===== verification/Finality.v ===== *)
(** * Finality: votes, certificates and the quorum (crates/finality/src/lib.rs)

    A certificate is a list of individually signed votes, or a bitmap of committee slots with
    one aggregated BLS signature.  The verifiers are the loops of the code; their
    specifications are [cert_valid], which needs no loop, and the quorum intersection between
    two accepted certificates. *)

From S2P Require Export Crypto.
From Stdlib Require Import Strings.Byte.

Local Open Scope Z_scope.

(** ** Data *)

Record ValidatorPubkey := {
  vp_validator_id : bytes;
  vp_sig_algo : Z;
  vp_pubkey : bytes;
}.

Record Committee := {
  co_epoch : Z;
  co_members : list ValidatorPubkey;
  co_epoch_blocks : Z;
  co_quorum : Z;
}.

Record FinalizationVote := {
  fv_committee_epoch : Z;
  fv_round : Z;
  fv_block_height : Z;
  fv_block_hash : bytes;
  fv_validator_id : bytes;
  fv_sig_algo : Z;
  fv_sig : bytes;
}.

Record FinalizationCert := {
  fc_committee_epoch : Z;
  fc_round : Z;
  fc_block_height : Z;
  fc_block_hash : bytes;
  fc_votes : list FinalizationVote;
}.

Record AggregatedFinalizationCert := {
  ac_committee_epoch : Z;
  ac_round : Z;
  ac_block_height : Z;
  ac_block_hash : bytes;
  ac_signer_bitmap : bytes;
  ac_agg_sig_algo : Z;
  ac_agg_sig : bytes;
}.

Inductive FinalityError :=
| FinBadSignature (id : bytes)
| WrongRound (id : bytes) (expected got : Z)
| WrongBlockHash (id : bytes)
| DuplicateVote (id : bytes)
| NotInCommittee (id : bytes)
| BelowQuorum (got need : Z)
| EpochMismatch (cert committee : Z)
| FinAlgoMismatch (algo : Z).

#[export] Instance typed_FinalizationVote : Typed FinalizationVote := fun v =>
  in_ub 64 (fv_committee_epoch v) && in_ub 64 (fv_round v) && in_ub 64 (fv_block_height v) &&
  is_array 32 (fv_block_hash v) && is_array 32 (fv_validator_id v) && in_ub 8 (fv_sig_algo v).

(** ** Operations *)

Definition round_for_height (c : Committee) (height : Z) : option Z :=
  if co_epoch_blocks c =? 0 then None
  else if (0 <? height) && (height mod co_epoch_blocks c =? 0)
  then Some (height / co_epoch_blocks c) else None.

Definition vote_preimage (v : FinalizationVote) : bytes :=
  ascii_bytes "PGfinal" ++ [x00] ++ le_bytes 8 (fv_committee_epoch v) ++
  le_bytes 8 (fv_round v) ++ le_bytes 8 (fv_block_height v) ++ fv_block_hash v ++
  fv_validator_id v.

Definition vote_signing_hash `{HashPrims} (v : FinalizationVote) : bytes :=
  blake3 (vote_preimage v).

Definition agg_preimage (c : AggregatedFinalizationCert) : bytes :=
  ascii_bytes "PGfinalagg" ++ [x00] ++ le_bytes 8 (ac_committee_epoch c) ++
  le_bytes 8 (ac_round c) ++ le_bytes 8 (ac_block_height c) ++ ac_block_hash c.

Definition signing_payload `{HashPrims} (c : AggregatedFinalizationCert) : bytes :=
  blake3 (agg_preimage c).

(** [u8::count_ones] *)
Definition count_ones (b : byte) : nat :=
  length (filter (fun k => Z.testbit (byte_to_Z b) (Z.of_nat k) = true) (seq 0 8)).

Definition signer_count (c : AggregatedFinalizationCert) : Z :=
  foldl (fun acc b => wrapping_add 32 acc (Z.of_nat (count_ones b))) 0 (ac_signer_bitmap c).

Definition is_signer (c : AggregatedFinalizationCert) (index : nat) : bool :=
  match ac_signer_bitmap c !! (index / 8)%nat with
  | Some byte => Z.land (Z.shiftr (byte_to_Z byte) (Z.of_nat (index mod 8))) 1 =? 1
  | None => false
  end.

Definition find_member (c : Committee) (id : bytes) : option ValidatorPubkey :=
  find_elem (fun m => vp_validator_id m = id) (co_members c).

Definition reorg_allowed (finalized_height candidate_height : Z) : bool :=
  finalized_height <=? candidate_height.

Section verifiers.
Context `{HashPrims} `{SigPrims} (ft : Features).

Definition verify_vote (c : Committee) (v : FinalizationVote) : outcome FinalityError unit :=
  if negb (fv_committee_epoch v =? co_epoch c)
  then Err (EpochMismatch (fv_committee_epoch v) (co_epoch c))
  else
    ok_or (NotInCommittee (fv_validator_id v)) (find_member c (fv_validator_id v)) ≫=
    fun member =>
    if negb (vp_sig_algo member =? fv_sig_algo v) then Err (FinAlgoMismatch (fv_sig_algo v))
    else map_err (fun _ => FinBadSignature (fv_validator_id v))
           (verify ft (fv_sig_algo v) (vp_pubkey member) (fv_sig v) (vote_signing_hash v)).

(** The loop over [cert.votes] with its [seen] set. *)
Fixpoint check_votes (c : Committee) (cert : FinalizationCert) (seen : gset bytes)
    (votes : list FinalizationVote) : outcome FinalityError unit :=
  match votes with
  | [] => Ok tt
  | v :: votes =>
      if negb (fv_round v =? fc_round cert)
      then Err (WrongRound (fv_validator_id v) (fc_round cert) (fv_round v))
      else if negb (bool_decide (fv_block_hash v = fc_block_hash cert)) ||
              negb (fv_block_height v =? fc_block_height cert)
      then Err (WrongBlockHash (fv_validator_id v))
      else if bool_decide (fv_validator_id v ∈ seen)
      then Err (DuplicateVote (fv_validator_id v))
      else
        verify_vote c v ≫= fun _ => check_votes c cert ({[fv_validator_id v]} ∪ seen) votes
  end.

Definition verify_cert (c : Committee) (cert : FinalizationCert) : outcome FinalityError unit :=
  if negb (fc_committee_epoch cert =? co_epoch c)
  then Err (EpochMismatch (fc_committee_epoch cert) (co_epoch c))
  else if Z.of_nat (length (fc_votes cert)) <? co_quorum c
  then Err (BelowQuorum (Z.of_nat (length (fc_votes cert)) mod 2 ^ 32) (co_quorum c))
  else check_votes c cert ∅ (fc_votes cert).

(** The loop that collects the keys of the slots set in the bitmap. *)
Fixpoint collect_signers (cert : AggregatedFinalizationCert) (i : nat)
    (members : list ValidatorPubkey) : outcome FinalityError (list bytes) :=
  match members with
  | [] => Ok []
  | m :: members =>
      if negb (is_signer cert i) then collect_signers cert (S i) members
      else if negb (vp_sig_algo m =? 5) then Err (FinAlgoMismatch (vp_sig_algo m))
      else collect_signers cert (S i) members ≫= fun pks => Ok (vp_pubkey m :: pks)
  end.

Definition verify_aggregated_cert (c : Committee) (cert : AggregatedFinalizationCert)
    : outcome FinalityError unit :=
  if negb (ac_committee_epoch cert =? co_epoch c)
  then Err (EpochMismatch (ac_committee_epoch cert) (co_epoch c))
  else if signer_count cert <? co_quorum c
  then Err (BelowQuorum (signer_count cert) (co_quorum c))
  else if negb (ac_agg_sig_algo cert =? 5) then Err (FinAlgoMismatch (ac_agg_sig_algo cert))
  else
    collect_signers cert 0 (co_members c) ≫= fun signer_pks =>
    if bool_decide (signer_pks = []) then Err (BelowQuorum 0 (co_quorum c))
    else
      map_err (fun _ => FinBadSignature (replicate 32 x00)) (aggregate_pubkeys signer_pks) ≫=
      fun agg_pk =>
      map_err (fun _ => FinBadSignature (replicate 32 x00))
        (verify_aggregated agg_pk (ac_agg_sig cert) (signing_payload cert)).
End verifiers.

(** ** Specification of the plain certificate *)

Section spec.
Context `{HashPrims} `{SigPrims} (ft : Features).

(** A vote that counts for a certificate: same round and block, cast by a member of the
    committee, signed under that member's key. *)
Definition vote_valid (c : Committee) (cert : FinalizationCert) (v : FinalizationVote) : Prop :=
  fv_committee_epoch v = co_epoch c /\ fv_round v = fc_round cert /\
  fv_block_height v = fc_block_height cert /\ fv_block_hash v = fc_block_hash cert /\
  exists m, find_member c (fv_validator_id v) = Some m /\ vp_sig_algo m = fv_sig_algo v /\
    verify ft (fv_sig_algo v) (vp_pubkey m) (fv_sig v) (vote_signing_hash v) = Ok tt.

Definition voters (cert : FinalizationCert) : list bytes := fv_validator_id <$> fc_votes cert.

Definition cert_valid (c : Committee) (cert : FinalizationCert) : Prop :=
  fc_committee_epoch cert = co_epoch c /\ co_quorum c <= Z.of_nat (length (fc_votes cert)) /\
  NoDup (voters cert) /\ Forall (vote_valid c cert) (fc_votes cert).

Lemma verify_vote_Ok c v : verify_vote ft c v = Ok tt <->
  fv_committee_epoch v = co_epoch c /\
  exists m, find_member c (fv_validator_id v) = Some m /\ vp_sig_algo m = fv_sig_algo v /\
    verify ft (fv_sig_algo v) (vp_pubkey m) (fv_sig v) (vote_signing_hash v) = Ok tt.
Proof.
  unfold verify_vote. destruct (Z.eqb_spec (fv_committee_epoch v) (co_epoch c)); cbn [negb];
    [|naive_solver].
  rewrite outcome_bind_Ok. setoid_rewrite ok_or_Ok. split.
  - intros (m & Hm & Hv). split; [done|]. exists m. split; [done|].
    destruct (Z.eqb_spec (vp_sig_algo m) (fv_sig_algo v)); [|discriminate].
    by apply map_err_Ok in Hv.
  - intros (_ & m & Hm & Ha & Hv). exists m. split; [done|].
    rewrite Ha, Z.eqb_refl. cbn [negb]. by apply map_err_Ok.
Qed.

Lemma check_votes_Ok c cert seen votes : check_votes ft c cert seen votes = Ok tt <->
  Forall (vote_valid c cert) votes /\ NoDup (fv_validator_id <$> votes) /\
  Forall (fun v => fv_validator_id v ∉ seen) votes.
Proof.
  revert seen; induction votes as [|v votes IH]; intros seen.
  { split; [|done]. intros _. split_and!; constructor. }
  cbn [check_votes]. rewrite fmap_cons, !Forall_cons, NoDup_cons.
  destruct (Z.eqb_spec (fv_round v) (fc_round cert)) as [Hr|Hr]; cbn [negb];
    [|split; [discriminate|unfold vote_valid; naive_solver]].
  destruct (bool_decide_reflect (fv_block_hash v = fc_block_hash cert)) as [Hh|Hh];
    cbn [negb orb]; [|split; [discriminate|unfold vote_valid; naive_solver]].
  destruct (Z.eqb_spec (fv_block_height v) (fc_block_height cert)) as [Hb|Hb]; cbn [negb];
    [|split; [discriminate|unfold vote_valid; naive_solver]].
  destruct (bool_decide_reflect (fv_validator_id v ∈ seen)) as [Hs|Hs];
    [split; [discriminate|naive_solver]|].
  rewrite outcome_bind_Ok. setoid_rewrite IH. unfold vote_valid at 2.
  assert (forall l, Forall (fun w => fv_validator_id w ∉ {[fv_validator_id v]} ∪ seen) l <->
    fv_validator_id v ∉ fv_validator_id <$> l /\ Forall (fun w => fv_validator_id w ∉ seen) l) as Hset.
  { intros l. rewrite !Forall_elem, list_elem_of_fmap. set_solver. }
  split.
  - intros ([] & Hv & Hf & Hd & Hs'). apply Hset in Hs'. apply verify_vote_Ok in Hv. naive_solver.
  - intros (((He & _ & _ & _ & Hm) & Hf) & (Hn & Hd) & (_ & Hs')). exists tt.
    split; [by apply verify_vote_Ok|]. split_and!; [done|done|]. by apply Hset.
Qed.

Lemma verify_cert_valid c cert : verify_cert ft c cert = Ok tt <-> cert_valid c cert.
Proof.
  unfold verify_cert, cert_valid.
  destruct (Z.eqb_spec (fc_committee_epoch cert) (co_epoch c)); cbn [negb];
    [|split; [discriminate|naive_solver]].
  destruct (Z.ltb_spec (Z.of_nat (length (fc_votes cert))) (co_quorum c));
    [split; [discriminate|lia]|].
  rewrite check_votes_Ok. unfold voters. split; [naive_solver|].
  intros (_ & _ & Hn & Hf). split_and!; [done|done|]. apply Forall_elem. set_solver.
Qed.

Definition member_ids (c : Committee) : gset bytes :=
  list_to_set (vp_validator_id <$> co_members c).

Lemma find_member_id c id m : find_member c id = Some m ->
  m ∈ co_members c /\ vp_validator_id m = id.
Proof. intros Hf. by apply find_elem_Some in Hf. Qed.

Lemma voters_members c cert : Forall (vote_valid c cert) (fc_votes cert) ->
  (list_to_set (voters cert) : gset bytes) ⊆ member_ids c.
Proof.
  intros Hf id. unfold voters, member_ids. rewrite !elem_of_list_to_set.
  intros (v & -> & Hv)%list_elem_of_fmap. pose proof (proj1 (Forall_elem _ _) Hf v Hv) as Hok.
  destruct Hok as (_ & _ & _ & _ & m & Hm & _). apply find_member_id in Hm as [Hm Hid].
  apply list_elem_of_fmap. eauto.
Qed.

(** Two accepted certificates share more than [2 * quorum - members] voters. *)
Lemma common_voters c cert1 cert2 : cert_valid c cert1 -> cert_valid c cert2 ->
  let common := list_to_set (voters cert1) ∩ list_to_set (voters cert2) : gset bytes in
  2 * co_quorum c - Z.of_nat (length (co_members c)) <= Z.of_nat (size common).
Proof.
  intros (_ & Q1 & N1 & F1) (_ & Q2 & N2 & F2) common.
  set (A := list_to_set (voters cert1) : gset bytes) in *.
  set (B := list_to_set (voters cert2) : gset bytes) in *.
  assert (size A = length (fc_votes cert1)) as HA.
  { subst A. rewrite size_list_to_set by done. apply length_fmap. }
  assert (size B = length (fc_votes cert2)) as HB.
  { subst B. rewrite size_list_to_set by done. apply length_fmap. }
  assert (A ∪ B ⊆ member_ids c) as Hu.
  { apply union_subseteq. split; by apply voters_members. }
  apply subseteq_size in Hu.
  pose proof (size_list_to_set_le (vp_validator_id <$> co_members c)) as Hm.
  rewrite length_fmap in Hm. unfold member_ids in Hu.
  pose proof (size_union_alt A B) as Hsz.
  assert (size (B ∖ A) = size B - size (B ∩ A))%nat as Hd.
  { pose proof (size_difference_alt B A). lia. }
  assert (size (B ∩ A) <= size B)%nat by (apply subseteq_size; set_solver).
  replace (B ∩ A) with common in * by set_solver. lia.
Qed.

Lemma vote_preimage_inj v1 v2 : typed v1 = true -> typed v2 = true ->
  vote_preimage v1 = vote_preimage v2 ->
  fv_committee_epoch v1 = fv_committee_epoch v2 /\ fv_round v1 = fv_round v2 /\
  fv_block_height v1 = fv_block_height v2 /\ fv_block_hash v1 = fv_block_hash v2 /\
  fv_validator_id v1 = fv_validator_id v2.
Proof.
  intros T1 T2 E. unfold vote_preimage in E. apply app_inv_head, app_inv_head in E.
  unfold typed, typed_FinalizationVote in T1, T2. typed_props.
  apply le_field_inj in E as [-> E]; [|done..]. apply le_field_inj in E as [-> E]; [|done..].
  apply le_field_inj in E as [-> E]; [|done..]. split_app E Hb. done.
Qed.
End spec.

(** ** Specification of the aggregated certificate *)

Section bitmap.

(** [is_signer] on the bytes of a bitmap. *)
Definition bit_set (bs : bytes) (i : nat) : bool :=
  match bs !! (i / 8)%nat with
  | Some b => Z.testbit (byte_to_Z b) (Z.of_nat (i mod 8))
  | None => false
  end.

Definition bits_below (bs : bytes) (n : nat) : list nat :=
  filter (fun i => bit_set bs i = true) (seq 0 n).

Lemma is_signer_bit c i : is_signer c i = bit_set (ac_signer_bitmap c) i.
Proof.
  unfold is_signer, bit_set. destruct (_ !! _) as [b|]; [|done].
  rewrite Z.testbit_odd. change 1 with (Z.ones 1) at 1. rewrite Z.land_ones by lia.
  set (x := Z.shiftr _ _). change (2 ^ 1) with 2. rewrite Zmod_odd. by destruct (Z.odd x).
Qed.

Lemma bit_set_byte b bs i : (i < 8)%nat ->
  bit_set (b :: bs) i = Z.testbit (byte_to_Z b) (Z.of_nat i).
Proof. intros Hi. unfold bit_set. by rewrite Nat.div_small, Nat.mod_small by done. Qed.

Lemma bit_set_tail b bs i : bit_set (b :: bs) (8 + i) = bit_set bs i.
Proof.
  unfold bit_set. replace (8 + i)%nat with (i + 1 * 8)%nat by lia.
  by rewrite Nat.div_add, Nat.Div0.mod_add, Nat.add_1_r by lia.
Qed.

Lemma filter_ext_seq (P Q : nat -> bool) a n : (forall i, (a <= i < a + n)%nat -> P i = Q i) ->
  filter (fun i => P i = true) (seq a n) = filter (fun i => Q i = true) (seq a n).
Proof.
  intros HPQ. apply filter_ext_in. intros i Hi. apply elem_of_seq in Hi.
  by rewrite HPQ by lia.
Qed.

(** Counting the bits of every byte is counting the set positions. *)
Lemma bits_below_bytes bs :
  length (bits_below bs (8 * length bs)) = list_sum (count_ones <$> bs).
Proof.
  induction bs as [|b bs IH]; [done|]. unfold bits_below in *.
  replace (8 * length (b :: bs))%nat with (8 + 8 * length bs)%nat by (cbn; lia).
  rewrite seq_app, filter_app, length_app. rewrite fmap_cons.
  change (list_sum (count_ones b :: (count_ones <$> bs)))
    with (count_ones b + list_sum (count_ones <$> bs))%nat. apply (f_equal2 Nat.add).
  - apply (f_equal length), filter_ext_seq. intros i Hi. apply bit_set_byte. lia.
  - rewrite <- IH. change (0 + 8)%nat with (8 + 0)%nat. rewrite <- fmap_add_seq.
    generalize (seq 0 (8 * length bs)) as l. induction l as [|i l IHl]; [done|].
    rewrite fmap_cons, !filter_cons, bit_set_tail.
    destruct (bit_set bs i); cbn [decide]; repeat case_decide; cbn [length]; first [done|lia].
Qed.

Lemma bits_below_extend bs n k : (forall i, bit_set bs i = true -> (i < n)%nat) ->
  bits_below bs (n + k) = bits_below bs n.
Proof.
  intros Hc. unfold bits_below. rewrite seq_app, filter_app.
  assert (filter (fun i => bit_set bs i = true) (seq (0 + n) k) = []) as ->; [|by rewrite app_nil_r].
  apply filter_none. intros i Hi Hb.
  apply elem_of_seq in Hi. apply Hc in Hb. lia.
Qed.

Lemma bit_set_bound bs i : bit_set bs i = true -> (i < 8 * length bs)%nat.
Proof.
  unfold bit_set. destruct (bs !! (i / 8)%nat) as [b|] eqn:Hb; [|discriminate]. intros _.
  apply lookup_lt_Some in Hb. pose proof (Nat.div_mod i 8 ltac:(lia)).
  pose proof (Nat.mod_upper_bound i 8 ltac:(lia)). lia.
Qed.

(** When no bit lies beyond the committee, the count is the number of its set slots. *)
Lemma bits_below_canonical bs n : (forall i, bit_set bs i = true -> (i < n)%nat) ->
  length (bits_below bs n) = list_sum (count_ones <$> bs).
Proof.
  intros Hc. rewrite <- bits_below_bytes.
  destruct (Nat.le_ge_cases n (8 * length bs)) as [Hle|Hle].
  - replace (8 * length bs)%nat with (n + (8 * length bs - n))%nat by lia.
    by rewrite bits_below_extend.
  - replace n with (8 * length bs + (n - 8 * length bs))%nat by lia.
    rewrite bits_below_extend by apply bit_set_bound. done.
Qed.

Lemma count_ones_le b : (count_ones b <= 8)%nat.
Proof. unfold count_ones. etrans; [apply length_filter|]. by rewrite length_seq. Qed.

Lemma signer_count_sum c : Z.of_nat (length (ac_signer_bitmap c)) < 2 ^ 29 ->
  signer_count c = Z.of_nat (list_sum (count_ones <$> ac_signer_bitmap c)).
Proof.
  unfold signer_count. set (bs := ac_signer_bitmap c). intros Hlen.
  assert (forall acc, 0 <= acc -> acc + 8 * Z.of_nat (length bs) < 2 ^ 32 ->
    foldl (fun acc b => wrapping_add 32 acc (Z.of_nat (count_ones b))) acc bs =
    acc + Z.of_nat (list_sum (count_ones <$> bs))) as Hg.
  { clear. induction bs as [|b bs IH]; intros acc Hacc Hb; [cbn; lia|].
    rewrite fmap_cons. cbn [foldl length list_sum foldr] in *.
    pose proof (count_ones_le b). rewrite wrapping_add_small by lia. rewrite IH by lia.
    unfold list_sum. lia. }
  rewrite Hg by lia. lia.
Qed.
End bitmap.

Section aggregated.
Context `{HashPrims} `{SigPrims}.

(** The keys of the given slots. *)
Definition slot_keys (members : list ValidatorPubkey) (slots : list nat) : list bytes :=
  omap (fun i => vp_pubkey <$> members !! i) slots.

Lemma slot_keys_offset members slots :
  slot_keys members slots = omap (fun i => vp_pubkey <$> members !! (i - 0)%nat) slots.
Proof.
  unfold slot_keys. induction slots as [|i slots IH]; [done|]. cbn.
  by rewrite Nat.sub_0_r, IH.
Qed.

Lemma collect_signers_Ok cert i members pks :
  collect_signers cert i members = Ok pks ->
  let slots := filter (fun k => is_signer cert k = true) (seq i (length members)) in
  pks = omap (fun k => vp_pubkey <$> members !! (k - i)%nat) slots /\
  Forall (fun k => exists m, members !! (k - i)%nat = Some m /\ vp_sig_algo m = 5) slots.
Proof.
  revert i pks; induction members as [|m members IH]; intros i pks Hc.
  { injection Hc as <-. by split. }
  cbn [collect_signers length] in Hc |- *. cbn [seq]. rewrite filter_cons.
  assert (forall (P : ValidatorPubkey -> Prop) slots,
    Forall (fun k => exists m', members !! (k - S i)%nat = Some m' /\ P m') slots ->
    Forall (fun k => (S i <= k)%nat) slots ->
    Forall (fun k => exists m', (m :: members) !! (k - i)%nat = Some m' /\ P m') slots) as Hshift.
  { intros P slots H1 H2. apply Forall_elem. intros k Hk.
    destruct (proj1 (Forall_elem _ _) H1 k Hk) as (m' & Hm & HP).
    pose proof (proj1 (Forall_elem _ _) H2 k Hk). cbn in *.
    exists m'. split; [|done]. by replace (k - i)%nat with (S (k - S i)) by lia. }
  assert (forall n, Forall (fun k => (S i <= k)%nat)
    (filter (fun k => is_signer cert k = true) (seq (S i) n))) as Hge.
  { intros n. apply Forall_elem. intros k [_ Hk]%list_elem_of_filter.
    apply elem_of_seq in Hk. lia. }
  assert (forall slots, Forall (fun k => (S i <= k)%nat) slots ->
    omap (fun k => vp_pubkey <$> (m :: members) !! (k - i)%nat) slots =
    omap (fun k => vp_pubkey <$> members !! (k - S i)%nat) slots) as Homap.
  { induction 1 as [|k slots Hk _ IHs]; [done|]. cbn.
    replace (k - i)%nat with (S (k - S i)) by lia. cbn. by rewrite IHs. }
  destruct (is_signer cert i) eqn:Hi; cbn [negb] in Hc.
  - rewrite decide_True by done.
    destruct (Z.eqb_spec (vp_sig_algo m) 5) as [H5|]; [|discriminate]. cbn [negb] in Hc.
    apply outcome_bind_Ok in Hc as (pks' & Hc & Hp). injection Hp as <-.
    apply IH in Hc as [-> Hf]. cbn. rewrite Nat.sub_diag. cbn. rewrite Homap by apply Hge.
    split; [done|]. constructor; [rewrite Nat.sub_diag; by exists m|]. by apply Hshift.
  - rewrite decide_False by done. apply IH in Hc as [-> Hf]. rewrite Homap by apply Hge.
    split; [done|]. by apply Hshift.
Qed.
End aggregated.

(** The committee with another quorum. *)
Definition with_quorum (q : Z) (c : Committee) : Committee :=
  {| co_epoch := co_epoch c; co_members := co_members c; co_epoch_blocks := co_epoch_blocks c;
     co_quorum := q |}.

(** The certificate with [n] more bytes of set bits. *)
Definition padded (n : nat) (cert : AggregatedFinalizationCert) : AggregatedFinalizationCert :=
  {| ac_committee_epoch := ac_committee_epoch cert; ac_round := ac_round cert;
     ac_block_height := ac_block_height cert; ac_block_hash := ac_block_hash cert;
     ac_signer_bitmap := ac_signer_bitmap cert ++ replicate n xff;
     ac_agg_sig_algo := ac_agg_sig_algo cert; ac_agg_sig := ac_agg_sig cert |}.

Lemma bit_set_app bs bs' i : (i < 8 * length bs)%nat -> bit_set (bs ++ bs') i = bit_set bs i.
Proof.
  intros Hi. unfold bit_set. rewrite lookup_app_l; [done|].
  apply Nat.Div0.div_lt_upper_bound. lia.
Qed.

Lemma is_signer_padded n cert i : (i < 8 * length (ac_signer_bitmap cert))%nat ->
  is_signer (padded n cert) i = is_signer cert i.
Proof. intros Hi. rewrite !is_signer_bit. by apply bit_set_app. Qed.

Lemma collect_signers_ext cert cert' i members :
  (forall k, (i <= k < i + length members)%nat -> is_signer cert' k = is_signer cert k) ->
  collect_signers cert' i members = collect_signers cert i members.
Proof.
  revert i; induction members as [|m members IH]; intros i Hk; [done|]. cbn [collect_signers].
  cbn [length] in Hk. rewrite Hk by lia. rewrite IH; [done|]. intros k Hr. apply Hk. lia.
Qed.

Lemma signer_count_padded n cert :
  Z.of_nat (length (ac_signer_bitmap cert) + n) < 2 ^ 29 ->
  8 * Z.of_nat n <= signer_count (padded n cert).
Proof.
  intros Hn. rewrite signer_count_sum by (cbn; rewrite length_app, length_replicate; lia).
  cbn [padded ac_signer_bitmap]. rewrite fmap_app, list_sum_app, fmap_replicate.
  assert (forall k, list_sum (replicate k (count_ones xff)) = (8 * k)%nat) as ->; [|lia].
  intros k. change (count_ones xff) with 8%nat. induction k as [|k IHk]; [done|].
  change (list_sum (replicate (S k) 8%nat)) with (8 + list_sum (replicate k 8%nat))%nat. lia.
Qed.

(** No bit of the bitmap lies beyond the committee. *)
Definition bitmap_canonical (c : Committee) (cert : AggregatedFinalizationCert) : bool :=
  forallb (fun i => negb (is_signer cert i) || (i <? length (co_members c))%nat)
    (seq 0 (8 * length (ac_signer_bitmap cert))).

Lemma bitmap_canonical_spec c cert : bitmap_canonical c cert = true ->
  forall i, bit_set (ac_signer_bitmap cert) i = true -> (i < length (co_members c))%nat.
Proof.
  unfold bitmap_canonical. rewrite forallb_forall. intros Hc i Hi.
  pose proof (bit_set_bound _ _ Hi) as Hb. specialize (Hc i).
  rewrite is_signer_bit, Hi in Hc. cbn [negb orb] in Hc.
  apply Nat.ltb_lt, Hc. apply list_elem_of_In, elem_of_seq. lia.
Qed.

(** ** Properties *)

Section properties.
Context `{HashPrims} `{SigPrims} (ft : Features).

(** A certificate is accepted exactly when it is of the committee's epoch, holds at
    least a quorum of votes of distinct validators, and every vote is a committee member's
    valid signature for the round, height and block of the certificate. *)
Lemma verify_cert_iff c cert : verify_cert ft c cert = Ok tt <-> cert_valid ft c cert.
Proof. apply verify_cert_valid. Qed.

(** What a vote is for. *)
Definition votes_for (c : Committee) (cert : FinalizationCert) (v : FinalizationVote) : Prop :=
  v ∈ fc_votes cert /\ fv_committee_epoch v = co_epoch c /\ fv_round v = fc_round cert /\
  fv_block_height v = fc_block_height cert /\ fv_block_hash v = fc_block_hash cert.

(** Two votes of one validator and epoch for different blocks of one height or one round: the
    pair an honest validator never signs. *)
Definition double_vote (v1 v2 : FinalizationVote) : Prop :=
  fv_validator_id v1 = fv_validator_id v2 /\ fv_committee_epoch v1 = fv_committee_epoch v2 /\
  (fv_block_height v1 = fv_block_height v2 \/ fv_round v1 = fv_round v2) /\
  fv_block_hash v1 <> fv_block_hash v2.

(** C13: Accountable safety.  When the quorum is a majority, two accepted certificates of one
    committee share a validator: each holds a vote of it for the certificate's epoch, round,
    height and block, and both votes verify under its one committee key.  If the certificates
    conflict, that is finalize different blocks at one height or in one round, the two
    votes are a double vote, and the messages it signed are different unless Blake3 collides
    on them.  Certificates of different heights and rounds are no conflict. *)
Theorem finality_accountability c cert1 cert2 :
  verify_cert ft c cert1 = Ok tt -> verify_cert ft c cert2 = Ok tt ->
  Z.of_nat (length (co_members c)) < 2 * co_quorum c ->
  Forall (fun v => typed v = true) (fc_votes cert1 ++ fc_votes cert2) ->
  exists m v1 v2, m ∈ co_members c /\ votes_for c cert1 v1 /\ votes_for c cert2 v2 /\
    fv_validator_id v1 = vp_validator_id m /\ fv_validator_id v2 = vp_validator_id m /\
    verify ft (vp_sig_algo m) (vp_pubkey m) (fv_sig v1) (vote_signing_hash v1) = Ok tt /\
    verify ft (vp_sig_algo m) (vp_pubkey m) (fv_sig v2) (vote_signing_hash v2) = Ok tt /\
    (fc_block_hash cert1 <> fc_block_hash cert2 ->
     fc_block_height cert1 = fc_block_height cert2 \/ fc_round cert1 = fc_round cert2 ->
     double_vote v1 v2 /\
     (vote_signing_hash v1 <> vote_signing_hash v2 \/
      blake3_collision (vote_preimage v1) (vote_preimage v2))).
Proof.
  intros V1%verify_cert_valid V2%verify_cert_valid Hq Ht.
  pose proof (common_voters ft c cert1 cert2 V1 V2) as Hc. cbn zeta in Hc.
  destruct (set_choose_L (list_to_set (voters cert1) ∩ list_to_set (voters cert2) : gset bytes))
    as [id Hid].
  { intros E. rewrite E, size_empty in Hc. lia. }
  apply elem_of_intersection in Hid as [I1 I2]. rewrite elem_of_list_to_set in I1, I2.
  apply list_elem_of_fmap in I1 as (v1 & E1 & M1). apply list_elem_of_fmap in I2 as (v2 & E2 & M2).
  destruct V1 as (_ & _ & _ & F1), V2 as (_ & _ & _ & F2).
  destruct (proj1 (Forall_elem _ _) F1 v1 M1) as (He1 & Hr1 & Hh1 & Hb1 & m1 & Hm1 & A1 & S1).
  destruct (proj1 (Forall_elem _ _) F2 v2 M2) as (He2 & Hr2 & Hh2 & Hb2 & m2 & Hm2 & A2 & S2).
  rewrite <- E1 in Hm1. rewrite <- E2, Hm1 in Hm2. injection Hm2 as <-.
  destruct (find_member_id _ _ _ Hm1) as [Hin Hmid].
  rewrite <- A1 in S1. rewrite <- A2 in S2.
  exists m1, v1, v2. do 3 (split; [done|]). split; [congruence|]. split; [congruence|].
  do 2 (split; [done|]). intros Hne Hsame. split.
  { split_and!; [congruence|congruence|destruct Hsame; [left|right]; congruence|congruence]. }
  destruct (decide (vote_signing_hash v1 = vote_signing_hash v2)) as [Eh|]; [right|by left].
  split; [|exact Eh]. intros Ep. apply Hne.
  apply vote_preimage_inj in Ep as (_ & _ & _ & Eb & _).
  - congruence.
  - by apply (proj1 (Forall_elem _ _) Ht), elem_of_app; left.
  - by apply (proj1 (Forall_elem _ _) Ht), elem_of_app; right.
Qed.

(** An accepted aggregated certificate whose bitmap stays within the committee is
    backed by a quorum: the slots set in it are at least [quorum] distinct BLS members, and
    the signature verifies under the aggregate of exactly their keys. *)
Lemma aggregated_cert_quorum c cert :
  verify_aggregated_cert c cert = Ok tt -> bitmap_canonical c cert = true ->
  Z.of_nat (length (ac_signer_bitmap cert)) < 2 ^ 29 ->
  exists slots agg_pk, NoDup slots /\ co_quorum c <= Z.of_nat (length slots) /\
    Forall (fun i => is_signer cert i = true /\
      exists m, co_members c !! i = Some m /\ vp_sig_algo m = 5) slots /\
    aggregate_pubkeys (slot_keys (co_members c) slots) = Ok agg_pk /\
    bls_verify agg_pk (ac_agg_sig cert) (signing_payload cert) = Ok tt.
Proof.
  unfold verify_aggregated_cert. intros Hv Hcan Hlen.
  destruct (negb (ac_committee_epoch cert =? co_epoch c)); [discriminate|].
  destruct (Z.ltb_spec (signer_count cert) (co_quorum c)) as [|Hq]; [discriminate|].
  destruct (negb (ac_agg_sig_algo cert =? 5)); [discriminate|].
  apply outcome_bind_Ok in Hv as (pks & Hpks & Hv). destruct (bool_decide _); [discriminate|].
  apply outcome_bind_Ok in Hv as (agg & Hagg & Hv). apply map_err_Ok in Hagg, Hv.
  apply collect_signers_Ok in Hpks as [-> Hf].
  set (slots := filter (fun k => is_signer cert k = true) (seq 0 (length (co_members c)))) in *.
  exists slots, agg. split_and!; [| | | |done].
  - apply NoDup_filter, NoDup_seq.
  - rewrite signer_count_sum in Hq by done. etrans; [exact Hq|]. apply inj_le.
    rewrite <- (bits_below_canonical _ (length (co_members c)));
      [|by apply bitmap_canonical_spec].
    unfold bits_below, slots. apply Nat.eq_le_incl, (f_equal length), filter_ext_seq.
    intros i _. by rewrite is_signer_bit.
  - apply Forall_elem. intros i Hi. split; [by apply list_elem_of_filter in Hi as [? _]|].
    destruct (proj1 (Forall_elem _ _) Hf i Hi) as (m & Hm & H5). rewrite Nat.sub_0_r in Hm. eauto.
  - by rewrite slot_keys_offset.
Qed.
(** The quorum of an aggregated certificate is not enforced.  The count takes every bit
    of the bitmap, the verification only those of committee slots: a certificate that would
    be accepted under some lower quorum [q], such as 1, is accepted under the real one with
    enough set bits behind the committee, and the slots it claims stay the same. *)
Lemma aggregated_cert_bypass c q cert n :
  (length (co_members c) <= 8 * length (ac_signer_bitmap cert))%nat ->
  Z.of_nat (length (ac_signer_bitmap cert) + n) < 2 ^ 29 -> co_quorum c <= 8 * Z.of_nat n ->
  verify_aggregated_cert (with_quorum q c) cert = Ok tt ->
  verify_aggregated_cert c (padded n cert) = Ok tt /\
  bits_below (ac_signer_bitmap (padded n cert)) (length (co_members c)) =
    bits_below (ac_signer_bitmap cert) (length (co_members c)).
Proof.
  intros Hm Hn Hq Hv. split.
  - revert Hv. unfold verify_aggregated_cert.
    cbn [with_quorum co_epoch co_members co_quorum padded ac_committee_epoch ac_agg_sig_algo ac_agg_sig].
    destruct (negb (ac_committee_epoch cert =? co_epoch c)); [done|].
    destruct (signer_count cert <? q); [done|].
    destruct (Z.ltb_spec (signer_count (padded n cert)) (co_quorum c)) as [Hlt|_].
    { pose proof (signer_count_padded n cert Hn). lia. }
    destruct (negb (ac_agg_sig_algo cert =? 5)); [done|].
    rewrite (collect_signers_ext cert (padded n cert) 0)
      by (intros k Hk; apply is_signer_padded; cbn in Hk; lia).
    destruct (collect_signers cert 0 (co_members c)) as [pks|e|]; cbn [mbind outcome_bind]; [|done..].
    by destruct (bool_decide (pks = [])).
  - apply filter_ext_seq. intros i Hi. apply bit_set_app. lia.
Qed.

(** C36: Aggregated certificates.  One whose bitmap stays within the committee is backed by a
    quorum: its slots are at least [quorum] distinct BLS members, and the signature verifies
    under the aggregate of exactly their keys.  Beyond the committee the quorum is not
    enforced: a certificate that would be accepted under some lower quorum [q], such as 1, is
    accepted under the real one with enough set bits behind the committee, and the slots it
    claims stay the same. *)
Theorem aggregated_certificates c cert :
  (verify_aggregated_cert c cert = Ok tt -> bitmap_canonical c cert = true ->
   Z.of_nat (length (ac_signer_bitmap cert)) < 2 ^ 29 ->
   exists slots agg_pk, NoDup slots /\ co_quorum c <= Z.of_nat (length slots) /\
     Forall (fun i => is_signer cert i = true /\
       exists m, co_members c !! i = Some m /\ vp_sig_algo m = 5) slots /\
     aggregate_pubkeys (slot_keys (co_members c) slots) = Ok agg_pk /\
     bls_verify agg_pk (ac_agg_sig cert) (signing_payload cert) = Ok tt) /\
  (forall q n,
   (length (co_members c) <= 8 * length (ac_signer_bitmap cert))%nat ->
   Z.of_nat (length (ac_signer_bitmap cert) + n) < 2 ^ 29 -> co_quorum c <= 8 * Z.of_nat n ->
   verify_aggregated_cert (with_quorum q c) cert = Ok tt ->
   verify_aggregated_cert c (padded n cert) = Ok tt /\
   bits_below (ac_signer_bitmap (padded n cert)) (length (co_members c)) =
     bits_below (ac_signer_bitmap cert) (length (co_members c))).
Proof.
  split; [apply aggregated_cert_quorum|]. intros q n. apply aggregated_cert_bypass.
Qed.
End properties.

(** ** Instances *)

Module SampleFinality.
#[local] Existing Instance Checksum.prims.
#[local] Existing Instance ChecksumSig.prims.

Definition algo : Z := 3.
Definition key (n : byte) (a : Z) : bytes * bytes := lib_keygen (lib_of a) [n].
Definition member (a : Z) (n : byte) : ValidatorPubkey :=
  {| vp_validator_id := replicate 32 n; vp_sig_algo := a; vp_pubkey := (key n a).2 |}.
Definition committee (a : Z) (quorum : Z) : Committee :=
  {| co_epoch := 1; co_members := member a <$> [x01; x02; x03; x04; x05];
     co_epoch_blocks := 6; co_quorum := quorum |}.

Definition unsigned (block : byte) (n : byte) : FinalizationVote :=
  {| fv_committee_epoch := 1; fv_round := 2; fv_block_height := 12;
     fv_block_hash := replicate 32 block; fv_validator_id := replicate 32 n;
     fv_sig_algo := 3; fv_sig := [] |}.
Definition vote (block : byte) (n : byte) : FinalizationVote :=
  {| fv_committee_epoch := 1; fv_round := 2; fv_block_height := 12;
     fv_block_hash := replicate 32 block; fv_validator_id := replicate 32 n;
     fv_sig_algo := 3;
     fv_sig := default [] (lib_sign (lib_of 3) [] (key n 3).1
                 (vote_signing_hash (unsigned block n))) |}.
Definition cert (block : byte) (signers : list byte) : FinalizationCert :=
  {| fc_committee_epoch := 1; fc_round := 2; fc_block_height := 12;
     fc_block_hash := replicate 32 block; fc_votes := vote block <$> signers |}.

(** An aggregated certificate carrying the signature of the first [k] members. *)
Definition agg_unsigned (bitmap : bytes) : AggregatedFinalizationCert :=
  {| ac_committee_epoch := 1; ac_round := 2; ac_block_height := 12;
     ac_block_hash := replicate 32 xaa; ac_signer_bitmap := bitmap;
     ac_agg_sig_algo := 5; ac_agg_sig := [] |}.
Definition agg_cert (bitmap : bytes) (signers : list byte) : AggregatedFinalizationCert :=
  let payload := signing_payload (agg_unsigned bitmap) in
  let sigs := (fun n => default [] (lib_sign (lib_of 5) [] (key n 5).1 payload)) <$> signers in
  {| ac_committee_epoch := 1; ac_round := 2; ac_block_height := 12;
     ac_block_hash := replicate 32 xaa; ac_signer_bitmap := bitmap;
     ac_agg_sig_algo := 5;
     ac_agg_sig := match aggregate_signatures sigs with Ok s => s | _ => [] end |}.
End SampleFinality.
Import SampleFinality.

Section instances.
#[local] Existing Instance Checksum.prims.
#[local] Existing Instance ChecksumSig.prims.

(** One signer of five, under a quorum of five. *)
Lemma aggregated_certificates_witness :
  (exists slots agg_pk, NoDup slots /\ 3 <= Z.of_nat (length slots) /\
    aggregate_pubkeys (slot_keys (co_members (committee 5 3)) slots) = Ok agg_pk) /\
  verify_aggregated_cert (committee 5 5) (padded 1 (agg_cert [x01] [x01])) = Ok tt /\
  bits_below [x01; xff] 5 = [0%nat].
Proof.
  split.
  { destruct (aggregated_certificates (committee 5 3) (agg_cert [x0b] [x01; x02; x04])) as [Hq _].
    destruct Hq as (slots & agg & Hn & Hlen & _ & Ha & _);
      [vm_compute; reflexivity|vm_compute; reflexivity|reflexivity|].
    exists slots, agg. split; [exact Hn|]. split; [exact Hlen|exact Ha]. }
  destruct (aggregated_certificates (committee 5 5) (agg_cert [x01] [x01])) as [_ Hby].
  destruct (Hby 1 1%nat) as [Hv Hb];
    [cbn; lia|cbn; lia|cbn; lia|vm_compute; reflexivity|].
  split; [exact Hv|]. refine (eq_trans Hb _). vm_compute. reflexivity.
Defined.

Lemma finality_accountability_witness :
  exists m v1 v2, m ∈ co_members (committee 3 3) /\
    votes_for (committee 3 3) (cert xaa [x01; x02; x03]) v1 /\
    votes_for (committee 3 3) (cert xbb [x03; x04; x05]) v2 /\ double_vote v1 v2 /\
    (vote_signing_hash v1 <> vote_signing_hash v2 \/
     blake3_collision (vote_preimage v1) (vote_preimage v2)).
Proof.
  destruct (finality_accountability default_features (committee 3 3)
    (cert xaa [x01; x02; x03]) (cert xbb [x03; x04; x05]))
    as (m & v1 & v2 & Hm & H1 & H2 & _ & _ & _ & _ & Hd);
    [vm_compute; reflexivity|vm_compute; reflexivity|reflexivity
    |repeat constructor|].
  exists m, v1, v2. split; [exact Hm|]. split; [exact H1|]. split; [exact H2|].
  apply Hd; [discriminate|left; reflexivity].
Defined.

End instances.
