(* ===== verification/Mempool.v ===== *)
(** * Mempool: pending transactions (crates/node/src/mempool.rs)

    The [BTreeMap] keyed by body hash is a [gmap]; where the code iterates it, the model
    walks the entries in key order, which decides ties.  The clock is an argument. *)

From S2P Require Export Tx.
From Stdlib Require Import Strings.Byte.

Local Open Scope Z_scope.

Record PendingTx := {
  pt_body : TxBody;
  pt_witness : Witness;
  pt_received_ms : Z;
}.

Record Mempool := {
  mp_inner : gmap bytes PendingTx;
  mp_cap : nat;
}.

Inductive MempoolError :=
| MpWitnessHashMismatch
| Duplicate.

Definition Mempool_new (cap : nat) : Mempool := {| mp_inner := ∅; mp_cap := cap |}.

(** ** The entries in key order *)

Definition key_le (e1 e2 : bytes * PendingTx) : Prop := bytes_le e1.1 e2.1.
#[export] Instance key_le_dec : RelDecision key_le.
Proof. intros e1 e2. unfold key_le. apply _. Defined.

(** [inner.iter()] *)
Definition entries (m : gmap bytes PendingTx) : list (bytes * PendingTx) :=
  merge_sort key_le (map_to_list m).

(** [min_by_key(|t| t.received_ms)]: the first of the smallest. *)
Fixpoint min_by_received (l : list (bytes * PendingTx)) : option (bytes * PendingTx) :=
  match l with
  | [] => None
  | e :: l =>
      match min_by_received l with
      | Some e' =>
          if pt_received_ms (snd e') <? pt_received_ms (snd e) then Some e' else Some e
      | None => Some e
      end
  end.

(** [a.fee desc, body_hash asc], the comparison of [sort_by]. *)
Definition pull_le `{HashPrims} (a b : PendingTx) : Prop :=
  tx_fee_sat (pt_body b) < tx_fee_sat (pt_body a) \/
  (tx_fee_sat (pt_body a) = tx_fee_sat (pt_body b) /\
   bytes_le (body_hash (pt_body a)) (body_hash (pt_body b))).
#[export] Instance pull_le_dec `{HashPrims} : RelDecision pull_le.
Proof. intros a b. unfold pull_le. apply _. Defined.

Section operations.
Context `{HashPrims}.

(** The eviction at the cap. *)
Definition evict (inner : gmap bytes PendingTx) : gmap bytes PendingTx :=
  match min_by_received (entries inner) with
  | Some (oldest_hash, _) => delete oldest_hash inner
  | None => inner
  end.

Definition submit (now : Z) (body : TxBody) (witness : Witness) (mp : Mempool)
    : outcome MempoolError bytes * Mempool :=
  if negb (bool_decide (tx_witness_hash body = witness_hash witness))
  then (Err MpWitnessHashMismatch, mp)
  else
    let hash := body_hash body in
    let inner := mp_inner mp in
    if bool_decide (is_Some (inner !! hash)) then (Err Duplicate, mp)
    else
      let inner := if (mp_cap mp <=? size inner)%nat then evict inner else inner in
      (Ok hash,
       {| mp_inner := <[hash := {| pt_body := body; pt_witness := witness;
                                   pt_received_ms := now |}]> inner;
          mp_cap := mp_cap mp |}).

Definition pull_for_block (max : nat) (mp : Mempool) : list PendingTx :=
  take max (merge_sort pull_le (snd <$> entries (mp_inner mp))).

Definition confirm (block_hashes : list bytes) (mp : Mempool) : Mempool :=
  {| mp_inner := foldl (fun inner h => delete h inner) (mp_inner mp) block_hashes;
     mp_cap := mp_cap mp |}.

Definition mp_len (mp : Mempool) : nat := size (mp_inner mp).
Definition pending_hashes (mp : Mempool) : list bytes := fst <$> entries (mp_inner mp).

(** ** Invariant *)

(** Every entry is filed under its body hash with the witness its body commits to, and the
    pool never outgrows its cap (a cap of zero holds one transaction). *)
Definition mempool_ok (mp : Mempool) : Prop :=
  (forall h t, mp_inner mp !! h = Some t ->
     h = body_hash (pt_body t) /\ tx_witness_hash (pt_body t) = witness_hash (pt_witness t)) /\
  (size (mp_inner mp) <= Nat.max 1 (mp_cap mp))%nat.

Lemma entries_perm m : entries m ≡ₚ map_to_list m.
Proof. apply merge_sort_Permutation. Qed.

Lemma elem_of_entries m h t : (h, t) ∈ entries m <-> m !! h = Some t.
Proof. by rewrite entries_perm, elem_of_map_to_list. Qed.

Lemma min_by_received_Some l e : min_by_received l = Some e ->
  e ∈ l /\ forall e', e' ∈ l -> pt_received_ms (snd e) <= pt_received_ms (snd e').
Proof.
  revert e; induction l as [|x l IH]; intros e; [discriminate|]. cbn [min_by_received].
  destruct (min_by_received l) as [y|] eqn:Ey.
  - destruct (IH y eq_refl) as [Hy Hmin].
    destruct (Z.ltb_spec (pt_received_ms (snd y)) (pt_received_ms (snd x))); intros [= <-].
    + split; [by right|]. intros e' [->|He']%elem_of_cons; [lia|by apply Hmin].
    + split; [by left|]. intros e' [->|He']%elem_of_cons; [lia|].
      specialize (Hmin e' He'). lia.
  - intros [= <-]. split; [by left|]. destruct l as [|z l].
    + intros e' ->%list_elem_of_singleton. lia.
    + cbn [min_by_received] in Ey. destruct (min_by_received l) as [w|]; [|done].
      by destruct (_ <? _).
Qed.

Lemma min_by_received_None l : min_by_received l = None -> l = [].
Proof.
  destruct l as [|x l]; [done|]. cbn. destruct (min_by_received l); [|done].
  by destruct (_ <? _).
Qed.

(** An eviction removes one transaction that arrived first. *)
Lemma evict_spec m : m <> ∅ -> exists h t, m !! h = Some t /\ evict m = delete h m /\
  forall h' t', m !! h' = Some t' -> pt_received_ms t <= pt_received_ms t'.
Proof.
  intros Hm. unfold evict. destruct (min_by_received (entries m)) as [[h t]|] eqn:E.
  - apply min_by_received_Some in E as [Hin Hmin]. apply elem_of_entries in Hin.
    exists h, t. split_and!; [done|done|]. intros h' t' Ht'.
    apply (Hmin (h', t')). by apply elem_of_entries.
  - exfalso. apply min_by_received_None in E. pose proof (entries_perm m) as Hp.
    rewrite E in Hp. apply Permutation_nil_l in Hp. symmetry in Hp.
    apply map_to_list_empty_iff in Hp. done.
Qed.

Lemma confirm_lookup hs mp h :
  mp_inner (confirm hs mp) !! h = if decide (h ∈ hs) then None else mp_inner mp !! h.
Proof.
  unfold confirm; cbn. generalize (mp_inner mp) as m. induction hs as [|x hs IH]; intros m; cbn.
  { done. }
  rewrite IH. destruct (decide (h ∈ hs)), (decide (h ∈ x :: hs)) as [Hx|Hx];
    try done; [set_solver| |].
  - apply elem_of_cons in Hx as [->|]; [by simplify_map_eq|done].
  - rewrite lookup_delete_ne; [done|]. set_solver.
Qed.

Lemma size_confirm hs m : (size (foldl (fun inner h => delete h inner) m hs : gmap bytes PendingTx) <= size m)%nat.
Proof.
  revert m; induction hs as [|h hs IH]; intros m; cbn; [done|]. etrans; [apply IH|].
  apply map_subseteq_size, delete_subseteq.
Qed.

#[local] Instance pull_le_total : Total pull_le.
Proof.
  intros a b. unfold pull_le.
  destruct (Z.lt_total (tx_fee_sat (pt_body a)) (tx_fee_sat (pt_body b))) as [?|[E|?]]; auto.
  rewrite E. destruct (bytes_le_total (body_hash (pt_body a)) (body_hash (pt_body b))); auto.
Qed.

#[local] Instance pull_le_trans : Transitive pull_le.
Proof.
  intros a b c [H1|[E1 H1]] [H2|[E2 H2]]; unfold pull_le; try (left; lia).
  right. split; [congruence|]. by etrans.
Qed.

Lemma pull_sorted max mp : StronglySorted pull_le (pull_for_block max mp).
Proof.
  unfold pull_for_block. set (l := merge_sort _ _).
  assert (StronglySorted pull_le l) as Hs by (apply StronglySorted_merge_sort; apply _).
  rewrite <- (take_drop max l) in Hs. by apply StronglySorted_app_1_l in Hs.
Qed.
End operations.

(** ** Properties *)

Section properties.
Context `{HashPrims}.

(** The pool after an accepted submission: at the cap, one transaction that arrived first
    has made room. *)
Definition makes_room (mp : Mempool) (inner : gmap bytes PendingTx) : Prop :=
  ((size (mp_inner mp) < mp_cap mp)%nat /\ inner = mp_inner mp) \/
  ((mp_cap mp <= size (mp_inner mp))%nat /\ mp_inner mp = ∅ /\ inner = ∅) \/
  ((mp_cap mp <= size (mp_inner mp))%nat /\ exists old t, mp_inner mp !! old = Some t /\
     inner = delete old (mp_inner mp) /\
     forall h' t', mp_inner mp !! h' = Some t' -> pt_received_ms t <= pt_received_ms t').

Lemma room mp : makes_room mp
  (if (mp_cap mp <=? size (mp_inner mp))%nat then evict (mp_inner mp) else mp_inner mp).
Proof.
  unfold makes_room. destruct (Nat.leb_spec (mp_cap mp) (size (mp_inner mp))) as [Hc|Hc]; [right|by left].
  destruct (decide (mp_inner mp = ∅)) as [He|He].
  - left. rewrite He. by split_and!; [rewrite <- He| |].
  - right. split; [done|]. destruct (evict_spec _ He) as (h & t & Hh & -> & Hmin). eauto.
Qed.

Lemma makes_room_subset mp inner : makes_room mp inner ->
  inner ⊆ mp_inner mp /\ (mempool_ok mp -> (S (size inner) <= Nat.max 1 (mp_cap mp))%nat).
Proof.
  intros [(Hs & ->)|[(_ & -> & ->)|(Hc & old & t & Ho & -> & _)]].
  - split; [done|]. lia.
  - split; [done|]. rewrite map_size_empty. lia.
  - split; [apply delete_subseteq|]. intros [_ Hsz]. rewrite map_size_delete, Ho.
    assert (size (mp_inner mp) <> 0%nat).
    { rewrite map_size_non_empty_iff. intros E. by rewrite E in Ho. }
    lia.
Qed.

Lemma mempool_new_ok cap : mempool_ok (Mempool_new cap).
Proof.
  split; [intros h t Hl; cbn in Hl; by rewrite lookup_empty in Hl|].
  unfold Mempool_new; cbn [mp_inner]. rewrite map_size_empty. lia.
Qed.

Lemma submit_ok now body w mp : mempool_ok mp -> mempool_ok (submit now body w mp).2.
Proof.
  intros [H1 H2]. unfold submit.
  destruct (bool_decide_reflect (tx_witness_hash body = witness_hash w)) as [Hw|]; [|done].
  cbn [negb]. case_bool_decide as Hd; [done|].
  destruct (makes_room_subset mp _ (room mp)) as [Hsub Hsz]. revert Hsub Hsz.
  generalize (if (mp_cap mp <=? size (mp_inner mp))%nat then evict (mp_inner mp) else mp_inner mp).
  intros inner Hsub Hsz. split; cbn.
  - intros h t [[<- <-]|[_ Hl]]%lookup_insert_Some; [done|].
    apply H1. by eapply lookup_weaken.
  - rewrite map_size_insert. specialize (Hsz (conj H1 H2)).
    destruct (inner !! body_hash body); unfold id; lia.
Qed.

Lemma confirm_ok hs mp : mempool_ok mp -> mempool_ok (confirm hs mp).
Proof.
  intros [H1 H2]. split.
  - intros h t. rewrite confirm_lookup. case_decide; [done|]. apply H1.
  - etrans; [apply size_confirm|exact H2].
Qed.

(** [submit] accepts a transaction exactly when it is not pending and its body commits
    to its witness; it then files it under its body hash, after evicting one transaction
    that arrived first when the pool is at its cap; a rejection leaves the pool as it was.
    [submit] and [confirm] keep the pool well formed and within its cap, and a confirmed
    transaction is gone. *)
Lemma mempool_operations now body w mp hs : mempool_ok mp ->
  let '(r, mp') := submit now body w mp in
  mempool_ok mp' /\
  (match r with
   | Ok h => h = body_hash body /\ tx_witness_hash body = witness_hash w /\
       mp_inner mp !! h = None /\
       exists inner, makes_room mp inner /\
         mp_inner mp' = <[h := {| pt_body := body; pt_witness := w; pt_received_ms := now |}]> inner
   | Err MpWitnessHashMismatch => tx_witness_hash body <> witness_hash w /\ mp' = mp
   | Err Duplicate => is_Some (mp_inner mp !! body_hash body) /\ mp' = mp
   | Panic => False
   end) /\
  mempool_ok (confirm hs mp') /\
  forall h, mp_inner (confirm hs mp') !! h = if decide (h ∈ hs) then None else mp_inner mp' !! h.
Proof.
  intros Hok. pose proof (submit_ok now body w mp Hok) as Hok'. revert Hok'. unfold submit.
  destruct (bool_decide_reflect (tx_witness_hash body = witness_hash w)) as [Hw|Hw]; cbn [negb];
    [|intros; split_and!; [done|done|done|by apply confirm_ok|apply confirm_lookup]].
  destruct (bool_decide_reflect (is_Some (mp_inner mp !! body_hash body))) as [Hd|Hd];
    [intros; split_and!; [done|done|done|by apply confirm_ok|apply confirm_lookup]|].
  intros Hok'. cbn [snd] in Hok'. apply eq_None_not_Some in Hd.
  split_and!; [done|done|done|done| |by apply confirm_ok|apply confirm_lookup].
  eexists. split; [apply room|reflexivity].
Qed.

(** A pull returns at most [max] distinct pending transactions, by descending fee and
    ascending body hash, and no transaction left out comes before one that was pulled. *)
Lemma pull_for_block_best max mp : mempool_ok mp ->
  let pulled := pull_for_block max mp in
  StronglySorted pull_le pulled /\ (length pulled <= max)%nat /\
  NoDup (body_hash ∘ pt_body <$> pulled) /\
  (forall t, t ∈ pulled -> mp_inner mp !! body_hash (pt_body t) = Some t) /\
  (forall h t, mp_inner mp !! h = Some t -> t ∈ pulled \/
     (length pulled = max /\ forall u, u ∈ pulled -> pull_le u t)).
Proof.
  intros [Hkey _] pulled. unfold pulled, pull_for_block.
  set (l := merge_sort pull_le (snd <$> entries (mp_inner mp))).
  assert (l ≡ₚ snd <$> map_to_list (mp_inner mp)) as Hp.
  { subst l. rewrite merge_sort_Permutation. apply fmap_Permutation, entries_perm. }
  assert (forall t, t ∈ l <-> mp_inner mp !! body_hash (pt_body t) = Some t) as Hl.
  { intros t. rewrite Hp, list_elem_of_fmap. split.
    - intros ([h t'] & -> & Ht%elem_of_map_to_list). cbn.
      by destruct (Hkey _ _ Ht) as [-> _] in Ht |- *.
    - intros Ht. exists (body_hash (pt_body t), t). by rewrite elem_of_map_to_list. }
  assert (NoDup (body_hash ∘ pt_body <$> l)) as Hnd.
  { rewrite Hp. assert (body_hash ∘ pt_body <$> (snd <$> map_to_list (mp_inner mp)) =
      (map_to_list (mp_inner mp)).*1) as ->; [|apply NoDup_fst_map_to_list].
    rewrite <- list_fmap_compose. apply list_fmap_ext. intros i [h t] Hi. cbn.
    apply list_elem_of_lookup_2, elem_of_map_to_list in Hi. by destruct (Hkey _ _ Hi) as [<- _]. }
  split_and!.
  - apply (pull_sorted max mp).
  - rewrite length_take. lia.
  - rewrite <- (take_drop max l), fmap_app in Hnd. by apply NoDup_app in Hnd as [? _].
  - intros t Ht. apply Hl. rewrite <- (take_drop max l). set_solver.
  - intros h t Ht. destruct (Hkey _ _ Ht) as [-> _]. apply Hl in Ht.
    rewrite <- (take_drop max l) in Ht. apply elem_of_app in Ht as [Ht|Ht]; [by left|right].
    assert (max < length l)%nat as Hlen.
    { destruct (Nat.lt_ge_cases max (length l)) as [|Hge]; [done|].
      rewrite drop_ge in Ht by done. by apply not_elem_of_nil in Ht. }
    split; [rewrite length_take; lia|]. intros u Hu.
    pose proof (pull_sorted (length l) mp) as Hs. unfold pull_for_block in Hs. fold l in Hs.
    rewrite take_ge, <- (take_drop max l) in Hs by done.
    by eapply StronglySorted_app_1_elem_of.
Qed.

(** C37: The mempool.  [submit] accepts a transaction exactly when it is not pending and its
    body commits to its witness; it then files it under its body hash, after evicting one
    that arrived first when the pool is at its cap; a rejection leaves the pool as it was.
    [submit] and [confirm] keep the pool well formed and within its cap, and a confirmed
    transaction is gone.  A pull hands the miner at most [max] distinct pending
    transactions, by descending fee and ascending body hash, and leaves out none that comes
    before one it handed out. *)
Theorem mempool_correct mp : mempool_ok mp ->
  (forall now body w hs,
    let '(r, mp') := submit now body w mp in
    mempool_ok mp' /\
    (match r with
     | Ok h => h = body_hash body /\ tx_witness_hash body = witness_hash w /\
         mp_inner mp !! h = None /\
         exists inner, makes_room mp inner /\
           mp_inner mp' = <[h := {| pt_body := body; pt_witness := w; pt_received_ms := now |}]> inner
     | Err MpWitnessHashMismatch => tx_witness_hash body <> witness_hash w /\ mp' = mp
     | Err Duplicate => is_Some (mp_inner mp !! body_hash body) /\ mp' = mp
     | Panic => False
     end) /\
    mempool_ok (confirm hs mp') /\
    forall h, mp_inner (confirm hs mp') !! h = if decide (h ∈ hs) then None else mp_inner mp' !! h) /\
  (forall max,
    let pulled := pull_for_block max mp in
    StronglySorted pull_le pulled /\ (length pulled <= max)%nat /\
    NoDup (body_hash ∘ pt_body <$> pulled) /\
    (forall t, t ∈ pulled -> mp_inner mp !! body_hash (pt_body t) = Some t) /\
    (forall h t, mp_inner mp !! h = Some t -> t ∈ pulled \/
       (length pulled = max /\ forall u, u ∈ pulled -> pull_le u t))).
Proof.
  intros Hok. split; intros; [by apply mempool_operations|by apply pull_for_block_best].
Qed.
End properties.

(** ** Instances *)

Section instances.
#[local] Existing Instance Checksum.prims.

Definition sample_witness : Witness :=
  {| wit_sig_algo := 3; wit_sig := [x01; x02]; wit_pubkey := Inline [x07] |}.
Definition sample_tx (nonce fee : Z) : TxBody :=
  {| tx_nonce := nonce; tx_from_account := replicate 20 x01;
     tx_call := Transfer (replicate 20 x02) 5; tx_fee_sat := fee; tx_gas_limit := 21000;
     tx_witness_hash := witness_hash sample_witness |}.
(** A pool of two that received three transactions. *)
Definition sample_pool : Mempool :=
  (submit 30 (sample_tx 2 9) sample_witness
    (submit 20 (sample_tx 1 4) sample_witness
      (submit 10 (sample_tx 0 7) sample_witness (Mempool_new 2)).2).2).2.

Lemma sample_pool_ok : mempool_ok sample_pool.
Proof. unfold sample_pool. do 3 apply submit_ok. apply mempool_new_ok. Qed.

Lemma mempool_correct_witness :
  mempool_ok (submit 40 (sample_tx 3 1) sample_witness sample_pool).2 /\
  mp_len (submit 40 (sample_tx 3 1) sample_witness sample_pool).2 = 2%nat /\
  StronglySorted pull_le (pull_for_block 1 sample_pool) /\
  (tx_fee_sat ∘ pt_body <$> pull_for_block 1 sample_pool) = [9].
Proof.
  destruct (mempool_correct sample_pool sample_pool_ok) as [Hs Hp].
  split; [|split; [vm_compute; reflexivity|split; [apply (Hp 1%nat)|vm_compute; reflexivity]]].
  specialize (Hs 40 (sample_tx 3 1) sample_witness []).
  destruct (submit 40 (sample_tx 3 1) sample_witness sample_pool) as [r mp'].
  apply Hs.
Defined.
End instances.
