(* ===== verification/BlockWire.v ===== *)
(** * BlockWire: a concrete encoding of blocks

    The instance of [Cbor Block] with which the examples of the log and of the node run: a
    variant is its tag and the list of its fields, a struct the sequence of its fields. *)

From S2P Require Export Codec.
From Stdlib Require Import Strings.Byte.

Local Open Scope Z_scope.

Module BlockWire.
Import Wire.

Definition variant : codec (Z * list bytes) := cpair (cint 1) (clist cbytes).

Lemma variant_ok : ok (fun p => in_ub 8 p.1 && forallb (fun _ => true) p.2) variant.
Proof. apply cpair_ok; [apply (cint_ok 1)|apply clist_ok, cbytes_ok]. Qed.

Definition call_fields (c : TxCall) : Z * list bytes :=
  match c with
  | Transfer to amount => (0, [to; le_bytes 16 amount])
  | DeployContract code_ref init_args => (1, [code_ref; init_args])
  | CallContract contract method args => (2, [contract; method; args])
  | UpgradeCrypto h s a gp => (3, [le_bytes 8 h; le_bytes 1 s; le_bytes 1 a; gp])
  | AttestRound j r m d => (4, [j; le_bytes 8 r; m; le_bytes 4 d])
  | RegisterAttestCoordinator j cs gp => (5, j :: gp :: cs)
  | SetGovernance c gp => (6, [c; gp])
  | AttestPedigree j l s c a => (7, [j; l; s; c; a])
  end.

Definition call_of_fields (p : Z * list bytes) : TxCall :=
  match p with
  | (0, [to; amount]) => Transfer to (le_to_Z amount)
  | (1, [code_ref; init_args]) => DeployContract code_ref init_args
  | (2, [contract; method; args]) => CallContract contract method args
  | (3, [h; s; a; gp]) => UpgradeCrypto (le_to_Z h) (le_to_Z s) (le_to_Z a) gp
  | (4, [j; r; m; d]) => AttestRound j (le_to_Z r) m (le_to_Z d)
  | (5, j :: gp :: cs) => RegisterAttestCoordinator j cs gp
  | (7, [j; l; s; c; a]) => AttestPedigree j l s c a
  | (_, c :: gp :: _) => SetGovernance c gp
  | _ => SetGovernance [] []
  end.

Lemma le_field n z : in_ub (8 * Z.of_nat n) z = true -> le_to_Z (le_bytes n z) = z.
Proof.
  intros [H1 H2]%in_ub_spec. rewrite Z.pow_mul_r in H2 by lia. change (2 ^ 8) with 256 in H2.
  rewrite le_to_Z_le_bytes. by apply Z.mod_small.
Qed.

Definition call_codec : codec TxCall := cmap call_fields call_of_fields variant.

Lemma call_codec_typed : ok typed call_codec.
Proof.
  eapply cmap_ok_on; [|apply variant_ok]. intros c Hc. unfold typed, typed_TxCall in Hc.
  split.
  - destruct c; cbn [call_fields fst snd]; rewrite andb_true_iff; split; try done;
      by apply forallb_forall.
  - destruct c; cbn [call_fields call_of_fields]; rewrite ?andb_true_iff in Hc;
      rewrite ?(le_field 16), ?(le_field 8), ?(le_field 4), ?(le_field 1) by (cbn; tauto); done.
Qed.

Definition key_fields (k : PubKeyRef) : Z * list bytes :=
  match k with Known id => (0, [id]) | Inline pk => (1, [pk]) end.
Definition key_of_fields (p : Z * list bytes) : PubKeyRef :=
  match p with
  | (0, [id]) => Known id
  | (_, [pk]) => Inline pk
  | _ => Inline []
  end.
Definition key_codec : codec PubKeyRef := cmap key_fields key_of_fields variant.

Lemma key_codec_typed : ok typed key_codec.
Proof. eapply cmap_ok_on; [|apply variant_ok]. by intros []. Qed.

Definition tx_codec : codec TxBody :=
  cmap (fun t => (tx_nonce t, (tx_from_account t, (tx_call t, (tx_fee_sat t,
          (tx_gas_limit t, tx_witness_hash t))))))
       (fun p => {| tx_nonce := p.1; tx_from_account := p.2.1; tx_call := p.2.2.1;
          tx_fee_sat := p.2.2.2.1; tx_gas_limit := p.2.2.2.2.1;
          tx_witness_hash := p.2.2.2.2.2 |})
       (cpair (cint 8) (cpair (carr 20) (cpair call_codec (cpair (cint 8)
          (cpair (cint 4) (carr 32)))))).

Definition witness_codec : codec Witness :=
  cmap (fun w => (wit_sig_algo w, (wit_sig w, wit_pubkey w)))
       (fun p => {| wit_sig_algo := p.1; wit_sig := p.2.1; wit_pubkey := p.2.2 |})
       (cpair (cint 1) (cpair cbytes key_codec)).

Definition header_codec : codec BlockHeader :=
  cmap (fun h => (bh_version h, (bh_height h, (bh_parent h, (bh_timestamp_ms h, (bh_bits h,
          (bh_nonce h, (bh_tx_root h, (bh_witness_root h, (bh_state_root h,
          (bh_reflect_root h, (bh_coinbase h, (bh_sig_algo h, bh_hash_algo h)))))))))))))
       (fun p => {| bh_version := p.1; bh_height := p.2.1; bh_parent := p.2.2.1;
          bh_timestamp_ms := p.2.2.2.1; bh_bits := p.2.2.2.2.1; bh_nonce := p.2.2.2.2.2.1;
          bh_tx_root := p.2.2.2.2.2.2.1; bh_witness_root := p.2.2.2.2.2.2.2.1;
          bh_state_root := p.2.2.2.2.2.2.2.2.1; bh_reflect_root := p.2.2.2.2.2.2.2.2.2.1;
          bh_coinbase := p.2.2.2.2.2.2.2.2.2.2.1; bh_sig_algo := p.2.2.2.2.2.2.2.2.2.2.2.1;
          bh_hash_algo := p.2.2.2.2.2.2.2.2.2.2.2.2 |})
       (cpair (cint 4) (cpair (cint 8) (cpair (carr 32) (cpair (cint 8) (cpair (cint 4)
          (cpair (cint 8) (cpair (carr 32) (cpair (carr 32) (cpair (carr 32)
          (cpair (carr 32) (cpair (carr 32) (cpair (cint 1) (cint 1))))))))))))).

Definition block_codec : codec Block :=
  cmap (fun b => (blk_header b, (body_txs (blk_body b), body_witnesses (blk_body b))))
       (fun p => {| blk_header := p.1;
                    blk_body := {| body_txs := p.2.1; body_witnesses := p.2.2 |} |})
       (cpair header_codec (cpair (clist tx_codec) (clist witness_codec))).

Ltac struct_codec extra :=
  eapply cmap_ok_on;
  [|repeat first [ apply extra | apply cpair_ok | apply cint_ok | apply carr_ok
                 | apply cbytes_ok | apply clist_ok ]];
  intros a Ha; unfold typed in Ha;
  match type of Ha with ?f a = true => unfold f in Ha end;
  destruct a; cbn in Ha |- *; rewrite ?andb_true_iff in *; tauto.

Lemma tx_codec_typed : ok typed tx_codec.
Proof. struct_codec call_codec_typed. Qed.
Lemma witness_codec_typed : ok typed witness_codec.
Proof. struct_codec key_codec_typed. Qed.
Lemma header_codec_typed : ok typed header_codec.
Proof. struct_codec cint_ok. Qed.

Lemma block_codec_typed : ok typed block_codec.
Proof.
  eapply cmap_ok_on.
  2:{ apply cpair_ok; [apply header_codec_typed|].
      apply cpair_ok; apply clist_ok; [apply tx_codec_typed|apply witness_codec_typed]. }
  intros [h [txs ws]] Hb. unfold typed, typed_Block, typed, typed_BlockBody in Hb.
  cbn in Hb |- *. rewrite !andb_true_iff in *. split; [tauto|done].
Qed.

#[export] Instance TxBody_cbor : Cbor TxBody := cbor tx_codec tx_codec_typed.
#[export] Instance Witness_cbor : Cbor Witness := cbor witness_codec witness_codec_typed.
#[export] Instance Block_cbor : Cbor Block := cbor block_codec block_codec_typed.
End BlockWire.
