(* ===== verification/ChainStore.v ===== *)
(** * ChainStore: the append-only block log (crates/node/src/chainstore.rs)

    The file [chain.log] is the bytes it holds, [None] before it exists; the mutex guards the
    three fields of the cache.  A write can fail after a prefix of the frame has reached the
    disk, which the argument [io] of [append] says.  The reader consumes at least the four
    length bytes per round, so as many rounds as the file has bytes are enough:
    [read_blocks_eq] is the loop without the fuel. *)

From S2P Require Export Codec BlockWire.
From Stdlib Require Import Strings.Byte.

Local Open Scope Z_scope.

Record ChainStore := {
  cs_disk : option bytes;
  cs_tip : option Block;
  cs_count : Z;
  cs_primed : bool;
}.

Inductive StoreError := IoError | CborError.

Section store.
Context {CB : Cbor Block}.

(** [read_exact] of [n] bytes. *)
Definition read_exact (n : nat) (l : bytes) : option (bytes * bytes) :=
  if (n <=? length l)%nat then Some (take n l, drop n l) else None.

(** The read loop, at most [fuel] rounds. *)
Fixpoint read_blocks (fuel : nat) (f : bytes) : outcome StoreError (list Block) :=
  match fuel with
  | O => Ok []
  | S fuel =>
      match read_exact 4 f with
      | None => Ok []
      | Some (len_buf, f) =>
          let len := Z.to_nat (le_to_Z len_buf) in
          match read_exact len f with
          | None => Err IoError
          | Some (body, f) =>
              ok_or CborError (cbor_de body) ≫= fun block =>
              read_blocks fuel f ≫= fun out => Ok (block :: out)
          end
      end
  end.

Definition read_all_from_disk (disk : option bytes) : outcome StoreError (list Block) :=
  match disk with
  | None => Ok []
  | Some f => read_blocks (S (length f)) f
  end.

Definition prime (cs : ChainStore) : outcome StoreError ChainStore :=
  read_all_from_disk (cs_disk cs) ≫= fun blocks =>
  Ok {| cs_disk := cs_disk cs; cs_tip := last blocks;
        cs_count := Z.of_nat (length blocks); cs_primed := true |}.

(** [ChainStore::open] on what the data directory holds. *)
Definition open (disk : option bytes) : outcome StoreError ChainStore :=
  prime {| cs_disk := disk; cs_tip := None; cs_count := 0; cs_primed := false |}.

(** The bytes [append] writes for a serialized block. *)
Definition frame_bytes (buf : bytes) : bytes := le_bytes 4 (Z.of_nat (length buf)) ++ buf.

(** [io = None]: every write succeeds; [io = Some k]: the writes fail after [k] bytes. *)
Definition append (io : option nat) (block : Block) (cs : ChainStore)
    : outcome StoreError unit * ChainStore :=
  match cbor_ser block with
  | None => (Err CborError, cs)
  | Some buf =>
      let old := default [] (cs_disk cs) in
      match io with
      | Some k =>
          (Err IoError, {| cs_disk := Some (old ++ take k (frame_bytes buf));
                           cs_tip := cs_tip cs; cs_count := cs_count cs;
                           cs_primed := cs_primed cs |})
      | None =>
          (Ok tt, {| cs_disk := Some (old ++ frame_bytes buf);
                     cs_tip := Some block; cs_count := wrapping_add 64 (cs_count cs) 1;
                     cs_primed := cs_primed cs |})
      end
  end.

Definition load_all (cs : ChainStore) : outcome StoreError (list Block) :=
  read_all_from_disk (cs_disk cs).
Definition tip (cs : ChainStore) : option Block := cs_tip cs.
Definition height (cs : ChainStore) : Z :=
  match cs_tip cs with Some b => bh_height (blk_header b) | None => 0 end.
Definition len (cs : ChainStore) : Z := cs_count cs.

Definition recent (n : nat) (cs : ChainStore) : outcome StoreError (list Block) :=
  load_all cs ≫= fun all =>
  let start := (length all - n)%nat in
  Ok (reverse (drop start all)).

Definition get_by_height (h : Z) (cs : ChainStore) : outcome StoreError (option Block) :=
  load_all cs ≫= fun all => Ok (find_elem (fun b => bh_height (blk_header b) = h) all).

(** ** The log *)

(** A block the log can hold: its encoding exists and its length fits the prefix. *)
Definition storable (b : Block) : bool :=
  typed b && match cbor_ser b with
             | Some buf => Z.of_nat (length buf) <? 2 ^ 32
             | None => false
             end.

Definition frame (b : Block) : bytes := frame_bytes (default [] (cbor_ser b)).
Definition log_bytes (bs : list Block) : bytes := concat (frame <$> bs).

(** The store holds exactly the given blocks, and its cache agrees with the disk. *)
Definition store_holds (cs : ChainStore) (bs : list Block) : Prop :=
  default [] (cs_disk cs) = log_bytes bs /\ cs_tip cs = last bs /\
  cs_count cs = Z.of_nat (length bs) /\ forallb storable bs = true.

Lemma read_exact_app n (l rest : bytes) : length l = n -> read_exact n (l ++ rest) = Some (l, rest).
Proof.
  intros <-. unfold read_exact. destruct (Nat.leb_spec (length l) (length (l ++ rest))) as [|Hlt].
  - by rewrite take_app_length, drop_app_length.
  - rewrite length_app in Hlt. lia.
Qed.

Lemma read_exact_short n (l : bytes) : (length l < n)%nat -> read_exact n l = None.
Proof. intros Hl. unfold read_exact. by destruct (Nat.leb_spec n (length l)); [lia|]. Qed.

Lemma read_exact_length n (l x r : bytes) : read_exact n l = Some (x, r) -> (length l = n + length r)%nat.
Proof.
  unfold read_exact. destruct (Nat.leb_spec n (length l)); [|done]. intros [= <- <-].
  rewrite length_drop. lia.
Qed.

(** More fuel than bytes never changes the result. *)
Lemma read_blocks_fuel fuel1 fuel2 (f : bytes) : (length f < fuel1)%nat -> (length f < fuel2)%nat ->
  read_blocks fuel1 f = read_blocks fuel2 f.
Proof.
  revert fuel2 f; induction fuel1 as [|fuel1 IH]; intros [|fuel2] f H1 H2; try lia.
  cbn [read_blocks]. destruct (read_exact 4 f) as [[lb f1]|] eqn:E1; [|done].
  apply read_exact_length in E1.
  destruct (read_exact _ f1) as [[body f2]|] eqn:E2; [|done]. apply read_exact_length in E2.
  by rewrite (IH fuel2 f2) by lia.
Qed.

(** The loop of the code, without fuel. *)
Lemma read_blocks_eq f :
  read_all_from_disk (Some f) =
  match read_exact 4 f with
  | None => Ok []
  | Some (len_buf, f) =>
      match read_exact (Z.to_nat (le_to_Z len_buf)) f with
      | None => Err IoError
      | Some (body, f) =>
          ok_or CborError (cbor_de body) ≫= fun block =>
          read_all_from_disk (Some f) ≫= fun out => Ok (block :: out)
      end
  end.
Proof.
  unfold read_all_from_disk at 1. cbn [read_blocks].
  destruct (read_exact 4 f) as [[lb f1]|] eqn:E1; [|done]. apply read_exact_length in E1.
  destruct (read_exact _ f1) as [[body f2]|] eqn:E2; [|done]. apply read_exact_length in E2.
  unfold read_all_from_disk. by rewrite (read_blocks_fuel (length f) (S (length f2))) by lia.
Qed.

Lemma storable_spec b : storable b = true -> exists buf, cbor_ser b = Some buf /\
  cbor_de buf = Some b /\ Z.of_nat (length buf) < 2 ^ 32.
Proof.
  unfold storable. intros [Ht Hs]%andb_true_iff.
  destruct (cbor_ser b) as [buf|] eqn:Eb; [|discriminate]. apply Z.ltb_lt in Hs.
  exists buf. split_and!; [done|by apply cbor_ser_de|done].
Qed.

Lemma read_prefix (buf rest : bytes) : Z.of_nat (length buf) < 2 ^ 32 ->
  read_exact 4 (le_bytes 4 (Z.of_nat (length buf)) ++ rest) =
    Some (le_bytes 4 (Z.of_nat (length buf)), rest) /\
  Z.to_nat (le_to_Z (le_bytes 4 (Z.of_nat (length buf)))) = length buf.
Proof.
  intros Hb. split; [apply read_exact_app, length_le_bytes|].
  rewrite le_to_Z_le_bytes, Z.mod_small by (change (256 ^ Z.of_nat 4) with (2 ^ 32); lia). lia.
Qed.

Lemma read_all_cons b f : storable b = true ->
  read_all_from_disk (Some (frame b ++ f)) =
  read_all_from_disk (Some f) ≫= fun out => Ok (b :: out).
Proof.
  intros (buf & Hs & Hd & Hl)%storable_spec. unfold frame. rewrite Hs. cbn [default].
  unfold id, frame_bytes. rewrite <- app_assoc, read_blocks_eq.
  destruct (read_prefix buf (buf ++ f) Hl) as [-> ->].
  by rewrite read_exact_app, Hd by done.
Qed.

Lemma read_all_log bs f : forallb storable bs = true ->
  read_all_from_disk (Some (log_bytes bs ++ f)) =
  read_all_from_disk (Some f) ≫= fun out => Ok (bs ++ out).
Proof.
  induction bs as [|b bs IH]; intros Hs.
  { cbn [log_bytes]. unfold log_bytes. cbn [fmap list_fmap concat app].
    by destruct (read_all_from_disk (Some f)). }
  cbn [forallb] in Hs. apply andb_true_iff in Hs as [Hb Hs].
  change (log_bytes (b :: bs)) with (frame b ++ log_bytes bs).
  rewrite <- app_assoc, read_all_cons, IH by done.
  by destruct (read_all_from_disk (Some f)).
Qed.

Lemma read_all_holds disk bs : default [] disk = log_bytes bs -> forallb storable bs = true ->
  read_all_from_disk disk = Ok bs.
Proof.
  intros Hd Hs. assert (read_all_from_disk (Some (log_bytes bs)) = Ok bs) as E.
  { rewrite <- (app_nil_r (log_bytes bs)), read_all_log by done. cbn. by rewrite app_nil_r. }
  destruct disk as [f|].
  - cbn in Hd. unfold id in Hd. by rewrite Hd.
  - cbn in Hd. rewrite <- Hd in E. cbn in E. by injection E as <-.
Qed.

Lemma log_bytes_snoc bs b : log_bytes (bs ++ [b]) = log_bytes bs ++ frame b.
Proof. unfold log_bytes. rewrite fmap_app, concat_app. cbn. by rewrite app_nil_r. Qed.

Lemma append_holds cs bs b : store_holds cs bs -> storable b = true ->
  Z.of_nat (length bs) < 2 ^ 64 - 1 ->
  exists cs', append None b cs = (Ok tt, cs') /\ store_holds cs' (bs ++ [b]).
Proof.
  intros Hh Hb Hl. destruct (storable_spec b Hb) as (buf & Hser & _).
  destruct Hh as (Hd & Ht & Hc & Hs). unfold append. rewrite Hser. eexists. split; [reflexivity|].
  split_and!; cbn [cs_disk cs_tip cs_count].
  - change (default [] (cs_disk cs) ++ frame_bytes buf = log_bytes (bs ++ [b])).
    rewrite Hd, log_bytes_snoc. unfold frame. by rewrite Hser.
  - by rewrite last_snoc.
  - rewrite wrapping_add_small by lia. rewrite length_app. cbn. lia.
  - rewrite forallb_app, Hs. cbn. by rewrite Hb.
Qed.

(** ** Properties *)

(** A torn write.  If an append fails after some bytes of the frame have reached the
    disk, the running store still answers from its cache; on the next start, a tail of up to
    three bytes is ignored and the blocks before it are loaded, while a tail that holds the
    length prefix but not the whole block makes [open] fail: the node does not start. *)
Lemma chainstore_torn_write cs bs b k : store_holds cs bs -> storable b = true ->
  (k < length (frame b))%nat ->
  let '(r, cs') := append (Some k) b cs in
  r = Err IoError /\ tip cs' = tip cs /\ len cs' = len cs /\
  ((k < 4)%nat -> load_all cs' = Ok bs /\ is_ok (open (cs_disk cs')) = true) /\
  ((4 <= k)%nat -> load_all cs' = Err IoError /\ open (cs_disk cs') = Err IoError).
Proof.
  intros (Hd & Ht & Hc & Hs) Hb Hk. destruct (storable_spec b Hb) as (buf & Hser & _ & Hl).
  unfold append. rewrite Hser. split_and!; [done|done|done| |]; intros H4.
  - assert (read_all_from_disk (Some (default [] (cs_disk cs) ++ take k (frame_bytes buf))) = Ok bs)
      as Hr.
    { rewrite Hd, read_all_log by done. rewrite read_blocks_eq, read_exact_short.
      - cbn. by rewrite app_nil_r.
      - rewrite length_take. lia. }
    unfold load_all, open, prime; cbn [cs_disk]. by rewrite Hr.
  - assert (read_all_from_disk (Some (default [] (cs_disk cs) ++ take k (frame_bytes buf))) =
      Err IoError) as Hr.
    { rewrite Hd, read_all_log by done. unfold frame in Hk. rewrite Hser in Hk.
      cbn [default] in Hk. unfold id in Hk. unfold frame_bytes in *.
      rewrite length_app, length_le_bytes in Hk.
      replace k with (length (le_bytes 4 (Z.of_nat (length buf))) + (k - 4))%nat
        by (rewrite length_le_bytes; lia).
      rewrite take_app_add, read_blocks_eq.
      destruct (read_prefix buf (take (k - 4) buf) Hl) as [-> ->].
      rewrite read_exact_short; [done|]. rewrite length_take. lia. }
    unfold load_all, open, prime; cbn [cs_disk]. by rewrite Hr.
Qed.
(** C20: The log is a faithful store of blocks.  Opening a directory whose file holds the
    frames of some blocks gives a store that holds them; a store that holds [bs] returns
    them from [load_all], the newest from [recent], and holds [bs ++ [b]] after appending
    [b], with its tip, height and count in step with the disk.  An append that fails after
    some bytes of the frame have reached the disk leaves the running store answering from its
    cache; at the next start a tail of up to three bytes is ignored, while a tail that holds
    the length prefix but not the whole block makes [open] fail: the node does not start. *)
Theorem chainstore_holds cs bs b : store_holds cs bs -> storable b = true ->
  Z.of_nat (length bs) < 2 ^ 64 - 1 ->
  (exists cs', open (cs_disk cs) = Ok cs' /\ store_holds cs' bs) /\
  load_all cs = Ok bs /\
  (forall n, recent n cs = Ok (take n (reverse bs))) /\
  (let '(r, cs') := append None b cs in
   r = Ok tt /\ store_holds cs' (bs ++ [b]) /\ tip cs' = Some b /\
   height cs' = bh_height (blk_header b) /\ len cs' = len cs + 1) /\
  forall k, (k < length (frame b))%nat ->
  let '(r, cs') := append (Some k) b cs in
  r = Err IoError /\ tip cs' = tip cs /\ len cs' = len cs /\
  ((k < 4)%nat -> load_all cs' = Ok bs /\ is_ok (open (cs_disk cs')) = true) /\
  ((4 <= k)%nat -> load_all cs' = Err IoError /\ open (cs_disk cs') = Err IoError).
Proof.
  intros (Hd & Ht & Hc & Hs) Hb Hlen.
  pose proof (read_all_holds _ _ Hd Hs) as Hall. split_and!.
  - unfold open, prime. cbn [cs_disk]. rewrite Hall. eexists. split; [done|].
    by split_and!.
  - exact Hall.
  - intros n. unfold recent, load_all. rewrite Hall. cbn. f_equal. by rewrite take_reverse.
  - destruct (append_holds cs bs b) as (cs' & -> & Hh); [by split_and!|done|done|].
    pose proof Hh as (_ & Ht' & Hc' & _). rewrite last_snoc in Ht'.
    unfold tip, height, len. rewrite Ht', Hc', Hc, length_app. cbn. split_and!; auto with lia.
  - intros k. apply chainstore_torn_write; [by split_and!|done].
Qed.

End store.

(** ** Instances *)

Section instances.
#[local] Existing Instance BlockWire.Block_cbor.

Definition log_block (height : Z) : Block := {|
  blk_header := {|
    bh_version := 1; bh_height := height; bh_parent := replicate 32 x00;
    bh_timestamp_ms := 1000 * height; bh_bits := 0x1f00ffff; bh_nonce := 0;
    bh_tx_root := replicate 32 x00; bh_witness_root := replicate 32 x00;
    bh_state_root := replicate 32 x00; bh_reflect_root := replicate 32 x00;
    bh_coinbase := replicate 32 x00; bh_sig_algo := 3; bh_hash_algo := 1 |};
  blk_body := {| body_txs := []; body_witnesses := [] |} |}.

Definition sample_log : ChainStore :=
  (append None (log_block 1)
    (append None (log_block 0)
      {| cs_disk := None; cs_tip := None; cs_count := 0; cs_primed := true |}).2).2.

Lemma sample_log_holds : store_holds sample_log [log_block 0; log_block 1].
Proof. repeat split; vm_compute; reflexivity. Qed.

Lemma chainstore_holds_witness :
  load_all sample_log = Ok [log_block 0; log_block 1] /\
  store_holds (append None (log_block 2) sample_log).2 [log_block 0; log_block 1; log_block 2] /\
  open (cs_disk (append (Some 40%nat) (log_block 2) sample_log).2) = Err IoError.
Proof.
  destruct (chainstore_holds sample_log [log_block 0; log_block 1] (log_block 2)
    sample_log_holds) as (_ & Hall & _ & Happ & Htorn); [vm_compute; reflexivity|cbn; lia|].
  split; [exact Hall|]. split.
  - destruct (append None (log_block 2) sample_log) as [r cs']. apply Happ.
  - specialize (Htorn 40%nat ltac:(vm_compute; lia)).
    destruct (append (Some 40%nat) (log_block 2) sample_log) as [r cs']. apply Htorn. lia.
Defined.

(** A short torn tail is survived once.  Two bytes of a frame reach the disk before a
    crash; the next start ignores them but leaves them in the file, the next append writes
    after them and reports success, and the start after that cannot read the log. *)
Definition torn_log : option bytes := cs_disk (append (Some 2%nat) (log_block 2) sample_log).2.

Lemma torn_tail_poisons_log :
  match open torn_log with
  | Ok cs =>
      tip cs = Some (log_block 1) /\
      let '(r, cs') := append None (log_block 2) cs in
      r = Ok tt /\ tip cs' = Some (log_block 2) /\ is_ok (open (cs_disk cs')) = false
  | _ => False
  end.
Proof. vm_compute. by repeat split. Qed.

End instances.
