(* ===== verification/Apply.v ===== *)
(** * Apply: the block transition (crates/state/src/apply.rs, lines 354-913)

    [apply_block] over any [StateStore], in the error monad [stm] where the writes done
    before an error stay in the store, as they do behind the [&mut dyn StateStore] of the
    code.  The body of the function is cut at its passes: [pass1] validates, [apply_staged]
    moves balances, [apply_effect] writes the records of the other calls, [coinbase] pays the
    miner, [write_reflection] and [activate_upgrade] close the block. *)

From S2P Require Export Records.
From Stdlib Require Import Strings.Byte.

Local Open Scope Z_scope.

(** The error text of the code is rendered from these. *)
Inductive Reason :=
| ReasonDecode
| ReasonThreshold (e : GovernanceError)
| ReasonConfig (msg : string).

Inductive ApplyError :=
| WitnessMissing (idx : nat)
| WitnessHashMismatch (idx : nat)
| AccountUnknown (idx : nat) (account : AccountId)
| PubKeyMismatch (idx : nat)
| TxBadSignature (idx : nat) (e : CryptoError)
| NonceMismatch (idx : nat) (got expected : Z)
| InsufficientBalance (idx : nat) (balance required : Z)
| AmountOverflow (idx : nat)
| UnsupportedCall (idx : nat)
| AlgoMismatch (idx : nat) (algo sig_algo : Z)
| UpgradeSigAlgoNotAllowed (idx : nat) (sig_algo : Z)
| UpgradeHashAlgoNotAllowed (idx : nat) (hash_algo : Z)
| AttestCoordinatorNotAuthorized (idx : nat)
| PedigreeCageCodeInvalid (idx : nat)
| GovernanceProofMissing (idx : nat)
| GovernanceProofInvalid (idx : nat) (reason : Reason)
| GovernanceConfigInvalid (idx : nat) (reason : Reason)
| CoinbaseOverflow.

Record ApplyOutput := {
  ao_txs_applied : Z;
  ao_fees_collected_sat : Z;
  ao_coinbase_minted_sat : Z;
  ao_state_root : bytes;
}.

Record StagedTx := {
  st_idx : nat;
  st_from_account : AccountId;
  st_expected_nonce : Z;
  st_to : AccountId;
  st_amount : Z;
  st_fee_sat : Z;
  st_pubkey_bytes : bytes;
  st_sig_algo : Z;
}.

Section apply.
Context {St : Type} `{StateStore St} `{HashPrims} `{SigPrims} `{StateCodecs}.
Context (ft : Features).

(** ** Validation of one transaction *)

(** The recipient and the amount a call moves. *)
Definition staged_target (idx : nat) (tx : TxBody) : outcome ApplyError (AccountId * Z) :=
  match tx_call tx with
  | Transfer to amount => Ok (to, amount)
  | UpgradeCrypto _ _ _ _ | AttestRound _ _ _ _ | RegisterAttestCoordinator _ _ _
  | AttestPedigree _ _ _ _ _ | SetGovernance _ _ => Ok (tx_from_account tx, 0)
  | DeployContract _ _ | CallContract _ _ _ => Err (UnsupportedCall idx)
  end.

(** The key the signature is checked under: inline, or the one the account committed. *)
Definition witness_pubkey (idx : nat) (s : St) (tx : TxBody) (w : Witness)
    : outcome ApplyError bytes :=
  match wit_pubkey w with
  | Inline pk => Ok pk
  | Known _ =>
      acct ← ok_or (AccountUnknown idx (tx_from_account tx)) (load s (tx_from_account tx));
      if bool_decide (acc_pubkey acct = []) then Err (AccountUnknown idx (tx_from_account tx))
      else if negb (acc_sig_algo acct =? wit_sig_algo w)
      then Err (AlgoMismatch idx (acc_sig_algo acct) (wit_sig_algo w))
      else Ok (acc_pubkey acct)
  end.

(** An inline key must derive to the sender. *)
Definition check_derivation (idx : nat) (tx : TxBody) (w : Witness) (pk : bytes)
    : outcome ApplyError unit :=
  match wit_pubkey w with
  | Inline _ =>
      if bool_decide (from_pubkey pk = tx_from_account tx) then Ok tt
      else Err (PubKeyMismatch idx)
  | Known _ => Ok tt
  end.

Definition validate_tx (idx : nat) (s : St) (tx : TxBody) (w : Witness)
    : outcome ApplyError StagedTx :=
  '(to, amount) ← staged_target idx tx;
  pk ← witness_pubkey idx s tx w;
  _ ← check_derivation idx tx w pk;
  _ ← map_err (TxBadSignature idx) (verify ft (wit_sig_algo w) pk (wit_sig w) (signing_hash tx));
  let acct := load_or_default s (tx_from_account tx) in
  let expected_nonce := acc_nonce acct in
  if negb (tx_nonce tx =? expected_nonce)
  then Err (NonceMismatch idx (tx_nonce tx) expected_nonce)
  else
    required ← ok_or (AmountOverflow idx) (checked_add 128 amount (tx_fee_sat tx));
    if acc_balance acct <? required
    then Err (InsufficientBalance idx (acc_balance acct) required)
    else Ok {| st_idx := idx; st_from_account := tx_from_account tx;
               st_expected_nonce := expected_nonce; st_to := to; st_amount := amount;
               st_fee_sat := tx_fee_sat tx; st_pubkey_bytes := pk;
               st_sig_algo := wit_sig_algo w |}.

(** ** Pass 1: no write *)

Fixpoint pass1 (s : St) (witnesses : list Witness) (i : nat) (fees_total : Z)
    (txs : list TxBody) : outcome ApplyError (Z * list StagedTx) :=
  match txs with
  | [] => Ok (fees_total, [])
  | tx :: txs =>
      w ← ok_or (WitnessMissing i) (witnesses !! i);
      if bool_decide (witness_hash w <> tx_witness_hash tx) then Err (WitnessHashMismatch i)
      else
        staged_tx ← validate_tx i s tx w;
        fees_total ← ok_or CoinbaseOverflow (checked_add 128 fees_total (st_fee_sat staged_tx));
        '(fees_total, staged) ← pass1 s witnesses (S i) fees_total txs;
        Ok (fees_total, staged_tx :: staged)
  end.

(** ** Pass 2: balances, nonces and first keys *)

(** The sender's account after the debit. *)
Definition debit (from : Account) (tx : StagedTx) (required : Z) : Account :=
  let fresh := bool_decide (acc_pubkey from = []) in
  {| acc_balance := acc_balance from - required;
     acc_nonce := saturating_add 64 (acc_nonce from) 1;
     acc_pubkey := if fresh then st_pubkey_bytes tx else acc_pubkey from;
     acc_sig_algo := if fresh then st_sig_algo tx else acc_sig_algo from |}.

Definition credit (to_acct : Account) (amount : Z) : Account :=
  {| acc_balance := saturating_add 128 (acc_balance to_acct) amount;
     acc_nonce := acc_nonce to_acct;
     acc_pubkey := acc_pubkey to_acct;
     acc_sig_algo := acc_sig_algo to_acct |}.

Definition apply_staged (tx : StagedTx) : stm St ApplyError unit :=
  from ← read_st (fun s => load_or_default s (st_from_account tx));
  if negb (acc_nonce from =? st_expected_nonce tx)
  then throw (NonceMismatch (st_idx tx) (acc_nonce from) (st_expected_nonce tx))
  else
    required ← lift_out (ok_or (AmountOverflow (st_idx tx))
                           (checked_add 128 (st_amount tx) (st_fee_sat tx)));
    if acc_balance from <? required
    then throw (InsufficientBalance (st_idx tx) (acc_balance from) required)
    else
      save (st_from_account tx) (debit from tx required);;
      to_acct ← read_st (fun s => load_or_default s (st_to tx));
      save (st_to tx) (credit to_acct (st_amount tx)).

(** ** Effects of the other calls *)

(** [ciborium::ser::into_writer(..).map_err(|_| ApplyError::WitnessHashMismatch(i))?]
    followed by [store.put]. *)
Definition put_record {A} `{Cbor A} (e : ApplyError) (sub : Subtree) (key : bytes) (a : A)
    : stm St ApplyError unit :=
  buf ← lift_out (ok_or e (cbor_ser a));
  modify_st (fun s => put s sub key buf).

(** The k-of-N gate in front of a governed action; open while no committee is set. *)
Definition require_governance (i : nat) (gov_proof payload : bytes) : stm St ApplyError unit :=
  cfg ← read_st load_governance;
  match cfg with
  | None => mret tt
  | Some cfg =>
      if bool_decide (gov_proof = []) then throw (GovernanceProofMissing i)
      else
        proof ← lift_out (ok_or (GovernanceProofInvalid i ReasonDecode) (cbor_de gov_proof));
        lift_out (map_err (fun e => GovernanceProofInvalid i (ReasonThreshold e))
                    (verify_governance_proof ft cfg proof payload))
  end.

(** A job with a non-empty registry only takes attestations of its coordinators. *)
Definition require_coordinator (i : nat) (job_id : bytes) (from : AccountId)
    : stm St ApplyError unit :=
  authority ← read_st (fun s => load_attest_authority s job_id);
  match authority with
  | Some a =>
      if negb (bool_decide (ca_coordinators a = [])) && negb (bool_decide (from ∈ ca_coordinators a))
      then throw (AttestCoordinatorNotAuthorized i)
      else mret tt
  | None => mret tt
  end.

Definition apply_attest_round (h : BlockHeader) (i : nat) (from : AccountId)
    (job_id : bytes) (round_id : Z) (model_hash : bytes) (dp : Z) : stm St ApplyError unit :=
  require_coordinator i job_id from;;
  put_record (WitnessHashMismatch i) Attest (attest_key job_id round_id)
    {| ar_job_id := job_id; ar_round_id := round_id; ar_model_hash := model_hash;
       ar_dp_epsilon_milli := dp; ar_coordinator := from;
       ar_block_height := bh_height h; ar_block_timestamp_ms := bh_timestamp_ms h |}.

Definition apply_register (h : BlockHeader) (i : nat) (job_id : bytes)
    (coordinators : list AccountId) (gov_proof : bytes) : stm St ApplyError unit :=
  require_governance i gov_proof (register_attest_gov_payload job_id coordinators);;
  put_record (WitnessHashMismatch i) Meta (attest_auth_key job_id)
    {| ca_job_id := job_id; ca_coordinators := coordinators;
       ca_registered_at_height := bh_height h |}.

Definition apply_pedigree (h : BlockHeader) (i : nat) (from : AccountId)
    (job_id lot_id supplier cage_code authority : bytes) : stm St ApplyError unit :=
  if negb (is_valid_cage cage_code) then throw (PedigreeCageCodeInvalid i)
  else
    require_coordinator i job_id from;;
    put_record (WitnessHashMismatch i) Attest (pedigree_key job_id lot_id)
      {| pr_job_id := job_id; pr_lot_id := lot_id; pr_supplier := supplier;
         pr_cage_code := cage_code; pr_attestation_authority := authority;
         pr_attester := from; pr_block_height := bh_height h;
         pr_block_timestamp_ms := bh_timestamp_ms h |}.

Definition apply_upgrade (h : BlockHeader) (i : nat) (target_height sig_algo hash_algo : Z)
    (gov_proof : bytes) : stm St ApplyError unit :=
  if negb (allowed_sig ft sig_algo) then throw (UpgradeSigAlgoNotAllowed i sig_algo)
  else if negb (allowed_hash ft hash_algo) then throw (UpgradeHashAlgoNotAllowed i hash_algo)
  else
    require_governance i gov_proof (upgrade_crypto_gov_payload target_height sig_algo hash_algo);;
    put_record (WitnessHashMismatch i) Meta (ascii_bytes "upgrade_crypto")
      {| pu_target_height := target_height; pu_sig_algo := sig_algo;
         pu_hash_algo := hash_algo; pu_announced_at_height := bh_height h |}.

Definition apply_set_governance (i : nat) (config_cbor gov_proof : bytes)
    : stm St ApplyError unit :=
  new_cfg ← lift_out (ok_or (GovernanceConfigInvalid i ReasonDecode) (cbor_de config_cbor));
  lift_out (map_err (fun r => GovernanceConfigInvalid i (ReasonConfig r)) (validate new_cfg));;
  require_governance i gov_proof (set_governance_gov_payload new_cfg);;
  put_record (WitnessHashMismatch i) Meta (ascii_bytes "governance") new_cfg.

Definition apply_effect (h : BlockHeader) (itx : nat * TxBody) : stm St ApplyError unit :=
  let '(i, tx) := itx in
  match tx_call tx with
  | AttestRound job_id round_id model_hash dp =>
      apply_attest_round h i (tx_from_account tx) job_id round_id model_hash dp
  | RegisterAttestCoordinator job_id coordinators gov_proof =>
      apply_register h i job_id coordinators gov_proof
  | AttestPedigree job_id lot_id supplier cage_code authority =>
      apply_pedigree h i (tx_from_account tx) job_id lot_id supplier cage_code authority
  | UpgradeCrypto target_height sig_algo hash_algo gov_proof =>
      apply_upgrade h i target_height sig_algo hash_algo gov_proof
  | SetGovernance config_cbor gov_proof => apply_set_governance i config_cbor gov_proof
  | _ => mret tt
  end.

(** ** Closing the block *)

Definition coinbase (h : BlockHeader) (block_reward_sat fees_total : Z)
    : stm St ApplyError Z :=
  let miner := from_coinbase (bh_coinbase h) in
  miner_acct ← read_st (fun s => load_or_default s miner);
  total_minted ← lift_out (ok_or CoinbaseOverflow (checked_add 128 block_reward_sat fees_total));
  new_balance ← lift_out (ok_or CoinbaseOverflow
                            (checked_add 128 (acc_balance miner_acct) total_minted));
  save miner {| acc_balance := new_balance; acc_nonce := acc_nonce miner_acct;
                acc_pubkey := acc_pubkey miner_acct;
                acc_sig_algo := acc_sig_algo miner_acct |};;
  mret total_minted.

Definition block_reflection (b : Block) (fees_total total_minted : Z) : Reflection :=
  {| rf_hashrate_proxy := bh_bits (blk_header b);
     rf_active_addresses :=
       Z.of_nat (size (list_to_set (tx_from_account <$> body_txs (blk_body b)) : gset bytes));
     rf_fee_sum := fees_total;
     rf_emission := total_minted;
     rf_r_h_q64 := 0;
     rf_r_a_q64 := 0;
     rf_stability_bias := 0 |}.

Definition write_reflection (b : Block) (fees_total total_minted : Z) : stm St ApplyError unit :=
  buf ← lift_out (ok_or CoinbaseOverflow (cbor_ser (block_reflection b fees_total total_minted)));
  modify_st (fun s => put s Reflect (block_key (bh_height (blk_header b))) buf);;
  modify_st (fun s => put s Reflect (ascii_bytes "latest") buf).

Definition activate_upgrade (h : BlockHeader) : stm St ApplyError unit :=
  pending ← read_st load_pending_upgrade;
  match pending with
  | Some p =>
      if pu_target_height p =? bh_height h then
        match cbor_ser {| ac_sig_algo := pu_sig_algo p; ac_hash_algo := pu_hash_algo p;
                          ac_activated_at_height := bh_height h |} with
        | Some buf => modify_st (fun s => put s Meta (ascii_bytes "active_crypto") buf)
        | None => mret tt
        end
      else mret tt
  | None => mret tt
  end.

Definition apply_block (b : Block) (block_reward_sat : Z) : stm St ApplyError ApplyOutput :=
  let txs := body_txs (blk_body b) in
  let witnesses := body_witnesses (blk_body b) in
  pass ← (fun s => (pass1 s witnesses 0 0 txs, s));
  let '(fees_total, staged) := pass in
  for_each apply_staged staged;;
  for_each (apply_effect (blk_header b)) (enumerate txs);;
  total_minted ← coinbase (blk_header b) block_reward_sat fees_total;
  write_reflection b fees_total total_minted;;
  activate_upgrade (blk_header b);;
  read_st (fun s =>
    {| ao_txs_applied := Z.of_nat (length txs);
       ao_fees_collected_sat := fees_total;
       ao_coinbase_minted_sat := total_minted;
       ao_state_root := root s |}).
End apply.
