(* ===== verification/ApplyLaws.v ===== *)
(** * ApplyLaws: what the passes of [apply_block] do

    One lemma per pass, in the form the properties of [ApplyProps] use: what a successful
    run says about the state before, and how the state after relates to it. *)

From S2P Require Export Apply.
From Stdlib Require Import Strings.Byte.

Local Open Scope Z_scope.

(** ** Vocabulary of the specifications *)

Section vocabulary.
Context {St : Type} `{StateStore St} `{HashPrims} `{SigPrims} `{StateCodecs}.
Context (ft : Features).

(** The key [pk] may sign for the sender of [tx]: it is carried inline and hashes to the
    account id, or the account committed it under the witness's algorithm. *)
Definition key_of_sender (s : St) (tx : TxBody) (w : Witness) (pk : bytes) : Prop :=
  match wit_pubkey w with
  | Inline pk' => pk' = pk /\ from_pubkey pk = tx_from_account tx
  | Known _ => exists acct, load s (tx_from_account tx) = Some acct /\
      acc_pubkey acct = pk /\ pk <> [] /\ acc_sig_algo acct = wit_sig_algo w
  end.

(** [tx] with its witness is signed by its sender and is its sender's next transaction. *)
Definition authenticated (s : St) (tx : TxBody) (w : Witness) (pk : bytes) : Prop :=
  key_of_sender s tx w pk /\
  verify ft (wit_sig_algo w) pk (wit_sig w) (signing_hash tx) = Ok tt /\
  tx_nonce tx = nonce s (tx_from_account tx).

(** The amount and the recipient of a call that moves balances. *)
Definition call_target (tx : TxBody) : AccountId :=
  match tx_call tx with Transfer to _ => to | _ => tx_from_account tx end.
Definition call_amount (tx : TxBody) : Z :=
  match tx_call tx with Transfer _ amount => amount | _ => 0 end.
Definition call_supported (tx : TxBody) : Prop :=
  match tx_call tx with
  | DeployContract _ _ | CallContract _ _ _ => False
  | _ => True
  end.

Definition stage (idx : nat) (s : St) (tx : TxBody) (w : Witness) (pk : bytes) : StagedTx :=
  {| st_idx := idx; st_from_account := tx_from_account tx;
     st_expected_nonce := nonce s (tx_from_account tx); st_to := call_target tx;
     st_amount := call_amount tx; st_fee_sat := tx_fee_sat tx; st_pubkey_bytes := pk;
     st_sig_algo := wit_sig_algo w |}.

(** The staged list that pass 1 builds for [txs] starting at index [i]. *)
Fixpoint staged_for (s : St) (witnesses : list Witness) (i : nat)
    (txs : list TxBody) (staged : list StagedTx) : Prop :=
  match txs, staged with
  | [], [] => True
  | tx :: txs, st :: staged =>
      (exists w pk, witnesses !! i = Some w /\ witness_hash w = tx_witness_hash tx /\
         call_supported tx /\ authenticated s tx w pk /\
         call_amount tx + tx_fee_sat tx <= balance s (tx_from_account tx) /\
         st = stage i s tx w pk) /\
      staged_for s witnesses (S i) txs staged
  | _, _ => False
  end.

Definition sum_fees (txs : list TxBody) : Z := foldr (fun tx acc => tx_fee_sat tx + acc) 0 txs.
End vocabulary.

Lemma sum_fees_cons tx txs : sum_fees (tx :: txs) = tx_fee_sat tx + sum_fees txs.
Proof. done. Qed.
#[global] Arguments sum_fees : simpl never.

(** ** Pass 1 *)

Section pass1.
Context {St : Type} `{StateStore St} `{HashPrims} `{SigPrims} `{StateCodecs}.
Context (ft : Features).

Lemma staged_target_Ok i tx to amount :
  staged_target i tx = Ok (to, amount) <->
  call_supported tx /\ to = call_target tx /\ amount = call_amount tx.
Proof.
  unfold staged_target, call_supported, call_target, call_amount.
  destruct (tx_call tx); split; naive_solver.
Qed.

Lemma witness_key_Ok i (s : St) tx w pk :
  witness_pubkey i s tx w = Ok pk /\ check_derivation i tx w pk = Ok tt <->
  key_of_sender s tx w pk.
Proof.
  unfold witness_pubkey, check_derivation, key_of_sender. destruct (wit_pubkey w) as [id|pk'].
  - destruct (load s (tx_from_account tx)) as [acct|] eqn:El; cbn; [|naive_solver].
    case_bool_decide as Hpk; [naive_solver|].
    destruct (Z.eqb_spec (acc_sig_algo acct) (wit_sig_algo w)); cbn; naive_solver.
  - split.
    + intros [[= ->] Hd]. by case_bool_decide.
    + intros [-> Hd]. by rewrite bool_decide_eq_true_2.
Qed.

Lemma validate_tx_Ok i (s : St) tx w st :
  validate_tx ft i s tx w = Ok st <->
  exists pk, call_supported tx /\ authenticated ft s tx w pk /\
    call_amount tx + tx_fee_sat tx <= u_max 128 /\
    call_amount tx + tx_fee_sat tx <= balance s (tx_from_account tx) /\
    st = stage i s tx w pk.
Proof.
  unfold validate_tx, authenticated. rewrite outcome_bind_Ok. split.
  - intros ([to amount] & (Hc & -> & ->)%staged_target_Ok & Hr).
    rewrite outcome_bind_Ok in Hr. destruct Hr as (pk & Hw & Hr).
    rewrite outcome_bind_Ok in Hr. destruct Hr as ([] & Hd & Hr).
    rewrite outcome_bind_Ok in Hr. destruct Hr as ([] & Hv%map_err_Ok & Hr).
    destruct (Z.eqb_spec (tx_nonce tx) (acc_nonce (load_or_default s (tx_from_account tx))))
      as [Hn|]; [|discriminate]. cbn [negb] in Hr.
    rewrite outcome_bind_Ok in Hr. destruct Hr as (req & Hq & Hr).
    rewrite ok_or_Ok, checked_add_Some in Hq. destruct Hq as [-> Hq].
    destruct (Z.ltb_spec (acc_balance (load_or_default s (tx_from_account tx)))
      (call_amount tx + tx_fee_sat tx)) as [|Hb]; [discriminate|].
    exists pk. injection Hr as <-. split_and!; try done. by apply (witness_key_Ok i).
  - intros (pk & Hc & (Hk & Hv & Hn) & Hmax & Hb & ->).
    exists (call_target tx, call_amount tx). split; [by apply staged_target_Ok|].
    apply (witness_key_Ok i) in Hk as [Hw Hd]. rewrite Hw. cbn. rewrite Hd. cbn.
    rewrite Hv. cbn. unfold nonce in Hn. rewrite Hn, Z.eqb_refl. cbn.
    unfold checked_add. rewrite (proj2 (Z.leb_le _ _) Hmax). cbn.
    unfold balance in Hb. rewrite (proj2 (Z.ltb_ge _ _) Hb). done.
Qed.

Lemma pass1_Ok (s : St) ws i fees txs fees' staged :
  pass1 ft s ws i fees txs = Ok (fees', staged) ->
  fees' = fees + sum_fees txs /\ staged_for ft s ws i txs staged /\
  (fees <= u_max 128 -> fees' <= u_max 128).
Proof.
  revert i fees fees' staged. induction txs as [|tx txs IH]; intros i fees fees' staged; cbn.
  { intros [= <- <-]. split_and!; [unfold sum_fees; cbn; lia|done|done]. }
  rewrite outcome_bind_Ok. intros (w & Hw%ok_or_Ok & Hr).
  case_bool_decide as Hh; [discriminate|].
  rewrite outcome_bind_Ok in Hr. destruct Hr as (st & Hv & Hr).
  rewrite outcome_bind_Ok in Hr. destruct Hr as (f & Hf & Hr).
  rewrite ok_or_Ok, checked_add_Some in Hf. destruct Hf as [-> Hf].
  rewrite outcome_bind_Ok in Hr. destruct Hr as ([f2 staged2] & Hp & [= <- <-]).
  apply validate_tx_Ok in Hv as (pk & Hc & Ha & Hm & Hb & ->).
  apply IH in Hp as (-> & Hp & Hmax). cbn [stage st_fee_sat] in *.
  rewrite sum_fees_cons.
  split_and!; [lia| |done|intros _; specialize (Hmax Hf); lia]. exists w, pk. by split_and!.
Qed.
End pass1.

(** ** Pass 2 *)

(** A staged transaction with the ranges its fields have in the code. *)
Definition staged_typed (tx : StagedTx) : Prop :=
  in_u 128 (st_amount tx) /\ in_u 64 (st_fee_sat tx) /\ in_u 8 (st_sig_algo tx).

(** The account table after one staged transaction. *)
Definition move_account (tx : StagedTx) (accts : AccountId -> Account) (id : AccountId) : Account :=
  let after_debit i :=
    if decide (i = st_from_account tx)
    then debit (accts i) tx (st_amount tx + st_fee_sat tx) else accts i in
  if decide (id = st_to tx) then credit (after_debit id) (st_amount tx) else after_debit id.

Section pass2.
Context {St : Type} `{StateStoreLaws St} `{StateCodecs}.

Lemma saturating_add_range w a b : 0 <= w -> 0 <= a -> 0 <= b -> in_u w (saturating_add w a b).
Proof. intros. unfold in_u, saturating_add, u_max. assert (0 < 2 ^ w) by lia. lia. Qed.

Lemma typed_debit a tx req :
  typed a = true -> staged_typed tx -> 0 <= req <= acc_balance a -> typed (debit a tx req) = true.
Proof.
  unfold typed, typed_Account. rewrite !andb_true_iff, !in_ub_spec.
  intros [[Hb Hn] Hs] (_ & _ & Hst) Hr. cbn. split_and!.
  - unfold in_u in *. lia.
  - apply saturating_add_range; unfold in_u in *; lia.
  - by case_bool_decide.
Qed.

Lemma typed_credit a amount :
  typed a = true -> 0 <= amount -> typed (credit a amount) = true.
Proof.
  unfold typed, typed_Account. rewrite !andb_true_iff, !in_ub_spec.
  intros [[Hb Hn] Hs] Hr. cbn. split_and!; [|done|done].
  apply saturating_add_range; unfold in_u in *; lia.
Qed.

Lemma apply_staged_Ok tx (s s' : St) :
  staged_typed tx -> apply_staged tx s = (Ok tt, s') ->
  nonce s (st_from_account tx) = st_expected_nonce tx /\
  st_amount tx + st_fee_sat tx <= balance s (st_from_account tx) /\
  forall id, load_or_default s' id = move_account tx (load_or_default s) id.
Proof.
  intros Ht. unfold apply_staged. rewrite stm_bind_Ok.
  intros (from & s0 & [= <- <-] & Hr).
  destruct (Z.eqb_spec (acc_nonce (load_or_default s (st_from_account tx)))
    (st_expected_nonce tx)) as [Hn|]; [|discriminate]. cbn [negb] in Hr.
  rewrite stm_bind_Ok in Hr. destruct Hr as (req & s0 & Hq & Hr).
  rewrite lift_out_Ok, ok_or_Ok, checked_add_Some in Hq. destruct Hq as [[-> Hq] ->].
  destruct (Z.ltb_spec (acc_balance (load_or_default s (st_from_account tx)))
    (st_amount tx + st_fee_sat tx)) as [|Hb]; [discriminate|].
  rewrite stm_bind_Ok in Hr. destruct Hr as ([] & s1 & Hs1 & Hr).
  rewrite stm_bind_Ok in Hr. destruct Hr as (to & s2 & [= <- <-] & Hs2).
  pose proof Ht as (Ha & Hf & Hsa). unfold in_u in Ha, Hf.
  assert (typed (debit (load_or_default s (st_from_account tx)) tx
            (st_amount tx + st_fee_sat tx)) = true) as Htd
    by (apply typed_debit; [apply load_typed|done|lia]).
  split_and!; [done|done|]. intros id. unfold move_account.
  assert (typed (credit (load_or_default s1 (st_to tx)) (st_amount tx)) = true) as Htc
    by (apply typed_credit; [apply load_typed|lia]).
  rewrite (load_save _ _ _ _ id Htc Hs2).
  assert (forall i, load_or_default s1 i = _) as Hl1 by (intros i; exact (load_save _ _ _ _ i Htd Hs1)).
  rewrite !Hl1.
  repeat case_decide; subst; first [done|congruence].
Qed.

Lemma keeps_save (R : St -> St -> Prop) `{!PreOrder R} {E} id a :
  (forall s buf, cbor_ser a = Some buf -> R s (put s Accounts id buf)) ->
  keeps R (save (E:=E) id a).
Proof.
  intros HR s r s'. unfold save. destruct (cbor_ser a) as [buf|] eqn:Es; intros [= _ <-].
  - by apply HR.
  - done.
Qed.
End pass2.

(** ** Balance sheets *)

(** The sum of a balance function over a list of accounts; [total_balance s] is the sheet of the
    balances of [s]. *)
Definition sheet (B : AccountId -> Z) (ids : list AccountId) : Z :=
  foldr (fun id acc => B id + acc) 0 ids.

(** What a move of [amount] from [from] to [to] with [fee] changes on account [id]. *)
Definition delta (from to : AccountId) (amount fee : Z) (id : AccountId) : Z :=
  (if decide (id = to) then amount else 0) - (if decide (id = from) then amount + fee else 0).

Section sheets.
Lemma sheet_cons B id ids : sheet B (id :: ids) = B id + sheet B ids.
Proof. done. Qed.

Lemma sheet_ext B1 B2 ids : (forall id, id ∈ ids -> B1 id = B2 id) -> sheet B1 ids = sheet B2 ids.
Proof.
  induction ids as [|id ids IH]; intros HB; [done|]. rewrite !sheet_cons.
  rewrite HB by by left. rewrite IH; [done|]. intros i Hi. apply HB. by right.
Qed.

Lemma sheet_add B D ids : sheet (fun id => B id + D id) ids = sheet B ids + sheet D ids.
Proof.
  induction ids as [|id ids IH]; [done|]. rewrite !sheet_cons, IH. lia.
Qed.

Lemma sheet_opp B ids : sheet (fun id => - B id) ids = - sheet B ids.
Proof. induction ids as [|id ids IH]; [done|]. rewrite !sheet_cons, IH. lia. Qed.

Lemma sheet_single x d ids :
  NoDup ids -> x ∈ ids -> sheet (fun id => if decide (id = x) then d else 0) ids = d.
Proof.
  induction 1 as [|i ids Hi Hnd IH]; intros Hx; [by apply elem_of_nil in Hx|].
  rewrite sheet_cons. apply elem_of_cons in Hx as [<-|Hx].
  - rewrite decide_True by done.
    rewrite (sheet_ext _ (fun _ => 0)); [|intros j Hj; rewrite decide_False; [done|by intros ->]].
    replace (sheet (fun _ => 0) ids) with 0; [lia|].
    clear. induction ids as [|j ids IH]; [done|]. rewrite sheet_cons. lia.
  - rewrite decide_False by (by intros ->). rewrite IH by done. lia.
Qed.

Lemma sheet_nonneg B ids : (forall id, 0 <= B id) -> 0 <= sheet B ids.
Proof.
  intros HB. induction ids as [|id ids IH]; [done|].
  rewrite sheet_cons. specialize (HB id). lia.
Qed.

Lemma sheet_le B x ids : (forall id, 0 <= B id) -> x ∈ ids -> B x <= sheet B ids.
Proof.
  intros HB. induction ids as [|id ids IH]; intros Hx; [by apply elem_of_nil in Hx|].
  rewrite sheet_cons. pose proof (sheet_nonneg B ids HB) as Hs.
  apply elem_of_cons in Hx as [->|Hx]; [lia|]. specialize (IH Hx). specialize (HB id). lia.
Qed.

Lemma sheet_delta from to amount fee ids :
  NoDup ids -> from ∈ ids -> to ∈ ids -> sheet (delta from to amount fee) ids = - fee.
Proof.
  intros Hnd Hf Ht. unfold delta.
  rewrite (sheet_ext _ (fun id => (if decide (id = to) then amount else 0) +
    - (if decide (id = from) then amount + fee else 0))) by (intros; lia).
  rewrite sheet_add, sheet_opp, !sheet_single by done. lia.
Qed.
End sheets.
#[global] Arguments sheet : simpl never.

(** ** The account table through pass 2 *)

Definition moves (staged : list StagedTx) (accts : AccountId -> Account) : AccountId -> Account :=
  foldl (fun accts tx => move_account tx accts) accts staged.

(** Every staged transaction meets its nonce and its balance when its turn comes. *)
Fixpoint moves_valid (staged : list StagedTx) (accts : AccountId -> Account) : Prop :=
  match staged with
  | [] => True
  | tx :: staged =>
      acc_nonce (accts (st_from_account tx)) = st_expected_nonce tx /\
      st_amount tx + st_fee_sat tx <= acc_balance (accts (st_from_account tx)) /\
      moves_valid staged (move_account tx accts)
  end.

Definition staged_delta (staged : list StagedTx) (id : AccountId) : Z :=
  foldr (fun tx acc => delta (st_from_account tx) (st_to tx) (st_amount tx) (st_fee_sat tx) id + acc)
    0 staged.

Section moves.
Lemma move_account_ext tx a1 a2 :
  (forall id, a1 id = a2 id) -> forall id, move_account tx a1 id = move_account tx a2 id.
Proof. intros Ha id. unfold move_account. by rewrite !Ha. Qed.

Lemma moves_ext staged a1 a2 :
  (forall id, a1 id = a2 id) -> forall id, moves staged a1 id = moves staged a2 id.
Proof.
  revert a1 a2; induction staged as [|tx staged IH]; intros a1 a2 Ha id; cbn; [done|].
  apply IH. by apply move_account_ext.
Qed.

Lemma moves_valid_ext staged a1 a2 :
  (forall id, a1 id = a2 id) -> moves_valid staged a1 -> moves_valid staged a2.
Proof.
  revert a1 a2; induction staged as [|tx staged IH]; intros a1 a2 Ha; cbn; [done|].
  rewrite Ha. intros (? & ? & Hv). split_and!; [done..|].
  eapply IH; [|exact Hv]. by apply move_account_ext.
Qed.

Lemma moves_cons tx staged a : moves (tx :: staged) a = moves staged (move_account tx a).
Proof. done. Qed.

Lemma move_nonce tx accts id :
  acc_nonce (move_account tx accts id) =
  if decide (id = st_from_account tx) then saturating_add 64 (acc_nonce (accts id)) 1
  else acc_nonce (accts id).
Proof. unfold move_account. repeat case_decide; done. Qed.

Lemma move_typed tx accts :
  (forall id, typed (accts id) = true) -> staged_typed tx ->
  st_amount tx + st_fee_sat tx <= acc_balance (accts (st_from_account tx)) ->
  forall id, typed (move_account tx accts id) = true.
Proof.
  intros Ha Ht Hb id. pose proof Ht as ([Hm _] & [Hf _] & _).
  assert (forall i, typed (if decide (i = st_from_account tx)
    then debit (accts i) tx (st_amount tx + st_fee_sat tx) else accts i) = true) as Hd.
  { intros i. case_decide; [|done]. subst. apply typed_debit; [done|done|lia]. }
  unfold move_account. destruct (decide (id = st_to tx)); [|done].
  by apply typed_credit.
Qed.

Lemma typed_balance a : typed a = true -> 0 <= acc_balance a < 2 ^ 128.
Proof.
  unfold typed, typed_Account. rewrite !andb_true_iff, !in_ub_spec. intros [[? _] _]. done.
Qed.

(** Without saturation one move changes the balances by [delta]. *)
Lemma move_balance tx accts ids :
  NoDup ids -> st_from_account tx ∈ ids -> st_to tx ∈ ids ->
  (forall id, typed (accts id) = true) -> staged_typed tx ->
  st_amount tx + st_fee_sat tx <= acc_balance (accts (st_from_account tx)) ->
  sheet (fun id => acc_balance (accts id)) ids <= u_max 128 ->
  forall id, acc_balance (move_account tx accts id) =
    acc_balance (accts id) +
    delta (st_from_account tx) (st_to tx) (st_amount tx) (st_fee_sat tx) id.
Proof.
  intros Hnd Hf Ht Ha (Hm & Hfee & _) Hb Hs id. unfold in_u in Hm, Hfee.
  set (from := st_from_account tx) in *. set (to := st_to tx) in *.
  set (D i := acc_balance (accts i) + - (if decide (i = from) then st_amount tx + st_fee_sat tx else 0)).
  assert (forall i, 0 <= D i) as HD.
  { intros i. unfold D. pose proof (typed_balance _ (Ha i)).
    case_decide; [subst i|]; lia. }
  assert (D to + st_amount tx <= u_max 128).
  { pose proof (sheet_le D to ids HD Ht) as Hle. unfold D in Hle at 2.
    rewrite sheet_add, sheet_opp, sheet_single in Hle by done. lia. }
  unfold move_account, delta. fold from to.
  destruct (decide (id = to)) as [->|]; destruct (decide (_ = from)); cbn;
    unfold D in *; try lia; unfold saturating_add; repeat case_decide; try done; lia.
Qed.

Lemma staged_delta_cons tx staged id :
  staged_delta (tx :: staged) id =
  delta (st_from_account tx) (st_to tx) (st_amount tx) (st_fee_sat tx) id + staged_delta staged id.
Proof. done. Qed.

Lemma moves_balance staged accts ids :
  NoDup ids ->
  Forall (fun tx => st_from_account tx ∈ ids /\ st_to tx ∈ ids /\ staged_typed tx) staged ->
  (forall id, typed (accts id) = true) -> moves_valid staged accts ->
  sheet (fun id => acc_balance (accts id)) ids <= u_max 128 ->
  forall id, acc_balance (moves staged accts id) = acc_balance (accts id) + staged_delta staged id.
Proof.
  intros Hnd HF. revert accts. induction HF as [|tx staged (Hf & Ht & Hty) HF IH];
    intros accts Ha Hv Hs id; [cbn; lia|].
  destruct Hv as (Hn & Hb & Hv). rewrite moves_cons, staged_delta_cons.
  pose proof (move_balance tx accts ids Hnd Hf Ht Ha Hty Hb Hs) as Hm.
  rewrite IH; [rewrite Hm; lia|by apply move_typed|done|].
  rewrite (sheet_ext _ _ _ (fun i _ => Hm i)), sheet_add, sheet_delta by done.
  destruct Hty as (_ & [] & _). lia.
Qed.

(** Two staged transactions of one sender cannot both meet the nonce they were staged
    with: the first one raises it. *)
Lemma moves_senders staged accts (n0 : AccountId -> Z) (done : list AccountId) :
  Forall (fun tx => st_expected_nonce tx = n0 (st_from_account tx) /\
                    n0 (st_from_account tx) < u_max 64) staged ->
  (forall id, n0 id <= acc_nonce (accts id)) ->
  (forall id, id ∈ done -> n0 id < acc_nonce (accts id)) ->
  moves_valid staged accts ->
  NoDup (st_from_account <$> staged) /\
  (forall tx, tx ∈ staged -> st_from_account tx ∉ done).
Proof.
  intros HF. revert accts done.
  induction HF as [|tx staged [He Hmax] HF IH]; intros accts dn Hge Hdone Hv; cbn.
  { split; [constructor|]. intros tx Htx. by apply elem_of_nil in Htx. }
  destruct Hv as (Hn & _ & Hv).
  destruct (IH (move_account tx accts) (st_from_account tx :: dn)) as [IH1 IH2]; [| |done|].
  - intros id. rewrite move_nonce. specialize (Hge id). case_decide; [|done].
    unfold saturating_add. subst id. lia.
  - intros id Hid. rewrite move_nonce. unfold saturating_add. case_decide; [subst id; lia|].
    apply elem_of_cons in Hid as [?|Hid]; [done|]. by apply Hdone.
  - split.
    + constructor; [|done]. rewrite list_elem_of_fmap. intros (tx' & E & Htx').
      apply IH2 in Htx'. rewrite <- E in Htx'. set_solver.
    + intros tx' Htx'. apply elem_of_cons in Htx' as [->|Htx'].
      * intros Hd. apply Hdone in Hd. lia.
      * apply IH2 in Htx'. set_solver.
Qed.

Lemma moves_untouched staged accts id :
  id ∉ st_from_account <$> staged -> id ∉ st_to <$> staged ->
  moves staged accts id = accts id.
Proof.
  revert accts. induction staged as [|tx staged IH]; intros accts Hf Ht; [done|].
  rewrite fmap_cons, not_elem_of_cons in Hf, Ht. rewrite moves_cons, IH by tauto.
  unfold move_account. by rewrite !decide_False by tauto.
Qed.
End moves.

Section pass2_run.
Context {St : Type} `{StateStoreLaws St} `{StateCodecs}.

Lemma for_each_staged_Ok staged (s s' : St) :
  Forall staged_typed staged -> for_each apply_staged staged s = (Ok tt, s') ->
  moves_valid staged (load_or_default s) /\
  forall id, load_or_default s' id = moves staged (load_or_default s) id.
Proof.
  intros HF. revert s. induction HF as [|tx staged Ht HF IH]; intros s Hr.
  { cbn in Hr. injection Hr as <-. done. }
  apply for_each_cons_Ok in Hr as (s1 & R1 & R2).
  apply apply_staged_Ok in R1 as (Hn & Hb & Hl); [|done].
  apply IH in R2 as [Hv Hm]. split.
  - cbn. split_and!; [done|done|]. by eapply moves_valid_ext.
  - intros id. rewrite Hm, moves_cons. by apply moves_ext.
Qed.
End pass2_run.

(** ** The passes outside the accounts *)

(** The two states agree on a subtree. *)
Definition same_sub {St} `{StateStore St} (sub : Subtree) (s s' : St) : Prop :=
  forall k, get s' sub k = get s sub k.

#[export] Instance same_sub_preorder {St} `{StateStore St} sub : PreOrder (same_sub (St:=St) sub).
Proof. split; [done|]. intros s1 s2 s3 H1 H2 k. by rewrite H2, H1. Qed.

Section frames.
Context {St : Type} `{StateStoreLaws St} `{HashPrims} `{SigPrims} `{StateCodecs}.
Context (ft : Features).

Lemma same_sub_put sub (s : St) sub' k v : sub' <> sub -> same_sub sub s (put s sub' k v).
Proof. intros Hne k'. apply get_put_other. congruence. Qed.

Lemma keeps_put_record (R : St -> St -> Prop) `{!PreOrder R} {A} `{Cbor A} e sub key (a : A) :
  (forall s buf, cbor_ser a = Some buf -> R s (put s sub key buf)) ->
  keeps R (put_record e sub key a).
Proof.
  intros HR s r s'. unfold put_record. destruct (cbor_ser a) as [buf|] eqn:Es; cbn;
    intros [= _ <-]; [by apply HR|done].
Qed.

Lemma keeps_require_governance (R : St -> St -> Prop) `{!PreOrder R} i gp payload :
  keeps R (require_governance ft i gp payload).
Proof. unfold require_governance. keeps_tac. Qed.

Lemma keeps_require_coordinator (R : St -> St -> Prop) `{!PreOrder R} i job from :
  keeps R (require_coordinator i job from).
Proof. unfold require_coordinator. keeps_tac. Qed.

(** The effects of the calls only write the [Meta] and [Attest] subtrees. *)
Lemma keeps_apply_effect sub h itx :
  sub <> Meta -> sub <> Attest -> keeps (same_sub (St:=St) sub) (apply_effect ft h itx).
Proof.
  intros N1 N2. destruct itx as [i tx]. cbn.
  destruct (tx_call tx);
    unfold apply_upgrade, apply_attest_round, apply_register, apply_set_governance,
      apply_pedigree; keeps_tac;
    apply keeps_modify; intros; by apply same_sub_put.
Qed.

Lemma keeps_effects sub h itxs :
  sub <> Meta -> sub <> Attest ->
  keeps (same_sub (St:=St) sub) (for_each (apply_effect ft h) itxs).
Proof.
  intros N1 N2. apply keeps_for_each; [apply _|]. intros. by apply keeps_apply_effect.
Qed.

Lemma keeps_apply_staged sub tx :
  sub <> Accounts -> keeps (same_sub (St:=St) sub) (apply_staged tx).
Proof.
  intros Hne. unfold apply_staged. keeps_tac;
    apply keeps_save; [apply _|intros; by apply same_sub_put
                      |apply _|intros; by apply same_sub_put].
Qed.

Lemma keeps_coinbase sub h reward fees :
  sub <> Accounts -> keeps (same_sub (St:=St) sub) (coinbase h reward fees).
Proof.
  intros Hne. unfold coinbase. keeps_tac.
  apply keeps_save; [apply _|intros; by apply same_sub_put].
Qed.

Lemma keeps_write_reflection sub b fees minted :
  sub <> Reflect -> keeps (same_sub (St:=St) sub) (write_reflection b fees minted).
Proof.
  intros Hne. unfold write_reflection. keeps_tac;
    apply keeps_modify; intros; by apply same_sub_put.
Qed.

Lemma keeps_activate_upgrade sub h :
  sub <> Meta -> keeps (same_sub (St:=St) sub) (activate_upgrade h).
Proof.
  intros Hne. unfold activate_upgrade. keeps_tac.
  apply keeps_modify. intros; by apply same_sub_put.
Qed.

Lemma same_sub_load (s s' : St) id :
  same_sub Accounts s s' -> load_or_default s' id = load_or_default s id.
Proof. intros Hs. unfold load_or_default, load, get_cbor. by rewrite Hs. Qed.
End frames.

(** ** The coinbase and the whole block *)

Definition pay (a : Account) (amount : Z) : Account :=
  {| acc_balance := acc_balance a + amount; acc_nonce := acc_nonce a;
     acc_pubkey := acc_pubkey a; acc_sig_algo := acc_sig_algo a |}.

Section block.
Context {St : Type} `{StateStoreLaws St} `{HashPrims} `{SigPrims} `{StateCodecs}.
Context (ft : Features).

Definition miner_of (b : Block) : AccountId := from_coinbase (bh_coinbase (blk_header b)).

Lemma coinbase_Ok h reward fees (s s' : St) minted :
  0 <= reward -> 0 <= fees -> coinbase h reward fees s = (Ok minted, s') ->
  minted = reward + fees /\ minted <= u_max 128 /\
  forall id, load_or_default s' id =
    if decide (id = from_coinbase (bh_coinbase h)) then pay (load_or_default s id) minted
    else load_or_default s id.
Proof.
  intros Hr0 Hf0. unfold coinbase. rewrite stm_bind_Ok. intros (m & s0 & [= <- <-] & Hr).
  rewrite stm_bind_Ok in Hr. destruct Hr as (t & s0 & Ht & Hr).
  rewrite lift_out_Ok, ok_or_Ok, checked_add_Some in Ht. destruct Ht as [[-> Ht] ->].
  rewrite stm_bind_Ok in Hr. destruct Hr as (nb & s0 & Hnb & Hr).
  rewrite lift_out_Ok, ok_or_Ok, checked_add_Some in Hnb. destruct Hnb as [[-> Hnb] ->].
  rewrite stm_bind_Ok in Hr. destruct Hr as ([] & s1 & Hs & Hr). injection Hr as <- <-.
  split_and!; [done|done|]. intros id.
  set (miner := from_coinbase (bh_coinbase h)) in *.
  assert (typed (pay (load_or_default s miner) (reward + fees)) = true) as Htp.
  { pose proof (load_typed s miner) as Htm. unfold typed, typed_Account in *.
    rewrite !andb_true_iff, !in_ub_spec in *. destruct Htm as [[Hb Hn] Ha].
    cbn [pay acc_balance acc_nonce acc_sig_algo].
    split_and!; [|done|done]. unfold in_u, u_max in *. lia. }
  rewrite (load_save _ _ _ _ id Htp Hs). case_decide; [by subst|done].
Qed.

(** The stations of a successful block. *)
Record block_run (b : Block) (reward : Z) (s s' : St) (out : ApplyOutput)
    (staged : list StagedTx) (s1 s2 s3 s4 : St) : Prop := {
  run_pass1 : pass1 ft s (body_witnesses (blk_body b)) 0 0 (body_txs (blk_body b)) =
              Ok (ao_fees_collected_sat out, staged);
  run_pass2 : for_each apply_staged staged s = (Ok tt, s1);
  run_effects : for_each (apply_effect ft (blk_header b))
                  (enumerate (body_txs (blk_body b))) s1 = (Ok tt, s2);
  run_coinbase : coinbase (blk_header b) reward (ao_fees_collected_sat out) s2 =
                 (Ok (ao_coinbase_minted_sat out), s3);
  run_reflection : write_reflection b (ao_fees_collected_sat out)
                     (ao_coinbase_minted_sat out) s3 = (Ok tt, s4);
  run_activate : activate_upgrade (blk_header b) s4 = (Ok tt, s');
  run_count : ao_txs_applied out = Z.of_nat (length (body_txs (blk_body b)));
  run_root : ao_state_root out = root s';
}.

Lemma apply_block_Ok b reward (s s' : St) out :
  apply_block ft b reward s = (Ok out, s') ->
  exists staged s1 s2 s3 s4, block_run b reward s s' out staged s1 s2 s3 s4.
Proof.
  unfold apply_block. cbv zeta. rewrite stm_bind_Ok.
  intros ([fees staged] & s0 & E1 & Hr). injection E1 as E1 <-.
  rewrite stm_bind_Ok in Hr. destruct Hr as ([] & s1 & E2 & Hr).
  rewrite stm_bind_Ok in Hr. destruct Hr as ([] & s2 & E3 & Hr).
  rewrite stm_bind_Ok in Hr. destruct Hr as (minted & s3 & E4 & Hr).
  rewrite stm_bind_Ok in Hr. destruct Hr as ([] & s4 & E5 & Hr).
  rewrite stm_bind_Ok in Hr. destruct Hr as ([] & s5 & E6 & Hr).
  injection Hr as <- <-. exists staged, s1, s2, s3, s4. by split.
Qed.

Lemma staged_for_typed (s : St) ws i txs staged :
  forallb typed txs = true -> forallb typed ws = true ->
  staged_for ft s ws i txs staged -> Forall staged_typed staged.
Proof.
  revert i txs. induction staged as [|st staged IH]; intros i [|tx txs] Htx Hw Hs;
    try done. cbn in Htx. apply andb_true_iff in Htx as [Ht Htx].
  destruct Hs as [(w & pk & Hw' & _ & _ & _ & _ & ->) Hs]. constructor; [|by eapply IH].
  assert (typed w = true) as Htw.
  { rewrite forallb_forall in Hw. apply Hw. apply list_elem_of_In.
    by eapply list_elem_of_lookup_2. }
  unfold typed, typed_TxBody in Ht. unfold typed, typed_Witness in Htw.
  rewrite !andb_true_iff, !in_ub_spec in *. destruct_and!.
  unfold staged_typed, stage; cbn. split_and!; [|done|done].
  unfold call_amount. destruct (tx_call tx); try done.
  match goal with Hc : typed (Transfer _ _) = true |- _ =>
    unfold typed, typed_TxCall in Hc; rewrite andb_true_iff, in_ub_spec in Hc; tauto end.
Qed.

Lemma staged_for_fields (s : St) ws i txs staged :
  staged_for ft s ws i txs staged ->
  st_from_account <$> staged = tx_from_account <$> txs /\
  st_to <$> staged = call_target <$> txs /\
  st_amount <$> staged = call_amount <$> txs /\
  st_fee_sat <$> staged = tx_fee_sat <$> txs /\
  Forall (fun st => st_expected_nonce st = nonce s (st_from_account st)) staged.
Proof.
  revert i txs. induction staged as [|st staged IH]; intros i [|tx txs] Hs; try done.
  destruct Hs as [(w & pk & _ & _ & _ & _ & _ & ->) Hs].
  destruct (IH _ _ Hs) as (E1 & E2 & E3 & E4 & E5).
  rewrite !fmap_cons, E1, E2, E3, E4. split_and!; try done. by constructor.
Qed.

Lemma staged_for_lookup (s : St) ws i txs staged k tx :
  staged_for ft s ws i txs staged -> txs !! k = Some tx ->
  exists w pk, ws !! (i + k)%nat = Some w /\ witness_hash w = tx_witness_hash tx /\
    call_supported tx /\ authenticated ft s tx w pk /\
    call_amount tx + tx_fee_sat tx <= balance s (tx_from_account tx).
Proof.
  revert i k txs. induction staged as [|st staged IH]; intros i k [|tx' txs] Hs Hk; try done.
  destruct Hs as [(w & pk & Hw & Hh & Hc & Ha & Hb & _) Hs]. destruct k as [|k].
  - cbn in Hk. injection Hk as <-. exists w, pk. rewrite Nat.add_0_r. by split_and!.
  - rewrite Nat.add_succ_r, <- Nat.add_succ_l. by eapply IH.
Qed.

(** What pass 1 staged went through pass 2. *)
Lemma block_run_moves b reward (s s' : St) out staged s1 s2 s3 s4 : typed (blk_body b) = true ->
  block_run b reward s s' out staged s1 s2 s3 s4 ->
  Forall staged_typed staged /\
  staged_for ft s (body_witnesses (blk_body b)) 0 (body_txs (blk_body b)) staged /\
  moves_valid staged (load_or_default s).
Proof.
  intros Ht R. pose proof (pass1_Ok _ _ _ _ _ _ _ _ (run_pass1 _ _ _ _ _ _ _ _ _ _ R)) as (_ & Hs & _).
  unfold typed, typed_BlockBody in Ht. apply andb_true_iff in Ht as [Htx Htw].
  pose proof (staged_for_typed _ _ _ _ _ Htx Htw Hs) as Hst.
  split_and!; [done|done|]. by destruct (for_each_staged_Ok _ _ _ Hst (run_pass2 _ _ _ _ _ _ _ _ _ _ R)).
Qed.

(** The account table after a successful block: the staged moves, then the coinbase. *)
Lemma block_run_accounts b reward (s s' : St) out staged s1 s2 s3 s4 :
  typed b = true -> 0 <= reward ->
  block_run b reward s s' out staged s1 s2 s3 s4 ->
  ao_fees_collected_sat out = sum_fees (body_txs (blk_body b)) /\
  ao_coinbase_minted_sat out = reward + ao_fees_collected_sat out /\
  0 <= ao_fees_collected_sat out /\
  ao_coinbase_minted_sat out <= u_max 128 /\
  Forall staged_typed staged /\
  staged_for ft s (body_witnesses (blk_body b)) 0 (body_txs (blk_body b)) staged /\
  moves_valid staged (load_or_default s) /\
  forall id, load_or_default s' id =
    let a := moves staged (load_or_default s) id in
    if decide (id = miner_of b) then pay a (ao_coinbase_minted_sat out) else a.
Proof.
  intros Ht Hr0 R.
  pose proof (pass1_Ok _ _ _ _ _ _ _ _ (run_pass1 _ _ _ _ _ _ _ _ _ _ R)) as (Ef & Hs & _).
  unfold typed, typed_Block, typed at 2, typed_BlockBody in Ht.
  rewrite !andb_true_iff in Ht. destruct Ht as [_ [Htx Htw]].
  pose proof (staged_for_typed _ _ _ _ _ Htx Htw Hs) as Hst.
  assert (0 <= sum_fees (body_txs (blk_body b))) as Hf0.
  { clear -Htx. induction (body_txs (blk_body b)) as [|tx txs IH]; [done|].
    cbn in Htx. apply andb_true_iff in Htx as [Ht Htx]. rewrite sum_fees_cons.
    unfold typed, typed_TxBody in Ht. rewrite !andb_true_iff, !in_ub_spec in Ht.
    destruct_and!. unfold in_u in *. specialize (IH Htx). lia. }
  destruct (for_each_staged_Ok _ _ _ Hst (run_pass2 _ _ _ _ _ _ _ _ _ _ R)) as [Hv Hm].
  assert (0 <= ao_fees_collected_sat out) as Hf1 by lia.
  destruct (coinbase_Ok _ _ _ _ _ _ Hr0 Hf1 (run_coinbase _ _ _ _ _ _ _ _ _ _ R))
    as (Emint & Hmax & Hl).
  split_and!; try done. intros id. cbv zeta.
  rewrite (same_sub_load s4 s') by
    (eapply keeps_activate_upgrade; [done|exact (run_activate _ _ _ _ _ _ _ _ _ _ R)]).
  rewrite (same_sub_load s3 s4) by
    (eapply keeps_write_reflection; [done|exact (run_reflection _ _ _ _ _ _ _ _ _ _ R)]).
  rewrite Hl. rewrite (same_sub_load s1 s2) by
    (eapply keeps_effects; [done|done|exact (run_effects _ _ _ _ _ _ _ _ _ _ R)]).
  by rewrite Hm.
Qed.
End block.
