(* ===== verification/ApplyRecords.v ===== *)
(** * ApplyRecords: what a block does outside the accounts

    The committee and the records it governs (pending rotations, coordinator registries)
    through a whole block, whatever its result; attestations; the activation of a rotation;
    the reflection; and the atomicity of [apply_block]. *)

From S2P Require Export ApplyProps.
From Stdlib Require Import Strings.Byte.

Local Open Scope Z_scope.

Definition governance_key : bytes := ascii_bytes "governance".
Definition upgrade_key : bytes := ascii_bytes "upgrade_crypto".
Definition active_key : bytes := ascii_bytes "active_crypto".

(** ** Rotations of the committee *)

Section governed.
Context {St : Type} `{StateStoreLaws St} `{HashPrims} `{SigPrims} `{StateCodecs}.
Context (ft : Features).

(** Committee [c2] is valid and [c1] approved it with a threshold proof. *)
Definition gov_step (c1 c2 : GovernanceConfig) : Prop :=
  validate c2 = Ok tt /\
  exists proof, verify_governance_proof ft c1 proof (set_governance_gov_payload c2) = Ok tt.

(** The committee in force, if any, approves [payload]. *)
Definition gov_approves (s : St) (payload : bytes) : Prop :=
  forall cfg, load_governance s = Some cfg ->
    exists proof, verify_governance_proof ft cfg proof payload = Ok tt.

(** Between two states under a committee: the committee moved by approved rotations, and
    the record at [Meta]/[key] is the old one or one that a committee on the way approved. *)
Definition governed {A} `{Cbor A} (key : bytes) (ok : GovernanceConfig -> A -> Prop)
    (s s' : St) : Prop :=
  forall cfg, load_governance s = Some cfg ->
    (exists cfg', load_governance s' = Some cfg' /\ rtc gov_step cfg cfg') /\
    (get_cbor (A:=A) s' Meta key = get_cbor s Meta key \/
     exists a cfg', get_cbor s' Meta key = Some a /\ rtc gov_step cfg cfg' /\ ok cfg' a).

#[global] Instance governed_preorder {A} `{Cbor A} key ok : PreOrder (governed (A:=A) key ok).
Proof.
  split.
  - intros s cfg Hc. split; [by exists cfg|by left].
  - intros s1 s2 s3 H12 H23 cfg Hc.
    destruct (H12 cfg Hc) as [(c2 & Hc2 & R12) K12].
    destruct (H23 c2 Hc2) as [(c3 & Hc3 & R23) K23].
    split; [exists c3; split; [done|by etrans]|].
    destruct K23 as [E23|(a & c & Ha & Rc & Hok)].
    + rewrite E23. destruct K12 as [E12|K12]; [left; by rewrite E12|by right].
    + right. exists a, c. split_and!; [done|by etrans|done].
Qed.

Lemma load_governance_put_other (s : St) sub k v :
  (sub, k) <> (Meta, governance_key) -> load_governance (put s sub k v) = load_governance s.
Proof. intros Hne. by apply get_cbor_put_other. Qed.

Lemma governed_put_other {A} `{Cbor A} key ok (s : St) sub k v :
  (sub, k) <> (Meta, governance_key) -> (sub, k) <> (Meta, key) ->
  governed (A:=A) key ok s (put s sub k v).
Proof.
  intros N1 N2 cfg Hc. rewrite load_governance_put_other, get_cbor_put_other by done.
  split; [by exists cfg|by left].
Qed.

(** The governed record itself is written under the approval of the current committee. *)
Lemma governed_put_record {A} `{Cbor A} key ok (s : St) (a : A) buf :
  key <> governance_key -> typed a = true -> cbor_ser a = Some buf ->
  (forall cfg, load_governance s = Some cfg -> ok cfg a) ->
  governed key ok s (put s Meta key buf).
Proof.
  intros Hne Ht Hs Hok cfg Hc. rewrite load_governance_put_other by congruence.
  split; [by exists cfg|]. right. exists a, cfg. split_and!; [|done|by apply Hok].
  by apply get_cbor_put_same.
Qed.

Lemma governed_put_config {A} `{Cbor A} key ok (s : St) c buf :
  key <> governance_key -> typed c = true -> cbor_ser c = Some buf -> validate c = Ok tt ->
  gov_approves s (set_governance_gov_payload c) ->
  governed (A:=A) key ok s (put s Meta governance_key buf).
Proof.
  intros Hne Ht Hs Hval Happ cfg Hc. split.
  - exists c. split; [by apply get_cbor_put_same|]. apply rtc_once. split; [done|by apply Happ].
  - left. apply get_cbor_put_other. congruence.
Qed.

Lemma require_governance_Ok i gp payload (s s' : St) :
  require_governance ft i gp payload s = (Ok tt, s') -> s' = s /\ gov_approves s payload.
Proof.
  unfold require_governance. rewrite stm_bind_Ok. intros (o & s0 & [= <- <-] & Hr).
  unfold gov_approves. destruct (load_governance s) as [cfg|].
  - case_bool_decide; [discriminate|]. rewrite stm_bind_Ok in Hr.
    destruct Hr as (proof & s1 & Hp & Hr). rewrite lift_out_Ok in Hp. destruct Hp as [_ ->].
    rewrite lift_out_Ok, map_err_Ok in Hr. destruct Hr as [Hv ->].
    split; [done|]. intros c [= <-]. by exists proof.
  - injection Hr as ->. split; [done|]. intros c [=].
Qed.

(** Gate, then write: the write happens only under approval. *)
Lemma keeps_gated_write (R : St -> St -> Prop) `{!PreOrder R} {A} `{Cbor A} i gp payload e sub key (a : A) :
  (forall s buf, cbor_ser a = Some buf -> gov_approves s payload -> R s (put s sub key buf)) ->
  keeps R (require_governance ft i gp payload;; put_record e sub key a).
Proof.
  intros HR s r s'. unfold mbind, stm_bind at 1.
  destruct (require_governance ft i gp payload s) as [[[]|er|] s1] eqn:Er; intros Hr.
  - apply require_governance_Ok in Er as [-> Happ].
    unfold put_record in Hr. destruct (cbor_ser a) as [buf|] eqn:Es; cbn in Hr;
      injection Hr as _ <-; [by apply HR|done].
  - injection Hr as _ <-. eapply keeps_require_governance; [done|exact Er].
  - injection Hr as _ <-. eapply keeps_require_governance; [done|exact Er].
Qed.

(** The part of a block outside [Meta] keeps every governed record. *)
Lemma governed_other_sub {A} `{Cbor A} key ok (s : St) sub k v :
  sub <> Meta -> governed (A:=A) key ok s (put s sub k v).
Proof. intros Hne. apply governed_put_other; congruence. Qed.

Lemma keeps_set_governance {A} `{Cbor A} key ok i config gp :
  key <> governance_key ->
  keeps (governed (A:=A) key ok) (apply_set_governance ft i config gp).
Proof.
  intros Hne. unfold apply_set_governance.
  intros s r s'. unfold mbind, stm_bind at 1.
  destruct (cbor_de config) as [c|] eqn:Ec; cbn [ok_or lift_out]; [|by intros [= _ <-]].
  unfold stm_bind at 1. destruct (validate c) as [[]|m|] eqn:Ev; cbn [map_err lift_out];
    [|by intros [= _ <-]..].
  apply keeps_gated_write; [apply _|]. intros s0 buf Hs Happ.
  apply (governed_put_config key ok s0 c); try done. by eapply cbor_de_typed.
Qed.
End governed.

(** ** A block under a committee *)

Section block_governed.
Context {St : Type} `{StateStoreLaws St} `{HashPrims} `{SigPrims} `{StateCodecs}.
Context (ft : Features).

(** Who approved a pending rotation, a coordinator registry. *)
Definition upgrade_approved (cfg : GovernanceConfig) (p : PendingCryptoUpgrade) : Prop :=
  allowed_sig ft (pu_sig_algo p) = true /\ allowed_hash ft (pu_hash_algo p) = true /\
  exists proof, verify_governance_proof ft cfg proof
    (upgrade_crypto_gov_payload (pu_target_height p) (pu_sig_algo p) (pu_hash_algo p)) = Ok tt.

Definition registry_approved (job : bytes) (cfg : GovernanceConfig) (a : CoordinatorAuthority)
    : Prop :=
  ca_job_id a = job /\
  exists proof, verify_governance_proof ft cfg proof
    (register_attest_gov_payload job (ca_coordinators a)) = Ok tt.

Lemma typed_call_of_body b i tx :
  typed b = true -> (i, tx) ∈ enumerate (body_txs (blk_body b)) -> typed (tx_call tx) = true.
Proof.
  intros Ht Hin. unfold enumerate in Hin. apply elem_of_lookup_imap in Hin as (k & x & E & Hk).
  simplify_eq. unfold typed, typed_Block in Ht. rewrite andb_true_iff in Ht.
  pose proof (typed_body_tx _ x (proj2 Ht) (list_elem_of_lookup_2 _ _ _ Hk)) as Htx.
  unfold typed at 1, typed_TxBody in Htx. rewrite !andb_true_iff in Htx. tauto.
Qed.

Lemma keeps_upgrade_governed h i th sa ha gp :
  typed (UpgradeCrypto th sa ha gp) = true -> in_ub 64 (bh_height h) = true ->
  keeps (governed (St:=St) ft upgrade_key upgrade_approved) (apply_upgrade ft h i th sa ha gp).
Proof.
  intros Ht Hh. unfold apply_upgrade.
  destruct (allowed_sig ft sa) eqn:Es; cbn [negb]; [|keeps_tac].
  destruct (allowed_hash ft ha) eqn:Eh; cbn [negb]; [|keeps_tac].
  apply keeps_gated_write; [apply _|]. intros s buf Hs Happ.
  eapply governed_put_record; [done| |exact Hs|].
  - unfold typed, typed_TxCall in Ht. unfold typed, typed_PendingCryptoUpgrade. cbn.
    by rewrite Ht, Hh.
  - intros cfg Hc. split_and!; [done|done|]. by apply Happ.
Qed.

Lemma keeps_register_governed job h i j cs gp :
  typed (RegisterAttestCoordinator j cs gp) = true -> in_ub 64 (bh_height h) = true ->
  keeps (governed (St:=St) ft (attest_auth_key job) (registry_approved job))
    (apply_register ft h i j cs gp).
Proof.
  intros Ht Hh. unfold apply_register.
  apply keeps_gated_write; [apply _|]. intros s buf Hs Happ.
  destruct (decide (j = job)) as [->|Hne].
  - eapply governed_put_record; [done| |exact Hs|].
    + unfold typed, typed_TxCall in Ht. unfold typed, typed_CoordinatorAuthority. cbn.
      by rewrite Ht, Hh.
    + intros cfg Hc. split; [done|]. by apply Happ.
  - apply governed_put_other; [done|]. intros [= E]. done.
Qed.

Lemma keeps_effect_governed_upgrade h i tx :
  typed (tx_call tx) = true -> in_ub 64 (bh_height h) = true ->
  keeps (governed (St:=St) ft upgrade_key upgrade_approved) (apply_effect ft h (i, tx)).
Proof.
  intros Ht Hh. unfold apply_effect. destruct (tx_call tx) eqn:Ec.
  1-3: apply keeps_ret; apply _.
  - by apply keeps_upgrade_governed.
  - unfold apply_attest_round. keeps_tac. apply keeps_modify. intros.
    by apply governed_other_sub.
  - unfold apply_register. apply keeps_gated_write; [apply _|]. intros.
    by apply governed_put_other.
  - by apply keeps_set_governance.
  - unfold apply_pedigree. keeps_tac. apply keeps_modify. intros. by apply governed_other_sub.
Qed.

Lemma keeps_effect_governed_registry job h i tx :
  typed (tx_call tx) = true -> in_ub 64 (bh_height h) = true ->
  keeps (governed (St:=St) ft (attest_auth_key job) (registry_approved job))
    (apply_effect ft h (i, tx)).
Proof.
  intros Ht Hh. unfold apply_effect. destruct (tx_call tx) eqn:Ec.
  1-3: apply keeps_ret; apply _.
  - unfold apply_upgrade. do 2 (destruct (negb _); [apply keeps_throw; apply _|]).
    apply keeps_gated_write; [apply _|]. intros. by apply governed_put_other.
  - unfold apply_attest_round. keeps_tac. apply keeps_modify. intros.
    by apply governed_other_sub.
  - by apply keeps_register_governed.
  - by apply keeps_set_governance.
  - unfold apply_pedigree. keeps_tac. apply keeps_modify. intros. by apply governed_other_sub.
Qed.

(** A relation that every pass of the block keeps is kept by the block. *)
Lemma keeps_apply_block (R : St -> St -> Prop) `{!PreOrder R} b reward :
  (forall s sub k v, sub <> Meta -> R s (put s sub k v)) ->
  (forall s v, R s (put s Meta active_key v)) ->
  (forall i tx, (i, tx) ∈ enumerate (body_txs (blk_body b)) ->
     keeps R (apply_effect ft (blk_header b) (i, tx))) ->
  keeps R (apply_block ft b reward).
Proof.
  intros Hput Hact Heff. unfold apply_block. cbv zeta.
  apply keeps_bind; [apply _|apply keeps_pure; apply _|]. intros [fees staged].
  apply keeps_bind; [apply _| |intros []].
  { apply keeps_for_each; [apply _|]. intros tx _. unfold apply_staged. keeps_tac;
      apply keeps_save; try apply _; intros; by apply Hput. }
  apply keeps_bind; [apply _| |intros []].
  { apply keeps_for_each; [apply _|]. intros [i tx] Hin. by apply Heff. }
  apply keeps_bind; [apply _| |intros minted].
  { unfold coinbase. keeps_tac. apply keeps_save; [apply _|]. intros; by apply Hput. }
  apply keeps_bind; [apply _| |intros []].
  { unfold write_reflection. keeps_tac; apply keeps_modify; intros; by apply Hput. }
  apply keeps_bind; [apply _| |intros []; apply keeps_read; apply _].
  unfold activate_upgrade. keeps_tac. apply keeps_modify. intros; apply Hact.
Qed.

Lemma typed_block_height b : typed b = true -> in_ub 64 (bh_height (blk_header b)) = true.
Proof.
  unfold typed, typed_Block, typed at 1, typed_BlockHeader.
  rewrite !andb_true_iff. tauto.
Qed.

Lemma block_governed_upgrade b reward :
  typed b = true ->
  keeps (governed (St:=St) ft upgrade_key upgrade_approved) (apply_block ft b reward).
Proof.
  intros Ht. apply keeps_apply_block; [apply _| | |].
  - intros. by apply governed_other_sub.
  - intros. by apply governed_put_other.
  - intros i tx Hin. apply keeps_effect_governed_upgrade;
      [by eapply typed_call_of_body|by apply typed_block_height].
Qed.

Lemma block_governed_registry job b reward :
  typed b = true ->
  keeps (governed (St:=St) ft (attest_auth_key job) (registry_approved job))
    (apply_block ft b reward).
Proof.
  intros Ht. apply keeps_apply_block; [apply _| | |].
  - intros. by apply governed_other_sub.
  - intros. by apply governed_put_other.
  - intros i tx Hin. apply keeps_effect_governed_registry;
      [by eapply typed_call_of_body|by apply typed_block_height].
Qed.
End block_governed.

(** ** Single keys through a block *)

Definition same_key {St} `{StateStore St} (sub : Subtree) (key : bytes) (s s' : St) : Prop :=
  get s' sub key = get s sub key.

#[export] Instance same_key_preorder {St} `{StateStore St} sub key :
  PreOrder (same_key (St:=St) sub key).
Proof. split; [done|]. intros s1 s2 s3 H1 H2. unfold same_key in *. by rewrite H2, H1. Qed.

Section keys.
Context {St : Type} `{StateStoreLaws St} `{HashPrims} `{SigPrims} `{StateCodecs}.
Context (ft : Features).

Lemma same_key_put sub key (s : St) sub' key' v :
  (sub', key') <> (sub, key) -> same_key sub key s (put s sub' key' v).
Proof. intros Hne. by apply get_put_other. Qed.

(** No call writes the active suite. *)
Lemma keeps_effect_active h itx :
  keeps (same_key (St:=St) Meta active_key) (apply_effect ft h itx).
Proof.
  destruct itx as [i tx]. unfold apply_effect. destruct (tx_call tx);
    unfold apply_upgrade, apply_attest_round, apply_register, apply_set_governance,
      apply_pedigree; keeps_tac;
    apply keeps_modify; intros; by apply same_key_put.
Qed.

Lemma same_sub_key sub key (s s' : St) : same_sub sub s s' -> same_key sub key s s'.
Proof. intros Hs. apply Hs. Qed.

(** The stations of a successful block, seen from one key outside the accounts and the
    reflections. *)
Lemma run_before_activation b reward (s s' : St) out staged s1 s2 s3 s4 sub key :
  block_run ft b reward s s' out staged s1 s2 s3 s4 ->
  sub <> Accounts -> sub <> Reflect ->
  keeps (same_key (St:=St) sub key)
    (for_each (apply_effect ft (blk_header b)) (enumerate (body_txs (blk_body b)))) ->
  get s4 sub key = get s sub key.
Proof.
  intros R N1 N2 K.
  assert (keeps (same_sub (St:=St) sub) (for_each apply_staged staged)) as K1.
  { apply keeps_for_each; [apply _|]. intros tx _. by apply keeps_apply_staged. }
  rewrite (keeps_write_reflection sub b _ _ N2 _ _ _ (run_reflection _ _ _ _ _ _ _ _ _ _ _ R)).
  rewrite (keeps_coinbase sub _ _ _ N1 _ _ _ (run_coinbase _ _ _ _ _ _ _ _ _ _ _ R)).
  rewrite (K _ _ _ (run_effects _ _ _ _ _ _ _ _ _ _ _ R)).
  apply (K1 _ _ _ (run_pass2 _ _ _ _ _ _ _ _ _ _ _ R)).
Qed.

Lemma activate_upgrade_spec h (s s' : St) r :
  in_ub 64 (bh_height h) = true -> activate_upgrade h s = (r, s') ->
  load_active_crypto s' =
    match load_pending_upgrade s with
    | Some p =>
        if pu_target_height p =? bh_height h
        then Some {| ac_sig_algo := pu_sig_algo p; ac_hash_algo := pu_hash_algo p;
                     ac_activated_at_height := bh_height h |}
        else load_active_crypto s
    | None => load_active_crypto s
    end /\
  (forall sub k, (sub, k) <> (Meta, active_key) -> get s' sub k = get s sub k).
Proof.
  intros Hh. unfold activate_upgrade.
  unfold mbind, stm_bind; cbn [read_st].
  destruct (load_pending_upgrade s) as [p|] eqn:Ep; [|by intros [= _ <-]].
  destruct (Z.eqb_spec (pu_target_height p) (bh_height h)) as [E|]; [|by intros [= _ <-]].
  set (a := {| ac_sig_algo := _ |}).
  assert (typed a = true) as Ht.
  { apply get_cbor_typed in Ep. unfold typed, typed_PendingCryptoUpgrade in Ep.
    rewrite !andb_true_iff in Ep. unfold typed, typed_ActiveCrypto. cbn.
    rewrite !andb_true_iff. tauto. }
  destruct (cbor_roundtrip a Ht) as (buf & Hs & _). rewrite Hs.
  intros [= _ <-]. split.
  - by apply get_cbor_put_same.
  - intros sub k Hne. by apply get_put_other.
Qed.

(** The registry of [job] lets [from] attest. *)
Definition may_attest (s : St) (job : bytes) (from : AccountId) : bool :=
  match load_attest_authority s job with
  | Some a => bool_decide (ca_coordinators a = []) || bool_decide (from ∈ ca_coordinators a)
  | None => true
  end.

Lemma require_coordinator_run i job from (s : St) :
  require_coordinator i job from s =
  (if may_attest s job from then Ok tt else Err (AttestCoordinatorNotAuthorized i), s).
Proof.
  unfold require_coordinator, may_attest. unfold mbind, stm_bind; cbn [read_st].
  destruct (load_attest_authority s job) as [a|]; [|done].
  by repeat case_bool_decide.
Qed.

Lemma put_record_run {A} `{Cbor A} e sub key (a : A) (s : St) :
  typed a = true ->
  exists buf, cbor_ser a = Some buf /\ put_record e sub key a s = (Ok tt, put s sub key buf).
Proof.
  intros Ht. destruct (cbor_roundtrip a Ht) as (buf & Hs & _).
  exists buf. unfold put_record. by rewrite Hs.
Qed.
End keys.

(** ** Properties *)

Section records_properties.
Context {St : Type} `{StateStoreLaws St} `{HashPrims} `{SigPrims} `{StateCodecs}.
Context (ft : Features).

(** The committee stored in [s], if any, passes [validate]. *)
Definition committee_valid (s : St) : Prop :=
  forall cfg, load_governance s = Some cfg -> validate cfg = Ok tt.

#[local] Instance committee_valid_preorder :
  PreOrder (fun s s' : St => committee_valid s -> committee_valid s').
Proof. split; red; auto. Qed.

Lemma keeps_set_governance_valid i config gp :
  keeps (fun s s' : St => committee_valid s -> committee_valid s')
    (apply_set_governance ft i config gp).
Proof.
  unfold apply_set_governance. intros s r s'. unfold mbind, stm_bind at 1.
  destruct (cbor_de config) as [c|] eqn:Ec; cbn [ok_or lift_out]; [|by intros [= _ <-]].
  unfold stm_bind at 1. destruct (validate c) as [[]|m|] eqn:Ev; cbn [map_err lift_out];
    [|by intros [= _ <-]..].
  apply (keeps_gated_write ft (fun s s' : St => committee_valid s -> committee_valid s')).
  intros s0 buf Hs _ _ cfg Hc.
  assert (load_governance (put s0 Meta (ascii_bytes "governance") buf) = Some c) as Hc'
    by (apply get_cbor_put_same; [by eapply cbor_de_typed|done]).
  congruence.
Qed.

Lemma committee_valid_put_other (s : St) sub k v :
  (sub, k) <> (Meta, governance_key) -> committee_valid s -> committee_valid (put s sub k v).
Proof. intros Hne Hv cfg Hc. rewrite load_governance_put_other in Hc by done. by apply Hv. Qed.

Lemma keeps_block_valid b reward :
  keeps (fun s s' : St => committee_valid s -> committee_valid s') (apply_block ft b reward).
Proof.
  apply keeps_apply_block; [apply _| | |].
  - intros s sub k v Hne. apply committee_valid_put_other. congruence.
  - intros s v. by apply committee_valid_put_other.
  - intros i tx _. unfold apply_effect. destruct (tx_call tx);
      try (apply keeps_ret; apply _);
      unfold apply_upgrade, apply_attest_round, apply_register, apply_pedigree;
      try (keeps_tac; apply keeps_modify; intros; by apply committee_valid_put_other).
    apply keeps_set_governance_valid.
Qed.

(** C12: the governance committee is always well formed and only its own threshold can
    change it.  Whatever the result of [apply_block] - success or an error half way - a
    valid committee stays valid, and a committee in force is afterwards still in force or
    has been replaced through a chain of valid committees each of which was approved by
    a threshold proof of its predecessor over exactly that successor. *)
Theorem block_committee_rotation b reward (s s' : St) r :
  typed b = true -> apply_block ft b reward s = (r, s') ->
  (committee_valid s -> committee_valid s') /\
  (forall cfg, load_governance s = Some cfg ->
     exists cfg', load_governance s' = Some cfg' /\ rtc (gov_step ft) cfg cfg').
Proof.
  intros Ht Ha. split; [by eapply keeps_block_valid|]. intros cfg Hc.
  by destruct (block_governed_upgrade ft b reward Ht _ _ _ Ha cfg Hc) as [? _].
Qed.

(** While a committee is in force, a block - accepted or not - only schedules a crypto
    rotation that a committee of the rotation chain approved for exactly that target
    height and suite and that the build allows, and only replaces the coordinator
    registry of a job by one approved for exactly that job and coordinator set. *)
Lemma block_governed_records b reward (s s' : St) r cfg job :
  typed b = true -> load_governance s = Some cfg -> apply_block ft b reward s = (r, s') ->
  (load_pending_upgrade s' = load_pending_upgrade s \/
   exists p cfg', load_pending_upgrade s' = Some p /\ rtc (gov_step ft) cfg cfg' /\
     upgrade_approved ft cfg' p) /\
  (load_attest_authority s' job = load_attest_authority s job \/
   exists a cfg', load_attest_authority s' job = Some a /\ rtc (gov_step ft) cfg cfg' /\
     registry_approved ft job cfg' a).
Proof.
  intros Ht Hc Ha. split.
  - by destruct (block_governed_upgrade ft b reward Ht _ _ _ Ha cfg Hc) as [_ ?].
  - by destruct (block_governed_registry ft job b reward Ht _ _ _ Ha cfg Hc) as [_ ?].
Qed.

(** a scheduled rotation activates exactly at its target height.  After an accepted
    block the active suite is the pending one, stamped with the block's height, when the
    pending rotation (as the block leaves it) targets this height, and is unchanged
    otherwise. *)
Lemma upgrade_activation b reward (s s' : St) out :
  typed b = true -> apply_block ft b reward s = (Ok out, s') ->
  load_active_crypto s' =
    match load_pending_upgrade s' with
    | Some p =>
        if pu_target_height p =? bh_height (blk_header b)
        then Some {| ac_sig_algo := pu_sig_algo p; ac_hash_algo := pu_hash_algo p;
                     ac_activated_at_height := bh_height (blk_header b) |}
        else load_active_crypto s
    | None => load_active_crypto s
    end.
Proof.
  intros Ht Ha. apply apply_block_Ok in Ha as (staged & s1 & s2 & s3 & s4 & R).
  destruct (activate_upgrade_spec _ _ _ _ (typed_block_height b Ht)
    (run_activate _ _ _ _ _ _ _ _ _ _ _ R)) as [Hact Hsame].
  assert (load_pending_upgrade s' = load_pending_upgrade s4) as ->.
  { unfold load_pending_upgrade, get_cbor. by rewrite Hsame by done. }
  rewrite Hact.
  assert (load_active_crypto s4 = load_active_crypto s) as ->; [|done].
  unfold load_active_crypto, get_cbor.
  rewrite (run_before_activation ft _ _ _ _ _ _ _ _ _ _ Meta (ascii_bytes "active_crypto") R); [done|done|done|].
  apply keeps_for_each; [apply _|]. intros. apply keeps_effect_active.
Qed.

(** every accepted block leaves its reflection - the difficulty bits, the number of
    distinct senders, the fees and the mint - under its height and as the latest record,
    and does not touch the reflection of any other height. *)
Lemma block_reflection_recorded b reward (s s' : St) out h :
  typed b = true -> 0 <= reward -> Z.of_nat (length (body_txs (blk_body b))) < 2 ^ 64 ->
  in_u 64 h -> apply_block ft b reward s = (Ok out, s') ->
  let r := block_reflection b (ao_fees_collected_sat out) (ao_coinbase_minted_sat out) in
  load_latest_reflection s' = Some r /\
  load_reflection_at s' (bh_height (blk_header b)) = Some r /\
  (h <> bh_height (blk_header b) -> load_reflection_at s' h = load_reflection_at s h).
Proof.
  intros Ht Hr Hlen Hh Ha. cbv zeta.
  apply apply_block_Ok in Ha as (staged & s1 & s2 & s3 & s4 & R).
  destruct (block_run_accounts _ _ _ _ _ _ _ _ _ _ _ Ht Hr R)
    as (_ & Em & Hf & Hmax & _).
  set (rf := block_reflection b _ _).
  pose proof (typed_block_height b Ht) as Hbh.
  assert (typed rf = true) as Htr.
  { unfold typed, typed_Block, typed at 1, typed_BlockHeader in Ht.
    rewrite !andb_true_iff in Ht. destruct_and!.
    unfold typed, typed_Reflection, rf, block_reflection; cbn.
    rewrite !andb_true_iff, !in_ub_spec in *. unfold in_u, u_max in *.
    assert (size (list_to_set (tx_from_account <$> body_txs (blk_body b)) : gset bytes)
      <= length (body_txs (blk_body b)))%nat.
    { etrans; [apply size_list_to_set_le|]. by rewrite length_fmap. }
    split_and!; (lia || done). }
  destruct (cbor_roundtrip rf Htr) as (buf & Hs & _).
  pose proof (run_reflection _ _ _ _ _ _ _ _ _ _ _ R) as Hw.
  unfold write_reflection in Hw. fold rf in Hw. rewrite Hs in Hw. cbn in Hw.
  injection Hw as <-.
  assert (forall k, get s' Reflect k = get (put (put s3 Reflect
    (block_key (bh_height (blk_header b))) buf) Reflect (ascii_bytes "latest") buf) Reflect k)
    as E4.
  { intros k. destruct (activate_upgrade_spec _ _ _ _ Hbh
      (run_activate _ _ _ _ _ _ _ _ _ _ _ R)) as [_ Hsame]. by rewrite Hsame by done. }
  unfold load_latest_reflection, load_reflection_at, get_cbor. rewrite !E4.
  split_and!.
  - rewrite get_put_same. cbn. by apply cbor_ser_de.
  - rewrite get_put_other by (intros [= E]; by apply (block_key_latest (bh_height (blk_header b)))).
    rewrite get_put_same. cbn. by apply cbor_ser_de.
  - intros Hne. rewrite get_put_other by (intros [= E]; by apply (block_key_latest h)).
    rewrite get_put_other
      by (intros E; apply Hne, block_key_inj; [done|by apply in_ub_spec|congruence]).
    assert (get s3 Reflect (block_key h) = get s Reflect (block_key h)) as ->; [|done].
    assert (keeps (same_sub (St:=St) Reflect) (for_each apply_staged staged)) as K1.
    { apply keeps_for_each; [apply _|]. intros tx _. by apply keeps_apply_staged. }
    assert (Reflect <> Accounts /\ Reflect <> Meta /\ Reflect <> Attest) as (N1 & N2 & N3)
      by done.
    rewrite (keeps_coinbase Reflect _ _ _ N1 _ _ _ (run_coinbase _ _ _ _ _ _ _ _ _ _ _ R)).
    rewrite (keeps_effects ft Reflect _ _ N2 N3 _ _ _
      (run_effects _ _ _ _ _ _ _ _ _ _ _ R)).
    apply (K1 _ _ _ (run_pass2 _ _ _ _ _ _ _ _ _ _ _ R)).
Qed.

(** who may attest.  On a well-typed attestation of [from] for [job] the call writes
    exactly one record - the attested values with the coordinator, the height and the time
    of the block, under the key of the job and round - when the job has no registry, an
    empty one, or one that lists [from]; otherwise it fails and the store is untouched. *)
Lemma attest_round_authorised h i from job round_id model_hash dp (s s' : St) r :
  typed h = true -> account_ok from = true ->
  typed (AttestRound job round_id model_hash dp) = true ->
  apply_attest_round h i from job round_id model_hash dp s = (r, s') ->
  if may_attest s job from then
    r = Ok tt /\
    get_cbor s' Attest (attest_key job round_id) =
      Some {| ar_job_id := job; ar_round_id := round_id; ar_model_hash := model_hash;
              ar_dp_epsilon_milli := dp; ar_coordinator := from;
              ar_block_height := bh_height h; ar_block_timestamp_ms := bh_timestamp_ms h |} /\
    (forall sub k, (sub, k) <> (Attest, attest_key job round_id) -> get s' sub k = get s sub k)
  else r = Err (AttestCoordinatorNotAuthorized i) /\ s' = s.
Proof.
  intros Hh Hfrom Hc. unfold apply_attest_round, mbind, stm_bind.
  rewrite require_coordinator_run. destruct (may_attest s job from); [|by intros [= <- <-]].
  set (a := {| ar_job_id := job |}).
  assert (typed a = true) as Ht.
  { unfold typed, typed_BlockHeader in Hh. unfold typed, typed_TxCall in Hc.
    unfold typed, typed_AttestRecord, a. cbn. rewrite !andb_true_iff in *. tauto. }
  destruct (put_record_run (WitnessHashMismatch i) Attest (attest_key job round_id) a s Ht)
    as (buf & Hs & ->).
  intros [= <- <-]. split_and!; [done|by apply get_cbor_put_same|].
  intros sub k Hne. by apply get_put_other.
Qed.

(** pedigree attestations need a CAGE code of the characters [A-Z0-9] and share the
    registry of the job; an accepted one writes exactly its own record, whose key differs
    from that of every attested round, and a refused one writes nothing. *)
Lemma pedigree_authorised h i from job lot supplier cage authority (s s' : St) r :
  typed h = true -> account_ok from = true ->
  typed (AttestPedigree job lot supplier cage authority) = true ->
  apply_pedigree h i from job lot supplier cage authority s = (r, s') ->
  if is_valid_cage cage && may_attest s job from then
    r = Ok tt /\
    get_cbor s' Attest (pedigree_key job lot) =
      Some {| pr_job_id := job; pr_lot_id := lot; pr_supplier := supplier;
              pr_cage_code := cage; pr_attestation_authority := authority;
              pr_attester := from; pr_block_height := bh_height h;
              pr_block_timestamp_ms := bh_timestamp_ms h |} /\
    (forall sub k, (sub, k) <> (Attest, pedigree_key job lot) -> get s' sub k = get s sub k) /\
    (forall j round_id, length j = 32%nat ->
       get s' Attest (attest_key j round_id) = get s Attest (attest_key j round_id))
  else s' = s /\
    (r = Err (PedigreeCageCodeInvalid i) \/ r = Err (AttestCoordinatorNotAuthorized i)).
Proof.
  intros Hh Hfrom Hc. unfold apply_pedigree.
  destruct (is_valid_cage cage); cbn [negb andb]; [|intros [= <- <-]; by auto].
  unfold mbind, stm_bind. rewrite require_coordinator_run.
  destruct (may_attest s job from); [|intros [= <- <-]; by auto].
  set (a := {| pr_job_id := job |}).
  assert (typed a = true) as Ht.
  { unfold typed, typed_BlockHeader in Hh. unfold typed, typed_TxCall in Hc.
    unfold typed, typed_PedigreeRecord, a. cbn. rewrite !andb_true_iff in *. tauto. }
  destruct (put_record_run (WitnessHashMismatch i) Attest (pedigree_key job lot) a s Ht)
    as (buf & Hs & ->).
  unfold typed, typed_TxCall in Hc. rewrite !andb_true_iff, !is_array_spec in Hc.
  intros [= <- <-]. split_and!; [done|by apply get_cbor_put_same| |].
  - intros sub k Hne. by apply get_put_other.
  - intros j rd Hj. apply get_put_other. intros [= E].
    symmetry in E. apply attest_pedigree_keys in E; tauto.
Qed.

(** What an accepted block records about the chain.  The active suite is the pending
    rotation, stamped with the height, when that rotation (as the block leaves it) targets
    this height, and unchanged otherwise; the block's reflection - bits, distinct senders,
    fees and mint - is stored under its height and as the latest one, and the reflection of
    no other height changes. *)
Lemma block_epilogue b reward (s s' : St) out h :
  typed b = true -> 0 <= reward -> Z.of_nat (length (body_txs (blk_body b))) < 2 ^ 64 ->
  in_u 64 h -> apply_block ft b reward s = (Ok out, s') ->
  load_active_crypto s' =
    match load_pending_upgrade s' with
    | Some p =>
        if pu_target_height p =? bh_height (blk_header b)
        then Some {| ac_sig_algo := pu_sig_algo p; ac_hash_algo := pu_hash_algo p;
                     ac_activated_at_height := bh_height (blk_header b) |}
        else load_active_crypto s
    | None => load_active_crypto s
    end /\
  let r := block_reflection b (ao_fees_collected_sat out) (ao_coinbase_minted_sat out) in
  load_latest_reflection s' = Some r /\
  load_reflection_at s' (bh_height (blk_header b)) = Some r /\
  (h <> bh_height (blk_header b) -> load_reflection_at s' h = load_reflection_at s h).
Proof.
  intros Ht Hr Hl Hh Ha.
  split; [by eapply upgrade_activation|by eapply (block_reflection_recorded b reward s)].
Qed.

(** Attestations.  Both kinds write exactly one record - the attested values with the
    sender, the height and the time of the block - when the job has no registry, an empty
    one, or one that lists the sender, a pedigree also needing a CAGE code of characters
    [A-Z0-9]; the keys of pedigrees never meet those of rounds.  Every other attestation
    fails and leaves the store untouched. *)
Lemma attestations_exact h i from (s s' : St) r : typed h = true -> account_ok from = true ->
  (forall job round_id model_hash dp,
     typed (AttestRound job round_id model_hash dp) = true ->
     apply_attest_round h i from job round_id model_hash dp s = (r, s') ->
     if may_attest s job from then
       r = Ok tt /\
       get_cbor s' Attest (attest_key job round_id) =
         Some {| ar_job_id := job; ar_round_id := round_id; ar_model_hash := model_hash;
                 ar_dp_epsilon_milli := dp; ar_coordinator := from;
                 ar_block_height := bh_height h; ar_block_timestamp_ms := bh_timestamp_ms h |} /\
       (forall sub k, (sub, k) <> (Attest, attest_key job round_id) -> get s' sub k = get s sub k)
     else r = Err (AttestCoordinatorNotAuthorized i) /\ s' = s) /\
  (forall job lot supplier cage authority,
     typed (AttestPedigree job lot supplier cage authority) = true ->
     apply_pedigree h i from job lot supplier cage authority s = (r, s') ->
     if is_valid_cage cage && may_attest s job from then
       r = Ok tt /\
       get_cbor s' Attest (pedigree_key job lot) =
         Some {| pr_job_id := job; pr_lot_id := lot; pr_supplier := supplier;
                 pr_cage_code := cage; pr_attestation_authority := authority;
                 pr_attester := from; pr_block_height := bh_height h;
                 pr_block_timestamp_ms := bh_timestamp_ms h |} /\
       (forall sub k, (sub, k) <> (Attest, pedigree_key job lot) -> get s' sub k = get s sub k) /\
       (forall j round_id, length j = 32%nat ->
          get s' Attest (attest_key j round_id) = get s Attest (attest_key j round_id))
     else s' = s /\
       (r = Err (PedigreeCageCodeInvalid i) \/ r = Err (AttestCoordinatorNotAuthorized i))).
Proof.
  intros Hh Hf. split; intros; [by apply attest_round_authorised|by apply pedigree_authorised].
Qed.
End records_properties.
