(* ===== verification/ApplyAtomic.v ===== *)
(** * ApplyAtomic: when a rejected block leaves no trace

    [apply_block] has no transaction around its writes.  A failure of pass 1 writes nothing;
    for blocks of transfers with one transaction per sender pass 1 is the only pass that can
    fail, so those blocks are atomic.  The concrete ledger at the end shows that the other
    blocks are not. *)

From S2P Require Export ApplyRecords.
From Stdlib Require Import Strings.Byte.

Local Open Scope Z_scope.

Section no_panic.
Context {St : Type} `{StateStoreLaws St} `{HashPrims} `{SigPrims} `{StateCodecs}.
Context (ft : Features).

Definition no_panic {E A} (m : outcome E A) : Prop := m <> Panic.

Lemma no_panic_bind {E A B} (m : outcome E A) (k : A -> outcome E B) :
  no_panic m -> (forall a, no_panic (k a)) -> no_panic (m ≫= k).
Proof. destruct m; unfold no_panic; cbn; [auto|discriminate|auto]. Qed.

Lemma no_panic_ok_or {E A} (e : E) (o : option A) : no_panic (ok_or e o).
Proof. by destruct o. Qed.

Lemma no_panic_map_err {E F A} (f : E -> F) (m : outcome E A) :
  no_panic m -> no_panic (map_err f m).
Proof. destruct m; unfold no_panic; cbn; congruence. Qed.

Lemma verify_no_panic algo pk sig msg : no_panic (verify ft algo pk sig msg).
Proof.
  unfold verify, unwired, falcon_verify, slhdsa_verify, ed25519_verify, bls_verify,
    reject_unless, no_panic.
  repeat match goal with |- context [if ?b then _ else _] => destruct b end; discriminate.
Qed.

Lemma validate_tx_no_panic i (s : St) tx w : no_panic (validate_tx ft i s tx w).
Proof.
  unfold validate_tx. apply no_panic_bind.
  { unfold staged_target. by destruct (tx_call tx). }
  intros [to amount]. apply no_panic_bind.
  { unfold witness_pubkey. destruct (wit_pubkey w); [|done].
    apply no_panic_bind; [apply no_panic_ok_or|]. intros a.
    case_bool_decide; [done|]. by destruct (negb _). }
  intros pk. apply no_panic_bind.
  { unfold check_derivation. destruct (wit_pubkey w); [done|]. by case_bool_decide. }
  intros _. apply no_panic_bind.
  { apply no_panic_map_err, verify_no_panic. }
  intros _. destruct (negb _); [done|].
  apply no_panic_bind; [apply no_panic_ok_or|]. intros req. by destruct (_ <? _).
Qed.

Lemma pass1_no_panic (s : St) ws i fees txs : no_panic (pass1 ft s ws i fees txs).
Proof.
  revert i fees. induction txs as [|tx txs IH]; intros i fees; [done|]. cbn [pass1].
  apply no_panic_bind; [apply no_panic_ok_or|]. intros w. case_bool_decide; [done|].
  apply no_panic_bind; [apply validate_tx_no_panic|]. intros st.
  apply no_panic_bind; [apply no_panic_ok_or|]. intros f.
  apply no_panic_bind; [apply IH|]. by intros [f' rest].
Qed.
End no_panic.

(** ** Completeness of pass 2 for distinct senders *)

Section complete.
Context {St : Type} `{StateStoreLaws St} `{HashPrims} `{SigPrims} `{StateCodecs}.
Context (ft : Features).

(** [tx] meets its nonce and balance in [accts]. *)
Definition ready (accts : AccountId -> Account) (tx : StagedTx) : Prop :=
  acc_nonce (accts (st_from_account tx)) = st_expected_nonce tx /\
  st_amount tx + st_fee_sat tx <= acc_balance (accts (st_from_account tx)).

Lemma apply_staged_complete tx (s : St) :
  staged_typed tx -> ready (load_or_default s) tx ->
  exists s', apply_staged tx s = (Ok tt, s').
Proof.
  intros Ht [Hn Hb]. unfold apply_staged, mbind, stm_bind, read_st, lift_out.
  rewrite Hn, Z.eqb_refl. cbn [negb].
  pose proof (typed_balance _ (load_typed s (st_from_account tx))) as [_ Hmax].
  unfold checked_add, u_max. rewrite (proj2 (Z.leb_le _ _)) by lia. cbn [ok_or].
  rewrite (proj2 (Z.ltb_ge _ _)) by done.
  pose proof Ht as ([Ha _] & [Hf _] & _).
  destruct (save_Ok (E:=ApplyError) (st_from_account tx) (debit (load_or_default s
    (st_from_account tx)) tx (st_amount tx + st_fee_sat tx)) s) as (buf & _ & ->).
  { apply typed_debit; [apply load_typed|done|lia]. }
  match goal with |- exists s', save _ (credit (load_or_default ?s1 _) _) _ = _ =>
    destruct (save_Ok (E:=ApplyError) (st_to tx)
      (credit (load_or_default s1 (st_to tx)) (st_amount tx)) s1) as (buf2 & _ & Hs2) end.
  { apply typed_credit; [apply load_typed|done]. }
  eexists. exact Hs2.
Qed.

(** A move keeps the transactions of the other senders ready. *)
Lemma ready_move accts tx tx' :
  (forall id, typed (accts id) = true) -> staged_typed tx ->
  st_from_account tx' <> st_from_account tx -> ready accts tx' ->
  ready (move_account tx accts) tx'.
Proof.
  intros Ha ([Hm _] & _) Hne [Hn Hb]. split.
  - by rewrite move_nonce, decide_False.
  - unfold move_account. rewrite (decide_False (P:=st_from_account tx' = st_from_account tx)) by done.
    pose proof (typed_balance _ (Ha (st_from_account tx'))).
    case_decide; [|done]. cbn. unfold saturating_add, u_max. lia.
Qed.

Lemma for_each_staged_complete staged (s : St) :
  Forall staged_typed staged -> NoDup (st_from_account <$> staged) ->
  Forall (ready (load_or_default s)) staged ->
  exists s', for_each apply_staged staged s = (Ok tt, s').
Proof.
  revert s. induction staged as [|tx staged IH]; intros s Ht Hnd Hr; [by exists s|].
  apply Forall_cons in Ht as [Ht HT]. apply Forall_cons in Hr as [Hr HR].
  rewrite fmap_cons, NoDup_cons in Hnd. destruct Hnd as [Hni Hnd].
  destruct (apply_staged_complete tx s Ht Hr) as (s1 & E1).
  pose proof (apply_staged_Ok tx s s1 Ht E1) as (_ & _ & Hl).
  destruct (IH s1 HT Hnd) as (s2 & E2).
  { apply Forall_elem. intros tx' Hin. pose proof (proj1 (Forall_elem _ _) HR tx' Hin) as Hr'.
    assert (ready (move_account tx (load_or_default s)) tx') as [Hn Hb].
    { apply ready_move; [apply load_typed|done| |done]. intros E. apply Hni.
      rewrite <- E. by apply list_elem_of_fmap_2. }
    split; by rewrite Hl. }
  exists s2. apply for_each_cons_Ok. by exists s1.
Qed.

Lemma staged_for_ready (s : St) ws i txs staged :
  staged_for ft s ws i txs staged -> Forall (ready (load_or_default s)) staged.
Proof.
  revert i txs. induction staged as [|st staged IH]; intros i [|tx txs] Hs; try done.
  destruct Hs as [(w & pk & _ & _ & _ & _ & Hb & ->) Hs]. constructor; [|by eapply IH].
  by split.
Qed.

Lemma for_each_effects_transfers h itxs (s : St) :
  Forall (fun itx => exists to amount, tx_call itx.2 = Transfer to amount) itxs ->
  for_each (apply_effect ft h) itxs s = (Ok tt, s).
Proof.
  induction 1 as [|[i tx] itxs (to & amount & E) _ IH]; [done|].
  apply for_each_cons_Ok. exists s. split; [|done]. cbn in *. by rewrite E.
Qed.

Lemma coinbase_complete h reward fees (s : St) :
  0 <= reward -> 0 <= fees ->
  acc_balance (load_or_default s (from_coinbase (bh_coinbase h))) + (reward + fees) <= u_max 128 ->
  exists s', coinbase h reward fees s = (Ok (reward + fees), s').
Proof.
  intros Hr Hf Hm. set (miner := from_coinbase (bh_coinbase h)) in *.
  pose proof (load_typed s miner) as Htm. pose proof (typed_balance _ Htm) as Hb.
  unfold coinbase, mbind, stm_bind, read_st, lift_out. fold miner.
  unfold checked_add. rewrite (proj2 (Z.leb_le _ _)) by lia. cbn [ok_or].
  rewrite (proj2 (Z.leb_le _ _)) by done. cbn [ok_or].
  destruct (save_Ok (E:=ApplyError) miner (pay (load_or_default s miner) (reward + fees)) s)
    as (buf & _ & Hs).
  { unfold typed, typed_Account in *. rewrite !andb_true_iff, !in_ub_spec in *.
    destruct Htm as [[_ Hn] Ha]. cbn [pay acc_balance acc_nonce acc_sig_algo].
    split_and!; [|done|done]. unfold in_u, u_max in *. lia. }
  unfold pay in Hs. rewrite Hs. by eexists.
Qed.

Lemma write_reflection_complete b fees minted (s : St) :
  typed b = true -> Z.of_nat (length (body_txs (blk_body b))) < 2 ^ 64 ->
  in_u 128 fees -> in_u 128 minted ->
  exists s', write_reflection b fees minted s = (Ok tt, s').
Proof.
  intros Ht Hlen Hf Hm.
  assert (typed (block_reflection b fees minted) = true) as Htr.
  { unfold typed, typed_Block, typed at 1, typed_BlockHeader in Ht.
    rewrite !andb_true_iff in Ht. destruct_and!.
    unfold typed, typed_Reflection, block_reflection; cbn.
    rewrite !andb_true_iff, !in_ub_spec in *. unfold in_u, u_max in *.
    pose proof (size_list_to_set_le (tx_from_account <$> body_txs (blk_body b))) as Hsz.
    rewrite length_fmap in Hsz. split_and!; (lia || done). }
  destruct (cbor_roundtrip _ Htr) as (buf & Hs & _).
  unfold write_reflection. rewrite Hs. cbn. by eexists.
Qed.

Lemma activate_upgrade_complete h (s : St) : exists s', activate_upgrade h s = (Ok tt, s').
Proof.
  unfold activate_upgrade, mbind, stm_bind, read_st.
  destruct (load_pending_upgrade s) as [p|]; [|by eexists].
  destruct (pu_target_height p =? bh_height h); [|by eexists].
  destruct (cbor_ser _); by eexists.
Qed.
End complete.

(** ** Blocks of transfers *)

Section transfers.
Context {St : Type} `{StateStoreLaws St} `{HashPrims} `{SigPrims} `{StateCodecs}.
Context (ft : Features).

Lemma typed_fees txs : forallb typed txs = true -> Forall (fun tx => 0 <= tx_fee_sat tx) txs.
Proof.
  intros Ht. apply Forall_elem. intros tx Hin. rewrite forallb_forall in Ht.
  specialize (Ht tx (proj1 (list_elem_of_In _ _) Hin)).
  unfold typed, typed_TxBody in Ht. rewrite !andb_true_iff, !in_ub_spec in Ht.
  destruct_and!. unfold in_u in *. lia.
Qed.

Lemma sum_fees_nonneg txs : Forall (fun tx => 0 <= tx_fee_sat tx) txs -> 0 <= sum_fees txs.
Proof. induction 1; [done|]. rewrite sum_fees_cons. lia. Qed.

(** Pass 1 accepts what [staged_for] describes. *)
Lemma pass1_complete (s : St) ws i fees txs staged :
  Forall (fun tx => 0 <= tx_fee_sat tx) txs -> fees + sum_fees txs <= u_max 128 ->
  staged_for ft s ws i txs staged -> pass1 ft s ws i fees txs = Ok (fees + sum_fees txs, staged).
Proof.
  intros Hf. revert i fees staged. induction Hf as [|tx txs Hf HF IH]; intros i fees [|st staged] Hm Hs; try done.
  { cbn. unfold sum_fees. cbn. by rewrite Z.add_0_r. }
  destruct Hs as [(w & pk & Hw & Hh & Hc & Ha & Hb & ->) Hs]. rewrite sum_fees_cons in *.
  pose proof (sum_fees_nonneg txs HF) as Hpos.
  cbn [pass1]. rewrite Hw. cbn [ok_or mbind outcome_bind].
  rewrite bool_decide_eq_false_2 by (by intros []).
  rewrite (proj2 (validate_tx_Ok ft i s tx w (stage i s tx w pk))).
  2:{ exists pk. split_and!; [done|done| |done|reflexivity].
      pose proof (typed_balance _ (load_typed s (tx_from_account tx))).
      unfold balance, u_max in *. lia. }
  cbn [mbind outcome_bind stage st_fee_sat]. unfold checked_add.
  rewrite (proj2 (Z.leb_le _ _)) by lia. cbn [ok_or mbind outcome_bind].
  rewrite (IH _ _ staged) by (lia || done). cbn. by rewrite Z.add_assoc.
Qed.

(** Past pass 1, a block of transfers with distinct senders applies. *)
Lemma transfer_block_applies b reward (s : St) ids fees staged :
  typed b = true -> 0 <= reward -> Z.of_nat (length (body_txs (blk_body b))) < 2 ^ 64 ->
  Forall (fun tx => exists to amount, tx_call tx = Transfer to amount) (body_txs (blk_body b)) ->
  NoDup (tx_from_account <$> body_txs (blk_body b)) ->
  covers b ids -> total_balance s ids + reward <= u_max 128 ->
  pass1 ft s (body_witnesses (blk_body b)) 0 0 (body_txs (blk_body b)) = Ok (fees, staged) ->
  exists out s', apply_block ft b reward s = (Ok out, s') /\ ao_fees_collected_sat out = fees.
Proof.
  intros Ht Hr Hlen Htr Hnd Hc Hs E1.
  unfold apply_block, mbind, stm_bind. cbv zeta. rewrite E1.
  pose proof (pass1_Ok _ _ _ _ _ _ _ _ E1) as (Ef & Hst & Hfmax).
  pose proof Ht as Htb. unfold typed, typed_Block, typed at 2, typed_BlockBody in Htb.
  rewrite !andb_true_iff in Htb. destruct Htb as [_ [Htx Htw]].
  pose proof (staged_for_typed _ _ _ _ _ _ Htx Htw Hst) as Hty.
  destruct (staged_for_fields _ _ _ _ _ _ Hst) as (F1 & F2 & _ & _ & _).
  destruct (for_each_staged_complete staged s Hty) as (s1 & E2);
    [by rewrite F1|by eapply staged_for_ready|].
  rewrite E2.
  rewrite for_each_effects_transfers by
    (apply Forall_elem; intros [i tx] Hin; apply elem_of_lookup_imap in Hin as (k & x & E & Hk);
     simplify_eq; eapply (proj1 (Forall_elem _ _) Htr); by eapply list_elem_of_lookup_2).
  destruct (for_each_staged_Ok _ _ _ Hty E2) as [Hv Hm].
  destruct Hc as (Hnd' & Hmin & Hcov).
  assert (Forall (fun tx => st_from_account tx ∈ ids /\ st_to tx ∈ ids /\ staged_typed tx)
    staged) as HF.
  { apply Forall_elem. intros st Hin. split_and!; [| |by eapply (proj1 (Forall_elem _ _) Hty)].
    - apply (list_elem_of_fmap_2 st_from_account) in Hin. rewrite F1 in Hin.
      apply list_elem_of_fmap in Hin as (tx & -> & Hin).
      by apply (proj1 (Forall_elem _ _) Hcov) in Hin as [? _].
    - apply (list_elem_of_fmap_2 st_to) in Hin. rewrite F2 in Hin.
      apply list_elem_of_fmap in Hin as (tx & -> & Hin).
      by apply (proj1 (Forall_elem _ _) Hcov) in Hin as [_ ?]. }
  rewrite total_balance_sheet in Hs.
  assert (forall id, balance s1 id = balance s id + block_delta (body_txs (blk_body b)) id) as Hbal.
  { intros id. unfold balance at 1. rewrite Hm, <- (staged_delta_block _ _ _ _ _ _ id Hst).
    apply (moves_balance staged (load_or_default s) ids); try done;
      [apply load_typed|unfold balance in Hs; lia]. }
  assert (sheet (balance s1) ids = sheet (balance s) ids - sum_fees (body_txs (blk_body b))) as Hsh.
  { rewrite (sheet_ext _ _ _ (fun id _ => Hbal id)), sheet_add, sheet_block_delta by done. lia. }
  assert (forall id, 0 <= balance s1 id) as Hpos by
    (intros id; apply (typed_balance _ (load_typed s1 id))).
  pose proof (sheet_le (balance s1) (miner_of b) ids Hpos Hmin) as Hle.
  pose proof (sheet_nonneg (balance s1) ids Hpos) as Hnn.
  pose proof (sum_fees_nonneg _ (typed_fees _ Htx)) as Hf0.
  destruct (coinbase_complete (blk_header b) reward fees s1) as (s3 & ->); [done|lia| |].
  { change (balance s1 (miner_of b) + (reward + fees) <= u_max 128). lia. }
  destruct (write_reflection_complete b fees (reward + fees) s3 Ht Hlen) as (s4 & ->);
    [unfold in_u, u_max in *; lia..|].
  destruct (activate_upgrade_complete (blk_header b) s4) as (s5 & ->).
  eexists _, _. split; [reflexivity|done].
Qed.
(** A block that pass 1 rejects changes nothing. *)
Lemma pass1_Err_atomic b reward (s : St) e :
  pass1 ft s (body_witnesses (blk_body b)) 0 0 (body_txs (blk_body b)) = Err e ->
  apply_block ft b reward s = (Err e, s).
Proof. intros E. unfold apply_block, mbind, stm_bind. cbv zeta. by rewrite E. Qed.
End transfers.

(** ** Properties *)

Section atomicity.
Context {St : Type} `{StateStoreLaws St} `{HashPrims} `{SigPrims} `{StateCodecs}.
Context (ft : Features).

(** C19: blocks of transfers with distinct senders are atomic.  On a store whose coin and
    the reward fit 128 bits such a block either applies, or is rejected by pass 1 with
    the store exactly as it was; it never panics, and it applies precisely when pass 1
    accepts every transaction. *)
Theorem transfer_block_atomic b reward (s : St) ids :
  typed b = true -> 0 <= reward -> Z.of_nat (length (body_txs (blk_body b))) < 2 ^ 64 ->
  Forall (fun tx => exists to amount, tx_call tx = Transfer to amount) (body_txs (blk_body b)) ->
  NoDup (tx_from_account <$> body_txs (blk_body b)) ->
  covers b ids -> total_balance s ids + reward <= u_max 128 ->
  match pass1 ft s (body_witnesses (blk_body b)) 0 0 (body_txs (blk_body b)) with
  | Ok (fees, _) => exists out s', apply_block ft b reward s = (Ok out, s') /\
                      ao_fees_collected_sat out = fees
  | Err e => apply_block ft b reward s = (Err e, s)
  | Panic => False
  end.
Proof.
  intros Ht Hr Hlen Htr Hnd Hc Hs.
  pose proof (pass1_no_panic ft s (body_witnesses (blk_body b)) 0 0 (body_txs (blk_body b))) as Hp.
  destruct (pass1 _ _ _ _ _ _) as [[fees staged]|e|] eqn:E1; [|by apply pass1_Err_atomic|by apply Hp].
  by eapply transfer_block_applies.
Qed.
End atomicity.
