(* ===== verification/ApplyExamples.v ===== *)
(** * ApplyExamples: the block transition on concrete blocks

    A small ledger over the in-memory store with the concrete hash, signatures and codecs.
    It instantiates the theorems on the block transition, and exhibits the block whose
    rejection leaves a half-applied store. *)

From S2P Require Export ApplyAtomic.
From Stdlib Require Import Strings.Byte.

Local Open Scope Z_scope.

#[local] Existing Instance Checksum.prims.
#[local] Existing Instance ChecksumSig.prims.
#[local] Existing Instance RecordsWire.codecs.

Module Sample.
Definition key (n : byte) : bytes * bytes := lib_keygen (lib_of 3) [n].
Definition addr (n : byte) : AccountId := from_pubkey (key n).2.

Definition unsigned (n : byte) (nonce : Z) (call : TxCall) (fee : Z) (wh : bytes) : TxBody :=
  {| tx_nonce := nonce; tx_from_account := addr n; tx_call := call; tx_fee_sat := fee;
     tx_gas_limit := 21000; tx_witness_hash := wh |}.

(** A signed transaction of account [n] with its inline key. *)
Definition witness_for (n : byte) (nonce : Z) (call : TxCall) (fee : Z) : Witness :=
  {| wit_sig_algo := 3;
     wit_sig := default [] (lib_sign (lib_of 3) [] (key n).1
                  (signing_hash (unsigned n nonce call fee [])));
     wit_pubkey := Inline (key n).2 |}.
Definition signed (n : byte) (nonce : Z) (call : TxCall) (fee : Z) : TxBody :=
  unsigned n nonce call fee (witness_hash (witness_for n nonce call fee)).

Definition header (height : Z) : BlockHeader :=
  {| bh_version := 1; bh_height := height; bh_parent := replicate 32 x00;
     bh_timestamp_ms := 600000; bh_bits := 520159231; bh_nonce := 0;
     bh_tx_root := replicate 32 x00; bh_witness_root := replicate 32 x00;
     bh_state_root := replicate 32 x00; bh_reflect_root := replicate 32 x00;
     bh_coinbase := pad_to_32 (addr x0f); bh_sig_algo := 3; bh_hash_algo := 1 |}.

Definition block (height : Z) (txs : list (byte * Z * TxCall * Z)) : Block :=
  {| blk_header := header height;
     blk_body := {|
       body_txs := (fun '(n, nonce, call, fee) => signed n nonce call fee) <$> txs;
       body_witnesses := (fun '(n, nonce, call, fee) => witness_for n nonce call fee) <$> txs |} |}.

Definition with_balance (s : MemState) (n : byte) (amount : Z) : MemState :=
  (save (E:=ApplyError) (addr n)
     {| acc_balance := amount; acc_nonce := 0; acc_pubkey := []; acc_sig_algo := 0 |} s).2.

(** Accounts 1 and 2 funded, under the 2-of-3 committee of [SampleCommittee]. *)
Definition store : MemState :=
  put (with_balance (with_balance MemState_new x01 1000) x02 500)
    Meta governance_key (default [] (cbor_ser SampleCommittee.config)).

Definition job : bytes := replicate 32 x2a.
Definition upgrade_proof : bytes :=
  default [] (cbor_ser (SampleCommittee.proof_by [x01; x03] (upgrade_crypto_gov_payload 7 2 3))).

Definition transfers : Block :=
  block 7 [(x01, 0, Transfer (addr x02) 300, 5); (x02, 0, Transfer (addr x03) 40, 2)].
(** A transfer, an attestation and an approved rotation that activates at once. *)
Definition mixed : Block :=
  block 7 [(x01, 0, AttestRound job 3 (replicate 32 x11) 1500, 5);
           (x02, 0, UpgradeCrypto 7 2 3 upgrade_proof, 2)].
(** Two transfers of one account with the same nonce: each is valid on its own. *)
Definition clash : Block :=
  block 7 [(x01, 0, Transfer (addr x02) 300, 5); (x01, 0, Transfer (addr x03) 40, 2)].

Definition run (b : Block) : outcome ApplyError ApplyOutput * MemState :=
  apply_block default_features b 50 store.
Definition out (b : Block) : ApplyOutput :=
  match (run b).1 with
  | Ok o => o
  | _ => {| ao_txs_applied := 0; ao_fees_collected_sat := 0; ao_coinbase_minted_sat := 0;
            ao_state_root := [] |}
  end.

Definition ids : list AccountId := addr <$> [x01; x02; x03; x0f].

Lemma ok_run b : is_ok (run b).1 = true ->
  apply_block default_features b 50 store = (Ok (out b), (run b).2).
Proof. unfold out, run. by destruct (apply_block _ b 50 store) as [[o|e|] s]. Qed.
Lemma transfers_run :
  apply_block default_features transfers 50 store = (Ok (out transfers), (run transfers).2).
Proof. apply ok_run. vm_compute. reflexivity. Qed.
Lemma mixed_run :
  apply_block default_features mixed 50 store = (Ok (out mixed), (run mixed).2).
Proof. apply ok_run. vm_compute. reflexivity. Qed.

Lemma transfers_covers : covers transfers ids.
Proof.
  split_and!; apply (bool_decide_eq_true_1 _); vm_compute; reflexivity.
Qed.

Lemma distinct_senders : NoDup (tx_from_account <$> body_txs (blk_body transfers)).
Proof. apply (bool_decide_eq_true_1 _). vm_compute. reflexivity. Qed.
End Sample.
Import Sample.

Lemma apply_block_refines_ledger_witness :
  (forall id, balance (run transfers).2 id = ledger_block transfers 50 (balance store) id) /\
  ao_fees_collected_sat (out transfers) = sum_fees (body_txs (blk_body transfers)) /\
  ao_coinbase_minted_sat (out transfers) = 50 + sum_fees (body_txs (blk_body transfers)) /\
  ao_txs_applied (out transfers) = Z.of_nat (length (body_txs (blk_body transfers))) /\
  ao_state_root (out transfers) = root (run transfers).2.
Proof.
  apply (apply_block_refines_ledger default_features transfers 50 store (run transfers).2 _ ids);
    [vm_compute; reflexivity|lia|exact transfers_covers|vm_compute; discriminate
    |exact transfers_run].
Defined.

Lemma apply_block_conserves_witness :
  total_balance (run transfers).2 ids = total_balance store ids + 50.
Proof.
  apply (apply_block_conserves default_features transfers 50 store (run transfers).2 (out transfers));
    [vm_compute; reflexivity|lia|exact transfers_covers|vm_compute; discriminate
    |exact transfers_run].
Defined.

Lemma apply_block_authenticates_witness :
  exists tx w pk, body_witnesses (blk_body transfers) !! 1%nat = Some w /\
    witness_hash w = tx_witness_hash tx /\ call_supported tx /\
    authenticated default_features store tx w pk /\
    call_amount tx + tx_fee_sat tx <= balance store (tx_from_account tx).
Proof.
  exists (signed x02 0 (Transfer (addr x03) 40) 2).
  apply (apply_block_authenticates default_features transfers 50 store (run transfers).2 _ 1%nat _ transfers_run).
  reflexivity.
Defined.

Lemma apply_block_account_frame_witness :
  (forall id, nonce store id <= nonce (run mixed).2 id) /\
  NoDup (tx_from_account <$> body_txs (blk_body mixed)).
Proof.
  destruct (apply_block_account_frame default_features mixed 50 store (run mixed).2 (out mixed))
    as [Hf Hnd]; [vm_compute; reflexivity|lia|exact mixed_run|].
  split; [apply Hf|]. apply Hnd.
  intros tx Htx. unfold mixed, block in Htx. cbn [blk_body body_txs fmap list_fmap] in Htx.
  rewrite !elem_of_cons, elem_of_nil in Htx. destruct Htx as [->|[->|[]]]; vm_compute; reflexivity.
Defined.

Lemma block_committee_rotation_witness :
  (committee_valid store -> committee_valid (run mixed).2) /\
  (forall cfg, load_governance store = Some cfg ->
     exists cfg', load_governance (run mixed).2 = Some cfg' /\
       rtc (gov_step default_features) cfg cfg').
Proof.
  apply (block_committee_rotation default_features mixed 50 store (run mixed).2 (Ok (out mixed)));
    [vm_compute; reflexivity|exact mixed_run].
Defined.

Lemma block_governed_records_witness :
  let s' := (run mixed).2 in
  (load_pending_upgrade s' = load_pending_upgrade store \/
   exists p cfg', load_pending_upgrade s' = Some p /\
     rtc (gov_step default_features) SampleCommittee.config cfg' /\
     upgrade_approved default_features cfg' p) /\
  (load_attest_authority s' job = load_attest_authority store job \/
   exists a cfg', load_attest_authority s' job = Some a /\
     rtc (gov_step default_features) SampleCommittee.config cfg' /\
     registry_approved default_features job cfg' a).
Proof.
  cbv zeta. apply (block_governed_records default_features mixed 50 store (run mixed).2 (Ok (out mixed)));
    [vm_compute; reflexivity|vm_compute; reflexivity|exact mixed_run].
Defined.

Lemma block_epilogue_witness :
  let s' := (run mixed).2 in
  let r := block_reflection mixed (ao_fees_collected_sat (out mixed))
             (ao_coinbase_minted_sat (out mixed)) in
  load_active_crypto s' =
    Some {| ac_sig_algo := 2; ac_hash_algo := 3; ac_activated_at_height := 7 |} /\
  load_latest_reflection s' = Some r /\ load_reflection_at s' 6 = load_reflection_at store 6.
Proof.
  destruct (block_epilogue default_features mixed 50 store (run mixed).2 (out mixed) 6)
    as (Ha & Hl & _ & H6);
    [vm_compute; reflexivity|lia|vm_compute; reflexivity|unfold in_u; lia|exact mixed_run|].
  split; [rewrite Ha; vm_compute; reflexivity|]. split; [exact Hl|apply H6; discriminate].
Defined.

(** Member 1 may attest the job; with a bad CAGE code nobody can. *)
Lemma attestations_exact_witness :
  let r := apply_attest_round (header 7) 0 (addr x01) job 3 (replicate 32 x11) 1500 store in
  let q := apply_pedigree (header 7) 0 (addr x01) job (replicate 16 x01) job (ascii_bytes "1ab2c") job store in
  (if may_attest store job (addr x01) then
    r.1 = Ok tt /\
    get_cbor r.2 Attest (attest_key job 3) =
      Some {| ar_job_id := job; ar_round_id := 3; ar_model_hash := replicate 32 x11;
              ar_dp_epsilon_milli := 1500; ar_coordinator := addr x01;
              ar_block_height := 7; ar_block_timestamp_ms := 600000 |} /\
    (forall sub k, (sub, k) <> (Attest, attest_key job 3) -> get r.2 sub k = get store sub k)
  else r.1 = Err (AttestCoordinatorNotAuthorized 0) /\ r.2 = store) /\
  q.2 = store.
Proof.
  intros r q. split.
  - destruct (attestations_exact (header 7) 0 (addr x01) store r.2 r.1) as [Ha _];
      [vm_compute; reflexivity|vm_compute; reflexivity|].
    apply Ha; [vm_compute; reflexivity|apply surjective_pairing].
  - destruct (attestations_exact (header 7) 0 (addr x01) store q.2 q.1) as [_ Hp];
      [vm_compute; reflexivity|vm_compute; reflexivity|].
    apply (Hp job (replicate 16 x01) job (ascii_bytes "1ab2c") job);
      [vm_compute; reflexivity|apply surjective_pairing].
Defined.

Lemma transfer_block_atomic_witness :
  match pass1 default_features store (body_witnesses (blk_body transfers)) 0 0
          (body_txs (blk_body transfers)) with
  | Ok (fees, _) => exists o s', apply_block default_features transfers 50 store = (Ok o, s') /\
                      ao_fees_collected_sat o = fees
  | Err e => apply_block default_features transfers 50 store = (Err e, store)
  | Panic => False
  end.
Proof.
  apply (transfer_block_atomic default_features transfers 50 store ids);
    [vm_compute; reflexivity|lia|vm_compute; reflexivity| |exact distinct_senders
    |exact transfers_covers|vm_compute; discriminate].
  repeat (constructor; [by eexists _, _|]). constructor.
Defined.

(** [apply_block] is not atomic, although its contract is that a failed block leaves
    the store unchanged.  On this ledger two transfers of account 1 with the same nonce
    both pass the validating pass; the second one fails when balances move, and the block
    is rejected with the first transfer already in the store. *)
Lemma rejected_block_mutates_store :
  is_ok (pass1 default_features store (body_witnesses (blk_body clash)) 0 0
           (body_txs (blk_body clash))) = true /\
  (run clash).1 = Err (NonceMismatch 1 1 0) /\
  balance store (addr x01) = 1000 /\ balance (run clash).2 (addr x01) = 695 /\
  balance (run clash).2 (addr x02) = 800 /\
  root (run clash).2 <> root store.
Proof. vm_compute. split_and!; try reflexivity. discriminate. Qed.
