(* ===== verification/Node.v ===== *)
(** * Node: block acceptance, templates and replay
    (crates/node/src/rpc.rs, crates/node/src/main.rs, crates/node/src/mining.rs)

    The node is the record of what [NodeState] guards with its mutexes, and every handler a
    function on it.  The clock and the outcome of disk writes are arguments.  The handlers
    run one at a time here; [NodeRace] interleaves two of them. *)

From S2P Require Export Apply Asert Emission Mempool ChainStore.
From Stdlib Require Import Strings.Byte.

Local Open Scope Z_scope.

Record NodeState {St : Type} := {
  ns_store : ChainStore;
  ns_chain_id : string;
  ns_bits : Z;
  ns_coinbase : bytes;
  ns_sig_algo : Z;
  ns_hash_algo : Z;
  ns_genesis_time_ms : Z;
  ns_state : St;
  ns_mempool : Mempool;
  ns_block_reward_sat : Z;
  ns_target_block_time_ms : Z;
  ns_halving_interval_base : Z;
  ns_emission : EmissionParams;
  ns_minted_so_far : Z;
  ns_prev_reward_sat : option Z;
  ns_asert_tau_ms : Z;
  ns_bootstrap_asert_tau_ms : Z;
}.
Arguments NodeState : clear implicits.

Definition FUTURE_TIME_TOLERANCE_MS : Z := 2 * 60 * 60 * 1000.

(** The errors of the handlers, rendered as text by the code. *)
Inductive NodeError :=
| PreGenesis (secs : Z)
| StaleParent
| WrongHeight (got expected : Z)
| WrongBits (got expected : Z)
| NonMonotonicTimestamp (ts parent : Z)
| TimestampTooFar (ts limit : Z)
| HashAboveTarget
| TxRootMismatch
| WitnessRootMismatch
| ApplyFailed (e : ApplyError)
| StoreFailed (e : StoreError)
| ReplayFailed (height : Z) (e : ApplyError)
| DataDirEmpty
| GenesisCommittee (msg : string)
| GenesisFile.

Section node.
Context {St : Type} `{StateStore St} `{HashPrims} `{SigPrims} `{StateCodecs} {CB : Cbor Block}.
Context (ft : Features).

Notation Node := (NodeState St).

(** ** Field updates *)

Definition set_state (s : St) (ns : Node) : Node := {|
  ns_store := ns_store ns; ns_chain_id := ns_chain_id ns;
  ns_bits := ns_bits ns; ns_coinbase := ns_coinbase ns;
  ns_sig_algo := ns_sig_algo ns; ns_hash_algo := ns_hash_algo ns;
  ns_genesis_time_ms := ns_genesis_time_ms ns; ns_state := s; ns_mempool := ns_mempool ns;
  ns_block_reward_sat := ns_block_reward_sat ns;
  ns_halving_interval_base := ns_halving_interval_base ns;
  ns_target_block_time_ms := ns_target_block_time_ms ns; ns_emission := ns_emission ns;
  ns_minted_so_far := ns_minted_so_far ns; ns_prev_reward_sat := ns_prev_reward_sat ns;
  ns_asert_tau_ms := ns_asert_tau_ms ns;
  ns_bootstrap_asert_tau_ms := ns_bootstrap_asert_tau_ms ns |}.

Definition set_counters (minted : Z) (prev : option Z) (ns : Node) : Node := {|
  ns_store := ns_store ns; ns_chain_id := ns_chain_id ns;
  ns_bits := ns_bits ns; ns_coinbase := ns_coinbase ns;
  ns_sig_algo := ns_sig_algo ns; ns_hash_algo := ns_hash_algo ns;
  ns_genesis_time_ms := ns_genesis_time_ms ns; ns_state := ns_state ns;
  ns_mempool := ns_mempool ns;
  ns_block_reward_sat := ns_block_reward_sat ns;
  ns_halving_interval_base := ns_halving_interval_base ns;
  ns_target_block_time_ms := ns_target_block_time_ms ns; ns_emission := ns_emission ns;
  ns_minted_so_far := minted; ns_prev_reward_sat := prev;
  ns_asert_tau_ms := ns_asert_tau_ms ns;
  ns_bootstrap_asert_tau_ms := ns_bootstrap_asert_tau_ms ns |}.

Definition set_mempool (mp : Mempool) (ns : Node) : Node := {|
  ns_store := ns_store ns; ns_chain_id := ns_chain_id ns;
  ns_bits := ns_bits ns; ns_coinbase := ns_coinbase ns;
  ns_sig_algo := ns_sig_algo ns; ns_hash_algo := ns_hash_algo ns;
  ns_genesis_time_ms := ns_genesis_time_ms ns; ns_state := ns_state ns; ns_mempool := mp;
  ns_block_reward_sat := ns_block_reward_sat ns;
  ns_halving_interval_base := ns_halving_interval_base ns;
  ns_target_block_time_ms := ns_target_block_time_ms ns; ns_emission := ns_emission ns;
  ns_minted_so_far := ns_minted_so_far ns; ns_prev_reward_sat := ns_prev_reward_sat ns;
  ns_asert_tau_ms := ns_asert_tau_ms ns;
  ns_bootstrap_asert_tau_ms := ns_bootstrap_asert_tau_ms ns |}.

Definition set_store (cs : ChainStore) (ns : Node) : Node := {|
  ns_store := cs; ns_chain_id := ns_chain_id ns;
  ns_bits := ns_bits ns; ns_coinbase := ns_coinbase ns;
  ns_sig_algo := ns_sig_algo ns; ns_hash_algo := ns_hash_algo ns;
  ns_genesis_time_ms := ns_genesis_time_ms ns; ns_state := ns_state ns;
  ns_mempool := ns_mempool ns;
  ns_block_reward_sat := ns_block_reward_sat ns;
  ns_halving_interval_base := ns_halving_interval_base ns;
  ns_target_block_time_ms := ns_target_block_time_ms ns; ns_emission := ns_emission ns;
  ns_minted_so_far := ns_minted_so_far ns; ns_prev_reward_sat := ns_prev_reward_sat ns;
  ns_asert_tau_ms := ns_asert_tau_ms ns;
  ns_bootstrap_asert_tau_ms := ns_bootstrap_asert_tau_ms ns |}.

(** ** Acceptance *)

(** Parent hash, height of the next block, parent timestamp, bits and height. *)
Definition parent_view (ns : Node) : bytes * Z * Z * Z * Z :=
  match tip (ns_store ns) with
  | Some b => (hash_header (blk_header b), wrapping_add 64 (bh_height (blk_header b)) 1,
               bh_timestamp_ms (blk_header b), bh_bits (blk_header b), bh_height (blk_header b))
  | None => (replicate 32 x00, 0, 0, ns_bits ns, 0)
  end.

(** The rule both the validator and the self-miner call. *)
Definition expected_bits (ns : Node) (parent_bits parent_height parent_ts ts : Z)
    : outcome NodeError Z :=
  next_bits_from_parent parent_bits parent_height parent_ts ts (ns_target_block_time_ms ns)
    (em_bootstrap_height (ns_emission ns)) (ns_bootstrap_asert_tau_ms ns) (ns_asert_tau_ms ns).

(** Steps 1 to 5 of [try_apply_block]: no write. *)
Definition check_block (now : Z) (ns : Node) (block : Block) : outcome NodeError unit :=
  if now <? ns_genesis_time_ms ns then Err (PreGenesis ((ns_genesis_time_ms ns - now) / 1000))
  else
    let hdr := blk_header block in
    let '(parent, height, parent_ts, parent_bits, parent_height) := parent_view ns in
    if negb (bool_decide (bh_parent hdr = parent)) then Err StaleParent
    else if negb (bh_height hdr =? height) then Err (WrongHeight (bh_height hdr) height)
    else
      bits ← expected_bits ns parent_bits parent_height parent_ts (bh_timestamp_ms hdr);
      if negb (bh_bits hdr =? bits) then Err (WrongBits (bh_bits hdr) bits)
      else if bh_timestamp_ms hdr <? parent_ts
      then Err (NonMonotonicTimestamp (bh_timestamp_ms hdr) parent_ts)
      else if wrapping_add 64 now FUTURE_TIME_TOLERANCE_MS <? bh_timestamp_ms hdr
      then Err (TimestampTooFar (bh_timestamp_ms hdr)
                  (wrapping_add 64 now FUTURE_TIME_TOLERANCE_MS))
      else if negb (meets_target (hash_header hdr) (target_from_bits (bh_bits hdr)))
      then Err HashAboveTarget
      else if negb (bool_decide (bh_tx_root hdr = tx_root (blk_body block)))
      then Err TxRootMismatch
      else if negb (bool_decide (bh_witness_root hdr = witness_root (blk_body block)))
      then Err WitnessRootMismatch
      else Ok tt.

(** The reward of a block on top of the current tip. *)
Definition block_reward (ns : Node) (hdr : BlockHeader) : outcome NodeError Z :=
  let parent_ts :=
    match tip (ns_store ns) with
    | Some b => bh_timestamp_ms (blk_header b)
    | None => ns_genesis_time_ms ns
    end in
  current_reward_with_height (ns_emission ns) (ns_genesis_time_ms ns) (bh_timestamp_ms hdr)
    parent_ts (ns_minted_so_far ns) (bh_height hdr) (ns_prev_reward_sat ns).

(** Runs a transition of the ledger on the ledger of the node. *)
Definition on_state {A} (m : stm St ApplyError A) : stm Node NodeError A := fun ns =>
  let '(r, s) := m (ns_state ns) in (map_err ApplyFailed r, set_state s ns).

Definition on_store (m : ChainStore -> outcome StoreError unit * ChainStore)
    : stm Node NodeError unit := fun ns =>
  let '(r, cs) := m (ns_store ns) in (map_err StoreFailed r, set_store cs ns).

(** Steps 6 to 8: the ledger, the counters, the mempool and the log. *)
Definition commit_block (io : option nat) (block : Block) : stm Node NodeError unit :=
  reward ← (fun ns => (block_reward ns (blk_header block), ns));
  minted ← read_st ns_minted_so_far;
  on_state (apply_block ft block reward);;
  modify_st (set_counters (saturating_add 128 minted reward) (Some reward));;
  modify_st (fun ns => set_mempool
    (confirm (body_hash <$> body_txs (blk_body block)) (ns_mempool ns)) ns);;
  on_store (append io block).

Definition try_apply_block (now : Z) (io : option nat) (block : Block)
    : stm Node NodeError unit :=
  (fun ns => (check_block now ns block, ns));;
  commit_block io block.

(** ** Templates and mining *)

Definition template_from_parent_with_body (parent_hash : bytes) (parent_height bits : Z)
    (coinbase : bytes) (sig_algo hash_algo timestamp_ms : Z) (body : BlockBody) : BlockHeader :=
  {| bh_version := 1; bh_height := wrapping_add 64 parent_height 1; bh_parent := parent_hash;
     bh_timestamp_ms := timestamp_ms; bh_bits := bits; bh_nonce := 0;
     bh_tx_root := tx_root body; bh_witness_root := witness_root body;
     bh_state_root := replicate 32 x00; bh_reflect_root := replicate 32 x00;
     bh_coinbase := coinbase; bh_sig_algo := sig_algo; bh_hash_algo := hash_algo |}.

Definition template_from_parent (parent_hash : bytes) (parent_height bits : Z)
    (coinbase : bytes) (sig_algo hash_algo timestamp_ms : Z) : BlockHeader :=
  template_from_parent_with_body parent_hash parent_height bits coinbase sig_algo hash_algo
    timestamp_ms {| body_txs := []; body_witnesses := [] |}.

Definition with_nonce (h : BlockHeader) (nonce : Z) : BlockHeader :=
  {| bh_version := bh_version h; bh_height := bh_height h; bh_parent := bh_parent h;
     bh_timestamp_ms := bh_timestamp_ms h; bh_bits := bh_bits h; bh_nonce := nonce;
     bh_tx_root := bh_tx_root h; bh_witness_root := bh_witness_root h;
     bh_state_root := bh_state_root h; bh_reflect_root := bh_reflect_root h;
     bh_coinbase := bh_coinbase h; bh_sig_algo := bh_sig_algo h;
     bh_hash_algo := bh_hash_algo h |}.

(** The nonce loop, at most [fuel] attempts; [None] when they are used up. *)
Fixpoint mine_loop (fuel : nat) (target : bytes) (h : BlockHeader) : option BlockHeader :=
  match fuel with
  | O => None
  | S fuel =>
      if meets_target (hash_header h) target then Some h
      else mine_loop fuel target (with_nonce h (wrapping_add 64 (bh_nonce h) 1))
  end.

Definition mine_inline (fuel : nat) (header : BlockHeader) : option Block :=
  h ← mine_loop fuel (target_from_bits (bh_bits header)) header;
  Some {| blk_header := h; blk_body := {| body_txs := []; body_witnesses := [] |} |}.

(** The body a template carries: the best 256 pending transactions. *)
Definition pending_body (ns : Node) : BlockBody :=
  let pending := pull_for_block 256 (ns_mempool ns) in
  {| body_txs := pt_body <$> pending; body_witnesses := pt_witness <$> pending |}.

(** [get_template]: the header a remote miner works on. *)
Definition template (now : Z) (ns : Node) : BlockHeader * BlockBody :=
  let '(parent_hash, parent_height) :=
    match tip (ns_store ns) with
    | Some b => (hash_header (blk_header b), bh_height (blk_header b))
    | None => (replicate 32 x00, 0)
    end in
  let body := pending_body ns in
  (template_from_parent_with_body parent_hash parent_height (ns_bits ns) (ns_coinbase ns)
     (ns_sig_algo ns) (ns_hash_algo ns) now body, body).

(** The header and body of one round of [self_miner_loop]. *)
Definition self_template (block_ts : Z) (ns : Node)
    : outcome NodeError (option (BlockHeader * BlockBody)) :=
  match tip (ns_store ns) with
  | None => Ok None
  | Some b =>
      let body := pending_body ns in
      new_bits ← expected_bits ns (bh_bits (blk_header b)) (bh_height (blk_header b))
                   (bh_timestamp_ms (blk_header b)) block_ts;
      Ok (Some (template_from_parent_with_body (hash_header (blk_header b))
                  (bh_height (blk_header b)) new_bits (ns_coinbase ns) (ns_sig_algo ns)
                  (ns_hash_algo ns) block_ts body, body))
  end.

(** ** Replay at start *)

(** [parent_ts] of the replay loop: the block before it by index. *)
Definition replay_parent_ts (genesis_time_ms : Z) (blocks : list Block) (b : Block) : Z :=
  let h := bh_height (blk_header b) in
  if h =? 0 then genesis_time_ms
  else match blocks !! Z.to_nat (h - 1) with
       | Some p => bh_timestamp_ms (blk_header p)
       | None => genesis_time_ms
       end.

Definition replay_block (p : EmissionParams) (genesis_time_ms : Z) (blocks : list Block)
    (b : Block) (acc : St * Z * option Z) : outcome NodeError (St * Z * option Z) :=
  let '(mem, minted_so_far, prev_reward) := acc in
  let hdr := blk_header b in
  reward ← current_reward_with_height p genesis_time_ms (bh_timestamp_ms hdr)
             (replay_parent_ts genesis_time_ms blocks b) minted_so_far (bh_height hdr)
             prev_reward;
  match apply_block ft b reward mem with
  | (Ok _, mem) => Ok (mem, saturating_add 128 minted_so_far reward, Some reward)
  | (Err e, _) => Err (ReplayFailed (bh_height hdr) e)
  | (Panic, _) => Panic
  end.

(** The loop of [cmd_run] over the blocks of the log. *)
Fixpoint replay (p : EmissionParams) (genesis_time_ms : Z) (blocks todo : list Block)
    (acc : St * Z * option Z) : outcome NodeError (St * Z * option Z) :=
  match todo with
  | [] => Ok acc
  | b :: todo => replay_block p genesis_time_ms blocks b acc ≫=
                 replay p genesis_time_ms blocks todo
  end.
End node.
