(* ===== verification/NodeProps.v ===== *)
(** * NodeProps: the chain of a node, its replay, mining

    The invariant [chain_ok] says that the log is a chain under the consensus rules; the
    theorems show that every accepted block extends it, that the state of the running node
    is what a restart replays from the log, and what becomes of mined templates. *)

From S2P Require Export Node.
From Stdlib Require Import Strings.Byte.

Local Open Scope Z_scope.

Section laws.
Context {St : Type} `{StateStore St} `{HashPrims} `{SigPrims} `{StateCodecs} {CB : Cbor Block}.
Context (ft : Features).
Notation Node := (NodeState St).

(** ** The chain under the rules of the node *)

(** [b] is a block the rules allow on top of [p], whatever the clock says. *)
Definition linked (ns : Node) (p b : Block) : Prop :=
  let ph := blk_header p in let h := blk_header b in
  bh_parent h = hash_header ph /\ bh_height h = wrapping_add 64 (bh_height ph) 1 /\
  expected_bits ns (bh_bits ph) (bh_height ph) (bh_timestamp_ms ph) (bh_timestamp_ms h) =
    Ok (bh_bits h) /\
  bh_timestamp_ms ph <= bh_timestamp_ms h /\
  meets_target (hash_header h) (target_from_bits (bh_bits h)) = true /\
  bh_tx_root h = tx_root (blk_body b) /\ bh_witness_root h = witness_root (blk_body b).

(** A chain from a block of height zero, each block linked to the one before. *)
Inductive chain_ok (ns : Node) : list Block -> Prop :=
| chain_genesis g : bh_height (blk_header g) = 0 -> chain_ok ns [g]
| chain_extend bs p b : chain_ok ns bs -> last bs = Some p -> linked ns p b ->
    chain_ok ns (bs ++ [b]).

(** The parameters the rules read, which no handler changes. *)
Definition same_rules (ns ns' : Node) : Prop :=
  ns_target_block_time_ms ns' = ns_target_block_time_ms ns /\
  ns_emission ns' = ns_emission ns /\
  ns_bootstrap_asert_tau_ms ns' = ns_bootstrap_asert_tau_ms ns /\
  ns_asert_tau_ms ns' = ns_asert_tau_ms ns /\
  ns_genesis_time_ms ns' = ns_genesis_time_ms ns.

Lemma linked_rules ns ns' p b : same_rules ns ns' -> linked ns p b -> linked ns' p b.
Proof.
  intros (E1 & E2 & E3 & E4 & _). unfold linked, expected_bits. by rewrite E1, E2, E3, E4.
Qed.

Lemma chain_ok_rules ns ns' bs : same_rules ns ns' -> chain_ok ns bs -> chain_ok ns' bs.
Proof.
  intros Hr. induction 1 as [g Hg|bs p b _ IH Hl Hb]; [by constructor|].
  econstructor; [exact IH|exact Hl|]. by eapply linked_rules.
Qed.

Lemma chain_ok_last ns bs : chain_ok ns bs -> exists p, last bs = Some p.
Proof. destruct 1; [by eexists|]. rewrite last_snoc. eauto. Qed.

(** Heights count the blocks. *)
Lemma chain_ok_heights ns bs : chain_ok ns bs -> Z.of_nat (length bs) < 2 ^ 64 ->
  forall i b, bs !! i = Some b -> bh_height (blk_header b) = Z.of_nat i.
Proof.
  induction 1 as [g Hg|bs p b Hc IH Hl Hb]; intros Hlen i x Hx.
  - destruct i as [|i]; [|done]. by injection Hx as <-.
  - rewrite length_app in Hlen. cbn in Hlen.
    apply lookup_app_Some in Hx as [Hx|[Hi Hx]]; [apply IH; [lia|done]|].
    destruct (i - length bs)%nat as [|k] eqn:Ek; [|done]. injection Hx as <-.
    rewrite last_lookup in Hl. destruct Hb as (_ & -> & _).
    rewrite (IH ltac:(lia) _ _ Hl). apply lookup_lt_Some in Hl.
    rewrite wrapping_add_small by lia. lia.
Qed.

(** ** The checks *)

Definition accepted_on (now : Z) (ns : Node) (p b : Block) : Prop :=
  ns_genesis_time_ms ns <= now /\
  bh_timestamp_ms (blk_header b) <= wrapping_add 64 now FUTURE_TIME_TOLERANCE_MS /\
  linked ns p b.

Lemma check_block_Ok now ns p b : tip (ns_store ns) = Some p ->
  check_block now ns b = Ok tt <-> accepted_on now ns p b.
Proof.
  intros Ht. unfold check_block, parent_view, accepted_on, linked. rewrite Ht.
  destruct (Z.ltb_spec now (ns_genesis_time_ms ns)) as [?|Hg]; [split; [done|lia]|].
  set (h := blk_header b). set (ph := blk_header p).
  destruct (bool_decide_reflect (bh_parent h = hash_header ph)); cbn [negb]; [|naive_solver].
  destruct (Z.eqb_spec (bh_height h) (wrapping_add 64 (bh_height ph) 1)); cbn [negb];
    [|naive_solver].
  destruct (expected_bits _ _ _ _ _) as [bits|err|]; cbn [mbind outcome_bind]; [|naive_solver..].
  destruct (Z.eqb_spec (bh_bits h) bits) as [->|]; cbn [negb]; [|naive_solver].
  destruct (Z.ltb_spec (bh_timestamp_ms h) (bh_timestamp_ms ph)); [split; [done|lia]|].
  destruct (Z.ltb_spec (wrapping_add 64 now FUTURE_TIME_TOLERANCE_MS) (bh_timestamp_ms h));
    [split; [done|lia]|].
  destruct (meets_target _ _); cbn [negb]; [|naive_solver].
  destruct (bool_decide_reflect (bh_tx_root h = tx_root (blk_body b))); cbn [negb]; [|naive_solver].
  destruct (bool_decide_reflect (bh_witness_root h = witness_root (blk_body b))); cbn [negb];
    naive_solver.
Qed.

(** ** The commit *)

Definition committed (b : Block) (reward : Z) (s : St) (cs : ChainStore) (ns : Node) : Node :=
  set_store cs (set_mempool (confirm (body_hash <$> body_txs (blk_body b)) (ns_mempool ns))
    (set_counters (saturating_add 128 (ns_minted_so_far ns) reward) (Some reward)
       (set_state s ns))).

(** Every run of the commit, on any disk: what failed and what was written by then. *)
Lemma commit_block_runs io b ns r ns' : commit_block ft io b ns = (r, ns') ->
  (exists reward out s ra cs, block_reward ns (blk_header b) = Ok reward /\
     apply_block ft b reward (ns_state ns) = (Ok out, s) /\
     append io b (ns_store ns) = (ra, cs) /\
     r = map_err StoreFailed ra /\ ns' = committed b reward s cs ns) \/
  (exists reward e s, block_reward ns (blk_header b) = Ok reward /\
     apply_block ft b reward (ns_state ns) = (Err e, s) /\
     r = Err (ApplyFailed e) /\ ns' = set_state s ns) \/
  (r = Panic /\ exists s, ns' = set_state s ns) \/
  (exists e, block_reward ns (blk_header b) = Err e /\ r = Err e /\ ns' = ns).
Proof.
  unfold commit_block, on_state, on_store, mbind, stm_bind, read_st, modify_st.
  destruct (block_reward ns (blk_header b)) as [reward|e|] eqn:Er.
  - destruct (apply_block ft b reward (ns_state ns)) as [[out|e|] s] eqn:Ea; cbn [map_err].
    + cbn -[append]. destruct (append io b (ns_store ns)) as [ra cs] eqn:Ec. intros [= <- <-]. left.
      by exists reward, out, s, ra, cs.
    + intros [= <- <-]. right. left. by exists reward, e, s.
    + intros [= <- <-]. right. right. left. by split; [|eexists].
  - intros [= <- <-]. right. right. right. by exists e.
  - intros [= <- <-]. right. right. left. split; [done|]. exists (ns_state ns). by destruct ns.
Qed.

(** On a disk that works the append succeeds. *)
Lemma commit_block_cases b ns r ns' : storable b = true ->
  commit_block ft None b ns = (r, ns') ->
  (exists reward out s cs, block_reward ns (blk_header b) = Ok reward /\
     apply_block ft b reward (ns_state ns) = (Ok out, s) /\
     append None b (ns_store ns) = (Ok tt, cs) /\
     r = Ok tt /\ ns' = committed b reward s cs ns) \/
  (exists reward e s, block_reward ns (blk_header b) = Ok reward /\
     apply_block ft b reward (ns_state ns) = (Err e, s) /\
     r = Err (ApplyFailed e) /\ ns' = set_state s ns) \/
  (r = Panic /\ exists s, ns' = set_state s ns) \/
  (exists e, block_reward ns (blk_header b) = Err e /\ r = Err e /\ ns' = ns).
Proof.
  intros Hs Hr. destruct (storable_spec b Hs) as (buf & Hser & _).
  apply commit_block_runs in Hr as [(reward & out & s & ra & cs & R1 & R2 & R3 & -> & ->)|?]; [left|by right].
  unfold append in R3. rewrite Hser in R3. injection R3 as <- <-.
  exists reward, out, s. eexists. split_and!; [done|done|unfold append; by rewrite Hser|done|done].
Qed.

Lemma commit_block_Ok b ns reward out s cs : block_reward ns (blk_header b) = Ok reward ->
  apply_block ft b reward (ns_state ns) = (Ok out, s) ->
  append None b (ns_store ns) = (Ok tt, cs) ->
  commit_block ft None b ns = (Ok tt, committed b reward s cs ns).
Proof.
  intros Hr Ha Hc. unfold commit_block, on_state, on_store, mbind, stm_bind, read_st, modify_st.
  rewrite Hr, Ha. cbn [map_err]. cbn -[append]. by rewrite Hc.
Qed.

Lemma committed_rules b reward s cs ns : same_rules ns (committed b reward s cs ns).
Proof. by repeat split. Qed.

Lemma set_state_rules s ns : same_rules ns (set_state s ns).
Proof. by repeat split. Qed.

(** ** The invariant of the node *)

(** The log holds a chain, and the cache agrees with it. *)
Definition node_ok (ns : Node) (bs : list Block) : Prop :=
  store_holds (ns_store ns) bs /\ chain_ok ns bs /\ Z.of_nat (length bs) < 2 ^ 64 - 1.

Lemma node_ok_tip ns bs : node_ok ns bs -> exists p, last bs = Some p /\ tip (ns_store ns) = Some p.
Proof.
  intros ((_ & Ht & _) & Hc & _). destruct (chain_ok_last _ _ Hc) as [p Hp].
  exists p. unfold tip. by rewrite Ht.
Qed.

Lemma node_ok_height ns bs : node_ok ns bs -> height (ns_store ns) = Z.of_nat (length bs) - 1.
Proof.
  intros Hok. destruct (node_ok_tip ns bs Hok) as (p & Hp & Ht). destruct Hok as ((_ & Et & _) & Hc & Hl).
  unfold height, tip in *. rewrite Ht. rewrite last_lookup in Hp.
  rewrite (chain_ok_heights ns bs Hc ltac:(lia) _ _ Hp). apply lookup_lt_Some in Hp. lia.
Qed.

Lemma commit_extends ns bs p b reward s : node_ok ns bs -> last bs = Some p -> linked ns p b ->
  storable b = true -> Z.of_nat (length bs) < 2 ^ 64 - 2 ->
  exists cs, append None b (ns_store ns) = (Ok tt, cs) /\
    node_ok (committed b reward s cs ns) (bs ++ [b]).
Proof.
  intros (Hh & Hc & _) Hp Hl Hb Hlen.
  destruct (append_holds _ _ b Hh Hb ltac:(lia)) as (cs & Ha & Hh'). exists cs.
  split; [done|]. split_and!.
  - exact Hh'.
  - apply (chain_ok_rules ns); [apply committed_rules|]. by econstructor.
  - rewrite length_app. cbn. lia.
Qed.

(** ** Replay *)

(** What the running node keeps besides the log. *)
Definition live (ns : Node) : St * Z * option Z :=
  (ns_state ns, ns_minted_so_far ns, ns_prev_reward_sat ns).

(** The node is what a restart computes from its log, starting from [s0]. *)
Definition synced (s0 : St) (ns : Node) (bs : list Block) : Prop :=
  replay ft (ns_emission ns) (ns_genesis_time_ms ns) bs bs (s0, 0, None) = Ok (live ns).

Lemma replay_app p g blocks todo1 todo2 (acc : St * Z * option Z) :
  replay ft p g blocks (todo1 ++ todo2) acc =
  replay ft p g blocks todo1 acc ≫= replay ft p g blocks todo2.
Proof.
  revert acc; induction todo1 as [|b todo1 IH]; intros acc; [done|]. cbn [app replay].
  destruct (replay_block ft p g blocks b acc) as [acc'|e|]; cbn; [apply IH|done|done].
Qed.

(** The parent lookups of a replay only see the blocks before. *)
Lemma replay_parent_prefix g bs b x i : bs !! i = Some x ->
  bh_height (blk_header x) = Z.of_nat i ->
  replay_parent_ts g (bs ++ [b]) x = replay_parent_ts g bs x.
Proof.
  intros Hx Hh. unfold replay_parent_ts. rewrite Hh. destruct (Z.eqb_spec (Z.of_nat i) 0); [done|].
  rewrite lookup_app_l; [done|]. apply lookup_lt_Some in Hx. lia.
Qed.

Lemma replay_prefix p g bs b todo (acc : St * Z * option Z) :
  (forall x, x ∈ todo -> replay_parent_ts g (bs ++ [b]) x = replay_parent_ts g bs x) ->
  replay ft p g (bs ++ [b]) todo acc = replay ft p g bs todo acc.
Proof.
  revert acc; induction todo as [|x todo IH]; intros acc Hx; [done|]. cbn [replay].
  assert (replay_block ft p g (bs ++ [b]) x acc = replay_block ft p g bs x acc) as ->.
  { unfold replay_block. by rewrite Hx by (by left). }
  destruct (replay_block ft p g bs x acc) as [acc'|e|]; cbn; [|done|done].
  apply IH. intros y Hy. apply Hx. by right.
Qed.

Lemma synced_commit s0 ns bs p b reward out s cs :
  node_ok ns bs -> synced s0 ns bs -> last bs = Some p -> linked ns p b ->
  block_reward ns (blk_header b) = Ok reward ->
  apply_block ft b reward (ns_state ns) = (Ok out, s) ->
  append None b (ns_store ns) = (Ok tt, cs) ->
  synced s0 (committed b reward s cs ns) (bs ++ [b]).
Proof.
  intros (Hh & Hc & Hlen) Hsy Hp Hl Hr Ha Happ. unfold synced. cbn.
  pose proof (chain_ok_heights _ _ Hc ltac:(lia)) as Hi.
  rewrite replay_app, replay_prefix.
  2:{ intros x (i & Hx)%list_elem_of_lookup. by eapply replay_parent_prefix, Hi. }
  unfold synced in Hsy. rewrite Hsy. cbn [mbind outcome_bind replay]. unfold live, replay_block.
  assert (replay_parent_ts (ns_genesis_time_ms ns) (bs ++ [b]) b =
          bh_timestamp_ms (blk_header p)) as ->.
  { destruct Hl as (_ & Hhb & _). unfold replay_parent_ts. rewrite Hhb.
    rewrite last_lookup in Hp. rewrite (Hi _ _ Hp). apply lookup_lt_Some in Hp as Hlt.
    rewrite wrapping_add_small by lia.
    destruct (Z.eqb_spec (Z.of_nat (pred (length bs)) + 1) 0); [lia|].
    rewrite lookup_app_l by lia.
    replace (Z.to_nat (Z.of_nat (pred (length bs)) + 1 - 1)) with (pred (length bs)) by lia.
    by rewrite Hp. }
  unfold block_reward in Hr. destruct (node_ok_tip ns bs) as (p' & Hp' & Ht); [done|].
  rewrite Hp in Hp'. injection Hp' as <-. rewrite Ht in Hr. rewrite Hr.
  cbn [mbind outcome_bind]. rewrite Ha. done.
Qed.

(** ** Properties *)

Definition applied_to (ns : Node) (now : Z) (b : Block) (bs : list Block) (ns' : Node) : Prop :=
  exists p reward out s cs, last bs = Some p /\ accepted_on now ns p b /\
    block_reward ns (blk_header b) = Ok reward /\
    apply_block ft b reward (ns_state ns) = (Ok out, s) /\
    append None b (ns_store ns) = (Ok tt, cs) /\ ns' = committed b reward s cs ns.

(** Every run of [try_apply_block], on any disk. *)
Lemma try_apply_runs ns bs now io b r ns' : node_ok ns bs ->
  try_apply_block ft now io b ns = (r, ns') ->
  (exists p reward out s ra cs, last bs = Some p /\ accepted_on now ns p b /\
     block_reward ns (blk_header b) = Ok reward /\
     apply_block ft b reward (ns_state ns) = (Ok out, s) /\
     append io b (ns_store ns) = (ra, cs) /\
     r = map_err StoreFailed ra /\ ns' = committed b reward s cs ns) \/
  (exists s, ns' = set_state s ns /\ (r = Panic \/ exists e, r = Err (ApplyFailed e))) \/
  (exists e, r = Err e /\ ns' = ns).
Proof.
  intros Hok. destruct (node_ok_tip _ _ Hok) as (p & Hp & Ht).
  unfold try_apply_block. unfold mbind at 1, stm_bind at 1.
  destruct (check_block now ns b) as [[]|e|] eqn:Ec; intros Hr.
  - apply (check_block_Ok now ns p b Ht) in Ec. apply commit_block_runs in Hr
      as [(reward & out & s & ra & cs & R1 & R2 & R3 & -> & ->)
         |[(reward & e & s & _ & _ & -> & ->)|[(-> & s & ->)|(e & _ & -> & ->)]]].
    + left. by exists p, reward, out, s, ra, cs.
    + right. left. exists s. eauto.
    + right. left. exists s. auto.
    + right. right. by exists e.
  - injection Hr as <- <-. right. right. by exists e.
  - injection Hr as <- <-. right. left. exists (ns_state ns). split; [by destruct ns|by left].
Qed.

Lemma try_apply_cases ns bs now b r ns' : node_ok ns bs -> storable b = true ->
  try_apply_block ft now None b ns = (r, ns') ->
  (r = Ok tt /\ applied_to ns now b bs ns') \/
  (exists s, ns' = set_state s ns /\ (r = Panic \/ exists e, r = Err (ApplyFailed e))) \/
  (exists e, r = Err e /\ ns' = ns).
Proof.
  intros Hok Hs Ht. destruct (storable_spec b Hs) as (buf & Hser & _).
  destruct (try_apply_runs _ _ _ _ _ _ _ Hok Ht)
    as [(p & reward & out & s & ra & cs & Hp & Hacc & Hr & Ha & Happ & -> & ->)|[?|(e & ? & ?)]];
    [left|by right; left|right; right; by exists e].
  pose proof Happ as Happ'. unfold append in Happ'. rewrite Hser in Happ'. injection Happ' as <- _.
  split; [done|]. by exists p, reward, out, s, cs.
Qed.

(** An append the disk refuses after [k] bytes of the frame. *)
Lemma append_torn k cs bs b : store_holds cs bs -> storable b = true ->
  exists cs', append (Some k) b cs = (Err IoError, cs') /\ tip cs' = tip cs /\ len cs' = len cs /\
    default [] (cs_disk cs') = log_bytes bs ++ take k (frame b).
Proof.
  intros (Hd & _) Hb. destruct (storable_spec b Hb) as (buf & Hser & _).
  unfold append, frame. rewrite Hser. eexists. split_and!; [reflexivity|done|done|]. by rewrite <- Hd.
Qed.

(** The checks and the ledger took the block and the disk then refused it: the ledger, the
    counters and the pool are those after the block, the log and its tip those before, with
    the bytes of the frame that went through at the end of the file. *)
Definition torn_commit (ns : Node) (bs : list Block) (now : Z) (io : option nat) (b : Block)
    (ns' : Node) : Prop :=
  exists k p reward out s cs, io = Some k /\ last bs = Some p /\ accepted_on now ns p b /\
    block_reward ns (blk_header b) = Ok reward /\
    apply_block ft b reward (ns_state ns) = (Ok out, s) /\ ns' = committed b reward s cs ns /\
    tip cs = tip (ns_store ns) /\ len cs = len (ns_store ns) /\
    default [] (cs_disk cs) = log_bytes bs ++ take k (frame b).

(** C2: Whatever block is submitted and whatever the disk does.  An accepted block met a
    working disk, was linked to the tip (parent hash, height, expected bits, timestamp order,
    proof of work, body roots), inside the clock window, applied to the ledger with its
    scheduled reward, and is the new tip of a log that is again a chain under the consensus
    rules, with its transactions gone from the mempool.  A rejected block leaves the log, its
    tip, the counters and the pool as they were, and so the ledger unless it is the ledger that
    rejected the block; or else the disk failed on a block that passed everything: then the log
    keeps its tip and gets the torn frame, while the ledger, the counters and the pool have
    moved on.  A panic would leave everything but the ledger as it was. *)
Theorem try_apply_block_chain ns bs now io b :
  node_ok ns bs -> storable b = true -> Z.of_nat (length bs) < 2 ^ 64 - 2 ->
  let '(r, ns') := try_apply_block ft now io b ns in
  match r with
  | Ok _ => io = None /\ applied_to ns now b bs ns' /\ node_ok ns' (bs ++ [b]) /\
      tip (ns_store ns') = Some b /\
      forall t, t ∈ body_txs (blk_body b) -> mp_inner (ns_mempool ns') !! body_hash t = None
  | Err e =>
      (node_ok ns' bs /\ ns' = ns) \/
      (node_ok ns' bs /\ exists e' s, e = ApplyFailed e' /\ ns' = set_state s ns) \/
      (e = StoreFailed IoError /\ torn_commit ns bs now io b ns')
  | Panic => node_ok ns' bs /\ exists s, ns' = set_state s ns
  end.
Proof.
  intros Hok Hs Hlen. destruct (try_apply_block ft now io b ns) as [r ns'] eqn:Et.
  assert (forall s, node_ok (set_state s ns) bs) as Hset.
  { intros s. destruct Hok as (Hh & Hc & Hl). split_and!; [exact Hh| |exact Hl].
    by apply (chain_ok_rules ns). }
  destruct (try_apply_runs ns bs now io b r ns' Hok Et)
    as [(p & reward & out & s & ra & cs & Hp & Hacc & Hr & Ha & Happ & -> & ->)
       |[(s & -> & [->|(e & ->)])|(e & -> & ->)]].
  - pose proof Hacc as (_ & _ & Hl). destruct io as [k|].
    + destruct (append_torn k (ns_store ns) bs b (proj1 Hok) Hs) as (cs' & Happ' & Htip & Hlen' & Hd).
      rewrite Happ in Happ'. injection Happ' as -> ->. cbn [map_err]. right. right. split; [done|].
      by exists k, p, reward, out, s, cs'.
    + destruct (commit_extends ns bs p b reward s Hok Hp Hl Hs Hlen) as (cs' & Happ' & Hok').
      rewrite Happ in Happ'. injection Happ' as -> ->. cbn [map_err]. split_and!; [done| |exact Hok'| |].
      * by exists p, reward, out, s, cs'.
      * destruct Hok' as ((_ & Ht & _) & _ & _). unfold tip. by rewrite Ht, last_snoc.
      * intros t Ht. unfold committed, set_store, set_mempool. cbn [ns_mempool].
        rewrite confirm_lookup, decide_True; [done|]. by apply list_elem_of_fmap_2.
  - split; [apply Hset|by exists s].
  - right. left. split; [apply Hset|by exists e, s].
  - by left.
Qed.

(** What can happen to a node whose disk works, and the log it leaves: the pool changes, a
    block is accepted, or a block is rejected by a step that [R] allows. *)
Inductive submissions (R : Node -> Node -> Prop) (ns0 : Node) (bs0 : list Block) :
    Node -> list Block -> Prop :=
| sub_none : submissions R ns0 bs0 ns0 bs0
| sub_pool ns bs mp : submissions R ns0 bs0 ns bs -> submissions R ns0 bs0 (set_mempool mp ns) bs
| sub_accept ns bs now b ns' : submissions R ns0 bs0 ns bs -> storable b = true ->
    Z.of_nat (length bs) < 2 ^ 64 - 2 ->
    try_apply_block ft now None b ns = (Ok tt, ns') -> submissions R ns0 bs0 ns' (bs ++ [b])
| sub_reject ns bs now b e ns' : submissions R ns0 bs0 ns bs -> storable b = true ->
    try_apply_block ft now None b ns = (Err e, ns') -> R ns ns' -> submissions R ns0 bs0 ns' bs.

(** Rejections of any kind, and those that leave the ledger as it was. *)
Definition any_rejection (ns ns' : Node) : Prop := True.
Definition clean_rejection (ns ns' : Node) : Prop := ns_state ns' = ns_state ns.

(** A block rejected with the ledger as it was changes nothing. *)
Lemma rejected_same ns bs now b e ns' : node_ok ns bs -> storable b = true ->
  try_apply_block ft now None b ns = (Err e, ns') -> clean_rejection ns ns' -> ns' = ns.
Proof.
  intros Hok Hs Ht Hst. destruct (try_apply_cases _ _ _ _ _ _ Hok Hs Ht)
    as [[? _]|[(s & -> & _)|(e' & _ & ->)]]; [done| |done].
  unfold clean_rejection in Hst. cbn in Hst. subst s. by destruct ns.
Qed.

Lemma node_ok_pool ns bs mp : node_ok ns bs -> node_ok (set_mempool mp ns) bs.
Proof.
  intros (Hh & Hc & Hl). split_and!; [exact Hh| |exact Hl]. by apply (chain_ok_rules ns).
Qed.

(** The tip as a time; blocks do not go back in time. *)
Definition tip_timestamp (bs : list Block) : Z := from_option (fun b => bh_timestamp_ms (blk_header b)) 0 (last bs).

Lemma tip_timestamp_last bs b : last bs = Some b -> tip_timestamp bs = bh_timestamp_ms (blk_header b).
Proof. unfold tip_timestamp. by intros ->. Qed.

(** Whatever rejections leave of the ledger, the log stays a chain that grows. *)
Lemma submissions_forward R ns0 bs0 ns bs : node_ok ns0 bs0 -> submissions R ns0 bs0 ns bs ->
  node_ok ns bs /\ same_rules ns0 ns /\ tip_timestamp bs0 <= tip_timestamp bs /\ (length bs0 <= length bs)%nat.
Proof.
  intros Hok0. induction 1 as [|ns bs mp _ (Hok & Hru & Ht & Hl)|ns bs now b ns' _ (Hok & Hru & Ht & Hl) Hs Hlen Et
    |ns bs now b e ns' _ (Hok & Hru & Ht & Hl) Hs Et _]; [split; [done|split; [by repeat split|lia]]| | |].
  - split_and!; [by apply node_ok_pool|exact Hru|exact Ht|exact Hl].
  - destruct (try_apply_cases _ _ _ _ _ _ Hok Hs Et)
      as [[_ Ha]|[(s & _ & [?|(e & ?)])|(e & ? & _)]]; [|done..].
    destruct Ha as (p & reward & out & s & cs & Hp & (_ & _ & Hk) & _ & _ & Happ & ->).
    destruct (commit_extends ns bs p b reward s Hok Hp Hk Hs Hlen) as (cs' & Happ' & Hok').
    rewrite Happ in Happ'. injection Happ' as <-. destruct Hk as (_ & _ & _ & Hts & _).
    rewrite (tip_timestamp_last (bs ++ [b]) b), length_app by apply last_snoc. rewrite (tip_timestamp_last _ _ Hp) in Ht.
    split_and!; [exact Hok'|exact Hru|lia|lia].
  - destruct (try_apply_cases _ _ _ _ _ _ Hok Hs Et)
      as [[? _]|[(s & -> & _)|(e' & _ & ->)]]; [done| |done].
    split_and!; [|exact Hru|exact Ht|exact Hl]. destruct Hok as (Hh & Hc & Hlen).
    split_and!; [exact Hh| |exact Hlen]. by apply (chain_ok_rules ns).
Qed.

(** The running node is what a replay of its log computes. *)
Lemma submissions_synced s0 ns0 bs0 ns bs :
  node_ok ns0 bs0 -> synced s0 ns0 bs0 -> submissions clean_rejection ns0 bs0 ns bs ->
  node_ok ns bs /\ synced s0 ns bs /\ same_rules ns0 ns.
Proof.
  intros Hok0 Hsy0.
  induction 1 as [|ns bs mp _ (Hok & Hsy & Hru)|ns bs now b ns' _ (Hok & Hsy & Hru) Hs Hlen Et
    |ns bs now b e ns' _ (Hok & Hsy & Hru) Hs Et He].
  - split_and!; [done|done|by repeat split].
  - split_and!; [by apply node_ok_pool|exact Hsy|exact Hru].
  - destruct (try_apply_cases _ _ _ _ _ _ Hok Hs Et)
      as [[_ Ha]|[(s & _ & [?|(e & ?)])|(e & ? & _)]]; [|done..].
    destruct Ha as (p & reward & out & s & cs & Hp & (_ & _ & Hl) & Hr & Ha & Happ & ->).
    destruct (commit_extends ns bs p b reward s Hok Hp Hl Hs Hlen) as (cs' & Happ' & Hok').
    rewrite Happ in Happ'. injection Happ' as <-.
    split; [exact Hok'|]. split; [by eapply synced_commit|exact Hru].
  - by rewrite (rejected_same _ _ _ _ _ _ Hok Hs Et He).
Qed.

(** ** Mining *)

Lemma with_nonce_twice h n1 n2 : with_nonce (with_nonce h n1) n2 = with_nonce h n2.
Proof. done. Qed.

Lemma with_nonce_same h : with_nonce h (bh_nonce h) = h.
Proof. by destruct h. Qed.

(** The header of the [k]-th attempt. *)
Definition attempt (h : BlockHeader) (k : nat) : BlockHeader :=
  with_nonce h (wrapping_add 64 (bh_nonce h) (Z.of_nat k)).

Lemma attempt_S h k : attempt (with_nonce h (wrapping_add 64 (bh_nonce h) 1)) k = attempt h (S k).
Proof.
  unfold attempt. cbn [bh_nonce with_nonce]. rewrite with_nonce_twice. f_equal.
  unfold wrapping_add. rewrite Z.add_mod_idemp_l by lia. f_equal. lia.
Qed.

Lemma attempt_0 h : in_u 64 (bh_nonce h) -> attempt h 0 = h.
Proof.
  unfold in_u, attempt. intros Hn. rewrite wrapping_add_small by (cbn; lia).
  rewrite Z.add_0_r. apply with_nonce_same.
Qed.

Lemma mine_loop_fields fuel target h h' : mine_loop fuel target h = Some h' ->
  exists n, h' = with_nonce h n /\ meets_target (hash_header h') target = true.
Proof.
  revert h; induction fuel as [|fuel IH]; intros h; [done|]. cbn [mine_loop].
  destruct (meets_target (hash_header h) target) eqn:E.
  - intros [= <-]. exists (bh_nonce h). by rewrite with_nonce_same.
  - intros Hl. destruct (IH _ Hl) as (n & -> & Hm). exists n. by rewrite with_nonce_twice in *.
Qed.

Lemma mine_loop_first fuel target h k : in_u 64 (bh_nonce h) -> (k < fuel)%nat ->
  meets_target (hash_header (attempt h k)) target = true ->
  exists j, (j <= k)%nat /\ mine_loop fuel target h = Some (attempt h j) /\
    meets_target (hash_header (attempt h j)) target = true /\
    forall i, (i < j)%nat -> meets_target (hash_header (attempt h i)) target = false.
Proof.
  revert h k; induction fuel as [|fuel IH]; intros h k Hn Hk Hm; [lia|]. cbn [mine_loop].
  destruct (meets_target (hash_header h) target) eqn:E.
  { exists 0%nat. rewrite attempt_0 by done. split_and!; [lia|done|done|lia]. }
  destruct k as [|k]; [rewrite attempt_0 in Hm by done; congruence|].
  rewrite <- attempt_S in Hm.
  destruct (IH (with_nonce h (wrapping_add 64 (bh_nonce h) 1)) k) as (j & Hj & Hl & Hmj & Hmin).
  - unfold in_u, wrapping_add. cbn [bh_nonce with_nonce]. apply Z.mod_pos_bound. lia.
  - lia.
  - done.
  - exists (S j). rewrite attempt_S in Hl, Hmj. split_and!; [lia|done|done|].
    intros [|i] Hi; [by rewrite attempt_0|]. rewrite <- attempt_S. apply Hmin. lia.
Qed.

(** C27: The nonce loop.  If some nonce meets the target, the loop returns after at most that
    many attempts, with the first header whose hash meets the target; only the nonce was
    changed, so 2^64 attempts decide whether the header can be mined at all. *)
Theorem mine_inline_first h k : in_u 64 (bh_nonce h) ->
  meets_target (hash_header (attempt h k)) (target_from_bits (bh_bits h)) = true ->
  exists j b, (j <= k)%nat /\ (forall fuel, (k < fuel)%nat -> mine_inline fuel h = Some b) /\
    blk_header b = attempt h j /\ body_txs (blk_body b) = [] /\
    meets_target (hash_header (blk_header b)) (target_from_bits (bh_bits (blk_header b))) = true /\
    forall i, (i < j)%nat ->
      meets_target (hash_header (attempt h i)) (target_from_bits (bh_bits h)) = false.
Proof.
  intros Hn Hm. set (t := target_from_bits (bh_bits h)) in *.
  destruct (mine_loop_first (S k) t h k Hn ltac:(lia) Hm) as (j & Hj & Hl & Hmj & Hmin).
  exists j, {| blk_header := attempt h j; blk_body := {| body_txs := []; body_witnesses := [] |} |}.
  split_and!; [done| |done|done|done|done].
  intros fuel Hf. unfold mine_inline. fold t.
  destruct (mine_loop_first fuel t h k Hn Hf Hm) as (j' & Hj' & -> & Hmj' & Hmin').
  assert (j' = j) as ->; [|done]. destruct (Nat.lt_trichotomy j j') as [Hlt|[?|Hlt]]; [|done|].
  - by rewrite Hmin' in Hmj.
  - by rewrite Hmin in Hmj'.
Qed.

(** ** Templates *)

Definition mined (hdr : BlockHeader) (body : BlockBody) (nonce : Z) : Block :=
  {| blk_header := with_nonce hdr nonce; blk_body := body |}.

(** What the validator says of a template of the self-miner with any nonce. *)
Lemma self_template_check (ns : Node) p block_ts now hdr body nonce :
  tip (ns_store ns) = Some p -> self_template block_ts ns = Ok (Some (hdr, body)) ->
  ns_genesis_time_ms ns <= now ->
  check_block now ns (mined hdr body nonce) =
    let parent_ts := bh_timestamp_ms (blk_header p) in
    let limit := wrapping_add 64 now FUTURE_TIME_TOLERANCE_MS in
    if block_ts <? parent_ts then Err (NonMonotonicTimestamp block_ts parent_ts)
    else if limit <? block_ts then Err (TimestampTooFar block_ts limit)
    else if meets_target (hash_header (with_nonce hdr nonce)) (target_from_bits (bh_bits hdr))
    then Ok tt else Err HashAboveTarget.
Proof.
  intros Ht Hs Hg. unfold self_template in Hs. rewrite Ht in Hs.
  apply outcome_bind_Ok in Hs as (bits & Hb & Hs). injection Hs as <- <-.
  unfold check_block, parent_view. rewrite Ht. destruct (Z.ltb_spec now (ns_genesis_time_ms ns)); [lia|].
  cbn -[expected_bits wrapping_add meets_target hash_header tx_root witness_root].
  rewrite bool_decide_eq_true_2, Z.eqb_refl by done.
  cbn -[expected_bits wrapping_add meets_target hash_header tx_root witness_root].
  rewrite Hb. cbn [mbind outcome_bind]. rewrite Z.eqb_refl, !bool_decide_eq_true_2 by done. cbn [negb].
  by destruct (meets_target _ _).
Qed.

Lemma self_template_checked (ns : Node) p block_ts now hdr body nonce :
  tip (ns_store ns) = Some p -> self_template block_ts ns = Ok (Some (hdr, body)) ->
  meets_target (hash_header (with_nonce hdr nonce)) (target_from_bits (bh_bits hdr)) = true ->
  bh_timestamp_ms (blk_header p) <= block_ts <= wrapping_add 64 now FUTURE_TIME_TOLERANCE_MS ->
  ns_genesis_time_ms ns <= now ->
  check_block now ns (mined hdr body nonce) = Ok tt.
Proof.
  intros Ht Hs Hm Hts Hg. rewrite (self_template_check _ _ _ _ _ _ _ Ht Hs Hg). cbv zeta.
  rewrite Hm, !(proj2 (Z.ltb_ge _ _)) by lia. done.
Qed.

(** C26: Templates.  On an unmoved tip, once the genesis time has come, the only checks of the
    validator that a template of the self-miner can fail are those of the clock and of the
    nonce: it is rejected as too early when its timestamp is before the tip's (the tip is
    ahead of the miner's clock), as too far when it is beyond the window of the
    validator's clock, as above the target when its nonce is no solution, in this order, and
    passes all checks otherwise.  The template of [get_template] carries the bits of the
    genesis file instead of the bits of the difficulty rule: when the two differ, every block
    mined on it is rejected for its bits. *)
Theorem templates (ns : Node) p : tip (ns_store ns) = Some p ->
  (forall block_ts now hdr body nonce,
     self_template block_ts ns = Ok (Some (hdr, body)) -> ns_genesis_time_ms ns <= now ->
     check_block now ns (mined hdr body nonce) =
       let parent_ts := bh_timestamp_ms (blk_header p) in
       let limit := wrapping_add 64 now FUTURE_TIME_TOLERANCE_MS in
       if block_ts <? parent_ts then Err (NonMonotonicTimestamp block_ts parent_ts)
       else if limit <? block_ts then Err (TimestampTooFar block_ts limit)
       else if meets_target (hash_header (with_nonce hdr nonce)) (target_from_bits (bh_bits hdr))
       then Ok tt else Err HashAboveTarget) /\
  (forall block_ts now nonce bits,
     expected_bits ns (bh_bits (blk_header p)) (bh_height (blk_header p))
       (bh_timestamp_ms (blk_header p)) block_ts = Ok bits ->
     bits <> ns_bits ns -> ns_genesis_time_ms ns <= now ->
     let '(hdr, body) := template block_ts ns in
     check_block now ns (mined hdr body nonce) = Err (WrongBits (ns_bits ns) bits)).
Proof.
  intros Ht. split.
  - intros block_ts now hdr body nonce. by apply self_template_check.
  - intros block_ts now nonce bits Hb Hne Hg. unfold template. rewrite Ht.
    unfold check_block, parent_view. rewrite Ht.
    destruct (Z.ltb_spec now (ns_genesis_time_ms ns)); [lia|]. cbn -[expected_bits wrapping_add].
    rewrite bool_decide_eq_true_2, Z.eqb_refl by done. cbn -[expected_bits]. rewrite Hb.
    cbn [mbind outcome_bind]. by destruct (Z.eqb_spec (ns_bits ns) bits); [congruence|].
Qed.
End laws.
