(* ===== verification/RewardTrap.v ===== *)
(** * RewardTrap: the slew-rate limit freezes the emission
    (crates/consensus/src/emission.rs)

    The limit rounds the largest allowed reward down.  From a reward of at most 3 satoshi, 25%
    more rounds to no more, so a chain that has come down to such a reward keeps paying it,
    block after block, however much the schedule owes. *)

From S2P Require Export NodeProps.

Local Open Scope Z_scope.

Section trap.
Context (p : EmissionParams) (Tp : typed p = true) (g : Z).

(** Rewards the limit never lets grow. *)
Definition trapped (prev : Z) : Prop :=
  0 < prev /\ prev * Z.max (max_reward_pct_change_per_block p) 1 < 100.

Lemma trapped_ceiling prev : trapped prev -> slew_ceiling p prev = prev.
Proof using Tp.
  intros [Hp Hpct]. destruct (params_ranges p Tp) as (_ & _ & _ & _ & Hm & _).
  unfold slew_ceiling. rewrite saturating_mul_small by nia.
  symmetry. apply (Z.div_unique _ _ _ (prev * Z.max (max_reward_pct_change_per_block p) 1)); lia.
Qed.

Lemma epoch_reward_antitone t1 t2 : 0 <= t1 <= t2 -> epoch_reward p t2 <= epoch_reward p t1.
Proof using Tp.
  intros Ht. destruct (params_ranges p Tp) as (Hi & _). unfold in_u in Hi. unfold epoch_reward.
  set (h := Z.max (seconds_per_halving p * 1000) 1).
  assert (0 <= t1 / h <= t2 / h) as Hk
    by (split; [apply Z.div_pos|apply Z.div_le_mono]; unfold h; lia).
  destruct (Z.leb_spec 64 (t1 / h)), (Z.leb_spec 64 (t2 / h)); try lia.
  - apply Z.shiftr_nonneg. lia.
  - rewrite !Z.shiftr_div_pow2 by lia. apply Z.div_le_compat_l; [lia|].
    split; [lia|]. apply Z.pow_le_mono_r; lia.
Qed.

(** The nominal reward still covers [prev] per millisecond, and in bootstrap. *)
Definition nominal_covers (prev t : Z) : Prop :=
  prev * Z.max (em_target_block_time_ms p) 1 <= epoch_reward p t /\
  100 * prev <= epoch_reward p t * bootstrap_reward_pct p.

Lemma nominal_covers_before prev t1 t2 : 0 <= t1 <= t2 -> nominal_covers prev t2 -> nominal_covers prev t1.
Proof using Tp.
  intros Ht [H1 H2]. pose proof (epoch_reward_antitone t1 t2 Ht).
  destruct (params_ranges p Tp) as (_ & _ & _ & _ & _ & Hb & _). split; nia.
Qed.

(** What is owed at the time of a block reaches its reward. *)
Lemma raw_reward_covers prev t elapsed minted h : 0 < prev < 2 ^ 64 -> 0 <= t ->
  nominal_covers prev t -> minted + prev <= scheduled_supply_at t p ->
  prev <= raw_reward p t elapsed minted h.
Proof using Tp.
  intros Hp Ht [Hn Hb] Hs. pose proof (epoch_reward_range p Tp t Ht) as He.
  destruct (params_ranges p Tp) as (Hi & _ & Htb & _ & _ & Hbp & _). unfold in_u in Hi.
  unfold raw_reward, saturating_sub. set (er := epoch_reward p t) in *.
  assert (prev <= saturating_mul 128 er (Z.max elapsed 1) / Z.max (em_target_block_time_ms p) 1) as Hprop.
  { apply Z.div_le_lower_bound; [lia|]. rewrite Z.mul_comm.
    assert (er <= er * Z.max elapsed 1) by nia. unfold saturating_mul, u_max. lia. }
  assert (prev <= saturating_mul 128 er (bootstrap_reward_pct p) / 100) as Hboot.
  { apply Z.div_le_lower_bound; [lia|]. unfold saturating_mul, u_max. lia. }
  assert (prev <= er) by nia. destruct (h <? em_bootstrap_height p); lia.
Qed.

(** The reward of a block at [ts] with the schedule at [t] still owing [prev]. *)
Lemma trapped_reward {E} prev t ts parent_ts minted h : trapped prev -> t <= ts ->
  0 <= minted -> nominal_covers prev (ts - g) -> minted + prev <= supply_at p g t ->
  current_reward_with_height (E:=E) p g ts parent_ts minted h (Some prev) = Ok prev /\
  saturating_add 128 minted prev = minted + prev.
Proof using Tp.
  intros Htr Ht Hm Hn Hs. pose proof Htr as [Hp Hpct].
  pose proof (supply_at_mono p Tp g t ts Ht) as Hmono. pose proof (supply_at_range p Tp g ts) as Hcap.
  destruct (params_ranges p Tp) as (_ & _ & _ & Hc & _). unfold in_u in Hc.
  split; [|apply saturating_add_small; lia].
  assert (g < ts /\ supply_at p g ts = scheduled_supply_at (ts - g) p) as [Hg Hsup].
  { unfold supply_at in *. destruct (Z.leb_spec ts g); [lia|done]. }
  destruct (current_reward_with_height_Ok p Tp (E:=E) g ts parent_ts minted h (Some prev))
    as (r & -> & _ & _ & Heq). specialize (Heq Hg). cbn zeta in Heq.
  pose proof (raw_reward_covers prev (ts - g) (saturating_sub ts parent_ts) minted h
    ltac:(lia) ltac:(lia) Hn ltac:(lia)) as Hraw.
  pose proof (slew_floor_range p prev ltac:(lia)) as [_ Hf]. pose proof (slew_keep_range p).
  f_equal. rewrite Heq. destruct (Z.ltb_spec 0 prev); [|lia]. rewrite trapped_ceiling by done. nia.
Qed.
End trap.

Lemma last_time_later t bs : times_ordered t bs = true -> t <= last_time t bs.
Proof.
  revert t. induction bs as [|b bs IH]; intros t Ho; [unfold last_time; cbn; lia|].
  cbn [times_ordered] in Ho. apply andb_true_iff in Ho as [Ht Ho]. apply Z.leb_le in Ht.
  rewrite last_time_cons. specialize (IH _ Ho). lia.
Qed.

(** On a chain: every later block pays exactly the trapped reward. *)
Lemma reward_trap_chain {E} p g t minted prev bs : typed p = true -> trapped p prev ->
  g < t -> 0 <= minted -> times_ordered t bs = true -> nominal_covers p prev (last_time t bs - g) ->
  minted + prev * Z.of_nat (length bs) <= supply_at p g t ->
  emit_chain (E:=E) p g bs (minted, Some prev) = Ok (minted + prev * Z.of_nat (length bs), Some prev).
Proof.
  intros Tp Htr. revert t minted. induction bs as [|b bs IH]; intros t minted Hg Hm Ho Hn Hs.
  { cbn [length emit_chain]. by rewrite Z.mul_0_r, Z.add_0_r. }
  cbn [times_ordered] in Ho. apply andb_true_iff in Ho as [Ht Ho]. apply Z.leb_le in Ht.
  rewrite last_time_cons in Hn. pose proof (last_time_later _ _ Ho) as Hl. pose proof Htr as [Hp _].
  cbn [length] in *. rewrite Nat2Z.inj_succ in *. cbn [emit_chain]. unfold emit_block.
  destruct (trapped_reward p Tp g (E:=E) prev t (eb_timestamp_ms b) (eb_parent_timestamp_ms b) minted
    (eb_height b)) as [-> Hadd];
    [done|lia|lia|eapply nominal_covers_before; [done| |exact Hn]; lia|nia|].
  cbn [mbind outcome_bind]. rewrite Hadd. pose proof (supply_at_mono p Tp g t (eb_timestamp_ms b) Ht).
  rewrite (IH (eb_timestamp_ms b)) by (done || nia). do 2 f_equal. lia.
Qed.

(** ** The node *)

Section node.
Context {St : Type} `{StateStore St} `{HashPrims} `{SigPrims} `{StateCodecs} {CB : Cbor Block}.
Context (ft : Features).
Notation Node := (NodeState St).

(** C18: The trap of the slew-rate limit.  Once a block has paid a positive reward of which the
    allowed change is less than one satoshi (at 25%: 1, 2 or 3 satoshi), every block the node
    accepts from then on pays exactly that reward, whatever its time, height and contents,
    whatever the pool holds and whatever other blocks are rejected, as long as the schedule at
    the first tip owes that many satoshi per block and the nominal reward of the epoch exceeds
    it per millisecond of the target time: the emission does not resume however far the
    chain falls behind the schedule, and each block is applied with that reward. *)
Theorem reward_trap ns0 bs0 (ns : Node) bs prev : typed (ns_emission ns0) = true ->
  node_ok ns0 bs0 -> trapped (ns_emission ns0) prev ->
  ns_prev_reward_sat ns0 = Some prev -> 0 <= ns_minted_so_far ns0 -> submissions ft any_rejection ns0 bs0 ns bs ->
  nominal_covers (ns_emission ns0) prev (tip_timestamp bs - ns_genesis_time_ms ns0) ->
  ns_minted_so_far ns0 + prev * Z.of_nat (length bs - length bs0) <=
    supply_at (ns_emission ns0) (ns_genesis_time_ms ns0) (tip_timestamp bs0) ->
  ns_prev_reward_sat ns = Some prev /\
  ns_minted_so_far ns = ns_minted_so_far ns0 + prev * Z.of_nat (length bs - length bs0).
Proof.
  intros Tp Hok0 Htr Hprev Hm. pose proof Htr as [Hpos _].
  induction 1 as [|ns bs mp Hsub IH|ns bs now b ns' Hsub IH Hs Hlen Et|ns bs now b e ns' Hsub IH Hs Et He]; intros Hn Ho.
  { by rewrite Nat.sub_diag, Z.mul_0_r, Z.add_0_r. }
  { by apply IH. }
  all: destruct (submissions_forward ft any_rejection ns0 bs0 ns bs Hok0 Hsub) as (Hok & (_ & Hem & _ & _ & Hg) & Ht & Hl).
  2: { destruct (try_apply_cases _ _ _ _ _ _ _ Hok Hs Et)
      as [[? _]|[(s & -> & _)|(e' & _ & ->)]]; [done|by apply IH..]. }
  destruct (try_apply_cases _ _ _ _ _ _ _ Hok Hs Et)
      as [[? Ha]|[(s & _ & [?|(e' & ?)])|(e' & ? & ?)]]; try done.
  destruct Ha as (p & reward & out & s & cs & Hp & (_ & _ & Hk) & Hr & _ & _ & ->).
  destruct Hk as (_ & _ & _ & Hts & _). rewrite (tip_timestamp_last _ _ Hp) in Ht.
  rewrite (tip_timestamp_last (bs ++ [b]) b) in Hn by apply last_snoc. rewrite length_app in Ho. cbn [length] in Ho.
  assert (ns_genesis_time_ms ns0 < tip_timestamp bs0) as Hafter.
  { unfold supply_at in Ho. destruct (Z.leb_spec (tip_timestamp bs0) (ns_genesis_time_ms ns0)); nia. }
  destruct IH as [Hq Hmint]; [|nia|].
  { rewrite (tip_timestamp_last _ _ Hp). eapply nominal_covers_before; [exact Tp| |exact Hn]. lia. }
  unfold block_reward in Hr. rewrite Hem, Hg, Hq, Hmint in Hr.
  match type of Hr with current_reward_with_height _ _ _ ?pts ?m ?h _ = _ =>
    destruct (trapped_reward (ns_emission ns0) Tp (ns_genesis_time_ms ns0) (E:=NodeError) prev (tip_timestamp bs0)
      (bh_timestamp_ms (blk_header b)) pts m h) as [Hrew Hadd]; [done|lia|nia|done|nia|] end.
  rewrite Hrew in Hr. injection Hr as <-. cbn [committed set_store set_mempool set_counters ns_prev_reward_sat ns_minted_so_far].
  split; [done|]. rewrite Hmint, Hadd, length_app. cbn [length]. nia.
Qed.
End node.

(** A first block after ten minutes and 70 more a millisecond apart; then a week of blocks. *)
Definition rush : list EmissionBlock :=
  (fun i => {| eb_timestamp_ms := 600000 + i; eb_parent_timestamp_ms := if i =? 1 then 0 else 599999 + i;
               eb_height := i |}) <$> seqZ 1 71.
Definition week : list EmissionBlock :=
  (fun i => {| eb_timestamp_ms := 2400000 + 600000 * i; eb_parent_timestamp_ms := 1800000 + 600000 * i;
               eb_height := 72 + i |}) <$> seqZ 0 1008.

Lemma rush_is_trapped :
  emit_chain (E:=unit) bitcoin_like 0 rush (0, None) = Ok (9999999893, Some 3) /\
  emit_chain (E:=unit) bitcoin_like 0 week (9999999893, Some 3) = Ok (9999999893 + 3 * 1008, Some 3) /\
  supply_at bitcoin_like 0 (last_time 0 week) = 1011 * 5000000000.
Proof.
  split; [vm_compute; reflexivity|]. split; [|vm_compute; reflexivity].
  apply (reward_trap_chain bitcoin_like 0 2400000).
  - reflexivity.
  - split; [lia|reflexivity].
  - lia.
  - lia.
  - vm_compute. reflexivity.
  - split; apply Z.leb_le; vm_compute; reflexivity.
  - apply Z.leb_le. vm_compute. reflexivity.
Qed.
