(* ===== verification/Genesis.v ===== *)
(** * Genesis: configuration, initialisation and start
    (crates/node/src/genesis.rs, crates/node/src/main.rs)

    [Genesis] holds the fields of [genesis.toml] but the four floating-point accordion
    parameters, which nothing reads.  [cmd_init] writes the mined
    genesis block, [cmd_run] rebuilds the node from the file, and [restart_transparent] says
    that it rebuilds the node that was running. *)

From S2P Require Export Hex NodeProps.
From Stdlib Require Import Strings.Byte.

Local Open Scope Z_scope.

Definition default_seconds_per_halving : Z := 210000 * 600.
Definition default_asert_tau : Z := 2 * 24 * 60 * 60 * 1000.
Definition default_bootstrap_asert_tau : Z := 60 * 60 * 1000.
Definition default_bootstrap_height : Z := 2016.
Definition default_bootstrap_reward_pct : Z := 50.
Definition default_max_reward_pct_change_per_block : Z := 25.
Definition default_max_bits_pct_change_per_block : Z := 8.

Record GenesisCommitteeMember := {
  gm_signer_id_hex : string;
  gm_sig_algo : Z;
  gm_pubkey_hex : string;
}.

Record Genesis := {
  gen_chain_id : string;
  gen_genesis_time_ms : Z;
  gen_initial_bits : Z;
  gen_target_block_time_ms : Z;
  gen_retarget_interval : Z;
  gen_halving_interval_base : Z;
  gen_seconds_per_halving : Z;
  gen_initial_reward_sat : Z;
  gen_asert_tau_ms : Z;
  gen_bootstrap_asert_tau_ms : Z;
  gen_bootstrap_height : Z;
  gen_bootstrap_reward_pct : Z;
  gen_max_reward_pct_change_per_block : Z;
  gen_max_bits_pct_change_per_block : Z;
  gen_stability_window_blocks : Z;
  gen_sybil_dust_floor_sat : Z;
  gen_sybil_min_age_blocks : Z;
  gen_sybil_require_paid_fee : bool;
  gen_sig_algo : Z;
  gen_hash_algo : Z;
  gen_governance_pubkey_hex : string;
  gen_genesis_headline_hex : string;
  gen_initial_accounts : list string;
  gen_genesis_committee : list GenesisCommitteeMember;
  gen_genesis_committee_threshold : Z;
  gen_genesis_committee_epoch : Z;
}.

#[export] Instance typed_Genesis : Typed Genesis := fun g =>
  in_ub 64 (gen_genesis_time_ms g) && in_ub 32 (gen_initial_bits g) &&
  in_ub 64 (gen_target_block_time_ms g) && in_ub 64 (gen_seconds_per_halving g) &&
  in_ub 64 (gen_initial_reward_sat g) && in_ub 64 (gen_asert_tau_ms g) &&
  in_ub 64 (gen_bootstrap_asert_tau_ms g) && in_ub 64 (gen_bootstrap_height g) &&
  in_ub 32 (gen_bootstrap_reward_pct g) && in_ub 32 (gen_max_reward_pct_change_per_block g) &&
  in_ub 64 (gen_retarget_interval g) && in_ub 64 (gen_halving_interval_base g) &&
  in_ub 32 (gen_max_bits_pct_change_per_block g) && in_ub 64 (gen_stability_window_blocks g) &&
  in_ub 64 (gen_sybil_dust_floor_sat g) && in_ub 64 (gen_sybil_min_age_blocks g) &&
  in_ub 8 (gen_sig_algo g) && in_ub 8 (gen_hash_algo g) &&
  in_ub 32 (gen_genesis_committee_threshold g) && in_ub 64 (gen_genesis_committee_epoch g) &&
  forallb (fun m => in_ub 8 (gm_sig_algo m)) (gen_genesis_committee g).

Section genesis.
Context {St : Type} `{StateStore St} `{HashPrims} `{SigPrims} `{StateCodecs} {CB : Cbor Block}
  `{Hex} `{Bech32}.
Context (ft : Features).
Notation Node := (NodeState St).

(** [Genesis::headline_bytes] *)
Definition headline_bytes (g : Genesis) : bytes :=
  let out := replicate 32 x00 in
  if bool_decide (gen_genesis_headline_hex g = ""%string) then out
  else match hex_decode (gen_genesis_headline_hex g) with
       | Some b => if is_array 32 b then b else out
       | None => out
       end.

(** The parameters [cmd_run] derives for the emission schedule. *)
Definition emission_params (g : Genesis) : EmissionParams := {|
  initial_reward_sat := gen_initial_reward_sat g;
  seconds_per_halving := gen_seconds_per_halving g;
  em_target_block_time_ms := gen_target_block_time_ms g;
  supply_cap_sat := 21000000 * 100000000;
  max_reward_pct_change_per_block := gen_max_reward_pct_change_per_block g;
  em_bootstrap_height := gen_bootstrap_height g;
  bootstrap_reward_pct := gen_bootstrap_reward_pct g;
|}.

(** ** The genesis committee *)

Definition decode_member (m : GenesisCommitteeMember) : outcome NodeError GovernanceSigner :=
  signer_id ← ok_or (GenesisCommittee "signer_id_hex") (hex_decode (gm_signer_id_hex m));
  if negb (is_array 32 signer_id) then Err (GenesisCommittee "signer_id_hex length")
  else
    pubkey ← ok_or (GenesisCommittee "pubkey_hex") (hex_decode (gm_pubkey_hex m));
    let signer := {| gs_signer_id := signer_id; gs_sig_algo := gm_sig_algo m;
                     gs_pubkey := pubkey |} in
    match sizes (gm_sig_algo m) with
    | Some (expected_pk_len, _) =>
        if negb (is_array expected_pk_len pubkey) then Err (GenesisCommittee "pubkey_hex length")
        else Ok signer
    | None => Ok signer
    end.

Fixpoint decode_members (ms : list GenesisCommitteeMember)
    : outcome NodeError (list GovernanceSigner) :=
  match ms with
  | [] => Ok []
  | m :: ms => s ← decode_member m; ss ← decode_members ms; Ok (s :: ss)
  end.

Definition genesis_config (g : Genesis) (signers : list GovernanceSigner) : GovernanceConfig := {|
  gc_epoch := gen_genesis_committee_epoch g;
  gc_threshold := if gen_genesis_committee_threshold g =? 0 then len_as_u32 signers
                  else gen_genesis_committee_threshold g;
  gc_signers := signers;
|}.

Definition install_genesis_governance (g : Genesis) (mem : St) : outcome NodeError St :=
  signers ← decode_members (gen_genesis_committee g);
  let cfg := genesis_config g signers in
  _ ← map_err GenesisCommittee (validate cfg);
  buf ← ok_or (GenesisCommittee "encode GovernanceConfig") (cbor_ser cfg);
  Ok (put mem Meta (ascii_bytes "governance") buf).

(** ** Initialisation *)

(** [cmd_init] on the content of the data directory: the mined genesis block, appended to
    an empty log.  [None] when the nonce loop used up its fuel. *)
Definition cmd_init (fuel : nat) (io : option nat) (g : Genesis) (disk : option bytes)
    : outcome NodeError (option (Block * ChainStore)) :=
  store ← map_err StoreFailed (open disk);
  if (0 <? height store) || bool_decide (is_Some (tip store))
  then Err (GenesisCommittee "already initialized")
  else
    let hdr := template_from_parent (replicate 32 x00) (wrapping_sub 64 0 1)
                 (gen_initial_bits g) (headline_bytes g) (gen_sig_algo g) (gen_hash_algo g)
                 (gen_genesis_time_ms g) in
    let hdr := {| bh_version := bh_version hdr; bh_height := 0; bh_parent := bh_parent hdr;
                  bh_timestamp_ms := bh_timestamp_ms hdr; bh_bits := bh_bits hdr;
                  bh_nonce := bh_nonce hdr; bh_tx_root := bh_tx_root hdr;
                  bh_witness_root := bh_witness_root hdr; bh_state_root := bh_state_root hdr;
                  bh_reflect_root := bh_reflect_root hdr; bh_coinbase := bh_coinbase hdr;
                  bh_sig_algo := bh_sig_algo hdr; bh_hash_algo := bh_hash_algo hdr |} in
    match mine_inline fuel hdr with
    | None => Ok None
    | Some block =>
        match append io block store with
        | (Ok _, store) => Ok (Some (block, store))
        | (Err e, _) => Err (StoreFailed e)
        | (Panic, _) => Panic
        end
    end.

(** ** Start *)

(** The coinbase of the self-miner: the treasury address of the environment, or the first
    20 bytes of the headline. *)
Definition run_coinbase (g : Genesis) (treasury : option string) : bytes :=
  let headline := take 20 (headline_bytes g) ++ replicate 12 x00 in
  match treasury with
  | Some addr =>
      match from_bech32 addr with
      | Ok id => pad_to_32 id
      | _ => headline
      end
  | None => headline
  end.

(** The ledger before the replay. *)
Definition genesis_state (mem_new : St) (g : Genesis) : outcome NodeError St :=
  if bool_decide (gen_genesis_committee g = []) then Ok mem_new
  else install_genesis_governance g mem_new.

Definition cmd_run (mem_new : St) (g : Genesis) (treasury : option string)
    (disk : option bytes) : outcome NodeError Node :=
  store ← map_err StoreFailed (open disk);
  match tip store with
  | None => Err DataDirEmpty
  | Some _ =>
      blocks ← map_err StoreFailed (load_all store);
      mem ← genesis_state mem_new g;
      '(mem, minted_so_far, prev_reward) ←
        replay ft (emission_params g) (gen_genesis_time_ms g) blocks blocks (mem, 0, None);
      Ok {| ns_store := store; ns_chain_id := gen_chain_id g; ns_bits := gen_initial_bits g;
            ns_coinbase := run_coinbase g treasury; ns_sig_algo := gen_sig_algo g;
            ns_hash_algo := gen_hash_algo g; ns_genesis_time_ms := gen_genesis_time_ms g;
            ns_state := mem; ns_mempool := Mempool_new 10000;
            ns_block_reward_sat := gen_initial_reward_sat g;
            ns_target_block_time_ms := gen_target_block_time_ms g;
            ns_halving_interval_base := gen_halving_interval_base g;
            ns_emission := emission_params g; ns_minted_so_far := minted_so_far;
            ns_prev_reward_sat := prev_reward; ns_asert_tau_ms := gen_asert_tau_ms g;
            ns_bootstrap_asert_tau_ms := gen_bootstrap_asert_tau_ms g |}
  end.

(** ** Laws *)

Lemma decode_members_typed ms signers : forallb (fun m => in_ub 8 (gm_sig_algo m)) ms = true ->
  decode_members ms = Ok signers -> typed signers = true /\ length signers = length ms.
Proof.
  revert signers; induction ms as [|m ms IH]; intros signers Ht Hd.
  { injection Hd as <-. done. }
  cbn [forallb decode_members] in *. apply andb_true_iff in Ht as [Hm Ht].
  apply outcome_bind_Ok in Hd as (s & Hs & Hd). apply outcome_bind_Ok in Hd as (ss & Hss & Hd).
  injection Hd as <-. destruct (IH ss Ht Hss) as [Tss Hl].
  unfold decode_member in Hs. apply outcome_bind_Ok in Hs as (id & _ & Hs).
  destruct (is_array 32 id) eqn:Hid; cbn [negb] in Hs; [|discriminate].
  apply outcome_bind_Ok in Hs as (pk & _ & Hs).
  assert (s = {| gs_signer_id := id; gs_sig_algo := gm_sig_algo m; gs_pubkey := pk |}) as ->.
  { destruct (sizes (gm_sig_algo m)) as [[n k]|]; [destruct (negb (is_array n pk))|];
      first [discriminate|by injection Hs as <-]. }
  split; [|cbn; by rewrite Hl]. rewrite typed_cons, Tss.
  unfold typed, typed_GovernanceSigner. cbn. by rewrite Hid, Hm.
Qed.

Lemma genesis_config_typed g signers : typed g = true -> typed signers = true ->
  typed (genesis_config g signers) = true.
Proof.
  unfold typed at 1, typed_Genesis. rewrite !andb_true_iff. intros Hg Hs.
  unfold typed, typed_GovernanceConfig. cbn [genesis_config gc_epoch gc_threshold gc_signers].
  rewrite !andb_true_iff. split_and!; [tauto| |done].
  destruct (gen_genesis_committee_threshold g =? 0); [|tauto].
  apply in_ub_spec. unfold in_u, len_as_u32. apply Z.mod_pos_bound. lia.
Qed.

(** The fields of a running node that come from the configuration. *)
Definition configured (g : Genesis) (ns : Node) : Prop :=
  ns_emission ns = emission_params g /\ ns_genesis_time_ms ns = gen_genesis_time_ms g.

Lemma cmd_run_Ok mem_new g treasury disk (ns : Node) bs :
  default [] disk = log_bytes bs -> forallb storable bs = true ->
  cmd_run mem_new g treasury disk = Ok ns ->
  store_holds (ns_store ns) bs /\ configured g ns /\
  exists mem, genesis_state mem_new g = Ok mem /\ synced ft mem ns bs.
Proof.
  intros Hd Hs Hr. unfold cmd_run in Hr.
  apply outcome_bind_Ok in Hr as (store & Ho & Hr). apply map_err_Ok in Ho.
  pose proof (read_all_holds _ _ Hd Hs) as Hall. unfold open, prime in Ho. cbn [cs_disk] in Ho.
  rewrite Hall in Ho. injection Ho as <-.
  match type of Hr with (match ?x with _ => _ end) = _ => destruct x; [|discriminate] end.
  apply outcome_bind_Ok in Hr as (blocks & Hb & Hr). apply map_err_Ok in Hb.
  unfold load_all in Hb. cbn [cs_disk] in Hb. rewrite Hall in Hb. injection Hb as <-.
  apply outcome_bind_Ok in Hr as (mem & Hm & Hr).
  apply outcome_bind_Ok in Hr as ([[s minted] prev] & Hrep & Hr). injection Hr as <-.
  split; [by split_and!|]. split; [done|]. by exists mem.
Qed.

(** A log whose replay succeeds starts a node with what the replay computes. *)
Lemma cmd_run_starts mem_new g treasury disk bs mem acc :
  default [] disk = log_bytes bs -> forallb storable bs = true -> bs <> [] ->
  genesis_state mem_new g = Ok mem ->
  replay ft (emission_params g) (gen_genesis_time_ms g) bs bs (mem, 0, None) = Ok acc ->
  exists ns, cmd_run mem_new g treasury disk = Ok ns /\ live ns = acc /\
    store_holds (ns_store ns) bs /\
    ns_target_block_time_ms ns = gen_target_block_time_ms g /\
    ns_bootstrap_asert_tau_ms ns = gen_bootstrap_asert_tau_ms g /\
    ns_asert_tau_ms ns = gen_asert_tau_ms g /\ configured g ns.
Proof.
  intros Hd Hs Hne Hm Hrep. pose proof (read_all_holds _ _ Hd Hs) as Hall.
  unfold cmd_run, open, prime, load_all. cbn [cs_disk]. rewrite Hall. cbn [mbind outcome_bind map_err].
  unfold tip. cbn [cs_tip cs_disk].
  destruct (last bs) as [p|] eqn:Hp; [|by apply last_None in Hp].
  rewrite Hall. cbn [mbind outcome_bind map_err]. rewrite Hm. cbn [mbind outcome_bind].
  rewrite Hrep. destruct acc as [[s minted] prev]. cbn [mbind outcome_bind].
  eexists. split; [reflexivity|]. split_and!; try done.
Qed.

Lemma cmd_run_complete mem_new g treasury disk (ns : Node) bs mem :
  default [] disk = log_bytes bs -> forallb storable bs = true -> bs <> [] ->
  genesis_state mem_new g = Ok mem -> configured g ns -> synced ft mem ns bs ->
  exists ns', cmd_run mem_new g treasury disk = Ok ns' /\ live ns' = live ns /\
    store_holds (ns_store ns') bs /\
    ns_target_block_time_ms ns' = gen_target_block_time_ms g /\
    ns_bootstrap_asert_tau_ms ns' = gen_bootstrap_asert_tau_ms g /\
    ns_asert_tau_ms ns' = gen_asert_tau_ms g /\ configured g ns'.
Proof.
  intros Hd Hs Hne Hm [He Hg] Hsy. unfold synced in Hsy. rewrite He, Hg in Hsy. by eapply cmd_run_starts.
Qed.

Lemma cmd_run_params mem_new g treasury disk (ns : Node) :
  cmd_run mem_new g treasury disk = Ok ns ->
  ns_target_block_time_ms ns = gen_target_block_time_ms g /\
  ns_bootstrap_asert_tau_ms ns = gen_bootstrap_asert_tau_ms g /\
  ns_asert_tau_ms ns = gen_asert_tau_ms g.
Proof.
  intros Hr. unfold cmd_run in Hr. apply outcome_bind_Ok in Hr as (store & _ & Hr).
  destruct (tip store); [|discriminate]. apply outcome_bind_Ok in Hr as (blocks & _ & Hr).
  apply outcome_bind_Ok in Hr as (mem & _ & Hr).
  apply outcome_bind_Ok in Hr as ([[s minted] prev] & _ & Hr). by injection Hr as <-.
Qed.

(** The genesis block of a configuration. *)
Definition genesis_block (g : Genesis) (b : Block) : Prop :=
  bh_height (blk_header b) = 0 /\ bh_timestamp_ms (blk_header b) = gen_genesis_time_ms g /\
  bh_coinbase (blk_header b) = headline_bytes g /\
  bh_bits (blk_header b) = gen_initial_bits g /\ body_txs (blk_body b) = [] /\
  meets_target (hash_header (blk_header b)) (target_from_bits (bh_bits (blk_header b))) = true.

(** [init] only writes into an empty log, and writes the genesis block there. *)
Lemma cmd_init_log fuel g disk bs b cs : default [] disk = log_bytes bs ->
  forallb storable bs = true -> cmd_init fuel None g disk = Ok (Some (b, cs)) ->
  storable b = true -> bs = [] /\ store_holds cs [b] /\ genesis_block g b.
Proof.
  intros Hd Hs Hi Hb. unfold cmd_init in Hi. apply outcome_bind_Ok in Hi as (cs0 & Ho & Hi).
  apply map_err_Ok in Ho. pose proof (read_all_holds _ _ Hd Hs) as Hall.
  unfold open, prime in Ho. cbn [cs_disk] in Ho. rewrite Hall in Ho. injection Ho as <-.
  match type of Hi with (if ?c then _ else _) = _ => destruct c eqn:Hc; [discriminate|] end.
  apply orb_false_iff in Hc as [_ Hc%bool_decide_eq_false].
  assert (bs = []) as -> by (apply last_None, eq_None_not_Some; exact Hc). split; [done|].
  set (hdr := template_from_parent _ _ _ _ _ _ _) in Hi.
  destruct (mine_inline fuel _) as [block|] eqn:Hmine; [|discriminate].
  destruct (append None block _) as [r cs'] eqn:Ha.
  destruct r as [[]|e|]; [|discriminate..]. injection Hi as -> ->.
  match type of Ha with append None b ?cs0 = _ =>
    destruct (append_holds cs0 [] b) as (cs2 & Ha' & Hh); [by repeat split|done|cbn; lia|] end.
  rewrite Ha in Ha'. injection Ha' as <-. split; [exact Hh|].
  unfold mine_inline in Hmine.
  match type of Hmine with context [mine_loop fuel ?t ?h0] =>
    destruct (mine_loop fuel t h0) as [h|] eqn:Hl; [|discriminate];
    destruct (mine_loop_fields fuel t h0 h Hl) as (n & -> & Hmeets) end.
  injection Hmine as <-. by split_and!.
Qed.

Lemma cmd_init_Ok fuel g b cs : cmd_init fuel None g None = Ok (Some (b, cs)) ->
  storable b = true -> store_holds cs [b] /\ genesis_block g b.
Proof. intros Hi Hb. by destruct (cmd_init_log fuel g None [] b cs eq_refl eq_refl Hi Hb) as (_ & ?). Qed.

Lemma length_headline g : length (headline_bytes g) = 32%nat.
Proof.
  unfold headline_bytes. case_bool_decide; [done|]. destruct (hex_decode _) as [b|]; [|done].
  destruct (is_array 32 b) eqn:Hb; [by apply is_array_spec|done].
Qed.

Lemma length_run_coinbase g treasury : length (run_coinbase g treasury) = 32%nat.
Proof.
  unfold run_coinbase. set (d := take 20 _ ++ _).
  assert (length d = 32%nat) as Hd
    by (unfold d; rewrite length_app, length_take, length_headline, length_replicate; done).
  destruct treasury as [addr|]; [|done]. destruct (from_bech32 addr) as [id|e|] eqn:Ef; [|done..].
  apply from_bech32_Ok in Ef as [_ Hl]. by apply length_pad_to_32.
Qed.

(** ** Properties *)

(** The committee of the genesis file.  Installing it either fails or commits a valid
    committee to the ledger: every member decodes from its hex fields with the key size of
    its algorithm, an omitted threshold means all of them, and nothing else changes. *)
Lemma genesis_committee_installed `{!StateStoreLaws St} g (mem mem' : St) :
  typed g = true -> install_genesis_governance g mem = Ok mem' ->
  exists signers, decode_members (gen_genesis_committee g) = Ok signers /\
    length signers = length (gen_genesis_committee g) /\
    load_governance mem' = Some (genesis_config g signers) /\
    validate (genesis_config g signers) = Ok tt /\
    (gen_genesis_committee_threshold g = 0 -> Z.of_nat (length signers) < 2 ^ 32 ->
     gc_threshold (genesis_config g signers) = Z.of_nat (length signers)) /\
    forall sub key, (sub, key) <> (Meta, ascii_bytes "governance") ->
      get mem' sub key = get mem sub key.
Proof.
  intros Tg Hi. unfold install_genesis_governance in Hi.
  apply outcome_bind_Ok in Hi as (signers & Hd & Hi). exists signers. split; [done|].
  assert (forallb (fun m => in_ub 8 (gm_sig_algo m)) (gen_genesis_committee g) = true) as Hm.
  { unfold typed, typed_Genesis in Tg. rewrite !andb_true_iff in Tg. tauto. }
  destruct (decode_members_typed _ _ Hm Hd) as [Ts Hl].
  apply outcome_bind_Ok in Hi as ([] & Hv & Hi). apply map_err_Ok in Hv.
  apply outcome_bind_Ok in Hi as (buf & Hs & Hi). apply ok_or_Ok in Hs. injection Hi as <-.
  split_and!; [done| |done| |].
  - apply get_cbor_put_same; [by apply genesis_config_typed|done].
  - intros H0' Hlt. cbn. rewrite H0'. cbn. unfold len_as_u32. apply Z.mod_small. lia.
  - intros sub key Hne. apply get_put_other. congruence.
Qed.

(** C8: From genesis to restart, on a disk that works.  [init] writes a genesis block of height
    zero, at the genesis time, that commits to the headline and meets its target.  A node
    started on it keeps a log that is a chain under the rules, whatever reaches its pool and
    whatever blocks are submitted, accepted or rejected.  As long as no rejected block has
    changed the ledger (blocks the checks refuse never do, blocks the ledger refuses can),
    starting again on its file, with any coinbase, gives a node with the same log, ledger,
    minted total and previous reward. *)
Theorem restart_transparent mem_new fuel g treasury treasury' b cs (ns0 ns : Node) bs :
  cmd_init fuel None g None = Ok (Some (b, cs)) -> storable b = true ->
  cmd_run mem_new g treasury (cs_disk cs) = Ok ns0 ->
  submissions ft any_rejection ns0 [b] ns bs ->
  bh_height (blk_header b) = 0 /\ bh_timestamp_ms (blk_header b) = gen_genesis_time_ms g /\
  bh_coinbase (blk_header b) = headline_bytes g /\
  meets_target (hash_header (blk_header b)) (target_from_bits (bh_bits (blk_header b))) = true /\
  node_ok ns bs /\
  (submissions ft clean_rejection ns0 [b] ns bs ->
   exists ns', cmd_run mem_new g treasury' (cs_disk (ns_store ns)) = Ok ns' /\
    node_ok ns' bs /\ ns_state ns' = ns_state ns /\
    ns_minted_so_far ns' = ns_minted_so_far ns /\
    ns_prev_reward_sat ns' = ns_prev_reward_sat ns).
Proof.
  intros Hi Hb Hr Hany.
  destruct (cmd_init_Ok _ _ _ _ Hi Hb) as ((Hd & Ht & Hc & Hs) & Hh & Hts & Hcb & _ & _ & Hm).
  do 4 (split; [done|]).
  destruct (cmd_run_Ok _ _ _ _ _ _ Hd Hs Hr) as (Hh0 & [He Hg] & mem & Hmem & Hsy).
  assert (node_ok ns0 [b]) as Hok0 by (split_and!; [done|by constructor|cbn; lia]).
  split; [by apply (submissions_forward ft any_rejection ns0 [b] ns bs Hok0)|]. intros Hsub.
  destruct (submissions_synced ft mem ns0 [b] ns bs Hok0 Hsy Hsub) as (Hok & Hsy' & Hru). destruct Hok as ((Hd' & _ & _ & Hs') & Hchain & Hlen).
  assert (configured g ns) as Hcfg.
  { destruct Hru as (_ & E2 & _ & _ & E5). split; [by rewrite E2|by rewrite E5]. }
  destruct (chain_ok_last _ _ Hchain) as [p Hp].
  destruct (cmd_run_complete mem_new g treasury' _ ns bs mem Hd' Hs') as (ns' & Hrun & Hlive & Hh' & P1 & P2 & P3 & P4 & P5);
    [by intros ->|done|done|done|].
  exists ns'. split; [done|]. injection Hlive as -> -> ->. split; [|done].
  split_and!; [done| |done]. apply (chain_ok_rules ns); [|done].
  pose proof (cmd_run_params _ _ _ _ _ Hr) as (Q1 & Q2 & Q3).
  destruct Hru as (E1 & E2 & E3 & E4 & E5), Hcfg as [C1 C2].
  unfold same_rules. by rewrite P1, P2, P3, P4, P5, E1, E3, E4, Q1, Q2, Q3, C1, C2.
Qed.
End genesis.
