(* ===== verification/Supply.v ===== *)
(** * Supply: the coins in circulation are the coins minted

    The ledger, the emission schedule and the chain together: along the replay of a chain the
    balances of all accounts add up to the minted total, which the schedule bounds. *)

From S2P Require Export ApplyProps Genesis.
From Stdlib Require Import Strings.Byte.

Local Open Scope Z_scope.

(** Parameters for which the totals stay far below 128 bits. *)
Definition modest_params (p : EmissionParams) : Prop :=
  typed p = true /\ supply_cap_sat p + 99 * initial_reward_sat p < u_max 128.

Lemma emission_params_modest g : typed g = true -> modest_params (emission_params g).
Proof.
  intros Tg. unfold typed, typed_Genesis in Tg. rewrite !andb_true_iff, !in_ub_spec in Tg.
  unfold modest_params, typed, typed_EmissionParams, emission_params.
  cbn [initial_reward_sat seconds_per_halving em_target_block_time_ms supply_cap_sat
       max_reward_pct_change_per_block em_bootstrap_height bootstrap_reward_pct].
  rewrite !andb_true_iff, !in_ub_spec. unfold in_u, u_max in *. lia.
Qed.

Section supply.
Context {St : Type} `{StateStoreLaws St} `{HashPrims} `{SigPrims} `{StateCodecs}
  {CB : Cbor Block}.
Context (ft : Features).

(** The schedule bounds the minted total. *)
Lemma emission_inv_bound p g t st : modest_params p -> emission_inv p g t st ->
  0 <= st.1 < u_max 128.
Proof.
  intros [Tp Hm] (Q1 & Q2 & Q3). pose proof (slew_keep_range p).
  pose proof (supply_at_range p Tp g t). destruct (params_ranges p Tp) as (Hi & _).
  unfold in_u in Hi. unfold emission_potential in Q3. split; [done|].
  assert ((100 - slew_keep p) * st.1 <= (100 - slew_keep p) * (supply_cap_sat p + 99 * initial_reward_sat p));
    nia.
Qed.

(** A replay state: balances that add up to the minted total, within the schedule at [t]. *)
Definition accounted (p : EmissionParams) (g : Z) (ids : list AccountId) (t : Z)
    (acc : St * Z * option Z) : Prop :=
  let '(mem, minted, prev) := acc in
  total_balance mem ids = minted /\ emission_inv p g t (minted, prev).

Lemma replay_block_accounted p g blocks ids t b acc acc' :
  modest_params p -> typed b = true -> covers b ids -> t <= bh_timestamp_ms (blk_header b) ->
  accounted p g ids t acc -> replay_block ft p g blocks b acc = Ok acc' ->
  accounted p g ids (bh_timestamp_ms (blk_header b)) acc'.
Proof.
  destruct acc as [[mem minted] prev]. intros Hp Tb Hc Ht [Htot Hinv] Hr.
  set (eb := {| eb_timestamp_ms := bh_timestamp_ms (blk_header b);
                eb_parent_timestamp_ms := replay_parent_ts g blocks b;
                eb_height := bh_height (blk_header b) |}).
  destruct (emit_block_inv p (proj1 Hp) g (E:=NodeError) t (minted, prev) eb Hinv Ht)
    as ([m' pr'] & Hem & Hinv').
  unfold emit_block in Hem. cbn [eb_timestamp_ms eb_parent_timestamp_ms eb_height eb] in Hem, Hinv'.
  apply outcome_bind_Ok in Hem as (reward & Hrew & Hem). injection Hem as <- <-.
  unfold replay_block in Hr. rewrite Hrew in Hr. cbn [mbind outcome_bind] in Hr.
  destruct (apply_block ft b reward mem) as [[out|e|] mem'] eqn:Ea; [|discriminate..].
  injection Hr as <-.
  destruct (current_reward_with_height_Ok p (proj1 Hp) (E:=NodeError) g
    (bh_timestamp_ms (blk_header b)) (replay_parent_ts g blocks b) minted
    (bh_height (blk_header b)) prev) as (r & Hr & Hr0 & _).
  rewrite Hrew in Hr. injection Hr as <-.
  pose proof (emission_inv_bound p g t _ Hp Hinv) as Hb.
  pose proof (emission_inv_bound p g _ _ Hp Hinv') as Hb'. cbn [fst] in Hb, Hb'.
  split; [|exact Hinv'].
  assert (total_balance mem ids <= u_max 128) as Hmax by lia.
  rewrite (total_after_block ft b reward mem mem' out ids Tb Hr0 Hc Hmax Ea), Htot. revert Hb'. unfold saturating_add. lia.
Qed.

(** Timestamps that never go back. *)
Fixpoint ordered_from (t : Z) (bs : list Block) : Prop :=
  match bs with
  | [] => True
  | b :: bs => t <= bh_timestamp_ms (blk_header b) /\ ordered_from (bh_timestamp_ms (blk_header b)) bs
  end.

Definition tip_time (t : Z) (bs : list Block) : Z :=
  match last bs with Some b => bh_timestamp_ms (blk_header b) | None => t end.

Lemma ordered_from_snoc t bs b : ordered_from t bs -> tip_time t bs <= bh_timestamp_ms (blk_header b) ->
  ordered_from t (bs ++ [b]).
Proof.
  revert t; induction bs as [|x bs IH]; intros t; cbn [ordered_from app]; [done|].
  intros [Ht Ho] Hl. split; [done|]. apply IH; [done|]. unfold tip_time in *. rewrite last_cons in Hl. by destruct (last bs).
Qed.

Lemma chain_ordered (ns : NodeState St) bs : chain_ok ns bs -> exists t, ordered_from t bs.
Proof.
  induction 1 as [g _|bs p b Hc (t & Ho) Hl Hb].
  - by exists (bh_timestamp_ms (blk_header g)).
  - exists t. apply ordered_from_snoc; [done|]. unfold tip_time. rewrite Hl.
    destruct Hb as (_ & _ & _ & Hts & _). exact Hts.
Qed.

Lemma replay_accounted p g blocks ids todo : modest_params p ->
  forall t acc acc', ordered_from t todo ->
  Forall (fun b => typed b = true /\ covers b ids) todo ->
  accounted p g ids t acc -> replay ft p g blocks todo acc = Ok acc' ->
  accounted p g ids (tip_time t todo) acc'.
Proof.
  intros Hp. induction todo as [|b todo IH]; intros t acc acc' Ho HF Ha Hr.
  { by injection Hr as <-. }
  destruct Ho as [Ht Ho]. apply Forall_cons in HF as [[Tb Hc] HF]. cbn [replay] in Hr.
  apply outcome_bind_Ok in Hr as (acc1 & Hb & Hr).
  assert (tip_time t (b :: todo) = tip_time (bh_timestamp_ms (blk_header b)) todo) as ->.
  { unfold tip_time. rewrite last_cons. by destruct (last todo). }
  eapply (IH _ acc1); [done|done| |done]. by eapply replay_block_accounted.
Qed.

Lemma total_balance_zero (s : St) ids : (forall id, balance s id = 0) -> total_balance s ids = 0.
Proof.
  intros Hz. induction ids as [|id ids IH]; [done|].
  change (balance s id + total_balance s ids = 0). rewrite Hz, IH. done.
Qed.

Lemma total_balance_same (s s' : St) ids : same_sub Accounts s s' ->
  total_balance s' ids = total_balance s ids.
Proof.
  intros Hs. induction ids as [|id ids IH]; [done|].
  change (balance s' id + total_balance s' ids = balance s id + total_balance s ids).
  unfold balance. by rewrite (same_sub_load s s'), IH.
Qed.

(** The committee is written next to the accounts. *)
Lemma genesis_state_accounts `{Hex} (mem_new mem : St) g :
  genesis_state mem_new g = Ok mem -> same_sub Accounts mem_new mem.
Proof.
  unfold genesis_state. case_bool_decide; [by intros [= <-]|]. unfold install_genesis_governance.
  intros Hi. apply outcome_bind_Ok in Hi as (signers & _ & Hi).
  apply outcome_bind_Ok in Hi as ([] & _ & Hi). apply outcome_bind_Ok in Hi as (buf & _ & Hi).
  injection Hi as <-. by apply same_sub_put.
Qed.
(** C11: The coins in circulation are the coins minted.  A chain is started from a genesis file
    on an empty ledger and a working disk, and extended by any history of pool changes,
    accepted blocks and blocks rejected with the ledger as it was.  Then the balances of all
    accounts its blocks touch together are the minted total of the running node, and that
    total exceeds the calendar schedule at the tip by at most (100 - pct) / pct initial
    rewards; in particular nothing is lost, nothing else is minted, and no counter saturates.
    (A block the ledger rejects half-way is excluded: it can move coins without a trace in
    the log.) *)
Theorem circulating_supply `{Hex} `{Bech32} (mem_new : St) fuel g treasury b cs (ns0 ns : NodeState St)
    bs ids :
  typed g = true -> (forall id, balance mem_new id = 0) ->
  cmd_init fuel None g None = Ok (Some (b, cs)) -> storable b = true ->
  cmd_run ft mem_new g treasury (cs_disk cs) = Ok ns0 ->
  submissions ft clean_rejection ns0 [b] ns bs -> Forall (fun b => covers b ids) bs ->
  let p := emission_params g in
  let keep := slew_keep p in
  total_balance (ns_state ns) ids = ns_minted_so_far ns /\
  (100 - keep) * ns_minted_so_far ns <=
    (100 - keep) * supply_at p (gen_genesis_time_ms g) (tip_time 0 bs) +
    keep * gen_initial_reward_sat g /\
  supply_at p (gen_genesis_time_ms g) (tip_time 0 bs) <= 21000000 * 100000000.
Proof.
  intros Tg Hz Hi Hb Hr Hsub Hcov p keep.
  destruct (cmd_init_Ok _ _ _ _ Hi Hb) as ((Hd & _ & _ & Hs) & Hh & _).
  destruct (cmd_run_Ok _ _ _ _ _ _ _ Hd Hs Hr) as (Hst & [He Hg] & mem & Hmem & Hsy).
  assert (node_ok ns0 [b]) as Hok0 by (split_and!; [done|by constructor|cbn; lia]).
  destruct (submissions_synced ft mem ns0 [b] ns bs Hok0 Hsy Hsub)
    as (((_ & _ & _ & Hst') & Hc & _) & Hsy' & (_ & E2 & _ & _ & E5)).
  unfold synced in Hsy'. rewrite E2, E5, He, Hg in Hsy'.
  pose proof (emission_params_modest g Tg) as Hp. destruct (chain_ordered ns bs Hc) as [t Ho].
  pose proof (replay_accounted p (gen_genesis_time_ms g) bs ids bs Hp t (mem, 0, None) (live ns) Ho) as Ha.
  destruct Ha as [Htot Hinv]; [| |exact Hsy'|].
  - apply Forall_elem. intros x Hx. split; [|by apply (proj1 (Forall_elem _ _) Hcov)].
    rewrite forallb_forall in Hst'. specialize (Hst' x (proj1 (list_elem_of_In _ _) Hx)).
    by apply andb_true_iff in Hst' as [Tx _].
  - split.
    + rewrite (total_balance_same mem_new mem) by by eapply genesis_state_accounts.
      by apply total_balance_zero.
    + pose proof (slew_keep_range p). pose proof (supply_at_range p (proj1 Hp) (gen_genesis_time_ms g) t).
      destruct (params_ranges p (proj1 Hp)) as (HI & _). unfold in_u in HI.
      split_and!; [done|done|]. unfold emission_potential.
      change ((0, @None Z).1) with 0. change (default 0 (0, @None Z).2) with 0. nia.
  - assert (tip_time 0 bs = tip_time t bs) as ->.
    { unfold tip_time. by destruct (chain_ok_last _ _ Hc) as [x ->]. }
    destruct Hinv as (Q1 & Q2 & Q3). cbn [fst snd] in Q1, Q2, Q3.
    pose proof (slew_keep_range p). pose proof (supply_at_range p (proj1 Hp) (gen_genesis_time_ms g) (tip_time t bs)) as Hrange.
    split; [exact Htot|]. unfold emission_potential in Q3. subst keep.
    change (initial_reward_sat p) with (gen_initial_reward_sat g) in Q3.
    change (supply_cap_sat p) with (21000000 * 100000000) in Hrange. split; [nia|lia].
Qed.
End supply.
