(* ===== verification/Rpc.v ===== *)
(** * Rpc: the handlers behind the JSON-RPC methods (crates/node/src/rpc.rs)

    Each method as a function of its parsed parameters on the node: submissions of blocks and
    transactions, the transfer a wallet signs, templates, the queries and the emission chart.
    HTTP, JSON text and the rendering of errors are outside; an error keeps what was wrong. *)

From S2P Require Export Genesis.
From Stdlib Require Import Strings.Byte.

Local Open Scope Z_scope.

(** ** Parameters and results *)

Record HeaderJson := {
  hj_version : Z; hj_height : Z; hj_parent : string; hj_timestamp_ms : Z; hj_bits : Z;
  hj_nonce : Z; hj_tx_root : string; hj_witness_root : string; hj_state_root : string;
  hj_reflect_root : string; hj_coinbase : string; hj_sig_algo : Z; hj_hash_algo : Z;
}.

Record TemplateResp := {
  tr_header : HeaderJson;
  tr_target : string;
  tr_txs_cbor_hex : list string;
  tr_witnesses_cbor_hex : list string;
}.

Record SubmitReq := {
  sr_header : HeaderJson;
  sr_txs_cbor_hex : list string;
  sr_witnesses_cbor_hex : list string;
}.

Record SubmitResp := { srr_ok : bool; srr_height : Z; srr_hash : string }.

Record SubmitTxReq := { st_tx_cbor_hex : string; st_witness_cbor_hex : string }.

Record SubmitTxResp := { stx_ok : bool; stx_tx_hash : string }.

Record SubmitTransferReq := {
  str_from_address : string;
  str_to_address : string;
  str_amount_sat : Z;
  str_fee_sat : Z;
  str_nonce : Z;
  str_pubkey_hex : string;
  str_sig_hex : string;
}.

Record InfoResp := {
  inf_chain_id : string; inf_height : Z; inf_tip_hash : string; inf_bits : Z;
  inf_target : string; inf_sig_algo : Z; inf_hash_algo : Z; inf_genesis_time_ms : Z;
  inf_genesis_offset_ms : Z; inf_mempool_size : nat; inf_block_reward_sat : Z;
}.

Record BlockSummary := {
  bs_height : Z; bs_hash : string; bs_timestamp_ms : Z; bs_nonce : Z; bs_tx_count : nat;
}.

Record TxSummary := {
  ts_hash : string; ts_from : option string; ts_to : option string; ts_amount_sat : Z;
  ts_fee_sat : Z; ts_nonce : Z;
}.

Record BlockDetail := {
  bd_hash : string; bd_tx_count : nat; bd_header : HeaderJson; bd_txs : list TxSummary;
}.

Record BalanceResp := { bal_address : string; bal_balance_sat : Z; bal_nonce : Z }.

Record AccountResp := {
  ar_address : string; ar_balance_sat : Z; ar_nonce : Z; ar_has_pubkey : bool;
  ar_sig_algo : Z;
}.

Record EmissionPoint := { ep_height : Z; ep_timestamp_ms : Z; ep_minted_sat : Z }.

Record EmissionSeriesResp := {
  es_samples : list EmissionPoint;
  es_genesis_time_ms : Z;
  es_block_reward_sat : Z;
  es_target_block_time_ms : Z;
  es_halving_interval_base : Z;
}.

Inductive RpcError :=
| HexInvalid
| HexLength (n : nat)
| LengthMismatch (txs witnesses : nat)
| ItemHex (i : nat)
| ItemCbor (i : nat)
| CborParse
| CborEncode
| MempoolReject (e : MempoolError)
| AddressInvalid (e : AddressError)
| NotDerived (claimed derived : bytes)
| SignatureInvalid (e : CryptoError)
| NodeFailed (e : NodeError)
| ReadFailed (e : StoreError).

Definition default_list_limit : nat := 50.
Definition default_emission_points : nat := 240.

(** [now as i64 - genesis as i64]; the subtraction wraps. *)
Definition i64_of (x : Z) : Z := (x + 2 ^ 63) mod 2 ^ 64 - 2 ^ 63.

Section rpc.
Context {St : Type} `{StateStore St} `{HashPrims} `{SigPrims} `{StateCodecs} {CB : Cbor Block}
  {CT : Cbor TxBody} {CW : Cbor Witness} `{Hex} `{Bech32}.
Context (ft : Features).
Notation Node := (NodeState St).

(** ** Headers as JSON *)

(** [From<&BlockHeader> for HeaderJson] *)
Definition header_to_json (h : BlockHeader) : HeaderJson :=
  {| hj_version := bh_version h; hj_height := bh_height h; hj_parent := hex_encode (bh_parent h);
     hj_timestamp_ms := bh_timestamp_ms h; hj_bits := bh_bits h; hj_nonce := bh_nonce h;
     hj_tx_root := hex_encode (bh_tx_root h); hj_witness_root := hex_encode (bh_witness_root h);
     hj_state_root := hex_encode (bh_state_root h);
     hj_reflect_root := hex_encode (bh_reflect_root h);
     hj_coinbase := hex_encode (bh_coinbase h); hj_sig_algo := bh_sig_algo h;
     hj_hash_algo := bh_hash_algo h |}.

Definition hex32 (s : string) : outcome RpcError bytes :=
  v ← ok_or HexInvalid (hex_decode s);
  if negb (is_array 32 v) then Err (HexLength (length v)) else Ok v.

(** [TryFrom<HeaderJson> for BlockHeader] *)
Definition header_of_json (j : HeaderJson) : outcome RpcError BlockHeader :=
  parent ← hex32 (hj_parent j);
  tx_root ← hex32 (hj_tx_root j);
  witness_root ← hex32 (hj_witness_root j);
  state_root ← hex32 (hj_state_root j);
  reflect_root ← hex32 (hj_reflect_root j);
  coinbase ← hex32 (hj_coinbase j);
  Ok {| bh_version := hj_version j; bh_height := hj_height j; bh_parent := parent;
        bh_timestamp_ms := hj_timestamp_ms j; bh_bits := hj_bits j; bh_nonce := hj_nonce j;
        bh_tx_root := tx_root; bh_witness_root := witness_root; bh_state_root := state_root;
        bh_reflect_root := reflect_root; bh_coinbase := coinbase;
        bh_sig_algo := hj_sig_algo j; bh_hash_algo := hj_hash_algo j |}.

(** ** Templates and block submissions *)

Fixpoint encode_items {A} `{Cbor A} (items : list A) : outcome RpcError (list string) :=
  match items with
  | [] => Ok []
  | a :: items =>
      buf ← ok_or CborEncode (cbor_ser a);
      rest ← encode_items items;
      Ok (hex_encode buf :: rest)
  end.

Fixpoint decode_items {A} `{Cbor A} (i : nat) (items : list string) : outcome RpcError (list A) :=
  match items with
  | [] => Ok []
  | s :: items =>
      buf ← ok_or (ItemHex i) (hex_decode s);
      a ← ok_or (ItemCbor i) (cbor_de buf);
      rest ← decode_items (S i) items;
      Ok (a :: rest)
  end.

Definition template_resp (now : Z) (ns : Node) : outcome RpcError TemplateResp :=
  let '(hdr, body) := template now ns in
  tx_hex ← encode_items (body_txs body);
  wit_hex ← encode_items (body_witnesses body);
  Ok {| tr_header := header_to_json hdr; tr_target := hex_encode (target_from_bits (ns_bits ns));
        tr_txs_cbor_hex := tx_hex; tr_witnesses_cbor_hex := wit_hex |}.

(** The block a submission stands for. *)
Definition decode_block (req : SubmitReq) : outcome RpcError Block :=
  hdr ← header_of_json (sr_header req);
  if negb (length (sr_txs_cbor_hex req) =? length (sr_witnesses_cbor_hex req))%nat
  then Err (LengthMismatch (length (sr_txs_cbor_hex req)) (length (sr_witnesses_cbor_hex req)))
  else
    txs ← decode_items 0 (sr_txs_cbor_hex req);
    witnesses ← decode_items 0 (sr_witnesses_cbor_hex req);
    Ok {| blk_header := hdr; blk_body := {| body_txs := txs; body_witnesses := witnesses |} |}.

Definition on_node {A} (m : stm Node NodeError A) : stm Node RpcError A := fun ns =>
  let '(r, ns) := m ns in (map_err NodeFailed r, ns).

Definition submit_block (now : Z) (io : option nat) (req : SubmitReq)
    : stm Node RpcError SubmitResp :=
  block ← lift_out (decode_block req);
  on_node (try_apply_block ft now io block);;
  mret {| srr_ok := true; srr_height := bh_height (blk_header block);
          srr_hash := hex_encode (hash_header (blk_header block)) |}.

(** ** Transactions *)

Definition on_mempool {A} (m : Mempool -> outcome MempoolError A * Mempool)
    : stm Node RpcError A := fun ns =>
  let '(r, mp) := m (ns_mempool ns) in (map_err MempoolReject r, set_mempool mp ns).

Definition submit_tx (now : Z) (req : SubmitTxReq) : stm Node RpcError SubmitTxResp :=
  tx_bytes ← lift_out (ok_or HexInvalid (hex_decode (st_tx_cbor_hex req)));
  witness_bytes ← lift_out (ok_or HexInvalid (hex_decode (st_witness_cbor_hex req)));
  body ← lift_out (ok_or CborParse (cbor_de (A:=TxBody) tx_bytes));
  witness ← lift_out (ok_or CborParse (cbor_de (A:=Witness) witness_bytes));
  hash ← on_mempool (submit now body witness);
  mret {| stx_ok := true; stx_tx_hash := hex_encode hash |}.

Definition parse_address (s : string) : outcome RpcError AccountId :=
  map_err AddressInvalid (from_bech32 s).

(** The transaction of a transfer request, under a given witness hash. *)
Definition transfer_body (req : SubmitTransferReq) (from to : AccountId) (wh : bytes) : TxBody :=
  {| tx_nonce := str_nonce req; tx_from_account := from;
     tx_call := Transfer to (str_amount_sat req); tx_fee_sat := str_fee_sat req;
     tx_gas_limit := 21000; tx_witness_hash := wh |}.

Definition transfer_witness (ns : Node) (from : AccountId) (pubkey sig : bytes) : Witness :=
  {| wit_sig_algo := 3; wit_sig := sig;
     wit_pubkey := if bool_decide (acc_pubkey (load_or_default (ns_state ns) from) = [])
                   then Inline pubkey else Known from |}.

Definition submit_transfer (now : Z) (req : SubmitTransferReq) : stm Node RpcError SubmitTxResp :=
  from ← lift_out (parse_address (str_from_address req));
  to ← lift_out (parse_address (str_to_address req));
  pubkey ← lift_out (ok_or HexInvalid (hex_decode (str_pubkey_hex req)));
  sig ← lift_out (ok_or HexInvalid (hex_decode (str_sig_hex req)));
  let derived := from_pubkey pubkey in
  if negb (bool_decide (derived = from)) then throw (NotDerived from derived)
  else
    let tx := transfer_body req from to (replicate 32 x00) in
    lift_out (map_err SignatureInvalid (verify ft 3 pubkey sig (signing_hash tx)));;
    witness ← read_st (fun ns => transfer_witness ns from pubkey sig);
    hash ← on_mempool (submit now (transfer_body req from to (witness_hash witness)) witness);
    mret {| stx_ok := true; stx_tx_hash := hex_encode hash |}.

(** ** Queries *)

Definition get_balance (ns : Node) (address : string) : outcome RpcError BalanceResp :=
  id ← parse_address address;
  let acct := load_or_default (ns_state ns) id in
  Ok {| bal_address := address; bal_balance_sat := acc_balance acct;
        bal_nonce := acc_nonce acct |}.

Definition get_account (ns : Node) (address : string) : outcome RpcError AccountResp :=
  id ← parse_address address;
  let acct := load_or_default (ns_state ns) id in
  Ok {| ar_address := address; ar_balance_sat := acc_balance acct; ar_nonce := acc_nonce acct;
        ar_has_pubkey := negb (bool_decide (acc_pubkey acct = []));
        ar_sig_algo := acc_sig_algo acct |}.

Definition block_summary (b : Block) : BlockSummary :=
  {| bs_height := bh_height (blk_header b); bs_hash := hex_encode (hash_header (blk_header b));
     bs_timestamp_ms := bh_timestamp_ms (blk_header b); bs_nonce := bh_nonce (blk_header b);
     bs_tx_count := length (body_txs (blk_body b)) |}.

Definition list_blocks (ns : Node) (limit : nat) : outcome RpcError (list BlockSummary) :=
  recent_blocks ← map_err ReadFailed (recent limit (ns_store ns));
  Ok (fmap (M:=list) block_summary recent_blocks).

(** The dispatcher caps the limit. *)
Definition dispatch_list_blocks (ns : Node) (limit : nat) : outcome RpcError (list BlockSummary) :=
  list_blocks ns (Nat.min limit 500).

Definition tx_summary (tx : TxBody) : TxSummary :=
  let '(to_addr, amount) :=
    match tx_call tx with
    | Transfer to amount => (bech32_encode ADDRESS_HRP to, amount)
    | _ => (Some "(non-transfer)"%string, 0)
    end in
  {| ts_hash := hex_encode (body_hash tx);
     ts_from := bech32_encode ADDRESS_HRP (tx_from_account tx); ts_to := to_addr;
     ts_amount_sat := amount; ts_fee_sat := tx_fee_sat tx; ts_nonce := tx_nonce tx |}.

Definition block_detail (b : Block) : BlockDetail :=
  {| bd_hash := hex_encode (hash_header (blk_header b));
     bd_tx_count := length (body_txs (blk_body b)); bd_header := header_to_json (blk_header b);
     bd_txs := tx_summary <$> body_txs (blk_body b) |}.

Definition get_block (ns : Node) (height : Z) : outcome RpcError (option BlockDetail) :=
  b ← map_err ReadFailed (get_by_height height (ns_store ns));
  Ok (fmap (M:=option) block_detail b).

Definition info (now : Z) (ns : Node) : InfoResp :=
  let '(height, tip_hash) :=
    match tip (ns_store ns) with
    | Some b => (bh_height (blk_header b), hex_encode (hash_header (blk_header b)))
    | None => (0, hex_encode (replicate 32 x00))
    end in
  {| inf_chain_id := ns_chain_id ns; inf_height := height; inf_tip_hash := tip_hash;
     inf_bits := ns_bits ns; inf_target := hex_encode (target_from_bits (ns_bits ns));
     inf_sig_algo := ns_sig_algo ns; inf_hash_algo := ns_hash_algo ns;
     inf_genesis_time_ms := ns_genesis_time_ms ns;
     inf_genesis_offset_ms := i64_of (i64_of now - i64_of (ns_genesis_time_ms ns));
     inf_mempool_size := mp_len (ns_mempool ns);
     inf_block_reward_sat := ns_block_reward_sat ns |}.

(** ** The emission chart *)

(** The rewards of the chain from block 1 on, accumulated by height. *)
Fixpoint series_loop (ns : Node) (parent : Block) (rest : list Block)
    (acc : gmap Z Z * Z * option Z) : outcome RpcError (gmap Z Z) :=
  match rest with
  | [] => Ok acc.1.1
  | b :: rest =>
      let '(cumulative, running, prev_reward) := acc in
      reward ← current_reward_with_height (ns_emission ns) (ns_genesis_time_ms ns)
                 (bh_timestamp_ms (blk_header b)) (bh_timestamp_ms (blk_header parent)) running
                 (bh_height (blk_header b)) prev_reward;
      let running := saturating_add 128 running reward in
      series_loop ns b rest
        (<[bh_height (blk_header b) := running]> cumulative, running, Some reward)
  end.

Definition emission_point (cumulative : gmap Z Z) (b : Block) : EmissionPoint :=
  let h := bh_height (blk_header b) in
  {| ep_height := h; ep_timestamp_ms := bh_timestamp_ms (blk_header b);
     ep_minted_sat := default 0 (cumulative !! h) |}.

Definition series_resp (ns : Node) (samples : list EmissionPoint) : EmissionSeriesResp :=
  {| es_samples := samples; es_genesis_time_ms := ns_genesis_time_ms ns;
     es_block_reward_sat := ns_block_reward_sat ns;
     es_target_block_time_ms := ns_target_block_time_ms ns;
     es_halving_interval_base := ns_halving_interval_base ns |}.

(** Every [stride]-th block of the window, and its last block. *)
Definition series_samples (cumulative : gmap Z Z) (stride : nat) (in_window : list Block)
    : list EmissionPoint :=
  let picked := snd <$> filter (fun e => (e.1 mod stride)%nat = 0%nat) (enumerate in_window) in
  let samples := emission_point cumulative <$> picked in
  match last in_window with
  | Some b =>
      if bool_decide (ep_height <$> last samples = Some (bh_height (blk_header b)))
      then samples else samples ++ [emission_point cumulative b]
  | None => samples
  end.

Definition emission_series (ns : Node) (window_seconds : Z) (points : nat)
    : outcome RpcError EmissionSeriesResp :=
  let points := Nat.min (Nat.max points 2) 500 in
  all ← map_err ReadFailed (load_all (ns_store ns));
  match all, last all with
  | first :: rest, Some tip_block =>
      let tip_ts := bh_timestamp_ms (blk_header tip_block) in
      let cutoff_ms := saturating_sub tip_ts (saturating_mul 64 window_seconds 1000) in
      let in_window := filter (fun b => cutoff_ms <= bh_timestamp_ms (blk_header b)) all in
      if bool_decide (in_window = []) then Ok (series_resp ns [])
      else
        cumulative ← series_loop ns first rest ({[0 := 0]}, 0, None);
        let stride := Nat.max (length in_window / points) 1 in
        Ok (series_resp ns (series_samples cumulative stride in_window))
  | _, _ => Ok (series_resp ns [])
  end.
End rpc.
