(* ===== verification/Metrics.v ===== *)
(** * Metrics: the Prometheus page (crates/node/src/rpc.rs)

    [prometheus_metrics] as a text, and a reader of the exposition format: comment lines,
    then samples of a name, labels in braces and a number.  [metrics_scrape] says that the
    reader gets the numbers of the node back. *)

From S2P Require Export Text Rpc.
From Stdlib Require Import Strings.Ascii.

Local Open Scope Z_scope.

(** What the build puts into the binary. *)
Class BuildTexts := {
  CARGO_PKG_VERSION : string;
  PYGROVE_GIT_SHA : option string;
  EXPLORER_HTML : string;
}.

Definition quote : string := String "034" "".

(** HELP, TYPE and one sample. *)
Definition family (name kind help sample : string) : list string :=
  ["# HELP " +:+ name +:+ " " +:+ help; "# TYPE " +:+ name +:+ " " +:+ kind; name +:+ sample].

Section metrics.
Context {St : Type} `{BuildTexts}.
Notation Node := (NodeState St).

Definition chain_labels (ns : Node) : string :=
  "{chain_id=" +:+ quote +:+ ns_chain_id ns +:+ quote +:+
  ",sig_algo=" +:+ quote +:+ pretty (ns_sig_algo ns) +:+ quote +:+
  ",hash_algo=" +:+ quote +:+ pretty (ns_hash_algo ns) +:+ quote +:+ "} 1".

Definition build_labels : string :=
  "{version=" +:+ quote +:+ CARGO_PKG_VERSION +:+ quote +:+
  ",git_sha=" +:+ quote +:+ default "unknown" PYGROVE_GIT_SHA +:+ quote +:+ "} 1".

Definition metrics_lines (now_ms : Z) (ns : Node) : list string :=
  let offset_ms := now_ms - ns_genesis_time_ms ns in
  family "pygrove_height" "gauge" "Current chain tip height."
    (" " +:+ pretty (height (ns_store ns))) ++
  family "pygrove_genesis_offset_ms" "gauge"
    "Wall-clock ms past genesis. Negative = pre-genesis lockout." (" " +:+ pretty offset_ms) ++
  family "pygrove_mempool_size" "gauge" "Number of transactions waiting in the mempool."
    (" " +:+ pretty (Z.of_nat (mp_len (ns_mempool ns)))) ++
  family "pygrove_block_reward_sat" "gauge"
    "Current per-block reward in satoshi (pre-halving-1 nominal)."
    (" " +:+ pretty (ns_block_reward_sat ns)) ++
  family "pygrove_bits" "gauge" "Current difficulty target (Bitcoin compact-bits form)."
    (" " +:+ pretty (ns_bits ns)) ++
  family "pygrove_minted_so_far_sat" "counter"
    "Cumulative coinbase emission (including fees collected)."
    (" " +:+ pretty (ns_minted_so_far ns)) ++
  family "pygrove_chain_info" "gauge" "Chain identity labels." (chain_labels ns) ++
  family "pygrove_build_info" "gauge" "Build identity (git sha, version)." build_labels.

Definition prometheus_metrics (now_ms : Z) (ns : Node) : string := unlines (metrics_lines now_ms ns).
End metrics.

(** ** Reading the format *)

Record Sample := { sm_name : string; sm_labels : list (string * string); sm_value : Z }.

Definition name_char (a : ascii) : bool :=
  let n := code a in
  ((97 <=? n) && (n <=? 122)) || ((65 <=? n) && (n <=? 90)) || ((48 <=? n) && (n <=? 57)) ||
  (n =? 95) || (n =? 58).

(** The longest prefix of characters of a class, and the rest. *)
Fixpoint span (P : ascii -> bool) (s : string) : string * string :=
  match s with
  | EmptyString => (EmptyString, EmptyString)
  | String a s' =>
      if P a then let '(p, r) := span P s' in (String a p, r) else (EmptyString, s)
  end.

Definition QUOTE : ascii := "034"%char.
Definition BACKSLASH : ascii := "092"%char.

(** The characters of a label value that stand for themselves. *)
Definition plain_char (a : ascii) : bool :=
  negb (bool_decide (a = QUOTE)) && negb (bool_decide (a = BACKSLASH)) && not_lf a.

(** A label: name, equals sign, quoted text without escapes. *)
Definition read_label (s : string) : option ((string * string) * string) :=
  let '(name, r) := span name_char s in
  match r with
  | String eq (String q r) =>
      if bool_decide (eq = "="%char /\ q = QUOTE) then
        let '(v, r) := span plain_char r in
        match r with
        | String q r => if bool_decide (q = QUOTE) then Some ((name, v), r) else None
        | EmptyString => None
        end
      else None
  | _ => None
  end.

Fixpoint read_labels (fuel : nat) (s : string) : option (list (string * string) * string) :=
  match fuel with
  | O => None
  | S fuel =>
      '(l, r) ← read_label s;
      match r with
      | String c r =>
          if bool_decide (c = "}"%char) then Some ([l], r)
          else if bool_decide (c = ","%char) then '(ls, r) ← read_labels fuel r; Some (l :: ls, r)
          else None
      | EmptyString => None
      end
  end.

Definition read_value (name : string) (labels : list (string * string)) (s : string) : option Sample :=
  match s with
  | String sp v =>
      if bool_decide (sp = " "%char)
      then n ← read_number v; Some {| sm_name := name; sm_labels := labels; sm_value := n |}
      else None
  | EmptyString => None
  end.

Definition read_sample (line : string) : option Sample :=
  let '(name, r) := span name_char line in
  match r with
  | String b r' =>
      if bool_decide (b = "{"%char)
      then '(ls, r) ← read_labels (String.length r') r'; read_value name ls r
      else read_value name [] r
  | EmptyString => None
  end.

Definition is_comment (line : string) : bool :=
  match line with String a _ => bool_decide (a = "#"%char) | EmptyString => true end.

(** The samples of a page, [None] when a line does not parse. *)
Definition scrape (page : string) : option (list Sample) :=
  mapM read_sample (base.filter (fun l => is_comment l = false) (split_lines page)).

(** ** What a scraper gets *)

Lemma span_app P s a t : all_chars P s = true -> P a = false ->
  span P (s +:+ String a t) = (s, String a t).
Proof.
  intros Hs Ha. induction s as [|b s IH].
  - change ("" +:+ String a t) with (String a t). cbn. by rewrite Ha.
  - cbn in Hs. apply andb_true_iff in Hs as [Hb Hs]. rewrite append_cons. cbn [span].
    by rewrite Hb, IH.
Qed.

Lemma read_label_plain name v r : all_chars name_char name = true -> all_chars plain_char v = true ->
  read_label (name +:+ "=" +:+ quote +:+ v +:+ quote +:+ r) = Some ((name, v), r).
Proof.
  intros Hn Hv. unfold read_label. change ("=" +:+ quote +:+ v +:+ quote +:+ r) with
    (String "=" (String QUOTE (v +:+ String QUOTE r))).
  rewrite span_app by done. cbn -[span QUOTE]. rewrite bool_decide_eq_true_2 by done.
  rewrite span_app by done. by rewrite bool_decide_eq_true_2.
Qed.

Definition sample (name : string) (labels : list (string * string)) (n : Z) : Sample :=
  {| sm_name := name; sm_labels := labels; sm_value := n |}.

Lemma read_sample_plain name (n : Z) : all_chars name_char name = true ->
  read_sample (name +:+ " " +:+ pretty n) = Some (sample name [] n).
Proof.
  intros Hn. unfold read_sample. change (" " +:+ pretty n) with (String " " (pretty n)).
  rewrite span_app by done. rewrite bool_decide_eq_false_2 by done. unfold read_value.
  rewrite bool_decide_eq_true_2 by done. by rewrite read_number_pretty.
Qed.

(** Labels as the page prints them. *)
Fixpoint labels_text (ls : list (string * string)) : string :=
  match ls with
  | [] => ""
  | (k, v) :: ls => k +:+ "=" +:+ quote +:+ v +:+ quote +:+ (if ls then "} 1" else "," +:+ labels_text ls)
  end.

Definition plain_labels (ls : list (string * string)) : bool :=
  forallb (fun l => all_chars name_char l.1 && all_chars plain_char l.2) ls.

Lemma read_labels_text ls : forall fuel, (length ls <= fuel)%nat -> ls <> [] -> plain_labels ls = true ->
  read_labels fuel (labels_text ls) = Some (ls, " 1").
Proof.
  induction ls as [|[k v] ls IH]; intros fuel Hf Hne Hp; [done|]. destruct fuel as [|fuel]; [cbn in Hf; lia|].
  cbn in Hp. apply andb_true_iff in Hp as [Hkv Hp]. apply andb_true_iff in Hkv as [Hk Hv].
  cbn [read_labels labels_text]. rewrite read_label_plain by done. cbn [mbind option_bind].
  destruct ls as [|l ls]; [done|].
  change ("," +:+ labels_text (l :: ls)) with (String "," (labels_text (l :: ls))). cbn iota beta.
  rewrite bool_decide_eq_false_2, bool_decide_eq_true_2 by done.
  by rewrite IH by (done || (cbn in *; lia)).
Qed.

Lemma length_labels_text ls : (length ls <= String.length (labels_text ls))%nat.
Proof.
  induction ls as [|[k v] ls IH]; [done|]. cbn [labels_text length]. rewrite !length_append.
  destruct ls; cbn [String.length quote]; [cbn; lia|]. rewrite ?length_append. cbn in *. lia.
Qed.

Lemma read_sample_labels name ls : all_chars name_char name = true -> ls <> [] ->
  plain_labels ls = true ->
  read_sample (name +:+ "{" +:+ labels_text ls) = Some (sample name ls 1).
Proof.
  intros Hn Hne Hp. unfold read_sample. change ("{" +:+ labels_text ls) with (String "{" (labels_text ls)).
  rewrite span_app by done. rewrite bool_decide_eq_true_2 by done.
  rewrite read_labels_text by (done || apply length_labels_text). done.
Qed.

Lemma digits_plain (n : Z) : all_chars plain_char (pretty n) = true.
Proof.
  eapply all_chars_impl; [|apply pretty_number]. intros a Ha. unfold plain_char.
  rewrite (number_not_lf a Ha), !andb_true_iff, !negb_true_iff, !bool_decide_eq_false.
  split_and!; try done; intros ->; discriminate Ha.
Qed.

Lemma plain_not_lf s : all_chars plain_char s = true -> all_chars not_lf s = true.
Proof.
  apply all_chars_impl. intros a Ha. unfold plain_char in Ha. by apply andb_true_iff in Ha as [_ ?].
Qed.

(** ** The page *)

Section page.
Context {St : Type} `{BuildTexts}.
Notation Node := (NodeState St).

Definition chain_labels_of (ns : Node) : list (string * string) :=
  [("chain_id", ns_chain_id ns); ("sig_algo", pretty (ns_sig_algo ns));
   ("hash_algo", pretty (ns_hash_algo ns))].
Definition build_labels_of : list (string * string) :=
  [("version", CARGO_PKG_VERSION); ("git_sha", default "unknown" PYGROVE_GIT_SHA)].

Lemma chain_labels_text (ns : Node) : chain_labels ns = "{" +:+ labels_text (chain_labels_of ns).
Proof. reflexivity. Qed.

Lemma build_labels_text : build_labels = "{" +:+ labels_text build_labels_of.
Proof. reflexivity. Qed.

Lemma labels_text_not_lf ls : plain_labels ls = true -> all_chars not_lf (labels_text ls) = true.
Proof.
  assert (forall a, name_char a = true -> not_lf a = true) as Hname.
  { intros a Ha. unfold not_lf. case_bool_decide as E; [|done]. subst a. discriminate Ha. }
  induction ls as [|[k v] ls IH]; intros Hp; [done|].
  cbn in Hp. apply andb_true_iff in Hp as [Hkv Hp]. apply andb_true_iff in Hkv as [Hk Hv].
  cbn [labels_text]. rewrite !all_chars_app, (plain_not_lf v), (all_chars_impl _ _ k Hname) by done.
  destruct ls; [done|]. rewrite all_chars_app, IH by done. done.
Qed.

(** The samples of a family are its third line. *)
Lemma scrape_family name kind help text s rest :
  all_chars not_lf (name +:+ text) && all_chars not_lf kind && all_chars not_lf help = true ->
  is_comment (name +:+ text) = false -> read_sample (name +:+ text) = Some s ->
  mapM read_sample (base.filter (fun l => is_comment l = false)
    (split_lines (unlines (family name kind help text ++ rest)))) =
  cons s <$> mapM read_sample (base.filter (fun l => is_comment l = false) (split_lines (unlines rest))).
Proof.
  rewrite !andb_true_iff, all_chars_app, andb_true_iff. intros [[[Hn Ht] Hk] Hh] Hc Hs.
  unfold family. cbn [app unlines]. rewrite !split_lines_cons by (by rewrite ?all_chars_app, ?Hn, ?Ht, ?Hk, ?Hh).
  rewrite !filter_cons_False by (change (is_comment (String "#" _)) with true; discriminate).
  rewrite filter_cons_True by done. cbn [mapM]. rewrite Hs. cbn.
  by destruct (mapM read_sample _).
Qed.

Lemma number_line_not_lf name (n : Z) : all_chars not_lf name = true ->
  all_chars not_lf (name +:+ " " +:+ pretty n) = true.
Proof.
  intros Hn. rewrite !all_chars_app, Hn. cbn. eapply all_chars_impl; [|apply pretty_number].
  apply number_not_lf.
Qed.

(** The samples of a page whose chain labels are [ls]. *)
Definition samples (now : Z) (ns : Node) (ls : list (string * string)) : list Sample :=
  [sample "pygrove_height" [] (height (ns_store ns));
   sample "pygrove_genesis_offset_ms" [] (now - ns_genesis_time_ms ns);
   sample "pygrove_mempool_size" [] (Z.of_nat (mp_len (ns_mempool ns)));
   sample "pygrove_block_reward_sat" [] (ns_block_reward_sat ns);
   sample "pygrove_bits" [] (ns_bits ns);
   sample "pygrove_minted_so_far_sat" [] (ns_minted_so_far ns);
   sample "pygrove_chain_info" ls 1;
   sample "pygrove_build_info" build_labels_of 1].

Lemma scrape_page now (ns : Node) ls : chain_labels ns = "{" +:+ labels_text ls -> ls <> [] ->
  plain_labels ls = true -> plain_labels build_labels_of = true ->
  scrape (prometheus_metrics now ns) = Some (samples now ns ls).
Proof.
  intros El Hne Hl Hb. unfold scrape, prometheus_metrics, metrics_lines. cbv zeta.
  rewrite <- (app_nil_r (family "pygrove_build_info" _ _ _)), El, build_labels_text.
  repeat (erewrite scrape_family;
    [|first [by rewrite number_line_not_lf|rewrite !all_chars_app, labels_text_not_lf by done; done]
     |done
     |first [by apply read_sample_plain|by apply read_sample_labels]]).
  done.
Qed.

Lemma scrape_metrics now (ns : Node) : all_chars plain_char (ns_chain_id ns) = true ->
  plain_labels build_labels_of = true ->
  scrape (prometheus_metrics now ns) = Some (samples now ns (chain_labels_of ns)).
Proof.
  intros Hc Hb. apply scrape_page; [apply chain_labels_text|done| |done].
  cbn. by rewrite Hc, !digits_plain.
Qed.

(** The chain id is not escaped: a quote in it forges labels. *)
Lemma metrics_forged_label now (ns : Node) v w :
  ns_chain_id ns = v +:+ quote +:+ ",forged=" +:+ quote +:+ w ->
  all_chars plain_char (v +:+ w) = true -> plain_labels build_labels_of = true ->
  scrape (prometheus_metrics now ns) = Some (samples now ns
    [("chain_id", v); ("forged", w); ("sig_algo", pretty (ns_sig_algo ns));
     ("hash_algo", pretty (ns_hash_algo ns))]).
Proof.
  intros Hid Hp Hb. rewrite all_chars_app, andb_true_iff in Hp. destruct Hp as [Hv Hw].
  apply scrape_page; [|done|by cbn; rewrite Hv, Hw, !digits_plain|done].
  unfold chain_labels. rewrite Hid, !append_assoc. reflexivity.
Qed.
End page.
