(* ===== verification/RpcProps.v ===== *)
(** * RpcProps: what a client of the node can rely on

    Remote mining is the same as mining in the process; an accepted transfer is the one the
    wallet signed and the ledger will take; the queries and the emission chart show the
    chain; every handler keeps the node well typed. *)

From S2P Require Export ApplyLaws Rpc.
From Stdlib Require Import Strings.Byte.

Local Open Scope Z_scope.

(** ** Transport *)

Section transport.
Context `{HashPrims} `{HexLaws}.

Lemma hex32_encode b : is_array 32 b = true -> hex32 (hex_encode b) = Ok b.
Proof. intros Hb. unfold hex32. rewrite hex_decode_encode. cbn [ok_or mbind outcome_bind]. by rewrite Hb. Qed.

Lemma hex32_Ok s b : hex32 s = Ok b -> is_array 32 b = true.
Proof.
  unfold hex32. intros Hx. apply outcome_bind_Ok in Hx as (v & _ & Hx).
  destruct (is_array 32 v) eqn:Hv; cbn [negb] in Hx; [|discriminate]. by injection Hx as <-.
Qed.

Definition header_arrays (h : BlockHeader) : Prop :=
  is_array 32 (bh_parent h) = true /\ is_array 32 (bh_tx_root h) = true /\
  is_array 32 (bh_witness_root h) = true /\ is_array 32 (bh_state_root h) = true /\
  is_array 32 (bh_reflect_root h) = true /\ is_array 32 (bh_coinbase h) = true.

(** The JSON of a header reads back. *)
Lemma header_json_roundtrip h : header_arrays h -> header_of_json (header_to_json h) = Ok h.
Proof.
  intros (A1 & A2 & A3 & A4 & A5 & A6). unfold header_of_json, header_to_json.
  cbn [hj_parent hj_tx_root hj_witness_root hj_state_root hj_reflect_root hj_coinbase].
  rewrite !hex32_encode by done. by destruct h.
Qed.

Lemma items_roundtrip {A} `{Cbor A} (items : list A) : forallb typed items = true ->
  exists strs, encode_items items = Ok strs /\ length strs = length items /\
    forall i, decode_items i strs = Ok items.
Proof.
  induction items as [|a items IH]; intros Ht; [by exists []|].
  cbn [forallb] in Ht. apply andb_true_iff in Ht as [Ha Ht].
  destruct (IH Ht) as (strs & He & Hl & Hd). destruct (cbor_roundtrip a Ha) as (buf & Hs & Hde).
  exists (hex_encode buf :: strs). cbn [encode_items]. rewrite Hs. cbn [ok_or mbind outcome_bind].
  rewrite He. split_and!; [done|cbn; by rewrite Hl|]. intros i. cbn [decode_items].
  rewrite hex_decode_encode. cbn [ok_or mbind outcome_bind]. rewrite Hde. cbn [ok_or mbind outcome_bind].
  by rewrite Hd.
Qed.

Lemma decode_items_typed {A} `{Cbor A} (items : list A) i strs :
  decode_items i strs = Ok items -> forallb typed items = true.
Proof.
  revert i items; induction strs as [|s strs IH]; intros i items Hd; [by injection Hd as <-|].
  cbn [decode_items] in Hd. apply outcome_bind_Ok in Hd as (buf & _ & Hd).
  apply outcome_bind_Ok in Hd as (a & Ha%ok_or_Ok & Hd). apply outcome_bind_Ok in Hd as (rest & Hr & Hd).
  injection Hd as <-. cbn. rewrite (cbor_de_typed _ _ Ha). by eapply IH.
Qed.
End transport.

(** ** Well-typed nodes *)

Definition pool_typed (mp : Mempool) : Prop :=
  forall h t, mp_inner mp !! h = Some t -> typed (pt_body t) = true /\ typed (pt_witness t) = true.

Lemma pool_typed_pulled `{HashPrims} mp max : pool_typed mp ->
  forallb typed (pt_body <$> pull_for_block max mp) = true /\
  forallb typed (pt_witness <$> pull_for_block max mp) = true.
Proof.
  intros Hp. assert (forall t, t ∈ pull_for_block max mp ->
    typed (pt_body t) = true /\ typed (pt_witness t) = true) as Ht.
  { intros t Ht. unfold pull_for_block in Ht.
    assert (t ∈ merge_sort pull_le (snd <$> entries (mp_inner mp))) as Hm.
    { rewrite <- (take_drop max (merge_sort _ _)). apply elem_of_app. by left. }
    rewrite merge_sort_Permutation in Hm. apply list_elem_of_fmap in Hm as ([h t'] & -> & He).
    apply elem_of_entries in He. by apply (Hp h). }
  split; apply forallb_forall; intros x Hx; apply list_elem_of_In, list_elem_of_fmap in Hx as (t & -> & Hx);
    by apply Ht.
Qed.

(** ** Remote mining *)

Section remote.
Context {St : Type} `{StateStore St} `{HashPrims} `{SigPrims} `{StateCodecs} {CB : Cbor Block}
  {CT : Cbor TxBody} {CW : Cbor Witness} `{HexLaws} `{Bech32}.
Context (ft : Features).
Notation Node := (NodeState St).

(** What a miner sends back for a template: its own coinbase and the nonce it found. *)
Definition worked (resp : TemplateResp) (coinbase : bytes) (nonce : Z) : SubmitReq :=
  let j := tr_header resp in
  {| sr_header :=
       {| hj_version := hj_version j; hj_height := hj_height j; hj_parent := hj_parent j;
          hj_timestamp_ms := hj_timestamp_ms j; hj_bits := hj_bits j; hj_nonce := nonce;
          hj_tx_root := hj_tx_root j; hj_witness_root := hj_witness_root j;
          hj_state_root := hj_state_root j; hj_reflect_root := hj_reflect_root j;
          hj_coinbase := hex_encode coinbase; hj_sig_algo := hj_sig_algo j;
          hj_hash_algo := hj_hash_algo j |};
     sr_txs_cbor_hex := tr_txs_cbor_hex resp;
     sr_witnesses_cbor_hex := tr_witnesses_cbor_hex resp |}.

Definition with_coinbase (h : BlockHeader) (coinbase : bytes) : BlockHeader :=
  {| bh_version := bh_version h; bh_height := bh_height h; bh_parent := bh_parent h;
     bh_timestamp_ms := bh_timestamp_ms h; bh_bits := bh_bits h; bh_nonce := bh_nonce h;
     bh_tx_root := bh_tx_root h; bh_witness_root := bh_witness_root h;
     bh_state_root := bh_state_root h; bh_reflect_root := bh_reflect_root h;
     bh_coinbase := coinbase; bh_sig_algo := bh_sig_algo h; bh_hash_algo := bh_hash_algo h |}.

Lemma template_arrays now (ns : Node) : is_array 32 (ns_coinbase ns) = true ->
  header_arrays (template now ns).1.
Proof.
  intros Hc. unfold template. destruct (tip (ns_store ns)) as [b|]; cbn;
    split_and!; try done; apply is_array_spec; first [apply length_hash_header|apply length_blake3].
Qed.

(** C28: A template survives the wire.  With well-typed pending transactions [get_template]
    answers, and submitting its answer with any coinbase and nonce, to the same node or a
    later state of it, runs [try_apply_block] on exactly the header of [template] with that
    coinbase and nonce, and the template's body: no field is lost or changed on the way through
    hex, JSON and CBOR, and the answer is that of [try_apply_block].  (Whether that block is
    accepted is another matter: [template] carries the bits of the genesis file.) *)
Theorem remote_mining now (ns : Node) :
  pool_typed (ns_mempool ns) -> is_array 32 (ns_coinbase ns) = true ->
  exists resp, template_resp now ns = Ok resp /\
    forall now' io coinbase nonce (ns' : Node), is_array 32 coinbase = true ->
    let '(hdr, body) := template now ns in
    let block := mined (with_coinbase hdr coinbase) body nonce in
    submit_block ft now' io (worked resp coinbase nonce) ns' =
    let '(r, ns'') := try_apply_block ft now' io block ns' in
    (match r with
     | Ok _ => Ok {| srr_ok := true; srr_height := bh_height hdr;
                     srr_hash := hex_encode (hash_header (blk_header block)) |}
     | Err e => Err (NodeFailed e)
     | Panic => Panic
     end, ns'').
Proof.
  intros Hp Hcb. pose proof (template_arrays now ns Hcb) as Ha.
  destruct (pool_typed_pulled (ns_mempool ns) 256 Hp) as [Hb Hw].
  unfold template_resp. destruct (template now ns) as [hdr body] eqn:Et.
  assert (body = pending_body ns) as ->.
  { revert Et. unfold template. by destruct (tip (ns_store ns)); intros [= <- <-]. }
  cbn [fst] in Ha. unfold pending_body in *. cbn [body_txs body_witnesses].
  destruct (items_roundtrip _ Hb) as (txs & -> & Lt & Dt).
  destruct (items_roundtrip _ Hw) as (wits & -> & Lw & Dw). cbn [mbind outcome_bind].
  eexists. split; [reflexivity|]. intros now' io coinbase nonce ns' Hc.
  unfold submit_block, decode_block. unfold worked.
  cbn [sr_header sr_txs_cbor_hex sr_witnesses_cbor_hex tr_header tr_txs_cbor_hex tr_witnesses_cbor_hex].
  set (hdr' := with_nonce (with_coinbase hdr coinbase) nonce).
  match goal with |- context [header_of_json ?j] => change j with (header_to_json hdr') end.
  rewrite header_json_roundtrip by (destruct Ha as (A1 & A2 & A3 & A4 & A5 & A6); by split_and!).
  cbn [mbind outcome_bind]. rewrite Lt, Lw, !length_fmap, Nat.eqb_refl. cbn [negb].
  rewrite Dt, Dw. cbn [mbind outcome_bind]. unfold mbind, stm_bind, lift_out, on_node, mret, stm_ret.
  fold (mined (with_coinbase hdr coinbase) 
    {| body_txs := pt_body <$> pull_for_block 256 (ns_mempool ns);
       body_witnesses := pt_witness <$> pull_for_block 256 (ns_mempool ns) |} nonce).
  unfold mined. fold hdr'. cbn [blk_header].
  destruct (try_apply_block _ _ _ _ _) as [[[]|e|] ns'']; done.
Qed.
End remote.

(** ** Transfers *)

Section transfers.
Context {St : Type} `{StateStore St} `{HashPrims} `{SigPrims} `{StateCodecs} `{Hex} `{Bech32}.
Context (ft : Features).
Notation Node := (NodeState St).

(** The signing hash leaves the witness hash out. *)
Lemma transfer_signing_hash req from to wh1 wh2 :
  signing_hash (transfer_body req from to wh1) = signing_hash (transfer_body req from to wh2).
Proof. done. Qed.

(** The request is signed by the key behind its sender. *)
Definition signed_request (req : SubmitTransferReq) (from to : AccountId) (pubkey sig : bytes)
    : Prop :=
  parse_address (str_from_address req) = Ok from /\ parse_address (str_to_address req) = Ok to /\
  hex_decode (str_pubkey_hex req) = Some pubkey /\ hex_decode (str_sig_hex req) = Some sig /\
  from_pubkey pubkey = from /\
  forall wh, verify ft 3 pubkey sig (signing_hash (transfer_body req from to wh)) = Ok tt.

Lemma submit_transfer_Ok now req (ns ns' : Node) resp :
  submit_transfer ft now req ns = (Ok resp, ns') ->
  exists from to pubkey sig, signed_request req from to pubkey sig /\
    let w := transfer_witness ns from pubkey sig in
    let tx := transfer_body req from to (witness_hash w) in
    submit now tx w (ns_mempool ns) = (Ok (body_hash tx), ns_mempool ns') /\
    ns' = set_mempool (ns_mempool ns') ns /\ stx_tx_hash resp = hex_encode (body_hash tx).
Proof.
  unfold submit_transfer. intros Hs.
  apply stm_bind_Ok in Hs as (from & s1 & [Hf ->]%lift_out_Ok & Hs).
  apply stm_bind_Ok in Hs as (to & s2 & [Ht ->]%lift_out_Ok & Hs).
  apply stm_bind_Ok in Hs as (pubkey & s3 & [Hpk%ok_or_Ok ->]%lift_out_Ok & Hs).
  apply stm_bind_Ok in Hs as (sig & s4 & [Hsig%ok_or_Ok ->]%lift_out_Ok & Hs).
  case_bool_decide as Hd; cbn [negb] in Hs; [|discriminate].
  apply stm_bind_Ok in Hs as ([] & s5 & [Hv%map_err_Ok ->]%lift_out_Ok & Hs).
  apply stm_bind_Ok in Hs as (w & s6 & Hw & Hs). injection Hw as <- <-.
  apply stm_bind_Ok in Hs as (h & s7 & Hm & Hs). injection Hs as <- <-.
  unfold on_mempool in Hm. destruct (submit now _ _ (ns_mempool ns)) as [r mp] eqn:Es.
  injection Hm as Hr <-. apply map_err_Ok in Hr as ->.
  assert (h = body_hash (transfer_body req from to (witness_hash (transfer_witness ns from pubkey sig))))
    as ->.
  { revert Es. unfold submit. destruct (negb _); [discriminate|].
    destruct (bool_decide _); [discriminate|]. by intros [= <- _]. }
  exists from, to, pubkey, sig. split_and!; [|done..]. by split_and!.
Qed.

(** Conversely, a signed request whose transfer is not pending is accepted. *)
Lemma submit_transfer_complete now req (ns : Node) from to pubkey sig :
  signed_request req from to pubkey sig ->
  let w := transfer_witness ns from pubkey sig in
  mp_inner (ns_mempool ns) !! body_hash (transfer_body req from to (witness_hash w)) = None ->
  exists resp ns', submit_transfer ft now req ns = (Ok resp, ns').
Proof.
  intros (Hf & Ht & Hpk & Hsig & Hd & Hv) w Hnew.
  unfold submit_transfer, mbind, stm_bind, lift_out, read_st, mret, stm_ret.
  rewrite Hf, Ht, Hpk, Hsig. cbn [ok_or]. rewrite bool_decide_eq_true_2 by done. cbn [negb].
  rewrite Hv. cbn [map_err]. fold w. unfold on_mempool, submit.
  rewrite bool_decide_eq_true_2 by done. cbn [negb].
  rewrite bool_decide_eq_false_2 by (rewrite Hnew; by intros []). by eexists _, _.
Qed.

(** What validation asks of a signed transfer whose witness names its sender's key the way
    the node and the wallet do. *)
Lemma transfer_validates i (s : St) tx w pk to amount :
  let acct := load_or_default s (tx_from_account tx) in
  tx_call tx = Transfer to amount -> from_pubkey pk = tx_from_account tx -> wit_sig_algo w = 3 ->
  wit_pubkey w = (if bool_decide (acc_pubkey acct = []) then Inline pk
                  else Known (tx_from_account tx)) ->
  verify ft 3 pk (wit_sig w) (signing_hash tx) = Ok tt ->
  acc_pubkey acct = [] \/ acc_pubkey acct = pk /\ acc_sig_algo acct = 3 ->
  is_ok (validate_tx ft i s tx w) = true <->
    tx_nonce tx = acc_nonce acct /\ amount + tx_fee_sat tx <= acc_balance acct.
Proof.
  intros acct Hc Hd Ha Hw Hv Hacct.
  assert (0 <= acc_balance acct <= u_max 128) as Hmax.
  { pose proof (typed_balance _ (load_typed s (tx_from_account tx))) as Hb. fold acct in Hb.
    unfold u_max. lia. }
  assert (key_of_sender s tx w pk) as Hk.
  { unfold key_of_sender. rewrite Hw, Ha. case_bool_decide as Hne; [done|].
    destruct Hacct as [?|[Hpk Hal]]; [done|].
    exists acct. split_and!; [|done|by rewrite <- Hpk|done].
    unfold acct, load_or_default in *. destruct (load s (tx_from_account tx)); [done|by destruct Hne]. }
  assert (call_amount tx = amount) as Hamt by (unfold call_amount; by rewrite Hc).
  split.
  - destruct (validate_tx _ _ _ _ _) as [st|e|] eqn:Hval; [|discriminate..]. intros _.
    apply validate_tx_Ok in Hval as (pk' & _ & (_ & _ & Hn) & _ & Hb & _).
    rewrite Hamt in Hb. done.
  - intros [Hn Hb].
    assert (validate_tx ft i s tx w = Ok (stage i s tx w pk)) as ->; [|done].
    apply validate_tx_Ok. exists pk. rewrite Hamt. split_and!; [|split_and!|lia|done|done].
    + unfold call_supported. by rewrite Hc.
    + done.
    + by rewrite Ha.
    + done.
Qed.

(** C29: An accepted transfer is the wallet's transfer.  [submit_transfer] answers with success
    exactly when the request names two addresses and the key behind the first, that key signed
    the transfer the node rebuilds from the request, and that transfer is not pending yet.
    The pool then holds, under the returned hash, the transfer of the requested amount between
    the requested accounts with the requested fee and nonce, and nothing but the pool has
    changed.  The nonce and the funds are not looked at: on a ledger where the sender has no
    key or has committed this one, [apply_block]'s validation takes the pooled transfer exactly
    when its nonce is the sender's next one and the amount and the fee fit the balance. *)
Theorem submit_transfer_valid now req (ns : Node) :
  ((exists resp ns', submit_transfer ft now req ns = (Ok resp, ns')) <->
   exists from to pubkey sig, signed_request req from to pubkey sig /\
     mp_inner (ns_mempool ns) !! body_hash (transfer_body req from to
       (witness_hash (transfer_witness ns from pubkey sig))) = None) /\
  forall resp ns', submit_transfer ft now req ns = (Ok resp, ns') ->
  exists from to pubkey w tx, parse_address (str_from_address req) = Ok from /\
    parse_address (str_to_address req) = Ok to /\ hex_decode (str_pubkey_hex req) = Some pubkey /\
    from_pubkey pubkey = from /\
    verify ft 3 pubkey (wit_sig w) (signing_hash tx) = Ok tt /\
    tx = transfer_body req from to (witness_hash w) /\
    stx_tx_hash resp = hex_encode (body_hash tx) /\ ns' = set_mempool (ns_mempool ns') ns /\
    mp_inner (ns_mempool ns') !! body_hash tx =
      Some {| pt_body := tx; pt_witness := w; pt_received_ms := now |} /\
    (let acct := load_or_default (ns_state ns) from in
     acc_pubkey acct = [] \/ acc_pubkey acct = pubkey /\ acc_sig_algo acct = 3 ->
     forall i, is_ok (validate_tx ft i (ns_state ns) tx w) = true <->
       str_nonce req = acc_nonce acct /\ str_amount_sat req + str_fee_sat req <= acc_balance acct).
Proof.
  split.
  { split; [|intros (from & to & pubkey & sig & Hs & Hn); by eapply submit_transfer_complete].
    intros (resp & ns' & Hs). destruct (submit_transfer_Ok _ _ _ _ _ Hs)
      as (from & to & pubkey & sig & Hsig & Hm & _). exists from, to, pubkey, sig. split; [exact Hsig|].
    revert Hm. unfold submit. destruct (negb _); [discriminate|]. case_bool_decide as Hp; [discriminate|].
    intros _. by apply eq_None_not_Some. }
  intros resp ns' Hs. destruct (submit_transfer_Ok _ _ _ _ _ Hs)
    as (from & to & pubkey & sig & (Hf & Ht & Hpk & Hsig & Hd & Hv) & Hm & Hns & Hr).
  set (w := transfer_witness ns from pubkey sig) in *.
  set (tx := transfer_body req from to (witness_hash w)) in *.
  exists from, to, pubkey, w, tx. split_and!; try done; [apply Hv| |].
  { revert Hm. unfold submit. destruct (negb _); [discriminate|].
    destruct (bool_decide _); [discriminate|]. intros [= <-]. cbn [mp_inner].
    by rewrite lookup_insert_eq. }
  intros acct Hacct i.
  apply (transfer_validates i (ns_state ns) tx w pubkey to (str_amount_sat req)); try done. apply Hv.
Qed.
End transfers.

(** ** Queries *)

Section queries.
Context {St : Type} `{StateStore St} `{HashPrims} `{SigPrims} `{StateCodecs} {CB : Cbor Block}
  `{Hex} `{Bech32}.
Notation Node := (NodeState St).

Lemma load_all_holds cs bs : store_holds cs bs -> load_all cs = Ok bs.
Proof. intros (Hd & _ & _ & Hs). by apply read_all_holds. Qed.

(** On a chain whose heights count its blocks, the search by height is an index. *)
Lemma find_by_height (bs : list Block) h :
  (forall i b, bs !! i = Some b -> bh_height (blk_header b) = Z.of_nat i) ->
  find_elem (fun b => bh_height (blk_header b) = h) bs =
  if 0 <=? h then bs !! Z.to_nat h else None.
Proof.
  assert (forall k l, (forall i b, l !! i = Some b -> bh_height (blk_header b) = Z.of_nat (k + i)) ->
    find_elem (fun b => bh_height (blk_header b) = h) l =
    if Z.of_nat k <=? h then l !! (Z.to_nat h - k)%nat else None) as Hg.
  { intros k l. revert k; induction l as [|b l IH]; intros k Hl.
    { by destruct (Z.of_nat k <=? h). }
    rewrite find_elem_cons. pose proof (Hl 0%nat b eq_refl) as H0'. rewrite Nat.add_0_r in H0'.
    destruct (decide (bh_height (blk_header b) = h)) as [Hh|Hh].
    - destruct (Z.leb_spec (Z.of_nat k) h); [|lia].
      replace (Z.to_nat h - k)%nat with 0%nat by lia. done.
    - rewrite (IH (S k)).
      + destruct (Z.leb_spec (Z.of_nat k) h), (Z.leb_spec (Z.of_nat (S k)) h); [|lia|lia|done].
        by replace (Z.to_nat h - k)%nat with (S (Z.to_nat h - S k)) by lia.
      + intros i x Hx. rewrite (Hl (S i) x Hx). lia. }
  intros Hl. rewrite (Hg 0%nat bs) by (intros; by apply Hl). by rewrite Nat.sub_0_r.
Qed.

(** The explorer shows the chain.  On a node whose log is the chain [bs], [list_blocks]
    returns the newest blocks first, at most 500 through the dispatcher, [get_block] the
    block at exactly that height, or nothing above the tip, and [get_info] the height and
    hash of the last block. *)
Lemma queries_show_chain (ns : Node) bs now : node_ok ns bs ->
  (forall limit, list_blocks ns limit = Ok (block_summary <$> take limit (reverse bs)) /\
     exists l, dispatch_list_blocks ns limit = Ok l /\ (length l <= 500)%nat) /\
  (forall h, get_block ns h =
     Ok (block_detail <$> (if 0 <=? h then bs !! Z.to_nat h else None))) /\
  exists b, last bs = Some b /\ inf_height (info now ns) = Z.of_nat (length bs) - 1 /\
    inf_tip_hash (info now ns) = hex_encode (hash_header (blk_header b)).
Proof.
  intros Hok. pose proof Hok as (Hst & Hc & Hlen). pose proof (load_all_holds _ _ Hst) as Hall.
  pose proof (chain_ok_heights _ _ Hc ltac:(lia)) as Hh.
  assert (forall limit, list_blocks ns limit = Ok (block_summary <$> take limit (reverse bs))) as Hl.
  { intros limit. unfold list_blocks, recent. rewrite Hall. cbn [mbind outcome_bind map_err].
    by rewrite take_reverse. }
  split_and!.
  - intros limit. split; [apply Hl|]. unfold dispatch_list_blocks. rewrite Hl.
    eexists. split; [done|]. rewrite length_fmap, length_take. lia.
  - intros h. unfold get_block, get_by_height. rewrite Hall. cbn [mbind outcome_bind map_err].
    by rewrite find_by_height.
  - destruct (node_ok_tip _ _ Hok) as (b & Hb & Ht). exists b. split; [done|].
    unfold info. rewrite Ht. split; [|done]. cbn [inf_height].
    rewrite last_lookup in Hb. rewrite (Hh _ _ Hb). apply lookup_lt_Some in Hb. lia.
Qed.
End queries.

(** ** Types *)

Section types.
Context {St : Type} `{StateStore St} `{HashPrims} `{SigPrims} `{StateCodecs} {CB : Cbor Block}
  {CT : Cbor TxBody} {CW : Cbor Witness} `{Hex} `{Bech32}.
Context (ft : Features).
Notation Node := (NodeState St).

(** Every field of the node is in the range of its machine type. *)
Definition node_typed (ns : Node) : Prop :=
  pool_typed (ns_mempool ns) /\ is_array 32 (ns_coinbase ns) = true /\ in_u 32 (ns_bits ns) /\
  in_u 8 (ns_sig_algo ns) /\ in_u 8 (ns_hash_algo ns) /\ typed (ns_emission ns) = true /\
  in_u 128 (ns_minted_so_far ns) /\ (forall r, ns_prev_reward_sat ns = Some r -> in_u 128 r) /\
  forall b, tip (ns_store ns) = Some b -> typed b = true.

(** The integer fields of a JSON header, which the parser bounds. *)
Definition json_typed (j : HeaderJson) : Prop :=
  in_u 32 (hj_version j) /\ in_u 64 (hj_height j) /\ in_u 64 (hj_timestamp_ms j) /\
  in_u 32 (hj_bits j) /\ in_u 64 (hj_nonce j) /\ in_u 8 (hj_sig_algo j) /\ in_u 8 (hj_hash_algo j).

Definition transfer_typed (req : SubmitTransferReq) : Prop :=
  in_u 128 (str_amount_sat req) /\ in_u 64 (str_fee_sat req) /\ in_u 64 (str_nonce req).

Lemma decode_block_typed req b : json_typed (sr_header req) -> decode_block req = Ok b ->
  typed b = true.
Proof.
  intros (J1 & J2 & J3 & J4 & J5 & J6 & J7) Hd. unfold decode_block in Hd.
  apply outcome_bind_Ok in Hd as (hdr & Hh & Hd). destruct (negb _); [discriminate|].
  apply outcome_bind_Ok in Hd as (txs & Ht%decode_items_typed & Hd).
  apply outcome_bind_Ok in Hd as (wits & Hw%decode_items_typed & Hd). injection Hd as <-.
  unfold header_of_json in Hh.
  apply outcome_bind_Ok in Hh as (a1 & A1%hex32_Ok & Hh). apply outcome_bind_Ok in Hh as (a2 & A2%hex32_Ok & Hh).
  apply outcome_bind_Ok in Hh as (a3 & A3%hex32_Ok & Hh). apply outcome_bind_Ok in Hh as (a4 & A4%hex32_Ok & Hh).
  apply outcome_bind_Ok in Hh as (a5 & A5%hex32_Ok & Hh). apply outcome_bind_Ok in Hh as (a6 & A6%hex32_Ok & Hh).
  injection Hh as <-. unfold typed, typed_Block. cbn [blk_header blk_body].
  apply andb_true_iff. split; [|apply andb_true_iff; split; [exact Ht|exact Hw]].
  unfold typed, typed_BlockHeader. cbn -[in_ub is_array].
  rewrite A1, A2, A3, A4, A5, A6. by rewrite !(proj2 (in_ub_spec _ _)) by done.
Qed.

Lemma submit_pool_typed now body w mp : pool_typed mp -> typed body = true -> typed w = true ->
  pool_typed (submit now body w mp).2.
Proof.
  intros Hp Hb Hw. unfold submit. destruct (negb _); [done|]. destruct (bool_decide _); [done|].
  destruct (makes_room_subset mp _ (room mp)) as [Hsub _]. revert Hsub.
  generalize (if (mp_cap mp <=? size (mp_inner mp))%nat then evict (mp_inner mp) else mp_inner mp).
  intros inner Hsub h t Hl. cbn [snd mp_inner] in Hl.
  apply lookup_insert_Some in Hl as [[_ <-]|[_ Hl]]; [done|].
  apply (Hp h). by eapply lookup_weaken.
Qed.

Lemma confirm_pool_typed hs mp : pool_typed mp -> pool_typed (confirm hs mp).
Proof. intros Hp h t. rewrite confirm_lookup. case_decide; [done|]. apply Hp. Qed.

Lemma reward_in_u128 {E} p g ts pts minted h prev r : typed p = true ->
  (forall q, prev = Some q -> in_u 128 q) ->
  current_reward_with_height (E:=E) p g ts pts minted h prev = Ok r -> in_u 128 r.
Proof.
  intros Tp Hq Hr.
  destruct (current_reward_with_height_Ok p Tp (E:=E) g ts pts minted h prev) as (r' & Hr' & Hr0 & Hz & Hp).
  rewrite Hr in Hr'. injection Hr' as <-.
  destruct (params_ranges p Tp) as (HI & _). unfold in_u in *.
  destruct (Z.le_gt_cases ts g) as [Hg|Hg]; [rewrite Hz by done; lia|].
  pose proof (raw_reward_range p Tp (ts - g) (saturating_sub ts pts) minted h ltac:(lia)) as Hraw.
  pose proof (epoch_reward_range p Tp (ts - g) ltac:(lia)) as He.
  rewrite (Hp Hg). destruct prev as [q|]; [|lia]. specialize (Hq q eq_refl).
  destruct (Z.ltb_spec 0 q); [|lia].
  pose proof (slew_floor_range p q ltac:(lia)). pose proof (slew_keep_range p). nia.
Qed.

Lemma append_tip io b cs : cs_tip (append io b cs).2 = cs_tip cs \/
  cs_tip (append io b cs).2 = Some b.
Proof. unfold append. destruct (cbor_ser b); [|by left]. destruct io; [by left|by right]. Qed.

Lemma try_apply_typed now io b ns : node_typed ns -> typed b = true ->
  node_typed (try_apply_block ft now io b ns).2.
Proof.
  intros Hn Tb. unfold try_apply_block, mbind, stm_bind. destruct (check_block now ns b) as [[]|e|]; [|done..].
  unfold commit_block, on_state, on_store, mbind, stm_bind, read_st, modify_st.
  destruct (block_reward ns (blk_header b)) as [reward|e|] eqn:Er; [|done..].
  destruct (apply_block ft b reward (ns_state ns)) as [[out|e|] s]; cbn [map_err]; [|exact Hn..].
  pose proof (append_tip io b (ns_store ns)) as Htip.
  cbn [ns_store set_mempool set_counters set_state].
  destruct (append io b (ns_store ns)) as [ra cs]. cbn [snd] in *.
  destruct Hn as (N1 & N2 & N3 & N4 & N5 & N6 & N7 & N8 & N9).
  assert (in_u 128 reward) as Hrew by (eapply reward_in_u128; [exact N6|exact N8|exact Er]).
  unfold node_typed. cbn -[in_u is_array]. split_and!; try done.
  - by apply confirm_pool_typed.
  - unfold in_u, saturating_add, u_max in *. lia.
  - by intros r [= <-].
  - unfold tip. destruct Htip as [-> | ->]; [exact N9|]. by intros b' [= <-].
Qed.

Lemma parse_address_account s id : parse_address s = Ok id -> account_ok id = true.
Proof.
  intros Hs. unfold parse_address in Hs. apply map_err_Ok in Hs.
  apply from_bech32_Ok in Hs as [_ Hl]. by apply account_ok_spec.
Qed.

Lemma transfer_typed_body (ns : Node) req from to pk sig : transfer_typed req ->
  account_ok from = true -> account_ok to = true ->
  let w := transfer_witness ns from pk sig in
  typed w = true /\ typed (transfer_body req from to (witness_hash w)) = true.
Proof.
  intros (T1 & T2 & T3) Hf Ht w. split.
  - unfold typed, typed_Witness, w, transfer_witness. cbn [wit_sig_algo wit_pubkey].
    apply andb_true_iff. split; [reflexivity|]. by case_bool_decide.
  - unfold typed, typed_TxBody, transfer_body.
    cbn [tx_nonce tx_from_account tx_call tx_fee_sat tx_gas_limit tx_witness_hash].
    rewrite !andb_true_iff, !in_ub_spec, is_array_spec. split_and!; try done.
    + unfold typed, typed_TxCall. by rewrite andb_true_iff, in_ub_spec.
    + apply length_blake3.
Qed.

(** What a submission does to the node: nothing, or one [submit] of a typed transaction. *)
Definition pool_submission (now : Z) (ns ns' : Node) : Prop :=
  ns' = ns \/ exists body w, typed body = true /\ typed w = true /\
    ns' = set_mempool (submit now body w (ns_mempool ns)).2 ns.

Lemma on_mempool_submission now body w (ns : Node) : typed body = true -> typed w = true ->
  pool_submission now ns (on_mempool (submit now body w) ns).2.
Proof.
  intros Tb Tw. right. exists body, w. unfold on_mempool.
  by destruct (submit now body w (ns_mempool ns)) as [r mp].
Qed.

Lemma submit_tx_submission now req (ns : Node) : pool_submission now ns (submit_tx now req ns).2.
Proof.
  unfold submit_tx, mbind, stm_bind, lift_out, mret, stm_ret.
  destruct (hex_decode (st_tx_cbor_hex req)) as [bt|]; [|by left]. cbn [ok_or].
  destruct (hex_decode (st_witness_cbor_hex req)) as [bw|]; [|by left]. cbn [ok_or].
  destruct (cbor_de bt) as [body|] eqn:Eb; [|by left]. cbn [ok_or].
  destruct (cbor_de bw) as [w|] eqn:Ew; [|by left]. cbn [ok_or].
  pose proof (on_mempool_submission now body w ns (cbor_de_typed _ _ Eb) (cbor_de_typed _ _ Ew)).
  by destruct (on_mempool (submit now body w) ns) as [[h|e|] ns'].
Qed.

Lemma submit_transfer_submission now req (ns : Node) : transfer_typed req ->
  pool_submission now ns (submit_transfer ft now req ns).2.
Proof.
  intros Tr. unfold submit_transfer, mbind, stm_bind, lift_out, mret, stm_ret, throw, read_st.
  destruct (parse_address (str_from_address req)) as [from|e|] eqn:Ef; [|by left..].
  destruct (parse_address (str_to_address req)) as [to|e|] eqn:Et; [|by left..].
  destruct (hex_decode (str_pubkey_hex req)) as [pk|]; [|by left]. cbn [ok_or].
  destruct (hex_decode (str_sig_hex req)) as [sig|]; [|by left]. cbn [ok_or].
  destruct (negb _); [by left|]. destruct (map_err SignatureInvalid _) as [[]|e|]; [|by left..].
  destruct (transfer_typed_body ns req from to pk sig Tr (parse_address_account _ _ Ef)
    (parse_address_account _ _ Et)) as [Tw Tt].
  pose proof (on_mempool_submission now _ _ ns Tt Tw) as Hp. revert Hp.
  by destruct (on_mempool _ ns) as [[h|e|] ns'].
Qed.

Lemma pool_submission_typed now (ns ns' : Node) : node_typed ns -> pool_submission now ns ns' ->
  node_typed ns'.
Proof.
  intros Hn [->|(body & w & Tb & Tw & ->)]; [done|].
  pose proof (submit_pool_typed now body w (ns_mempool ns) (proj1 Hn) Tb Tw) as Hp.
  destruct Hn as (_ & Hn). split; [exact Hp|exact Hn].
Qed.

(** A block submission is the transition on the decoded block, or nothing. *)
Lemma submit_block_state now io req (ns : Node) :
  (submit_block ft now io req ns).2 =
  match decode_block req with
  | Ok b => (try_apply_block ft now io b ns).2
  | _ => ns
  end.
Proof.
  unfold submit_block, mbind, stm_bind, lift_out, on_node, mret, stm_ret.
  destruct (decode_block req) as [b|e|]; [|done..].
  by destruct (try_apply_block ft now io b ns) as [[[]|e|] ns'].
Qed.

(** Types.  Every state-changing handler, called with parameters the JSON parser can
    produce, leaves a well-typed node well typed, whatever it answers and whatever the disk
    does: pooled transactions and the tip are in range, and the counters fit 128 bits. *)
Lemma handlers_keep_types now io (ns : Node) : node_typed ns ->
  (forall req, json_typed (sr_header req) -> node_typed (submit_block ft now io req ns).2) /\
  (forall req, node_typed (submit_tx now req ns).2) /\
  (forall req, transfer_typed req -> node_typed (submit_transfer ft now req ns).2).
Proof.
  intros Hn. split_and!.
  - intros req Hj. rewrite submit_block_state. destruct (decode_block req) as [b|e|] eqn:Ed; [|done..].
    apply try_apply_typed; [done|]. by apply (decode_block_typed req).
  - intros req. eapply pool_submission_typed; [done|apply submit_tx_submission].
  - intros req Tr. eapply pool_submission_typed; [done|by apply submit_transfer_submission].
Qed.
End types.
