(* ===== verification/RpcChart.v ===== *)
(** * RpcChart: the emission chart shows the coins of the ledger

    [emission_series] recomputes the emission from the log; the running node carries it in
    its counters, and a restart replays it.  All three are [emit_chain] on the chain. *)

From S2P Require Export RpcProps.
From Stdlib Require Import Strings.Byte.

Local Open Scope Z_scope.

(** The emission inputs of a list of blocks after a parent of the given time. *)
Fixpoint eblocks (parent_ts : Z) (bs : list Block) : list EmissionBlock :=
  match bs with
  | [] => []
  | b :: bs =>
      {| eb_timestamp_ms := bh_timestamp_ms (blk_header b); eb_parent_timestamp_ms := parent_ts;
         eb_height := bh_height (blk_header b) |} :: eblocks (bh_timestamp_ms (blk_header b)) bs
  end.

(** The total minted up to and including the block at index [i] of a chain. *)
Definition minted_through (p : EmissionParams) (g : Z) (bs : list Block) (i : nat) : Z :=
  match emit_chain (E:=NodeError) p g (eblocks g (take (S i) bs)) (0, None) with
  | Ok (minted, _) => minted
  | _ => 0
  end.

Definition heights_from (n : nat) (bs : list Block) : Prop :=
  forall i b, bs !! i = Some b -> bh_height (blk_header b) = Z.of_nat (n + i).

Lemma heights_from_cons n b bs : heights_from n (b :: bs) ->
  bh_height (blk_header b) = Z.of_nat n /\ heights_from (S n) bs.
Proof.
  intros Hh. split; [rewrite (Hh 0%nat b) by done; lia|].
  intros i x Hx. rewrite (Hh (S i) x) by done. lia.
Qed.

Section chart.
Context {St : Type} `{StateStore St} `{HashPrims} `{SigPrims} `{StateCodecs} {CB : Cbor Block}.
Context (ft : Features).
Notation Node := (NodeState St).

(** The counters of a replay are the emission of the chain. *)
Lemma replay_emits p g todo : forall (pre : list Block) (mem : St) m prev mem' m' prev' ts,
  heights_from 0 (pre ++ todo) ->
  ts = match last pre with Some b => bh_timestamp_ms (blk_header b) | None => g end ->
  replay ft p g (pre ++ todo) todo (mem, m, prev) = Ok (mem', m', prev') ->
  emit_chain (E:=NodeError) p g (eblocks ts todo) (m, prev) = Ok (m', prev').
Proof.
  induction todo as [|b todo IH]; intros pre mem m prev mem' m' prev' ts Hh Hts Hr.
  { by injection Hr as _ -> ->. }
  cbn [replay] in Hr. apply outcome_bind_Ok in Hr as ([[mem1 m1] prev1] & Hb & Hr).
  assert (replay_parent_ts g (pre ++ b :: todo) b = ts) as Hp.
  { unfold replay_parent_ts. rewrite (Hh (length pre) b)
      by (rewrite lookup_app_r, Nat.sub_diag by lia; done). cbn [Nat.add].
    rewrite Hts. destruct (last pre) as [x|] eqn:Hl.
    - rewrite last_lookup in Hl. pose proof (lookup_lt_Some _ _ _ Hl) as Hlt.
      destruct (Z.eqb_spec (Z.of_nat (length pre)) 0); [lia|].
      replace (Z.to_nat (Z.of_nat (length pre) - 1)) with (pred (length pre)) by lia.
      by rewrite lookup_app_l, Hl by lia.
    - apply last_None in Hl as ->. done. }
  unfold replay_block in Hb. rewrite Hp in Hb.
  apply outcome_bind_Ok in Hb as (reward & Hrew & Hb).
  destruct (apply_block ft b reward mem) as [[out|e|] mem2]; [|discriminate..].
  injection Hb as <- <- <-.
  cbn [eblocks emit_chain]. unfold emit_block. cbn [eb_timestamp_ms eb_parent_timestamp_ms eb_height].
  rewrite Hrew. cbn [mbind outcome_bind].
  apply (IH (pre ++ [b]) mem2 _ _ mem' m' prev' _).
  - by rewrite <- app_assoc.
  - by rewrite last_snoc.
  - by rewrite <- app_assoc.
Qed.

(** A previous reward of zero is no previous reward. *)
Lemma emit_chain_zero {E} p g bs m : bs <> [] ->
  emit_chain (E:=E) p g bs (m, Some 0) = emit_chain p g bs (m, None).
Proof. by destruct bs as [|b bs]. Qed.

Lemma emit_chain_app {E} p g bs1 bs2 st :
  emit_chain (E:=E) p g (bs1 ++ bs2) st = emit_chain p g bs1 st ≫= emit_chain p g bs2.
Proof.
  revert st; induction bs1 as [|b bs1 IH]; intros st; [done|]. cbn [app emit_chain].
  destruct (emit_block p g st b) as [st'|e|]; cbn; [apply IH|done|done].
Qed.

Lemma emit_chain_total p g bs st : typed p = true ->
  exists st', emit_chain (E:=NodeError) p g bs st = Ok st'.
Proof.
  intros Tp. revert st; induction bs as [|b bs IH]; intros [m prev]; [by eexists|].
  cbn [emit_chain]. unfold emit_block at 1.
  destruct (current_reward_with_height_Ok p Tp (E:=NodeError) g (eb_timestamp_ms b)
    (eb_parent_timestamp_ms b) m (eb_height b) prev) as (r & -> & _).
  cbn [mbind outcome_bind]. apply IH.
Qed.

(** The loop of the chart, from block [n] on: it files the running totals by height. *)
Lemma series_loop_spec (ns : Node) rest : typed (ns_emission ns) = true ->
  forall n parent cumulative running prev, heights_from n rest ->
  exists cumulative', series_loop ns parent rest (cumulative, running, prev) = Ok cumulative' /\
    (forall h, h < Z.of_nat n -> cumulative' !! h = cumulative !! h) /\
    forall k, (k < length rest)%nat -> exists m pr,
      emit_chain (E:=NodeError) (ns_emission ns) (ns_genesis_time_ms ns)
        (eblocks (bh_timestamp_ms (blk_header parent)) (take (S k) rest)) (running, prev) =
        Ok (m, pr) /\
      cumulative' !! Z.of_nat (n + k) = Some m.
Proof.
  intros Tp. induction rest as [|b rest IH]; intros n parent cumulative running prev Hh.
  { exists cumulative. split_and!; [done|done|]. cbn. lia. }
  apply heights_from_cons in Hh as [Hb Hh]. cbn [series_loop].
  destruct (current_reward_with_height_Ok (ns_emission ns) Tp (E:=RpcError) (ns_genesis_time_ms ns)
    (bh_timestamp_ms (blk_header b)) (bh_timestamp_ms (blk_header parent)) running
    (bh_height (blk_header b)) prev) as (r & Hr & Hr0 & Hz & Hp).
  rewrite Hr. cbn [mbind outcome_bind].
  destruct (current_reward_with_height_Ok (ns_emission ns) Tp (E:=NodeError) (ns_genesis_time_ms ns)
    (bh_timestamp_ms (blk_header b)) (bh_timestamp_ms (blk_header parent)) running
    (bh_height (blk_header b)) prev) as (r' & Hr' & _ & Hz' & Hp').
  assert (r' = r) as ->.
  { destruct (Z.le_gt_cases (bh_timestamp_ms (blk_header b)) (ns_genesis_time_ms ns)) as [Hg|Hg].
    - by rewrite Hz, Hz'.
    - by rewrite (Hp Hg), (Hp' Hg). }
  destruct (IH (S n) b (<[bh_height (blk_header b) := saturating_add 128 running r]> cumulative)
    (saturating_add 128 running r) (Some r) Hh) as (c' & Hs & Hlow & Hk).
  exists c'. split; [exact Hs|]. split.
  { intros h Hh'. rewrite Hlow by lia. rewrite lookup_insert_ne; [done|]. lia. }
  assert (forall k, take (S k) (b :: rest) = b :: take k rest) as Htake by done.
  intros [|k] Hlt; rewrite Htake; cbn [eblocks emit_chain]; unfold emit_block at 1;
    cbn [eb_timestamp_ms eb_parent_timestamp_ms eb_height]; rewrite Hr'; cbn [mbind outcome_bind].
  - rewrite take_0. exists (saturating_add 128 running r), (Some r). split; [done|].
    rewrite Nat.add_0_r, Hlow by lia. by rewrite <- Hb, lookup_insert_eq.
  - destruct (Hk k) as (m & pr & Hm & Hl); [cbn in Hlt; lia|]. exists m, pr.
    split; [exact Hm|]. by rewrite <- Nat.add_succ_comm.
Qed.
(** The table of the chart: its entries are the totals of the chain, up to the node's. *)
Lemma chart_table (ns : Node) bs (s0 : St) :
  synced ft s0 ns bs -> typed (ns_emission ns) = true -> heights_from 0 bs ->
  (forall b, head bs = Some b -> bh_timestamp_ms (blk_header b) <= ns_genesis_time_ms ns) ->
  bs <> [] ->
  exists first rest cumulative, bs = first :: rest /\
    series_loop ns first rest ({[0 := 0]}, 0, None) = Ok cumulative /\
    (forall i, (i < length bs)%nat -> cumulative !! Z.of_nat i =
       Some (minted_through (ns_emission ns) (ns_genesis_time_ms ns) bs i)) /\
    minted_through (ns_emission ns) (ns_genesis_time_ms ns) bs (pred (length bs)) =
      ns_minted_so_far ns.
Proof.
  intros Hsy Tp Hh Hg Hne. destruct bs as [|first rest]; [done|]. clear Hne.
  specialize (Hg first eq_refl).
  pose proof (replay_emits (ns_emission ns) (ns_genesis_time_ms ns) (first :: rest) [] s0 0 None
    _ _ _ (ns_genesis_time_ms ns) Hh eq_refl Hsy) as Htotal.
  apply heights_from_cons in Hh as [_ Hh].
  destruct (series_loop_spec ns rest Tp 1 first {[0 := 0]} 0 None Hh) as (cum & Hs & Hlow & Hk).
  assert (forall n, emit_chain (E:=NodeError) (ns_emission ns) (ns_genesis_time_ms ns)
    (eblocks (ns_genesis_time_ms ns) (take (S n) (first :: rest))) (0, None) =
    emit_chain (ns_emission ns) (ns_genesis_time_ms ns)
      (eblocks (bh_timestamp_ms (blk_header first)) (take n rest)) (0, Some 0)) as Hfirst.
  { intros n. cbn [take firstn eblocks emit_chain]. unfold emit_block at 1, current_reward_with_height.
    cbn [eb_timestamp_ms]. by destruct (Z.leb_spec (bh_timestamp_ms (blk_header first)) (ns_genesis_time_ms ns)); [|lia]. }
  exists first, rest, cum. split_and!; [done|done| |].
  - intros [|i] Hi; unfold minted_through; rewrite Hfirst.
    + by rewrite Hlow, lookup_singleton_eq by lia.
    + destruct (Hk i) as (m & pr & Hm & Hl); [cbn in Hi; lia|].
      rewrite emit_chain_zero, Hm; [exact Hl|].
      destruct rest; [cbn in Hi; lia|done].
  - unfold minted_through. cbn [length pred]. 
    change (S (length rest)) with (length (first :: rest)). by rewrite firstn_all, Htotal.
Qed.

Lemma filter_last {A} (P : A -> Prop) `{forall x, Decision (P x)} (l : list A) x :
  last l = Some x -> P x -> last (filter P l) = Some x.
Proof.
  intros Hl Hx. apply last_Some in Hl as [l' ->]. rewrite filter_app, filter_cons_True by done.
  apply last_snoc.
Qed.

(** Every sample is a block of the window, and the last one is its last block. *)
Lemma series_samples_spec cumulative stride w b : last w = Some b ->
  (forall x y, x ∈ w -> y ∈ w -> bh_height (blk_header x) = bh_height (blk_header y) -> x = y) ->
  (forall s, s ∈ series_samples cumulative stride w -> exists x, x ∈ w /\
     s = emission_point cumulative x) /\
  last (series_samples cumulative stride w) = Some (emission_point cumulative b).
Proof.
  intros Hl Hinj. unfold series_samples. rewrite Hl.
  set (picked := snd <$> filter _ (enumerate w)).
  assert (forall x, x ∈ picked -> x ∈ w) as Hp.
  { intros x Hx. unfold picked in Hx. apply list_elem_of_fmap in Hx as ([i y] & -> & Hx).
    apply list_elem_of_filter in Hx as [_ Hx]. unfold enumerate in Hx.
    apply elem_of_lookup_imap in Hx as (j & z & [= -> ->] & Hz). by eapply list_elem_of_lookup_2. }
  assert (b ∈ w) as Hb by by apply last_Some_elem_of.
  case_bool_decide as Hd; split.
  - intros s (x & -> & Hx)%list_elem_of_fmap. exists x. auto.
  - rewrite fmap_last in *. destruct (last picked) as [x|] eqn:Hx; [|discriminate].
    cbn in Hd |- *. injection Hd as Hd. do 2 f_equal. apply Hinj; [|done|done].
    apply Hp. by apply last_Some_elem_of.
  - intros s [Hs|Hs%list_elem_of_singleton]%elem_of_app; [|by exists b].
    apply list_elem_of_fmap in Hs as (x & -> & Hx). exists x. auto.
  - apply last_snoc.
Qed.

(** The emission chart is the ledger's emission.  On a node that is in step with its
    log, [emission_series] answers for every window and number of points; every sample is a
    block of the chain with the total minted up to it, as the chain rules compute it, and the
    last sample is the tip with exactly the node's minted total. *)
Lemma emission_chart (s0 : St) (ns : Node) bs window points :
  node_ok ns bs -> synced ft s0 ns bs -> typed (ns_emission ns) = true -> 0 <= window ->
  (forall b, head bs = Some b -> bh_timestamp_ms (blk_header b) <= ns_genesis_time_ms ns) ->
  exists resp, emission_series ns window points = Ok resp /\
    (forall s, s ∈ es_samples resp -> exists i b, bs !! i = Some b /\
       s = {| ep_height := Z.of_nat i; ep_timestamp_ms := bh_timestamp_ms (blk_header b);
              ep_minted_sat := minted_through (ns_emission ns) (ns_genesis_time_ms ns) bs i |}) /\
    exists b, last bs = Some b /\
      last (es_samples resp) =
        Some {| ep_height := bh_height (blk_header b);
                ep_timestamp_ms := bh_timestamp_ms (blk_header b);
                ep_minted_sat := ns_minted_so_far ns |}.
Proof.
  intros Hok Hsy Tp Hw Hg. pose proof Hok as (Hst & Hc & Hlen).
  pose proof (chain_ok_heights _ _ Hc ltac:(lia)) as Hh.
  destruct (node_ok_tip _ _ Hok) as (b & Hb & _).
  destruct (chart_table ns bs s0 Hsy Tp Hh Hg ltac:(by intros ->)) as (first & rest & cum & -> & Hs & Hcum & Htot).
  unfold emission_series. rewrite (load_all_holds _ _ Hst). cbn [mbind outcome_bind map_err].
  rewrite Hb. set (w := filter _ (first :: rest)).
  assert (last w = Some b) as Hlw.
  { apply filter_last; [done|]. destruct Hst as (_ & _ & _ & Hty).
    rewrite forallb_forall in Hty. pose proof (Hty b (proj1 (list_elem_of_In _ _) (last_Some_elem_of _ _ Hb))) as Tb.
    unfold storable in Tb. apply andb_true_iff in Tb as [Tb _].
    unfold typed, typed_Block in Tb. apply andb_true_iff in Tb as [Tb _].
    unfold typed, typed_BlockHeader in Tb. rewrite !andb_true_iff, !in_ub_spec in Tb.
    unfold saturating_sub, saturating_mul, u_max, in_u in *. lia. }
  rewrite bool_decide_eq_false_2 by (intros E; by rewrite E in Hlw). rewrite Hs.
  cbn [mbind outcome_bind]. eexists. split; [reflexivity|]. cbn [es_samples series_resp].
  assert (forall x, x ∈ w -> exists i, (first :: rest) !! i = Some x) as Hx.
  { intros x [_ Hx]%list_elem_of_filter. by apply list_elem_of_lookup. }
  destruct (series_samples_spec cum (Nat.max (length w / Nat.min (Nat.max points 2) 500) 1) w b Hlw)
    as [Hall Hlast].
  { intros x y (i & Hi)%Hx (j & Hj)%Hx E. rewrite (Hh _ _ Hi), (Hh _ _ Hj) in E.
    assert (i = j) as -> by lia. congruence. }
  assert (forall i x, (first :: rest) !! i = Some x -> emission_point cum x =
    {| ep_height := Z.of_nat i; ep_timestamp_ms := bh_timestamp_ms (blk_header x);
       ep_minted_sat := minted_through (ns_emission ns) (ns_genesis_time_ms ns) (first :: rest) i |})
    as Hpt.
  { intros i x Hi. unfold emission_point. rewrite (Hh _ _ Hi).
    by rewrite (Hcum i (lookup_lt_Some _ _ _ Hi)). }
  split.
  - intros s (x & Hin & ->)%Hall. destruct (Hx x Hin) as [i Hi]. exists i, x. auto.
  - exists b. split; [done|]. rewrite Hlast. rewrite last_lookup in Hb.
    rewrite (Hpt _ _ Hb), (Hh _ _ Hb). do 2 f_equal. exact Htot.
Qed.
End chart.
