(* ===== verification/SelfMiner.v ===== *)
(** * SelfMiner: the mining thread of a node (crates/node/src/main.rs)

    [self_miner_loop] runs beside the RPC server and shares the node with it.  A round takes
    a template, searches a nonce and submits what it finds; what the other threads have made
    of the node by the time the search stands at a nonce is an argument of the round.  The
    theorems show when a round adds the pending transactions to the chain, and how a single
    pending transaction keeps every round from adding anything. *)

From S2P Require Export ApplyAtomic RpcProps.
From Stdlib Require Import Strings.Byte.

Local Open Scope Z_scope.

(** ** The loop *)

(** How the search for a nonce ended. *)
Inductive Hunt :=
| Found (hdr : BlockHeader)
| Stale (nonce : Z)
| Exhausted (nonce : Z).

(** What a round of the loop came to. *)
Inductive Turn :=
| Waiting
| Superseded
| Submitted (r : outcome NodeError unit)
| Searching
| Died.

(** The inputs of a round: the clock at its start, at its template and at its submission,
    the outcome of the disk write, the attempts it is followed for, and the node as the
    other threads have left it when the search stands at a nonce. *)
Record Round {St : Type} := {
  rd_now : Z;
  rd_block_ts : Z;
  rd_apply_now : Z;
  rd_io : option nat;
  rd_fuel : nat;
  rd_world : Z -> NodeState St -> NodeState St;
}.
Arguments Round : clear implicits.

Section self_miner.
Context {St : Type} `{StateStore St} `{HashPrims} `{SigPrims} `{StateCodecs} {CB : Cbor Block}.
Context (ft : Features).
Notation Node := (NodeState St).

(** The inner loop; [seen n] is the tip of the chain when the search stands at [n]. *)
Fixpoint hunt (fuel : nat) (target : bytes) (tip_height : Z) (seen : Z -> option Block)
    (hdr : BlockHeader) : Hunt :=
  match fuel with
  | O => Exhausted (bh_nonce hdr)
  | S fuel =>
      if meets_target (hash_header hdr) target then Found hdr
      else
        let nonce := wrapping_add 64 (bh_nonce hdr) 1 in
        let hdr := with_nonce hdr nonce in
        let stale := if Z.land nonce 0x1fffff =? 0
                     then match seen nonce with
                          | Some cur => tip_height <? bh_height (blk_header cur)
                          | None => false
                          end
                     else false in
        if stale then Stale nonce else hunt fuel target tip_height seen hdr
  end.

(** One round of the outer loop.  [Searching] is a round still under way after [rd_fuel]
    attempts, [Died] a panic of the thread. *)
Definition self_miner_turn (rd : Round St) (ns : Node) : Turn * Node :=
  if rd_now rd <? ns_genesis_time_ms ns then (Waiting, ns)
  else
    match tip (ns_store ns) with
    | None => (Waiting, ns)
    | Some tip_block =>
        match self_template (rd_block_ts rd) ns with
        | Ok (Some (hdr, body)) =>
            let target := target_from_bits (bh_bits hdr) in
            let world n := rd_world rd n ns in
            match hunt (rd_fuel rd) target (bh_height (blk_header tip_block))
                    (fun n => tip (ns_store (world n))) hdr with
            | Found hdr =>
                let '(r, ns) := try_apply_block ft (rd_apply_now rd) (rd_io rd)
                                  {| blk_header := hdr; blk_body := body |}
                                  (world (bh_nonce hdr)) in
                (Submitted r, ns)
            | Stale n => (Superseded, world n)
            | Exhausted n => (Searching, world n)
            end
        | _ => (Died, ns)
        end
    end.

(** The thread goes on to the next round unless it panicked or is still searching. *)
Definition goes_on (t : Turn) : bool :=
  match t with Died | Submitted Panic | Searching => false | _ => true end.

Fixpoint self_miner_loop (rounds : list (Round St)) (ns : Node) : list Turn * Node :=
  match rounds with
  | [] => ([], ns)
  | rd :: rounds =>
      let '(t, ns) := self_miner_turn rd ns in
      if goes_on t then
        let '(ts, ns) := self_miner_loop rounds ns in (t :: ts, ns)
      else ([t], ns)
  end.
End self_miner.

(** ** Laws of a round *)

Section laws.
Context {St : Type} `{StateStoreLaws St} `{HashPrims} `{SigPrims} `{StateCodecs} {CB : Cbor Block}.
Context (ft : Features).
Notation Node := (NodeState St).

(** A search ends where the plain nonce loop does, unless it has seen a higher tip before. *)
Lemma hunt_cases fuel target h0 seen hdr :
  match hunt fuel target h0 seen hdr with
  | Found hdr' => mine_loop fuel target hdr = Some hdr'
  | Stale n => exists cur, seen n = Some cur /\ h0 < bh_height (blk_header cur)
  | Exhausted _ => mine_loop fuel target hdr = None
  end.
Proof.
  revert hdr. induction fuel as [|fuel IH]; intros hdr; [done|]. cbn [mine_loop hunt].
  destruct (meets_target (hash_header hdr) target); [done|].
  destruct (Z.land _ _ =? 0); [|apply IH]. destruct (seen _) as [cur|] eqn:Es; [|apply IH].
  destruct (Z.ltb_spec h0 (bh_height (blk_header cur))); [|apply IH]. by exists cur.
Qed.

(** A search that sees no higher tip is the plain nonce loop. *)
Lemma hunt_undisturbed fuel target h0 seen hdr :
  (forall n cur, seen n = Some cur -> bh_height (blk_header cur) <= h0) ->
  match mine_loop fuel target hdr with
  | Some hdr' => hunt fuel target h0 seen hdr = Found hdr'
  | None => exists n, hunt fuel target h0 seen hdr = Exhausted n
  end.
Proof.
  intros Hseen. revert hdr. induction fuel as [|fuel IH]; intros hdr; [by eexists|].
  cbn [mine_loop hunt]. destruct (meets_target (hash_header hdr) target); [done|].
  destruct (Z.land _ _ =? 0); [|apply IH].
  destruct (seen _) as [cur|] eqn:Es; [|apply IH]. apply Hseen in Es.
  destruct (Z.ltb_spec h0 (bh_height (blk_header cur))); [lia|apply IH].
Qed.

(** The search only looks at the tips it sees. *)
Lemma hunt_ext fuel target h0 seen seen' hdr : (forall n, seen n = seen' n) ->
  hunt fuel target h0 seen hdr = hunt fuel target h0 seen' hdr.
Proof.
  intros Hs. revert hdr. induction fuel as [|fuel IH]; intros hdr; [done|]. cbn [hunt].
  by rewrite Hs, IH.
Qed.

Lemma self_template_fields block_ts (ns : Node) p hdr body : tip (ns_store ns) = Some p ->
  self_template block_ts ns = Ok (Some (hdr, body)) ->
  body = pending_body ns /\ bh_nonce hdr = 0 /\ bh_coinbase hdr = ns_coinbase ns /\
  bh_height hdr = wrapping_add 64 (bh_height (blk_header p)) 1.
Proof.
  unfold self_template. intros ->. rewrite outcome_bind_Ok. by intros (bits & _ & [= <- <-]).
Qed.

(** Submissions that arrive during the search touch the pool and nothing else. *)
Definition only_pool (rd : Round St) (mps : Z -> Mempool) (ns : Node) : Prop :=
  forall n, rd_world rd n ns = set_mempool (mps n) ns.

(** Another thread has put a block on top of [p]. *)
Definition overtaken (p : Block) (ns : Node) : Prop :=
  exists cur, tip (ns_store ns) = Some cur /\
    bh_height (blk_header p) < bh_height (blk_header cur) < 2 ^ 64.

(** The block of a round that was overtaken is refused, and the node is as it was. *)
Lemma overtaken_rejects now io (w : Node) p hdr body n : 0 <= bh_height (blk_header p) ->
  bh_height hdr = wrapping_add 64 (bh_height (blk_header p)) 1 -> overtaken p w ->
  exists e, try_apply_block ft now io (mined hdr body n) w = (Err e, w).
Proof.
  intros Hp Hh (cur & Ht & Hc).
  enough (exists e, check_block now w (mined hdr body n) = Err e) as [e He].
  { exists e. unfold try_apply_block, mbind, stm_bind. by rewrite He. }
  unfold check_block, parent_view. rewrite Ht. destruct (now <? _); [by eexists|].
  cbn [mined blk_header with_nonce bh_parent bh_height bh_timestamp_ms bh_bits].
  destruct (negb (bool_decide _)); [by eexists|]. rewrite Hh.
  destruct (Z.eqb_spec (wrapping_add 64 (bh_height (blk_header p)) 1)
    (wrapping_add 64 (bh_height (blk_header cur)) 1)) as [E|]; [exfalso|by eexists].
  unfold wrapping_add in E. rewrite (Z.mod_small (bh_height (blk_header p) + 1)) in E by lia.
  destruct (decide (bh_height (blk_header cur) + 1 < 2 ^ 64)) as [Hlt|Hge].
  - rewrite Z.mod_small in E by lia. lia.
  - replace (bh_height (blk_header cur) + 1) with (2 ^ 64) in E by lia.
    rewrite Z.mod_same in E by lia. lia.
Qed.

(** While only the pool changes, a round submits a header of its template or searches on. *)
Lemma self_miner_turn_cases rd mps (ns : Node) : only_pool rd mps ns ->
  (exists t, self_miner_turn ft rd ns = (t, ns) /\ (t = Waiting \/ t = Died)) \/
  (exists n, self_miner_turn ft rd ns = (Searching, set_mempool (mps n) ns)) \/
  (exists hdr r ns', self_miner_turn ft rd ns = (Submitted r, ns') /\
     try_apply_block ft (rd_apply_now rd) (rd_io rd)
       {| blk_header := hdr; blk_body := pending_body ns |}
       (set_mempool (mps (bh_nonce hdr)) ns) = (r, ns')).
Proof.
  intros Hw. unfold self_miner_turn.
  destruct (_ <? _); [left; eauto|]. destruct (tip (ns_store ns)) as [p|] eqn:Et; [|left; eauto].
  destruct (self_template (rd_block_ts rd) ns) as [[[hdr body]|]|e|] eqn:Es; [|left; eauto..].
  destruct (self_template_fields _ _ _ _ _ Et Es) as (-> & _).
  pose proof (hunt_undisturbed (rd_fuel rd) (target_from_bits (bh_bits hdr))
    (bh_height (blk_header p)) (fun n => tip (ns_store (rd_world rd n ns))) hdr) as Hh.
  destruct (mine_loop _ _ hdr) as [hdr'|].
  - rewrite Hh; [|intros n cur; rewrite Hw; cbn; rewrite Et; intros [= ->]; lia].
    right. right. exists hdr'. rewrite Hw. destruct (try_apply_block _ _ _ _ _) as [r ns'].
    by exists r, ns'.
  - destruct Hh as (n & ->); [intros n cur; rewrite Hw; cbn; rewrite Et; intros [= ->]; lia|].
    right. left. exists n. by rewrite Hw.
Qed.

(** ** A round that adds the pending transactions *)

(** A pending transfer its sender signed for its next nonce and can pay. *)
Definition payable (s : St) (t : PendingTx) : Prop :=
  exists to amount pk, tx_call (pt_body t) = Transfer to amount /\
    authenticated ft s (pt_body t) (pt_witness t) pk /\
    amount + tx_fee_sat (pt_body t) <= balance s (tx_from_account (pt_body t)).

Lemma validates_payable i (s : St) t to amount : tx_call (pt_body t) = Transfer to amount ->
  is_ok (validate_tx ft i s (pt_body t) (pt_witness t)) = true -> payable s t.
Proof.
  intros Ec Hv. destruct (validate_tx ft i s (pt_body t) (pt_witness t)) as [st|e|] eqn:E; [|done..].
  apply validate_tx_Ok in E as (pk & _ & Ha & _ & Hb & _). exists to, amount, pk.
  split_and!; [done|done|]. unfold call_amount in Hb. by rewrite Ec in Hb.
Qed.

Lemma payable_staged (s : St) (done todo : list PendingTx) :
  Forall (payable s) todo ->
  Forall (fun t => tx_witness_hash (pt_body t) = witness_hash (pt_witness t)) todo ->
  exists staged, staged_for ft s (pt_witness <$> (done ++ todo)) (length done)
                   (pt_body <$> todo) staged.
Proof.
  intros Hp. revert done. induction Hp as [|t todo (to & amount & pk & Ec & Ha & Hb) _ IH];
    intros done Hw; [by exists []|].
  apply Forall_cons in Hw as [Hw HW]. destruct (IH (done ++ [t]) HW) as [staged Hs].
  rewrite <- app_assoc, length_app, Nat.add_1_r in Hs. cbn [app] in Hs.
  exists (stage (length done) s (pt_body t) (pt_witness t) pk :: staged). split; [|exact Hs].
  exists (pt_witness t), pk. split_and!; try done.
  - rewrite fmap_app, lookup_app_r by (by rewrite length_fmap). by rewrite length_fmap, Nat.sub_diag.
  - unfold call_supported. by rewrite Ec.
  - unfold call_amount. by rewrite Ec.
Qed.

Notation pulled ns := (pull_for_block 256 (ns_mempool ns)) (only parsing).

(** What a round needs: a working disk, a chain and a clock in order, pending transfers their
    senders can pay, at most one each, coin that fits 128 bits and touches only [ids], and a
    nonce at most [k] that meets the target, within the attempts of the round.  When the
    search stands at a nonce, the other threads have changed the pool or put a block on top
    of the tip. *)
Record can_mine (rd : Round St) (mps : Z -> Mempool) (ns : Node) (bs : list Block) (p : Block)
    (hdr : BlockHeader) (ids : list AccountId) (k : nat) : Prop := {
  cm_chain : node_ok ns bs;
  cm_room : Z.of_nat (length bs) < 2 ^ 64 - 2;
  cm_tip : last bs = Some p;
  cm_emission : typed (ns_emission ns) = true;
  cm_pool : mempool_ok (ns_mempool ns);
  cm_world : forall n, rd_world rd n ns = set_mempool (mps n) ns \/ overtaken p (rd_world rd n ns);
  cm_disk : rd_io rd = None;
  cm_started : ns_genesis_time_ms ns <= rd_now rd;
  cm_open : ns_genesis_time_ms ns <= rd_apply_now rd;
  cm_clock : bh_timestamp_ms (blk_header p) <= rd_block_ts rd <=
               wrapping_add 64 (rd_apply_now rd) FUTURE_TIME_TOLERANCE_MS;
  cm_template : self_template (rd_block_ts rd) ns = Ok (Some (hdr, pending_body ns));
  cm_payable : Forall (payable (ns_state ns)) (pulled ns);
  cm_senders : NoDup (tx_from_account ∘ pt_body <$> pulled ns);
  cm_covers : covers (mined hdr (pending_body ns) 0) ids;
  cm_coin : forall reward, block_reward ns hdr = Ok reward ->
              total_balance (ns_state ns) ids + reward <= u_max 128;
  cm_storable : forall j, (j <= k)%nat ->
                  storable (mined hdr (pending_body ns) (Z.of_nat j)) = true;
  cm_nonce : meets_target (hash_header (with_nonce hdr (Z.of_nat k)))
               (target_from_bits (bh_bits hdr)) = true;
  cm_width : Z.of_nat k < 2 ^ 64;
  cm_fuel : (k < rd_fuel rd)%nat;
}.

(** The search finds the first nonce that meets the target, unless it is overtaken. *)
Lemma hunt_first fuel h0 seen hdr k :
  bh_nonce hdr = 0 -> (k < fuel)%nat -> Z.of_nat k < 2 ^ 64 ->
  meets_target (hash_header (with_nonce hdr (Z.of_nat k))) (target_from_bits (bh_bits hdr)) = true ->
  match hunt fuel (target_from_bits (bh_bits hdr)) h0 seen hdr with
  | Found hdr' => exists j, (j <= k)%nat /\ hdr' = with_nonce hdr (Z.of_nat j) /\
      meets_target (hash_header hdr') (target_from_bits (bh_bits hdr)) = true
  | Stale n => exists cur, seen n = Some cur /\ h0 < bh_height (blk_header cur)
  | Exhausted _ => False
  end.
Proof.
  intros H0' Hk Hw Hm.
  assert (forall j, (j <= k)%nat -> attempt hdr j = with_nonce hdr (Z.of_nat j)) as Ha.
  { intros j Hj. unfold attempt. by rewrite H0', wrapping_add_small by lia. }
  destruct (mine_loop_first fuel (target_from_bits (bh_bits hdr)) hdr k) as (j & Hj & Hl & Hmj & _);
    [unfold in_u; lia|done|by rewrite Ha|]. rewrite Ha in Hl, Hmj by done.
  pose proof (hunt_cases fuel (target_from_bits (bh_bits hdr)) h0 seen hdr) as Hh. rewrite Hl in Hh.
  destruct (hunt _ _ _ _ hdr) as [hdr'|n|n]; [|done|done]. injection Hh as <-. by exists j.
Qed.

Lemma sum_fees_bound txs : forallb typed txs = true ->
  sum_fees txs <= Z.of_nat (length txs) * 2 ^ 64.
Proof.
  induction txs as [|tx txs IH]; [done|]. cbn [forallb]. intros [Ht Hl]%andb_true_iff.
  rewrite sum_fees_cons. specialize (IH Hl). cbn [length].
  unfold typed, typed_TxBody in Ht. rewrite !andb_true_iff, !in_ub_spec in Ht.
  destruct_and!. unfold in_u in *. lia.
Qed.

(** The ledger takes the block of the template. *)
Lemma pending_block_applies rd mps (ns : Node) bs p hdr ids k j reward :
  can_mine rd mps ns bs p hdr ids k -> (j <= k)%nat -> block_reward ns hdr = Ok reward -> 0 <= reward ->
  exists out s, apply_block ft (mined hdr (pending_body ns) (Z.of_nat j)) reward (ns_state ns) = (Ok out, s).
Proof.
  intros C Hj Hr Hpos. set (b := mined hdr (pending_body ns) (Z.of_nat j)).
  pose proof (cm_storable _ _ _ _ _ _ _ _ C j Hj) as Hst. fold b in Hst.
  unfold storable in Hst. apply andb_true_iff in Hst as [Htb _].
  pose proof Htb as Htx. unfold typed, typed_Block, typed at 2, typed_BlockBody in Htx.
  rewrite !andb_true_iff in Htx. destruct Htx as [_ [Htx _]].
  pose proof (typed_fees _ Htx) as Hf.
  assert (length (pulled ns) <= 256)%nat as Hlen by (unfold pull_for_block; rewrite length_take; lia).
  destruct (payable_staged (ns_state ns) [] (pulled ns)) as [staged Hs].
  { apply C. }
  { apply Forall_elem. intros t Ht. destruct (pull_for_block_best 256 _ (cm_pool _ _ _ _ _ _ _ _ C))
      as (_ & _ & _ & Hin & _). apply Hin in Ht.
    by apply (proj1 (cm_pool _ _ _ _ _ _ _ _ C)) in Ht as [_ ?]. }
  assert (sum_fees (body_txs (blk_body b)) <= u_max 128) as Hsum.
  { pose proof (sum_fees_bound _ Htx) as Hb.
    cbn [b mined blk_body pending_body body_txs] in *.
    rewrite length_fmap in Hb. unfold u_max. nia. }
  destruct (transfer_block_applies ft b reward (ns_state ns) ids (0 + sum_fees (body_txs (blk_body b))) staged)
    as (out & s & Ha & _); try done.
  - cbn [b mined blk_body pending_body body_txs]. rewrite length_fmap. lia.
  - cbn [b mined blk_body pending_body body_txs]. apply Forall_fmap.
    eapply Forall_impl; [apply C|]. intros t (to & amount & pk & Ec & _). cbn. eauto.
  - cbn [b mined blk_body pending_body body_txs]. rewrite <- list_fmap_compose. apply C.
  - apply (cm_covers _ _ _ _ _ _ _ _ C).
  - by apply (cm_coin _ _ _ _ _ _ _ _ C).
  - apply pass1_complete; [done|lia|exact Hs].
  - by exists out, s.
Qed.

(** ** A tip from the future *)

(** The rules let a block be stamped up to two hours ahead of the clock.  Until the clock
    reaches the tip's timestamp every block the self-miner finds is rejected. *)
Lemma future_tip_stalls_mining (ns : Node) p block_ts now io hdr body nonce :
  tip (ns_store ns) = Some p -> block_ts < bh_timestamp_ms (blk_header p) ->
  ns_genesis_time_ms ns <= now -> self_template block_ts ns = Ok (Some (hdr, body)) ->
  try_apply_block ft now io (mined hdr body nonce) ns =
    (Err (NonMonotonicTimestamp block_ts (bh_timestamp_ms (blk_header p))), ns).
Proof.
  intros Ht Hts Hg Hs. unfold try_apply_block, mbind, stm_bind.
  rewrite (self_template_check _ _ _ _ _ _ nonce Ht Hs Hg). cbv zeta.
  by rewrite (proj2 (Z.ltb_lt _ _)).
Qed.

(** ** A pending transaction that stops all mining *)

(** [t] is pending for another nonce than its sender's next, in a pool that one template
    can hold. *)
Definition stuck (ns : Node) (t : PendingTx) : Prop :=
  mempool_ok (ns_mempool ns) /\ (size (mp_inner (ns_mempool ns)) <= 256)%nat /\
  mp_inner (ns_mempool ns) !! body_hash (pt_body t) = Some t /\
  tx_nonce (pt_body t) <> nonce (ns_state ns) (tx_from_account (pt_body t)).

(** While the round runs clients may add to the pool, as long as one template can hold it. *)
Definition idle (rd : Round St) : Prop := exists f : Z -> Mempool -> Mempool,
  (forall n ns, rd_world rd n ns = set_mempool (f n (ns_mempool ns)) ns) /\
  forall n mp, mempool_ok mp -> (size (mp_inner mp) <= 256)%nat ->
    mempool_ok (f n mp) /\ mp_inner mp ⊆ mp_inner (f n mp) /\ (size (mp_inner (f n mp)) <= 256)%nat.

Lemma all_pulled mp t : mempool_ok mp -> (size (mp_inner mp) <= 256)%nat ->
  mp_inner mp !! body_hash (pt_body t) = Some t -> t ∈ pull_for_block 256 mp.
Proof.
  intros Hok Hsz Ht. unfold pull_for_block. rewrite take_ge.
  - rewrite merge_sort_Permutation. apply list_elem_of_fmap.
    exists (body_hash (pt_body t), t). by rewrite elem_of_entries.
  - rewrite (Permutation_length (merge_sort_Permutation _ _)), length_fmap, (Permutation_length (entries_perm _)).
    by rewrite length_map_to_list.
Qed.

Lemma stuck_pass1 (ns : Node) t : stuck ns t -> exists e,
  pass1 ft (ns_state ns) (body_witnesses (pending_body ns)) 0 0 (body_txs (pending_body ns)) = Err e.
Proof.
  intros (Hok & Hsz & Ht & Hn). pose proof (all_pulled _ t Hok Hsz Ht) as Hin.
  pose proof (pass1_no_panic ft (ns_state ns) (body_witnesses (pending_body ns)) 0 0
    (body_txs (pending_body ns))) as Hp.
  destruct (pass1 _ _ _ _ _ _) as [[fees staged]|e|] eqn:E; [exfalso|by exists e|by destruct Hp].
  apply pass1_Ok in E as (_ & Hs & _). apply (list_elem_of_fmap_2 pt_body) in Hin.
  apply list_elem_of_lookup in Hin as (k & Hk).
  destruct (staged_for_lookup _ _ _ _ _ _ _ _ Hs Hk) as (w & pk & _ & _ & _ & (_ & _ & Ha) & _).
  done.
Qed.

(** The block of the template is rejected, and the node is as it was. *)
Lemma stuck_rejects now io (ns : Node) t mp b r ns' : stuck ns t -> blk_body b = pending_body ns ->
  try_apply_block ft now io b (set_mempool mp ns) = (r, ns') -> r <> Ok tt /\ ns' = set_mempool mp ns.
Proof.
  intros Hst Hb. destruct (stuck_pass1 ns t Hst) as [e He]. rewrite <- Hb in He.
  unfold try_apply_block. unfold mbind at 1, stm_bind at 1.
  destruct (check_block now (set_mempool mp ns) b) as [[]|e'|]; [|by intros [= <- <-]..].
  unfold commit_block, on_state, mbind, stm_bind, read_st, modify_st.
  destruct (block_reward (set_mempool mp ns) (blk_header b)) as [reward|e'|]; [|by intros [= <- <-]..].
  change (ns_state (set_mempool mp ns)) with (ns_state ns).
  rewrite (pass1_Err_atomic ft b reward (ns_state ns) e He). by intros [= <- <-].
Qed.

Lemma stuck_turn rd (ns : Node) t : stuck ns t -> idle rd ->
  let '(turn, ns') := self_miner_turn ft rd ns in
  turn <> Submitted (Ok tt) /\ exists mp, ns' = set_mempool mp ns /\ stuck (set_mempool mp ns) t.
Proof.
  intros Hst (f & Hw & Hf). pose proof Hst as (Hok & Hsz & Ht & Hn).
  assert (forall n, stuck (set_mempool (f n (ns_mempool ns)) ns) t) as Hkeep.
  { intros n. destruct (Hf n _ Hok Hsz) as (H1' & H2' & H3'). split; [exact H1'|].
    split; [exact H3'|]. split; [by eapply lookup_weaken|exact Hn]. }
  assert (set_mempool (ns_mempool ns) ns = ns) as Hself by by destruct ns.
  destruct (self_miner_turn_cases rd (fun n => f n (ns_mempool ns)) ns (fun n => Hw n ns))
    as [(turn & -> & Hc)|[(n & ->)|(hdr & r & ns' & -> & Hr)]].
  - split; [by destruct Hc as [-> | ->]|]. exists (ns_mempool ns). by rewrite Hself.
  - split; [done|]. eexists. split; [reflexivity|apply Hkeep].
  - apply (stuck_rejects _ _ _ t) in Hr as [Hr ->]; [|done|done].
    split; [congruence|]. eexists. split; [reflexivity|apply Hkeep].
Qed.

(** Rounds that each keep an invariant and fail to mine do so one after the other. *)
Lemma blocked_loop (P : Round St -> Prop) (I : Node -> Prop) rounds (ns : Node) :
  (forall rd ns, P rd -> I ns ->
     let '(turn, ns') := self_miner_turn ft rd ns in turn <> Submitted (Ok tt) /\ I ns') ->
  I ns -> Forall P rounds ->
  let '(turns, ns') := self_miner_loop ft rounds ns in
  Forall (fun turn => turn <> Submitted (Ok tt)) turns /\ I ns'.
Proof.
  intros Hstep Hi Hr. revert ns Hi. induction Hr as [|rd rounds Hp _ IH]; intros ns Hi; [done|].
  cbn [self_miner_loop]. pose proof (Hstep rd ns Hp Hi) as Ht.
  destruct (self_miner_turn ft rd ns) as [turn ns1]. destruct Ht as (Hne & Hi1).
  destruct (goes_on turn); [|by split; [constructor|]].
  specialize (IH _ Hi1). destruct (self_miner_loop ft rounds _) as [turns ns2].
  destruct IH as (Hall & Hi2). split; [by constructor|done].
Qed.

Lemma stuck_loop rounds (ns : Node) t : stuck ns t -> Forall idle rounds ->
  let '(turns, ns') := self_miner_loop ft rounds ns in
  Forall (fun turn => turn <> Submitted (Ok tt)) turns /\
  exists mp, ns' = set_mempool mp ns /\ stuck (set_mempool mp ns) t.
Proof.
  intros Hst Hr.
  apply (blocked_loop idle (fun ns' => exists mp, ns' = set_mempool mp ns /\ stuck (set_mempool mp ns) t));
    [|exists (ns_mempool ns); by destruct ns|exact Hr].
  intros rd ns1 Hi (mp & -> & Hst1). pose proof (stuck_turn rd _ t Hst1 Hi) as Ht.
  destruct (self_miner_turn ft rd _) as [turn ns2]. destruct Ht as (Hne & mp2 & -> & Hst2).
  split; [done|]. by exists mp2.
Qed.

(** ** Properties *)

(** A round that has mined: the chain has grown by [b], the ledger has applied it with its
    scheduled reward, and the transactions that were pending are no more. *)
Definition has_mined (ns : Node) (bs : list Block) (b : Block) (ns' : Node) : Prop :=
  node_ok ns' (bs ++ [b]) /\ tip (ns_store ns') = Some b /\
  (exists reward out, block_reward ns (blk_header b) = Ok reward /\
     apply_block ft b reward (ns_state ns) = (Ok out, ns_state ns')) /\
  forall t, t ∈ pulled ns -> mp_inner (ns_mempool ns') !! body_hash (pt_body t) = None.

Lemma own_block_lands rd mps (ns : Node) bs p hdr ids k j mp :
  can_mine rd mps ns bs p hdr ids k -> tip (ns_store ns) = Some p -> (j <= k)%nat ->
  meets_target (hash_header (with_nonce hdr (Z.of_nat j))) (target_from_bits (bh_bits hdr)) = true ->
  let b := mined hdr (pending_body ns) (Z.of_nat j) in
  exists ns', try_apply_block ft (rd_apply_now rd) (rd_io rd) b (set_mempool mp ns) = (Ok tt, ns') /\
    has_mined ns bs b ns'.
Proof.
  intros C Ht Hj Hm b. set (ns1 := set_mempool mp ns).
  assert (check_block (rd_apply_now rd) ns b = Ok tt) as Hc
    by (eapply self_template_checked; [exact Ht|apply C|exact Hm|apply C|apply C]).
  pose proof (proj1 (check_block_Ok _ _ _ _ Ht) Hc) as (_ & _ & Hl).
  destruct (current_reward_with_height_Ok (E:=NodeError) (ns_emission ns)
    (cm_emission _ _ _ _ _ _ _ _ C) (ns_genesis_time_ms ns) (bh_timestamp_ms hdr)
    (bh_timestamp_ms (blk_header p)) (ns_minted_so_far ns) (bh_height hdr)
    (ns_prev_reward_sat ns)) as (reward & Hr & Hpos & _).
  assert (block_reward ns hdr = Ok reward) as Hrew by (unfold block_reward; rewrite Ht; exact Hr).
  destruct (pending_block_applies _ _ _ _ _ _ _ _ _ _ C Hj Hrew Hpos) as (out & s & Ha).
  destruct (commit_extends ns1 bs p b reward s) as (cs & Happ & Hok);
    [apply node_ok_pool, C|apply C|exact Hl|by apply C|apply C|].
  exists (committed b reward s cs ns1). split; [|split; [exact Hok|split_and!]].
  - rewrite (cm_disk _ _ _ _ _ _ _ _ C). unfold try_apply_block. unfold mbind at 1, stm_bind at 1.
    change (check_block (rd_apply_now rd) ns1 b) with (check_block (rd_apply_now rd) ns b).
    by rewrite Hc, (commit_block_Ok ft b ns1 reward out s cs).
  - destruct Hok as ((_ & Htip & _) & _ & _). unfold tip. by rewrite Htip, last_snoc.
  - by exists reward, out.
  - intros t Hin. unfold committed, set_store, set_mempool. cbn [ns_mempool].
    rewrite confirm_lookup, decide_True; [done|].
    cbn [b mined blk_body pending_body body_txs]. rewrite <- list_fmap_compose.
    by apply (list_elem_of_fmap_2 (body_hash ∘ pt_body)).
Qed.

(** C24: One transaction stops the mining.  The pool takes a transaction without looking at its
    nonce, and nothing but its confirmation in a block or an eviction removes it.  Once any
    client has submitted a transaction whose nonce is not its sender's next one, every
    block with the body of the node's template is rejected with the node unchanged; and as
    long as the other threads do nothing but add transactions to the pool, and the pool fits
    one template, no round of the self-miner adds a block, however many it runs and whatever
    nonces it finds, and the transaction stays pending.  (A block that a client makes by
    itself, without that transaction, can still be accepted, and once such blocks have
    moved the sender's nonce up to it, the transaction is valid.) *)
Theorem invalid_tx_stalls_mining (ns : Node) now body w rounds :
  mempool_ok (ns_mempool ns) ->
  (size (mp_inner (ns_mempool ns)) < mp_cap (ns_mempool ns))%nat ->
  (size (mp_inner (ns_mempool ns)) < 256)%nat ->
  tx_witness_hash body = witness_hash w ->
  mp_inner (ns_mempool ns) !! body_hash body = None ->
  tx_nonce body <> nonce (ns_state ns) (tx_from_account body) ->
  Forall idle rounds ->
  let '(r, mp) := submit now body w (ns_mempool ns) in
  let ns1 := set_mempool mp ns in
  r = Ok (body_hash body) /\
  (forall now' io b, blk_body b = pending_body ns1 ->
     let '(r', ns2) := try_apply_block ft now' io b ns1 in r' <> Ok tt /\ ns2 = ns1) /\
  let '(turns, ns2) := self_miner_loop ft rounds ns1 in
  Forall (fun turn => turn <> Submitted (Ok tt)) turns /\
  exists mp2, ns2 = set_mempool mp2 ns1 /\ is_Some (mp_inner mp2 !! body_hash body).
Proof.
  intros Hok Hcap Hsz Hw Hd Hn Hr. pose proof (submit_ok now body w _ Hok) as Hok1. revert Hok1.
  unfold submit. rewrite bool_decide_eq_true_2 by done. cbn [negb].
  rewrite bool_decide_eq_false_2 by (rewrite Hd; by intros []).
  rewrite (proj2 (Nat.leb_gt _ _)) by done. cbn [snd]. intros Hok1.
  set (t := {| pt_body := body; pt_witness := w; pt_received_ms := now |}) in *.
  set (mp := {| mp_inner := <[body_hash body := t]> (mp_inner (ns_mempool ns)); mp_cap := _ |}) in *.
  assert (stuck (set_mempool mp ns) t) as Hst.
  { split; [exact Hok1|]. split; [|split; [apply lookup_insert_eq|exact Hn]].
    cbn. rewrite map_size_insert, Hd. cbn. unfold Datatypes.id. lia. }
  split; [done|]. split.
  - intros now' io b Hb. pose proof (stuck_rejects now' io (set_mempool mp ns) t mp b) as Hrej.
    change (set_mempool mp (set_mempool mp ns)) with (set_mempool mp ns) in Hrej.
    destruct (try_apply_block ft now' io b (set_mempool mp ns)) as [r' ns2]. by apply Hrej.
  - pose proof (stuck_loop rounds _ t Hst Hr) as Hl.
    destruct (self_miner_loop ft rounds _) as [turns ns2]. destruct Hl as (Hall & mp2 & -> & Hst2).
    split; [exact Hall|]. exists mp2. split; [done|]. destruct Hst2 as (_ & _ & Hin & _). by exists t.
Qed.
End laws.
