(* ===== verification/Serve.v ===== *)
(** * Serve: the JSON-RPC endpoint (crates/node/src/rpc.rs)

    The derived serializers and deserializers of the request and response structs as
    functions to and from JSON values, [dispatch] over the handlers of [Rpc], and the routes
    of [serve].  A request is its method, its path, the length of its body and what the
    parser makes of it.  The texts of errors are parameters. *)

From S2P Require Export Json NodeProps Metrics.

Local Open Scope Z_scope.

(** ** Requests *)

Section requests.
Context `{Json}.

Definition read_header_json (v : Value) : option HeaderJson :=
  fs ← struct_fields ["version"; "height"; "parent"; "timestamp_ms"; "bits"; "nonce"; "tx_root";
                      "witness_root"; "state_root"; "reflect_root"; "coinbase"; "sig_algo";
                      "hash_algo"] v;
  match fs with
  | [ver; he; pa; ts; bi; no; tr; wr; sr; rr; co; sa; ha] =>
      ver ← required (read_u 32) ver; he ← required (read_u 64) he; pa ← required as_str pa;
      ts ← required (read_u 64) ts; bi ← required (read_u 32) bi; no ← required (read_u 64) no;
      tr ← required as_str tr; wr ← required as_str wr; sr ← required as_str sr;
      rr ← required as_str rr; co ← required as_str co; sa ← required (read_u 8) sa;
      ha ← required (read_u 8) ha;
      Some {| hj_version := ver; hj_height := he; hj_parent := pa; hj_timestamp_ms := ts;
              hj_bits := bi; hj_nonce := no; hj_tx_root := tr; hj_witness_root := wr;
              hj_state_root := sr; hj_reflect_root := rr; hj_coinbase := co;
              hj_sig_algo := sa; hj_hash_algo := ha |}
  | _ => None
  end.

Definition read_submit_req (v : Value) : option SubmitReq :=
  fs ← struct_fields ["header"; "txs_cbor_hex"; "witnesses_cbor_hex"] v;
  match fs with
  | [h; txs; wits] =>
      h ← required read_header_json h;
      txs ← defaulted [] read_strings txs;
      wits ← defaulted [] read_strings wits;
      Some {| sr_header := h; sr_txs_cbor_hex := txs; sr_witnesses_cbor_hex := wits |}
  | _ => None
  end.

(** [ListReq], [GetBlockReq], [AddrReq], [EmissionSeriesReq] are their fields. *)
Definition read_list_req (v : Value) : option nat :=
  fs ← struct_fields ["limit"] v;
  match fs with [l] => defaulted default_list_limit read_usize l | _ => None end.

Definition read_get_block_req (v : Value) : option Z :=
  fs ← struct_fields ["height"] v;
  match fs with [h] => required (read_u 64) h | _ => None end.

Definition read_addr_req (v : Value) : option string :=
  fs ← struct_fields ["address"] v;
  match fs with [a] => required as_str a | _ => None end.

Definition read_emission_series_req (v : Value) : option (Z * nat) :=
  fs ← struct_fields ["window_seconds"; "points"] v;
  match fs with
  | [w; p] =>
      w ← required (read_u 64) w;
      p ← defaulted default_emission_points read_usize p;
      Some (w, p)
  | _ => None
  end.

Definition read_submit_tx_req (v : Value) : option SubmitTxReq :=
  fs ← struct_fields ["tx_cbor_hex"; "witness_cbor_hex"] v;
  match fs with
  | [t; w] =>
      t ← required as_str t; w ← required as_str w;
      Some {| st_tx_cbor_hex := t; st_witness_cbor_hex := w |}
  | _ => None
  end.

Definition read_submit_transfer_req (v : Value) : option SubmitTransferReq :=
  fs ← struct_fields ["from_address"; "to_address"; "amount_sat"; "fee_sat"; "nonce";
                      "pubkey_hex"; "sig_hex"] v;
  match fs with
  | [fr; t; am; fee; no; pk; sg] =>
      fr ← required as_str fr; t ← required as_str t; am ← required (read_u 128) am;
      fee ← required (read_u 64) fee; no ← required (read_u 64) no; pk ← required as_str pk;
      sg ← required as_str sg;
      Some {| str_from_address := fr; str_to_address := t; str_amount_sat := am;
              str_fee_sat := fee; str_nonce := no; str_pubkey_hex := pk; str_sig_hex := sg |}
  | _ => None
  end.

(** [RpcReq]: the method and the parameters, null by default. *)
Definition read_rpc_req (v : Value) : option (string * Value) :=
  fs ← struct_fields ["method"; "params"] v;
  match fs with
  | [m; p] => m ← required as_str m; Some (m, default jnull p)
  | _ => None
  end.

(** ** Responses *)

Definition header_json_value (j : HeaderJson) : Value :=
  jobj [("version", jint (hj_version j)); ("height", jint (hj_height j));
        ("parent", jstr (hj_parent j)); ("timestamp_ms", jint (hj_timestamp_ms j));
        ("bits", jint (hj_bits j)); ("nonce", jint (hj_nonce j));
        ("tx_root", jstr (hj_tx_root j)); ("witness_root", jstr (hj_witness_root j));
        ("state_root", jstr (hj_state_root j)); ("reflect_root", jstr (hj_reflect_root j));
        ("coinbase", jstr (hj_coinbase j)); ("sig_algo", jint (hj_sig_algo j));
        ("hash_algo", jint (hj_hash_algo j))]%string.

Definition info_value (r : InfoResp) : Value :=
  jobj [("chain_id", jstr (inf_chain_id r)); ("height", jint (inf_height r));
        ("tip_hash", jstr (inf_tip_hash r)); ("bits", jint (inf_bits r));
        ("target", jstr (inf_target r)); ("sig_algo", jint (inf_sig_algo r));
        ("hash_algo", jint (inf_hash_algo r)); ("genesis_time_ms", jint (inf_genesis_time_ms r));
        ("genesis_offset_ms", jint (inf_genesis_offset_ms r));
        ("mempool_size", jint (Z.of_nat (inf_mempool_size r)));
        ("block_reward_sat", jint (inf_block_reward_sat r))]%string.

Definition template_value (r : TemplateResp) : Value :=
  jobj [("header", header_json_value (tr_header r)); ("target", jstr (tr_target r));
        ("txs_cbor_hex", jarr (jstr <$> tr_txs_cbor_hex r));
        ("witnesses_cbor_hex", jarr (jstr <$> tr_witnesses_cbor_hex r))]%string.

Definition submit_value (r : SubmitResp) : Value :=
  jobj [("ok", jbool (srr_ok r)); ("height", jint (srr_height r)); ("hash", jstr (srr_hash r))]%string.

Definition submit_tx_value (r : SubmitTxResp) : Value :=
  jobj [("ok", jbool (stx_ok r)); ("tx_hash", jstr (stx_tx_hash r))]%string.

Definition summary_value (s : BlockSummary) : Value :=
  jobj [("height", jint (bs_height s)); ("hash", jstr (bs_hash s));
        ("timestamp_ms", jint (bs_timestamp_ms s)); ("nonce", jint (bs_nonce s));
        ("tx_count", jint (Z.of_nat (bs_tx_count s)))]%string.

(** An address that [to_bech32] cannot print is a panic, here [None]. *)
Definition tx_summary_value (t : TxSummary) : option Value :=
  from ← ts_from t; to ← ts_to t;
  Some (jobj [("hash", jstr (ts_hash t)); ("from", jstr from); ("to", jstr to);
              ("amount_sat", jint (ts_amount_sat t)); ("fee_sat", jint (ts_fee_sat t));
              ("nonce", jint (ts_nonce t))]%string).

Definition detail_value (d : BlockDetail) : option Value :=
  txs ← mapM tx_summary_value (bd_txs d);
  Some (jobj [("hash", jstr (bd_hash d)); ("tx_count", jint (Z.of_nat (bd_tx_count d)));
              ("header", header_json_value (bd_header d)); ("txs", jarr txs)]%string).

Definition balance_value (r : BalanceResp) : Value :=
  jobj [("address", jstr (bal_address r)); ("balance_sat", jint (bal_balance_sat r));
        ("nonce", jint (bal_nonce r))]%string.

Definition account_value (r : AccountResp) : Value :=
  jobj [("address", jstr (ar_address r)); ("balance_sat", jint (ar_balance_sat r));
        ("nonce", jint (ar_nonce r)); ("has_pubkey", jbool (ar_has_pubkey r));
        ("sig_algo", jint (ar_sig_algo r))]%string.

Definition point_value (p : EmissionPoint) : Value :=
  jobj [("height", jint (ep_height p)); ("timestamp_ms", jint (ep_timestamp_ms p));
        ("minted_sat", jint (ep_minted_sat p))]%string.

Definition series_value (r : EmissionSeriesResp) : Value :=
  jobj [("samples", jarr (point_value <$> es_samples r));
        ("genesis_time_ms", jint (es_genesis_time_ms r));
        ("block_reward_sat", jint (es_block_reward_sat r));
        ("target_block_time_ms", jint (es_target_block_time_ms r));
        ("halving_interval_base", jint (es_halving_interval_base r))]%string.
End requests.

(** ** Answers *)

(** JSON, or a text with its content type. *)
Inductive HttpBody `{Json} := BodyJson (v : Value) | BodyText (content_type text : string).
Record HttpResp `{Json} := { hr_status : Z; hr_body : HttpBody }.

Inductive HttpMethod := Post | GetMethod | OtherMethod.
#[export] Instance HttpMethod_eq_dec : EqDecision HttpMethod.
Proof. solve_decision. Defined.

(** [rq_json] is what the parser makes of the body, [None] when it is not JSON. *)
Record HttpReq `{Json} := {
  rq_method : HttpMethod; rq_url : string; rq_len : Z; rq_json : option Value;
}.

(** The texts of errors, and of the build. *)
Class ErrorTexts `{Json} := {
  build_texts :: BuildTexts;
  rpc_error_text : RpcError -> string;
  serde_error_text : option Value -> string;
}.

Definition MAX_RPC_BODY_BYTES : Z := 64 * 1024.

Section serve.
Context {St : Type} `{StateStore St} `{HashPrims} `{SigPrims} `{StateCodecs} {CB : Cbor Block}
  {CT : Cbor TxBody} {CW : Cbor Witness} `{Hex} `{Bech32} `{ErrorTexts}.
Context (ft : Features).
Notation Node := (NodeState St).
(** A response, or a panic of the server's thread. *)
Notation handler := (stm Node Empty_set HttpResp).

Definition json_ok (code : Z) (body : Value) : HttpResp :=
  {| hr_status := code; hr_body := BodyJson body |}.
Definition json_err (code : Z) (msg : string) : HttpResp :=
  json_ok code (jobj [("error"%string, jstr msg)]).
Definition html_ok (body : string) : HttpResp :=
  {| hr_status := 200; hr_body := BodyText "text/html; charset=utf-8" body |}.
Definition metrics_ok (now : Z) (ns : Node) : HttpResp :=
  {| hr_status := 200;
     hr_body := BodyText "text/plain; version=0.0.4; charset=utf-8" (prometheus_metrics now ns) |}.
Definition rpc_ok (result : Value) : HttpResp := json_ok 200 (jobj [("result"%string, result)]).

(** The two arms of a handler's result. *)
Definition answer {A} (code : Z) (value : A -> Value) (m : stm Node RpcError A) : handler :=
  fun ns =>
    match m ns with
    | (Ok a, ns) => (Ok (rpc_ok (value a)), ns)
    | (Err e, ns) => (Ok (json_err code (rpc_error_text e)), ns)
    | (Panic, ns) => (Panic, ns)
    end.

Definition query {A} (f : Node -> outcome RpcError A) : stm Node RpcError A :=
  fun ns => (f ns, ns).

(** [serde_json::from_value(params)] before a handler. *)
Definition with_params {R} (read : Value -> option R) (params : Value) (k : R -> handler)
    : handler :=
  match read params with
  | Some req => k req
  | None => mret (json_err 400 ("bad params: " +:+ serde_error_text (Some params)))
  end.

Definition mempool_value (ns : Node) : Value :=
  jobj [("size", jint (Z.of_nat (mp_len (ns_mempool ns))));
        ("hashes", jarr ((fun h => jstr (hex_encode h)) <$> pending_hashes (ns_mempool ns)))]%string.

Definition serve_get_block (height : Z) : handler := fun ns =>
  match get_block ns height with
  | Ok (Some d) =>
      match detail_value d with Some v => (Ok (rpc_ok v), ns) | None => (Panic, ns) end
  | Ok None => (Ok (json_err 404 "block not found"), ns)
  | Err e => (Ok (json_err 500 (rpc_error_text e)), ns)
  | Panic => (Panic, ns)
  end.

Definition dispatch (now : Z) (io : option nat) (method : string) (params : Value) : handler :=
  if bool_decide (method = "get_info"%string) then
    answer 500 info_value (query (fun ns => Ok (info now ns)))
  else if bool_decide (method = "get_template"%string) then
    answer 500 template_value (query (template_resp now))
  else if bool_decide (method = "submit_block"%string) then
    with_params read_submit_req params (fun req =>
      answer 400 submit_value (submit_block ft now io req))
  else if bool_decide (method = "list_blocks"%string) then
    let limit := default 50%nat (read_list_req params) in
    answer 500 (fun l => jarr (summary_value <$> l)) (query (fun ns => dispatch_list_blocks ns limit))
  else if bool_decide (method = "get_block"%string) then
    with_params read_get_block_req params serve_get_block
  else if bool_decide (method = "submit_tx"%string) then
    with_params read_submit_tx_req params (fun req =>
      answer 400 submit_tx_value (submit_tx now req))
  else if bool_decide (method = "submit_transfer"%string) then
    with_params read_submit_transfer_req params (fun req =>
      answer 400 submit_tx_value (submit_transfer ft now req))
  else if bool_decide (method = "get_balance"%string) then
    with_params read_addr_req params (fun a =>
      answer 400 balance_value (query (fun ns => get_balance ns a)))
  else if bool_decide (method = "get_account"%string) then
    with_params read_addr_req params (fun a =>
      answer 400 account_value (query (fun ns => get_account ns a)))
  else if bool_decide (method = "get_mempool"%string) then
    fun ns => (Ok (rpc_ok (mempool_value ns)), ns)
  else if bool_decide (method = "emission_series"%string) then
    with_params read_emission_series_req params (fun req =>
      answer 500 series_value (query (fun ns => emission_series ns req.1 req.2)))
  else mret (json_err 400 ("unknown method: " +:+ method)).

(** The error text names the sizes; here only the limit. *)
Definition read_bounded_body (req : HttpReq) : outcome string (option Value) :=
  if MAX_RPC_BODY_BYTES <? rq_len req then Err "body too large"%string else Ok (rq_json req).

Definition serve (now : Z) (io : option nat) (req : HttpReq) : handler :=
  let url := rq_url req in
  if bool_decide (rq_method req = Post /\ url = "/rpc"%string) then
    match read_bounded_body req with
    | Err e => mret (json_err 413 e)
    | Panic => fun ns => (Panic, ns)
    | Ok body =>
        match body ≫= read_rpc_req with
        | Some (method, params) => dispatch now io method params
        | None => mret (json_err 400 ("bad request: " +:+ serde_error_text body))
        end
    end
  else if bool_decide (rq_method req = GetMethod /\ (url = "/"%string \/ url = "/index.html"%string))
  then mret (html_ok EXPLORER_HTML)
  else if bool_decide (rq_method req = GetMethod /\ url = "/healthz"%string) then
    mret (json_ok 200 (jobj [("pygrove", jstr "v0.1")]%string))
  else if bool_decide (rq_method req = GetMethod /\ url = "/metrics"%string) then
    fun ns => (Ok (metrics_ok now ns), ns)
  else mret (json_err 404 "not found").

(** C22: Monitoring.  [GET /metrics] of a node in order answers with a page in the exposition
    format, from which a reader of that format gets back the height of the tip, the time
    since genesis, the size of the pool, the nominal reward, the difficulty of the genesis
    file and the minted total, at any size and sign, and the labels of chain and build; the
    chain id and the build texts need to be free of quotes, backslashes and line ends. *)
Theorem metrics_scrape now io len json (ns : Node) bs :
  node_ok ns bs -> all_chars plain_char (ns_chain_id ns) = true ->
  plain_labels build_labels_of = true ->
  exists page, serve now io {| rq_method := GetMethod; rq_url := "/metrics"; rq_len := len;
                               rq_json := json |} ns =
      (Ok {| hr_status := 200;
             hr_body := BodyText "text/plain; version=0.0.4; charset=utf-8" page |}, ns) /\
    scrape page = Some (samples now ns (chain_labels_of ns)) /\
    height (ns_store ns) = Z.of_nat (length bs) - 1.
Proof.
  intros Hok Hc Hb. exists (prometheus_metrics now ns). split; [done|]. split; [by apply scrape_metrics|].
  by apply node_ok_height.
Qed.
End serve.
