(* ===== verification/NoPanic.v ===== *)
(** * NoPanic: the node answers every request

    A panic of the server's thread ends the process.  [crash_free] is the judgement that a
    run ends with a value or an error, with rules that follow the monad; from the ledger up
    to [serve] it shows that no request of a client makes the node panic, as long as the
    difficulty of the chain leaves the high half of the target non-zero. *)

From S2P Require Export ApplyAtomic RpcProps Serve.

Local Open Scope Z_scope.

(** ** The judgement *)

(** A value satisfies [Q], an error is allowed, a panic is not. *)
Definition lands {E A} (Q : A -> Prop) (m : outcome E A) : Prop :=
  match m with Ok a => Q a | Err _ => True | Panic => False end.

Definition crash_free {S E A} (Q : A -> Prop) (m : stm S E A) : Prop :=
  forall s, lands Q (m s).1.

Create HintDb pg_crash.

Section rules.
Context {S E : Type}.

Lemma lands_bind {F A B} (P : A -> Prop) (Q : B -> Prop) (m : outcome F A) k :
  lands P m -> (forall a, P a -> lands Q (k a)) -> lands Q (m ≫= k).
Proof. destruct m; cbn; auto. Qed.

Lemma lands_weaken {F A} (P Q : A -> Prop) (m : outcome F A) :
  lands P m -> (forall a, P a -> Q a) -> lands Q m.
Proof. destruct m; cbn; auto. Qed.

Lemma lands_map_err {F G A} (Q : A -> Prop) (f : F -> G) (m : outcome F A) :
  lands Q m -> lands Q (map_err f m).
Proof. by destruct m. Qed.

Lemma lands_ok_or {F A} (e : F) (o : option A) : lands (fun a => o = Some a) (ok_or e o).
Proof. by destruct o. Qed.

Lemma lands_no_panic {F A} (m : outcome F A) : lands (fun _ => True) m <-> m <> Panic.
Proof. by destruct m. Qed.

Lemma crash_free_ret {A} (Q : A -> Prop) a : Q a -> crash_free Q (mret a : stm S E A).
Proof. by intros Ha s. Qed.

Lemma crash_free_throw {A} (Q : A -> Prop) e : crash_free Q (throw e : stm S E A).
Proof. by intros s. Qed.

Lemma crash_free_lift {A} (Q : A -> Prop) (m : outcome E A) :
  lands Q m -> crash_free Q (lift_out m : stm S E A).
Proof. by intros Hm s. Qed.

Lemma crash_free_read {A} (Q : A -> Prop) (f : S -> A) :
  (forall s, Q (f s)) -> crash_free Q (read_st f : stm S E A).
Proof. intros Hf s. apply Hf. Qed.

Lemma crash_free_modify (f : S -> S) : crash_free (fun _ => True) (modify_st f : stm S E unit).
Proof. by intros s. Qed.

Lemma crash_free_bind {A B} (P : A -> Prop) (Q : B -> Prop) (m : stm S E A) k :
  crash_free P m -> (forall a, P a -> crash_free Q (k a)) -> crash_free Q (m ≫= k).
Proof.
  intros Hm Hk s. unfold mbind, stm_bind. specialize (Hm s).
  destruct (m s) as [[a|e|] s1]; [by apply Hk|done|done].
Qed.

Lemma crash_free_for_each {A} (body : A -> stm S E unit) l :
  (forall x, x ∈ l -> crash_free (fun _ => True) (body x)) ->
  crash_free (fun _ => True) (for_each body l).
Proof.
  induction l as [|x l IH]; intros Hb; cbn; [by intros s|].
  eapply crash_free_bind; [apply Hb; by left|]. intros _ _. apply IH. intros y Hy. apply Hb. by right.
Qed.
End rules.

#[export] Hint Resolve crash_free_throw crash_free_modify lands_map_err lands_ok_or : pg_crash.

(** ** The ledger *)

Section ledger.
Context {St : Type} `{StateStoreLaws St} `{HashPrims} `{SigPrims} `{StateCodecs}.
Context (ft : Features).
Notation any := (fun _ => True) (only parsing).

Lemma save_crash_free {E} id a : typed a = true -> crash_free any (save (St:=St) (E:=E) id a).
Proof. intros Ha s. by destruct (save_Ok (E:=E) id a s Ha) as (buf & _ & ->). Qed.

Lemma load_crash_free {E} id :
  crash_free (fun a => typed a = true) (read_st (fun s : St => load_or_default s id) : stm St E _).
Proof. apply crash_free_read. intros s. apply load_typed. Qed.

Lemma checked_add_lands {E} (e : E) a b :
  lands (fun r => r = a + b /\ r <= u_max 128) (ok_or e (checked_add 128 a b)).
Proof.
  destruct (checked_add 128 a b) as [r|] eqn:Er; [|done]. apply checked_add_Some in Er as [-> ?]. done.
Qed.

Lemma apply_staged_crash_free tx : staged_typed tx -> crash_free any (apply_staged (St:=St) tx).
Proof.
  intros Ht. pose proof Ht as ([Ha _] & [Hf _] & _). unfold apply_staged.
  eapply crash_free_bind; [apply load_crash_free|]. intros from Tf. cbn in Tf.
  destruct (negb _); [auto with pg_crash|].
  eapply crash_free_bind; [apply crash_free_lift, checked_add_lands|]. intros req [-> _].
  destruct (Z.ltb_spec (acc_balance from) (st_amount tx + st_fee_sat tx)); [auto with pg_crash|].
  eapply crash_free_bind; [apply save_crash_free, typed_debit; [done|done|lia]|]. intros _ _.
  eapply crash_free_bind; [apply load_crash_free|]. intros to Tt. by apply save_crash_free, typed_credit.
Qed.

Lemma put_record_crash_free {A} `{Cbor A} e sub key (a : A) :
  crash_free any (put_record (St:=St) e sub key a).
Proof.
  unfold put_record. eapply crash_free_bind; [apply crash_free_lift, lands_ok_or|]. auto with pg_crash.
Qed.

Lemma verify_proof_lands cfg proof msg : lands any (verify_governance_proof ft cfg proof msg).
Proof.
  unfold verify_governance_proof. destruct (_ <? _); [done|]. generalize 0.
  generalize (∅ : gset bytes). induction (gp_signatures proof) as [|sg sigs IH]; intros seen n; [done|].
  cbn [verify_loop]. case_bool_decide; [apply IH|]. destruct (find_signer _ _); [|apply IH].
  destruct (is_ok _); [|apply IH]. destruct (_ <=? _); [done|apply IH].
Qed.

Lemma require_governance_crash_free i gp payload :
  crash_free any (require_governance (St:=St) ft i gp payload).
Proof.
  unfold require_governance. eapply (crash_free_bind any); [by apply crash_free_read|].
  intros [cfg|] _; [|by apply crash_free_ret]. case_bool_decide; [auto with pg_crash|].
  eapply crash_free_bind; [apply crash_free_lift, lands_ok_or|]. intros proof _.
  apply crash_free_lift, lands_map_err, verify_proof_lands.
Qed.

Lemma require_coordinator_crash_free i job from :
  crash_free any (require_coordinator (St:=St) i job from).
Proof.
  unfold require_coordinator. eapply (crash_free_bind any); [by apply crash_free_read|].
  intros [a|] _; [|by apply crash_free_ret]. destruct (_ && _); [auto with pg_crash|by apply crash_free_ret].
Qed.

Lemma validate_lands c : lands any (validate c).
Proof.
  unfold validate. repeat match goal with |- context [if ?b then _ else _] => destruct b end; done.
Qed.
#[local] Hint Resolve put_record_crash_free require_governance_crash_free
  require_coordinator_crash_free : pg_crash.

Lemma apply_effect_crash_free h itx : crash_free any (apply_effect (St:=St) ft h itx).
Proof.
  destruct itx as [i tx]. unfold apply_effect.
  destruct (tx_call tx); try (by apply crash_free_ret);
    unfold apply_upgrade, apply_attest_round, apply_register, apply_pedigree, apply_set_governance;
    repeat match goal with |- crash_free _ (if ?b then _ else _) => destruct b end;
    try (auto with pg_crash; fail); try (eapply crash_free_bind; auto with pg_crash; fail).
  eapply crash_free_bind; [apply crash_free_lift, lands_ok_or|]. intros cfg _.
  eapply crash_free_bind; [apply crash_free_lift, lands_map_err, validate_lands|]. intros _ _.
  eapply crash_free_bind; auto with pg_crash.
Qed.

Lemma coinbase_crash_free h reward fees : 0 <= reward -> 0 <= fees ->
  crash_free (fun _ => True) (coinbase (St:=St) h reward fees).
Proof.
  intros Hr Hf. unfold coinbase. eapply crash_free_bind; [apply load_crash_free|]. intros m Tm. cbn in Tm.
  eapply crash_free_bind; [apply crash_free_lift, checked_add_lands|]. intros t [-> _].
  eapply crash_free_bind; [apply crash_free_lift, checked_add_lands|]. intros nb [-> Hnb].
  eapply crash_free_bind; [|by intros; apply crash_free_ret]. apply save_crash_free.
  unfold typed, typed_Account in *. rewrite !andb_true_iff, !in_ub_spec in *.
  cbn [acc_balance acc_nonce acc_sig_algo]. destruct Tm as [[Hb Hn] Hs].
  split_and!; [|done|done]. unfold in_u, u_max in *. lia.
Qed.

Lemma close_crash_free b fees minted :
  crash_free any (write_reflection (St:=St) b fees minted) /\
  crash_free any (activate_upgrade (St:=St) (blk_header b)).
Proof.
  split.
  - unfold write_reflection. eapply crash_free_bind; [apply crash_free_lift, lands_ok_or|]. intros buf _.
    eapply crash_free_bind; auto with pg_crash.
  - unfold activate_upgrade. eapply (crash_free_bind any); [by apply crash_free_read|].
    intros [p|] _; [|by apply crash_free_ret]. destruct (_ =? _); [|by apply crash_free_ret].
    destruct (cbor_ser _); [auto with pg_crash|by apply crash_free_ret].
Qed.

(** The transition never panics on a well-typed block. *)
Lemma apply_block_crash_free b reward : typed b = true -> 0 <= reward ->
  crash_free any (apply_block (St:=St) ft b reward).
Proof.
  intros Tb Hr s. unfold typed, typed_Block in Tb. apply andb_true_iff in Tb as [_ Tb].
  unfold typed, typed_BlockBody in Tb. apply andb_true_iff in Tb as [Ttx Tw].
  unfold apply_block, mbind at 1, stm_bind at 1. cbv zeta.
  destruct (pass1 ft s _ 0 0 _) as [[fees staged]|e|] eqn:E1; [|done|by apply pass1_no_panic in E1].
  apply pass1_Ok in E1 as (-> & Hst & _).
  pose proof (staged_for_typed ft s _ _ _ _ Ttx Tw Hst) as HT. rewrite Forall_elem in HT.
  pose proof (sum_fees_nonneg _ (typed_fees _ Ttx)) as Hf.
  match goal with |- lands ?Q (fst (?m s)) => enough (crash_free Q m) as Hc by exact (Hc s) end.
  eapply crash_free_bind.
  { apply crash_free_for_each. intros tx Hin. by apply apply_staged_crash_free, HT. }
  intros _ _. eapply crash_free_bind.
  { apply crash_free_for_each. intros itx _. apply apply_effect_crash_free. }
  intros _ _. eapply crash_free_bind; [apply coinbase_crash_free; [done|lia]|]. intros minted _.
  eapply crash_free_bind; [apply close_crash_free|]. intros _ _.
  eapply crash_free_bind; [apply (close_crash_free b 0 0)|]. intros _ _. by apply crash_free_read.
Qed.
End ledger.

(** ** The difficulty rule *)

(** A field the rule can work with: the high half of its target is not zero. *)
Definition workable_bits (bits : Z) : Prop := 0 <= bits < 2 ^ 32 /\ 1 <= anchor_hi bits.

Lemma compact_value_small bits : 0 <= bits -> compact_value bits < 2 ^ 255.
Proof.
  intros Hb. unfold compact_value, compact_scale.
  assert (0 <= compact_mantissa bits < 2 ^ 23) by (apply Z.mod_pos_bound; lia).
  set (e := compact_exponent bits). set (m := compact_mantissa bits) in *.
  destruct ((1 <=? e) && (e <=? 32)) eqn:He; [|done].
  apply andb_true_iff in He as [H1%Z.leb_le H2%Z.leb_le]. destruct (Z.leb_spec 3 e).
  - assert (256 ^ (e - 3) <= 256 ^ 29) by (apply Z.pow_le_mono_r; lia).
    change (256 ^ 29) with (2 ^ 232) in *. nia.
  - assert (m / 256 ^ (3 - e) <= m) by (apply Z.div_le_upper_bound; [lia|]; nia). lia.
Qed.

(** Encoding a target with a non-zero high half keeps it non-zero. *)
Lemma bits_from_target_workable t : length t = 32%nat -> 2 ^ 128 <= be_to_Z t < 2 ^ 255 ->
  workable_bits (bits_from_target t).
Proof.
  intros Hl HV. destruct (bits_from_target_rounds t Hl) as (Hc & Hb & Hr); [lia|].
  split; [done|]. revert Hc Hb Hr. generalize (bits_from_target t). intros bits Hc Hb Hr.
  destruct (anchor_split bits ltac:(lia)) as (Hv & Rh & Rl). unfold in_u in *.
  assert (2 ^ 128 <= compact_value bits) as Hval; [|clear - Hv Rl Hval; lia].
  unfold compact_canonical in Hc. set (e := compact_exponent bits) in *.
  set (m := compact_mantissa bits) in *. unfold compact_value, compact_scale in *.
  fold e m in Hr |- *. destruct ((1 <=? e) && (e <=? 32)) eqn:He; [|discriminate].
  apply andb_true_iff in He as [H1%Z.leb_le H2%Z.leb_le]. cbn [andb] in Hc.
  destruct (Z.leb_spec 3 e).
  - rewrite Z.max_r in Hr by lia. destruct (Z.le_gt_cases (e - 3) 16) as [Hk|Hk].
    + assert (2 ^ 128 = 256 ^ (16 - (e - 3)) * 256 ^ (e - 3)) as E.
      { rewrite <- Z.pow_add_r by lia. by replace (16 - (e - 3) + (e - 3)) with 16 by lia. }
      assert (0 < 256 ^ (e - 3)) as Hk0 by lia. rewrite E in HV |- *.
      revert Hk0 HV Hr. generalize (256 ^ (e - 3)) (256 ^ (16 - (e - 3))). clear. intros k j Hk HV Hr.
      apply Z.mul_le_mono_nonneg_r; [lia|]. apply Z.lt_succ_r, (Z.mul_lt_mono_pos_r k); lia.
    + assert (256 ^ 17 <= 256 ^ (e - 3)) as Hp by (apply Z.pow_le_mono_r; lia).
      change (256 ^ 17) with (2 ^ 136) in Hp. assert (0x8000 <= m) as Hm by lia.
      revert Hp Hm. generalize (256 ^ (e - 3)). clear. intros. nia.
  - rewrite Z.max_l in Hr by lia. lia.
Qed.

Lemma next_bits_lands {E} bits h ts ts' tbt boot tau_boot tau : workable_bits bits ->
  lands (E:=E) workable_bits (next_bits_from_parent bits h ts ts' tbt boot tau_boot tau).
Proof.
  intros [Hb Hhi]. destruct (anchor_split bits ltac:(lia)) as (Hv & Rh & Rl). unfold in_u in *.
  destruct (target_from_bits_value bits ltac:(lia)) as [Hl HV].
  pose proof (compact_value_small bits ltac:(lia)) as Hs.
  assert (workable_bits (bits_from_target (target_from_bits bits))) as Hsame
    by (apply bits_from_target_workable; [done|rewrite HV; nia]).
  unfold next_bits_from_parent. set (h' := wrapping_add 64 h 1).
  set (tau' := if h' <? boot then tau_boot else tau).
  destruct (Z.le_gt_cases h' h) as [Hh|Hh].
  { unfold asert_target. rewrite (proj2 (Z.leb_le _ _) Hh). done. }
  destruct (decide (tau' = 0)) as [Ht|Ht].
  { unfold asert_target. rewrite Ht, orb_true_r. done. }
  destruct (asert_target_value (E:=E) bits ts h ts' h' tbt tau' ltac:(lia) Hh Ht)
    as [[H0 _]|(_ & target & -> & Hlt & _ & Hval)]; [lia|].
  cbn. apply bits_from_target_workable; [done|]. rewrite Hval.
  set (hi := anchor_hi bits) in *. set (mult := pow2_q16 _ _).
  pose proof (raw_hi_ceiling hi mult).
  assert (1 <= band_min hi <= 2 ^ 122).
  { unfold band_min, saturating_mul, u_max. split; [lia|]. apply Z.max_lub; [|lia].
    apply Z.div_le_upper_bound; lia. }
  nia.
Qed.

(** ** The node *)

Section node.
Context {St : Type} `{StateStoreLaws St} `{HashPrims} `{SigPrims} `{StateCodecs} {CB : Cbor Block}
  {CT : Cbor TxBody} {CW : Cbor Witness} `{Hex} `{Bech32} `{ErrorTexts}.
Context (ft : Features).
Notation Node := (NodeState St).

(** A node in order: typed, with a tip the difficulty rule can continue. *)
Definition sound (ns : Node) : Prop :=
  node_typed ns /\ exists b, tip (ns_store ns) = Some b /\ workable_bits (bh_bits (blk_header b)).

Lemma expected_bits_lands (ns : Node) b ts : workable_bits (bh_bits (blk_header b)) ->
  lands workable_bits (expected_bits ns (bh_bits (blk_header b)) (bh_height (blk_header b))
    (bh_timestamp_ms (blk_header b)) ts).
Proof. apply next_bits_lands. Qed.

Lemma check_block_lands now (ns : Node) b : sound ns ->
  lands (fun _ => workable_bits (bh_bits (blk_header b))) (check_block now ns b).
Proof.
  intros [_ (p & Ht & Hw)]. unfold check_block, parent_view. rewrite Ht.
  destruct (_ <? _); [done|]. destruct (negb _); [done|]. destruct (negb _); [done|].
  eapply lands_bind; [by apply expected_bits_lands|]. intros bits Hbits.
  destruct (Z.eqb_spec (bh_bits (blk_header b)) bits) as [->|]; [|done]. cbn [negb].
  repeat match goal with |- lands _ (if ?c then _ else _) => destruct c end; done.
Qed.

Lemma block_reward_lands (ns : Node) b : node_typed ns ->
  lands (fun r => in_u 128 r) (block_reward ns (blk_header b)).
Proof.
  intros (_ & _ & _ & _ & _ & Te & _ & Tp & _).
  destruct (block_reward ns (blk_header b)) as [r|e|] eqn:Er; [|done|].
  - cbn. by eapply reward_in_u128.
  - unfold block_reward in Er.
    match type of Er with current_reward_with_height ?p ?g ?ts ?pts ?m ?h ?q = _ =>
      destruct (current_reward_with_height_Ok p Te (E:=NodeError) g ts pts m h q) as (r & Hr & _) end.
    congruence.
Qed.

(** Submitting a block: no panic, and the node stays in order. *)
Lemma try_apply_sound now io b (ns : Node) : sound ns -> typed b = true ->
  lands (fun _ => True) (try_apply_block ft now io b ns).1 /\
  sound (try_apply_block ft now io b ns).2.
Proof.
  intros Hn Tb. pose proof (try_apply_typed ft now io b ns (proj1 Hn) Tb) as Ht.
  pose proof (check_block_lands now ns b Hn) as Hc. revert Ht.
  unfold try_apply_block, mbind, stm_bind.
  destruct (check_block now ns b) as [[]|e|]; [|done|done]. cbn in Hc.
  unfold commit_block, on_state, on_store, mbind, stm_bind, read_st, modify_st.
  pose proof (block_reward_lands ns b (proj1 Hn)) as Hr.
  destruct (block_reward ns (blk_header b)) as [reward|e|]; [|done|done]. cbn in Hr.
  pose proof (apply_block_crash_free (St:=St) ft b reward Tb (proj1 Hr) (ns_state ns)) as Ha.
  destruct (apply_block ft b reward (ns_state ns)) as [[out|e|] s]; cbn [map_err]; [| |done].
  - cbn [ns_store set_mempool set_counters set_state]. intros Ht.
    assert (lands (fun _ => True) (append io b (ns_store ns)).1) as Hl.
    { unfold append. destruct (cbor_ser b); [|done]. by destruct io. }
    pose proof (append_tip io b (ns_store ns)) as Htip.
    destruct (append io b (ns_store ns)) as [ra cs]. cbn [fst snd] in *.
    split; [by apply lands_map_err|]. split; [exact Ht|]. cbn [ns_store set_store].
    destruct Hn as [_ (p & Hp & Hw)]. unfold tip in *. destruct Htip as [-> | ->]; eauto.
  - intros Ht. split; [done|]. split; [exact Ht|apply Hn].
Qed.

(** Below that range any block on the tip makes the check panic: on a chain whose genesis
    field has a zero high half the first submission takes the node down. *)
Lemma unworkable_tip_panics now io (ns : Node) p b : tip (ns_store ns) = Some p ->
  0 <= bh_bits (blk_header p) -> anchor_hi (bh_bits (blk_header p)) = 0 ->
  0 <= bh_height (blk_header p) < 2 ^ 64 - 1 ->
  ns_bootstrap_asert_tau_ms ns <> 0 -> ns_asert_tau_ms ns <> 0 ->
  ns_genesis_time_ms ns <= now -> bh_parent (blk_header b) = hash_header (blk_header p) ->
  bh_height (blk_header b) = bh_height (blk_header p) + 1 ->
  try_apply_block ft now io b ns = (Panic, ns).
Proof.
  intros Ht Hb Hhi Hh Hb0 Ha0 Hnow Hp Hheight. unfold try_apply_block, mbind, stm_bind.
  enough (check_block now ns b = Panic) as -> by done.
  unfold check_block, parent_view. rewrite Ht. destruct (Z.ltb_spec now (ns_genesis_time_ms ns)); [lia|].
  rewrite bool_decide_eq_true_2 by done.
  rewrite (wrapping_add_small 64 (bh_height (blk_header p)) 1) by lia.
  rewrite Hheight, Z.eqb_refl. cbn [negb]. unfold expected_bits, next_bits_from_parent.
  rewrite (wrapping_add_small 64 (bh_height (blk_header p)) 1) by lia. set (tau := if _ <? em_bootstrap_height _ then _ else _).
  assert (tau <> 0) as Htau by (unfold tau; by destruct (_ <? _)).
  destruct (asert_target_value (E:=NodeError) (bh_bits (blk_header p)) (bh_timestamp_ms (blk_header p))
    (bh_height (blk_header p)) (bh_timestamp_ms (blk_header b)) (bh_height (blk_header p) + 1)
    (ns_target_block_time_ms ns) tau Hb ltac:(lia) Htau) as [[_ ->]|[? _]]; [done|lia].
Qed.

(** ** Reading the log *)

Lemma read_blocks_lands fuel f :
  lands (fun bs => forall b, b ∈ bs -> typed b = true) (read_blocks fuel f).
Proof.
  revert f. induction fuel as [|fuel IH]; intros f; cbn; [set_solver|].
  destruct (read_exact 4 f) as [[lb f1]|]; [|set_solver]. destruct (read_exact _ f1) as [[body f2]|]; [|done].
  eapply lands_bind; [apply lands_ok_or|]. intros b Hb%cbor_de_typed.
  eapply lands_bind; [apply IH|]. intros bs Hbs x [->|Hx]%elem_of_cons; auto.
Qed.

Lemma load_all_lands cs : lands (fun bs => forall b, b ∈ bs -> typed b = true) (load_all cs).
Proof.
  unfold load_all, read_all_from_disk. destruct (cs_disk cs); [apply read_blocks_lands|].
  intros b ?%not_elem_of_nil. done.
Qed.

Lemma get_block_lands (ns : Node) h :
  lands (fun d => forall x, d = Some x -> exists b, typed b = true /\ x = block_detail b)
    (get_block ns h).
Proof.
  unfold get_block, get_by_height.
  eapply (lands_bind (fun o => forall b, o = Some b -> typed b = true)).
  - apply lands_map_err. eapply lands_bind; [apply load_all_lands|].
    intros all Hall b Hb. apply find_elem_Some in Hb as [Hb _]. by apply Hall.
  - intros [b|] Hb x; [|done]. intros [= <-]. eauto.
Qed.

Lemma encode_items_lands {A} `{Cbor A} (items : list A) : lands (fun _ => True) (encode_items items).
Proof.
  induction items as [|a items IH]; [done|]. cbn [encode_items].
  eapply lands_bind; [apply lands_ok_or|]. intros buf _. eapply lands_bind; [apply IH|done].
Qed.

Lemma decode_items_lands {A} `{Cbor A} i strs : lands (fun _ => True) (decode_items (A:=A) i strs).
Proof.
  revert i. induction strs as [|s strs IH]; intros i; [done|]. cbn [decode_items].
  eapply lands_bind; [apply lands_ok_or|]. intros buf _.
  eapply lands_bind; [apply lands_ok_or|]. intros a _. eapply lands_bind; [apply IH|done].
Qed.

Lemma series_loop_lands (ns : Node) p rest acc : typed (ns_emission ns) = true ->
  lands (fun _ => True) (series_loop ns p rest acc).
Proof.
  intros Te. revert p acc. induction rest as [|b rest IH]; intros p acc; [done|].
  cbn [series_loop]. destruct acc as [[cumulative running] prev].
  destruct (current_reward_with_height_Ok (ns_emission ns) Te (E:=RpcError) (ns_genesis_time_ms ns)
    (bh_timestamp_ms (blk_header b)) (bh_timestamp_ms (blk_header p)) running
    (bh_height (blk_header b)) prev) as (r & -> & _). cbn. apply IH.
Qed.

(** The printer of addresses only panics on ids of another length. *)
Lemma detail_value_Some b : typed b = true -> is_Some (detail_value (block_detail b)).
Proof.
  intros Tb. unfold typed, typed_Block in Tb. apply andb_true_iff in Tb as [_ Tb].
  unfold typed, typed_BlockBody in Tb. apply andb_true_iff in Tb as [Ttx _].
  unfold detail_value, block_detail. cbn [bd_txs].
  enough (is_Some (mapM tx_summary_value (tx_summary <$> body_txs (blk_body b)))) as [txs ->] by (cbn; eauto).
  apply mapM_is_Some, Forall_fmap, Forall_elem. intros tx Hin. cbn.
  unfold typed, typed_list in Ttx. rewrite forallb_forall in Ttx. specialize (Ttx tx (proj1 (list_elem_of_In _ _) Hin)).
  unfold typed, typed_TxBody in Ttx. rewrite !andb_true_iff in Ttx.
  destruct Ttx as ((((( _ & Hf) & Hc) & _) & _) & _). apply account_ok_spec in Hf.
  destruct (bech32_roundtrip _ Hf) as (from & Efrom & _).
  unfold tx_summary_value, tx_summary. destruct (tx_call tx); cbn; rewrite Efrom; cbn; eauto.
  unfold typed, typed_TxCall in Hc. apply andb_true_iff in Hc as [Ht _]. apply account_ok_spec in Ht.
  destruct (bech32_roundtrip _ Ht) as (t & -> & _). cbn. eauto.
Qed.

(** ** Requests *)

Definition statuses : list Z := [200; 400; 404; 413; 500].

(** The handler answers with one of the statuses and leaves the node in order. *)
Definition serves (h : stm Node Empty_set HttpResp) (ns : Node) : Prop :=
  exists resp, (h ns).1 = Ok resp /\ hr_status resp ∈ statuses /\ sound (h ns).2.

Lemma serves_ret resp (ns : Node) : hr_status resp ∈ statuses -> sound ns -> serves (mret resp) ns.
Proof. intros Hs Hn. by exists resp. Qed.

Lemma serves_answer {A} code (value : A -> Value) (m : stm Node RpcError A) ns :
  code ∈ statuses -> lands (fun _ => True) (m ns).1 -> sound (m ns).2 -> serves (answer code value m) ns.
Proof.
  unfold serves, answer. destruct (m ns) as [[a|e|] ns']; cbn [fst snd lands]; intros Hc Hl Hn; [| |done];
    (eexists; split; [reflexivity|]; split; [|done]); [by left|done].
Qed.

Lemma serves_query {A} code (value : A -> Value) (f : Node -> outcome RpcError A) ns :
  code ∈ statuses -> sound ns -> lands (fun _ => True) (f ns) -> serves (answer code value (query f)) ns.
Proof. intros Hc Hn Hl. by apply serves_answer. Qed.

Lemma serves_params {R} (read : Value -> option R) params k ns : sound ns ->
  (forall req, read params = Some req -> serves (k req) ns) -> serves (with_params read params k) ns.
Proof.
  intros Hn Hk. unfold with_params. destruct (read params) as [req|]; [by apply Hk|].
  apply serves_ret; [by right; left|done].
Qed.

Lemma read_u_range w v n : read_u w v = Some n -> in_u w n.
Proof.
  unfold read_u. destruct (as_u64 v) as [m|]; [|done]. cbn.
  destruct (in_ub w m) eqn:Hm; [|done]. intros [= <-]. by apply in_ub_spec.
Qed.

Lemma required_u_range w o n : required (read_u w) o = Some n -> in_u w n.
Proof. destruct o as [v|]; [|done]. apply read_u_range. Qed.

(** The header a parser hands over is in range. *)
Lemma read_header_json_typed v j : read_header_json v = Some j -> json_typed j.
Proof.
  unfold read_header_json. intros Hr. apply bind_Some in Hr as (fs & _ & Hr).
  do 13 (destruct fs as [|? fs]; [done|]). destruct fs; [|done].
  repeat match type of Hr with
  | _ ≫= _ = Some _ =>
      let x := fresh "x" in let E := fresh "E" in apply bind_Some in Hr as (x & E & Hr);
      try apply required_u_range in E
  end.
  injection Hr as <-. done.
Qed.

Lemma read_submit_req_typed v req : read_submit_req v = Some req -> json_typed (sr_header req).
Proof.
  unfold read_submit_req. intros Hr. apply bind_Some in Hr as (fs & _ & Hr).
  do 3 (destruct fs as [|? fs]; [done|]). destruct fs; [|done].
  apply bind_Some in Hr as (h & Eh & Hr). apply bind_Some in Hr as (txs & _ & Hr).
  apply bind_Some in Hr as (wits & _ & Hr). injection Hr as <-. cbn.
  destruct (_ : option Value) as [w|]; [|done]. by eapply read_header_json_typed.
Qed.

Lemma read_submit_transfer_typed v req : read_submit_transfer_req v = Some req -> transfer_typed req.
Proof.
  unfold read_submit_transfer_req. intros Hr. apply bind_Some in Hr as (fs & _ & Hr).
  do 7 (destruct fs as [|? fs]; [done|]). destruct fs; [|done].
  repeat match type of Hr with
  | _ ≫= _ = Some _ =>
      let x := fresh "x" in let E := fresh "E" in apply bind_Some in Hr as (x & E & Hr);
      try apply required_u_range in E
  end.
  injection Hr as <-. done.
Qed.

Lemma header_of_json_lands j : lands (fun _ => True) (header_of_json j).
Proof.
  assert (forall s, lands (fun _ => True) (hex32 s)) as H32.
  { intros s. unfold hex32. eapply lands_bind; [apply lands_ok_or|]. intros v _. by destruct (negb _). }
  unfold header_of_json. do 6 (eapply lands_bind; [apply H32|]; intros ? _). done.
Qed.

Lemma decode_block_lands req : lands (fun _ => True) (decode_block req).
Proof.
  unfold decode_block. eapply lands_bind; [apply header_of_json_lands|]. intros hdr _.
  destruct (negb _); [done|]. eapply lands_bind; [apply decode_items_lands|]. intros txs _.
  eapply lands_bind; [apply decode_items_lands|done].
Qed.

Lemma submit_block_serves now io req (ns : Node) : sound ns -> json_typed (sr_header req) ->
  serves (answer 400 submit_value (submit_block ft now io req)) ns.
Proof.
  intros Hn Hj. apply serves_answer; [by right; left| |].
  - unfold submit_block, mbind, stm_bind, lift_out, on_node, mret, stm_ret.
    pose proof (decode_block_lands req) as Hl.
    destruct (decode_block req) as [b|e|] eqn:Ed; [|done|done].
    pose proof (try_apply_sound now io b ns Hn (decode_block_typed req b Hj Ed)) as [Ht _].
    by destruct (try_apply_block ft now io b ns) as [[[]|e|] ns'].
  - rewrite submit_block_state. destruct (decode_block req) as [b|e|] eqn:Ed; [|done..].
    by apply try_apply_sound; [|eapply decode_block_typed].
Qed.

Lemma pool_submission_sound now (ns ns' : Node) : sound ns -> pool_submission now ns ns' -> sound ns'.
Proof.
  intros [Hn Hw] Hp. split; [by eapply pool_submission_typed|].
  destruct Hp as [->|(body & w & _ & _ & ->)]; exact Hw.
Qed.

Lemma on_mempool_lands {A} (m : Mempool -> outcome MempoolError A * Mempool) :
  (forall mp, lands (fun _ => True) (m mp).1) -> crash_free (fun _ => True) (on_mempool (St:=St) m).
Proof.
  intros Hm ns. unfold on_mempool. specialize (Hm (ns_mempool ns)).
  destruct (m (ns_mempool ns)) as [r mp]. by apply lands_map_err.
Qed.

Lemma submit_lands now body w mp : lands (fun _ => True) (submit now body w mp).1.
Proof. unfold submit. destruct (negb _); [done|]. by case_bool_decide. Qed.

Lemma submit_tx_crash_free now req : crash_free (fun _ => True) (submit_tx (St:=St) now req).
Proof.
  unfold submit_tx. do 4 (eapply crash_free_bind; [apply crash_free_lift, lands_ok_or|]; intros ? _).
  eapply crash_free_bind; [apply on_mempool_lands; intros mp; apply submit_lands|].
  intros h _. by apply crash_free_ret.
Qed.

Lemma parse_address_lands s : lands (fun _ => True) (parse_address s).
Proof.
  unfold parse_address, from_bech32. apply lands_map_err.
  eapply (lands_bind (fun _ => True)).
  - apply lands_map_err, lands_no_panic, bech32_decode_total.
  - intros [hrp data] _. by repeat case_decide.
Qed.

Lemma submit_transfer_crash_free now req :
  crash_free (fun _ => True) (submit_transfer (St:=St) ft now req).
Proof.
  unfold submit_transfer.
  do 2 (eapply crash_free_bind; [apply crash_free_lift, parse_address_lands|]; intros ? _).
  do 2 (eapply crash_free_bind; [apply crash_free_lift, lands_ok_or|]; intros ? _).
  cbv zeta. destruct (negb _); [apply crash_free_throw|].
  eapply crash_free_bind.
  { apply crash_free_lift, lands_map_err, lands_no_panic, verify_no_panic. }
  intros _ _. eapply (crash_free_bind (fun _ => True)); [by apply crash_free_read|]. intros w _.
  eapply crash_free_bind; [apply on_mempool_lands; intros mp; apply submit_lands|].
  intros h _. by apply crash_free_ret.
Qed.

Lemma emission_series_lands (ns : Node) window points : typed (ns_emission ns) = true ->
  lands (fun _ => True) (emission_series ns window points).
Proof.
  intros Te. unfold emission_series. cbv zeta.
  eapply lands_bind; [apply lands_map_err, load_all_lands|]. intros all _.
  destruct all as [|first rest]; [done|]. destruct (last _); [|done]. case_bool_decide; [done|].
  eapply lands_bind; [by apply series_loop_lands|done].
Qed.

Lemma list_blocks_lands (ns : Node) limit : lands (fun _ => True) (dispatch_list_blocks ns limit).
Proof.
  unfold dispatch_list_blocks, list_blocks, recent.
  eapply (lands_bind (fun _ => True)); [|done]. apply lands_map_err.
  eapply lands_bind; [apply load_all_lands|done].
Qed.

Lemma account_query_lands (ns : Node) a :
  lands (fun _ => True) (get_balance ns a) /\ lands (fun _ => True) (get_account ns a).
Proof. split; (eapply lands_bind; [apply parse_address_lands|done]). Qed.

Lemma template_resp_lands now (ns : Node) : lands (fun _ => True) (template_resp now ns).
Proof.
  unfold template_resp. destruct (template now ns) as [hdr body].
  do 2 (eapply lands_bind; [apply encode_items_lands|]; intros ? _). done.
Qed.

Lemma serve_get_block_serves h (ns : Node) : sound ns -> serves (serve_get_block h) ns.
Proof.
  intros Hn. pose proof (get_block_lands ns h) as Hl. unfold serves, serve_get_block.
  destruct (get_block ns h) as [[d|]|e|]; [| | |done].
  - destruct (Hl d eq_refl) as (b & Tb & ->). destruct (detail_value_Some b Tb) as [v ->].
    eexists. split; [reflexivity|]. split; [by left|done].
  - eexists. split; [reflexivity|]. split; [by right; right; left|done].
  - eexists. split; [reflexivity|]. split; [by do 4 right; left|done].
Qed.
#[local] Hint Resolve template_resp_lands list_blocks_lands emission_series_lands : pg_crash.

Lemma dispatch_serves now io method params (ns : Node) : sound ns ->
  serves (dispatch ft now io method params) ns.
Proof.
  intros Hn. pose proof (proj1 Hn) as (_ & _ & _ & _ & _ & Te & _). unfold dispatch.
  assert (200 ∈ statuses /\ 400 ∈ statuses /\ 500 ∈ statuses) as (S2 & S4 & S5)
    by (unfold statuses; split_and!; set_solver).
  repeat case_bool_decide.
  - by apply serves_query.
  - apply serves_query; auto with pg_crash.
  - apply serves_params; [done|]. intros req Hr. apply submit_block_serves; [done|].
    by eapply read_submit_req_typed.
  - apply serves_query; auto with pg_crash.
  - apply serves_params; [done|]. intros h _. by apply serve_get_block_serves.
  - apply serves_params; [done|]. intros req _. apply serves_answer; [done|apply submit_tx_crash_free|].
    eapply pool_submission_sound; [done|apply submit_tx_submission].
  - apply serves_params; [done|]. intros req Hr. apply serves_answer; [done|apply submit_transfer_crash_free|].
    eapply pool_submission_sound; [done|]. by apply submit_transfer_submission, read_submit_transfer_typed with params.
  - apply serves_params; [done|]. intros a _. apply serves_query; [done|done|apply account_query_lands].
  - apply serves_params; [done|]. intros a _. apply serves_query; [done|done|apply account_query_lands].
  - by eexists.
  - apply serves_params; [done|]. intros req _. apply serves_query; auto with pg_crash.
  - by apply serves_ret.
Qed.

Lemma serve_serves now io req (ns : Node) : sound ns -> serves (serve ft now io req) ns.
Proof.
  intros Hn.
  unfold serve, read_bounded_body. repeat case_bool_decide.
  - destruct (_ <? _); [apply serves_ret; [set_solver|done]|].
    destruct (rq_json req ≫= read_rpc_req) as [[method params]|]; [by apply dispatch_serves|].
    apply serves_ret; [set_solver|done].
  - apply serves_ret; [set_solver|done].
  - apply serves_ret; [set_solver|done].
  - apply serves_ret; [set_solver|done].
  - apply serves_ret; [set_solver|done].
Qed.
(** C6: The node answers every request.  While the tip's difficulty field leaves the high
    half of the target non-zero, any HTTP request (any method, path, body length and JSON,
    any block or transaction, whatever the disk does) gets a response with one of the five
    statuses, never a panic, and leaves the node typed and its tip in that range: no
    sequence of requests takes the server down. *)
Theorem serve_total now io req (ns : Node) : sound ns ->
  exists resp ns', serve ft now io req ns = (Ok resp, ns') /\ hr_status resp ∈ statuses /\ sound ns'.
Proof.
  intros Hn. destruct (serve_serves now io req ns Hn) as (resp & Hr & Hs & Hn').
  exists resp, (serve ft now io req ns).2. split_and!; [|done|done].
  rewrite <- Hr. by destruct (serve ft now io req ns).
Qed.
End node.
