(* ===== verification/System.v ===== *)
(** * System: a node over its lifetime
    (crates/node/src/main.rs, crates/node/src/rpc.rs, crates/node/src/mining.rs)

    The composition of the daemon: the data directory, the process that serves requests and
    the mining thread beside it, as a machine whose events are the ones the world can cause.
    The node is initialised, started, asked, mined on and killed in any order; the theorems
    follow it through every such history.  Handlers are atomic events here; what the lock
    discipline of [try_apply_block] allows beyond that is the subject of [NodeRace]. *)

From S2P Require Export NoPanic SelfMiner.

Local Open Scope Z_scope.

(** ** The machine *)

Inductive Miner :=
| Off
| Resting
| Hunting (hdr : BlockHeader) (body : BlockBody) (tip_height : Z)
| Crashed.

Inductive System {St : Type} :=
| Up (ns : NodeState St) (m : Miner)
| Down (disk : option bytes).
Arguments System : clear implicits.

(** What can happen: [init] and [run] from the shell, a request, the miner's next template
    and its next attempt, the end of the process.  The clock readings and the outcome of the
    disk write belong to the event. *)
Inductive Event `{Json} :=
| Init (fuel : nat)
| Launch
| Request (now : Z) (io : option nat) (req : HttpReq)
| Wake (now block_ts : Z)
| Attempt (now : Z) (io : option nat)
| Kill.

Section system.
Context {St : Type} `{StateStore St} `{HashPrims} `{SigPrims} `{StateCodecs} {CB : Cbor Block}
  {CT : Cbor TxBody} {CW : Cbor Witness} `{Hex} `{Bech32} `{ErrorTexts}.
Context (ft : Features) (mem_new : St) (g : Genesis) (treasury : option string) (self_mine : bool).
Notation Node := (NodeState St).

(** The head of [self_miner_loop]: wait for genesis and for a tip, then a template. *)
Definition miner_wake (now block_ts : Z) (ns : Node) : Miner :=
  if now <? ns_genesis_time_ms ns then Resting
  else
    match tip (ns_store ns) with
    | None => Resting
    | Some tip_block =>
        match self_template block_ts ns with
        | Ok (Some (hdr, body)) => Hunting hdr body (bh_height (blk_header tip_block))
        | _ => Crashed
        end
    end.

(** One pass of its inner loop. *)
Definition miner_attempt (now : Z) (io : option nat) (hdr : BlockHeader) (body : BlockBody)
    (tip_height : Z) (ns : Node) : Miner * Node :=
  if meets_target (hash_header hdr) (target_from_bits (bh_bits hdr)) then
    match try_apply_block ft now io {| blk_header := hdr; blk_body := body |} ns with
    | (Panic, ns) => (Crashed, ns)
    | (_, ns) => (Resting, ns)
    end
  else
    let nonce := wrapping_add 64 (bh_nonce hdr) 1 in
    let hdr := with_nonce hdr nonce in
    let stale := if Z.land nonce 0x1fffff =? 0
                 then match tip (ns_store ns) with
                      | Some cur => tip_height <? bh_height (blk_header cur)
                      | None => false
                      end
                 else false in
    (if stale then Resting else Hunting hdr body tip_height, ns).

Definition sys_step (s : System St) (e : Event) : System St :=
  match s, e with
  | Down disk, Init fuel =>
      match cmd_init fuel None g disk with
      | Ok (Some (_, store)) => Down (cs_disk store)
      | _ => Down disk
      end
  | Down disk, Launch =>
      match cmd_run ft mem_new g treasury disk with
      | Ok ns => Up ns (if self_mine then Resting else Off)
      | _ => Down disk
      end
  | Up ns m, Request now io req =>
      match serve ft now io req ns with
      | (Panic, ns) => Down (cs_disk (ns_store ns))
      | (_, ns) => Up ns m
      end
  | Up ns Resting, Wake now block_ts => Up ns (miner_wake now block_ts ns)
  | Up ns (Hunting hdr body tip_height), Attempt now io =>
      let '(m, ns) := miner_attempt now io hdr body tip_height ns in Up ns m
  | Up ns _, Kill => Down (cs_disk (ns_store ns))
  | s, _ => s
  end.

Definition sys_run (s : System St) (es : list Event) : System St := foldl sys_step s es.

(** [P] holds of every event of a history in the state it meets. *)
Fixpoint throughout (P : System St -> Event -> Prop) (s : System St) (es : list Event) : Prop :=
  match es with
  | [] => True
  | e :: es => P s e /\ throughout P (sys_step s e) es
  end.

(** ** What a request does to the node *)

Definition request_call (req : HttpReq) : option (string * Value) :=
  if bool_decide (rq_method req = Post /\ rq_url req = "/rpc"%string)
  then if MAX_RPC_BODY_BYTES <? rq_len req then None else rq_json req ≫= read_rpc_req
  else None.

(** The block a request submits. *)
Definition request_block (req : HttpReq) : option Block :=
  '(method, params) ← request_call req;
  if bool_decide (method = "submit_block"%string) then
    r ← read_submit_req params;
    match decode_block r with Ok b => Some b | _ => None end
  else None.

Lemma answer_state {A} code (value : A -> Value) (m : stm Node RpcError A) ns :
  (answer code value m ns).2 = (m ns).2.
Proof. unfold answer. by destruct (m ns) as [[a|e|] ns']. Qed.

Lemma with_params_state {R} (read : Value -> option R) params k (ns : Node) :
  (with_params read params k ns).2 = match read params with Some req => (k req ns).2 | None => ns end.
Proof. unfold with_params. by destruct (read params). Qed.

Lemma dispatch_effect now io method params (ns : Node) :
  (exists r b, method = "submit_block"%string /\ read_submit_req params = Some r /\
     decode_block r = Ok b /\ typed b = true /\
     (dispatch ft now io method params ns).2 = (try_apply_block ft now io b ns).2) \/
  pool_submission now ns (dispatch ft now io method params ns).2.
Proof.
  unfold dispatch. repeat case_bool_decide;
    rewrite ?with_params_state, ?answer_state; try (by right; left).
  - destruct (read_submit_req params) as [r|] eqn:Er; [|by right; left].
    rewrite answer_state, submit_block_state. destruct (decode_block r) as [b|e|] eqn:Ed; [|by right; left..].
    left. exists r, b. split_and!; try done. by eapply decode_block_typed; [eapply read_submit_req_typed|].
  - right. left. destruct (read_get_block_req params) as [h|]; [|done]. unfold serve_get_block.
    destruct (get_block ns h) as [[d|]|e|]; try done. by destruct (detail_value d).
  - right. destruct (read_submit_tx_req params) as [r|]; [|by left]. rewrite answer_state.
    apply submit_tx_submission.
  - right. destruct (read_submit_transfer_req params) as [r|] eqn:Er; [|by left]. rewrite answer_state.
    by apply submit_transfer_submission, read_submit_transfer_typed with params.
  - right. left. destruct (read_addr_req params); [|done]. by rewrite answer_state.
  - right. left. destruct (read_addr_req params); [|done]. by rewrite answer_state.
  - right. left. destruct (read_emission_series_req params); [|done]. by rewrite answer_state.
Qed.

(** A request applies the block it submits, or makes one entry to the pool, or nothing. *)
Lemma serve_effect now io req (ns : Node) :
  (exists b, request_block req = Some b /\ typed b = true /\
     (serve ft now io req ns).2 = (try_apply_block ft now io b ns).2) \/
  pool_submission now ns (serve ft now io req ns).2.
Proof.
  unfold serve, request_block, request_call, read_bounded_body.
  case_bool_decide as Hp.
  2:{ right. left. repeat case_bool_decide; done. }
  destruct (_ <? _); [by right; left|].
  destruct (rq_json req ≫= read_rpc_req) as [[method params]|]; [|by right; left]. cbn [mbind option_bind].
  destruct (dispatch_effect now io method params ns) as [(r & b & -> & Hr & Hd & Tb & ->)|Hd]; [|by right].
  left. exists b. rewrite bool_decide_eq_true_2 by done. rewrite Hr. cbn [mbind option_bind]. by rewrite Hd.
Qed.
End system.
