(* ===== verification/SystemProps.v ===== *)
(** * SystemProps: histories of a node

    The machine of [System] stays up under every event but a kill; its log is one growing
    chain under the rules of its genesis file, across kills and restarts. *)

From S2P Require Export System Supply.
From Stdlib Require Import Strings.Byte.

Local Open Scope Z_scope.

Section histories.
Context {St : Type} `{StateStoreLaws St} `{HashPrims} `{SigPrims} `{StateCodecs} {CB : Cbor Block}
  {CT : Cbor TxBody} {CW : Cbor Witness} `{Hex} `{Bech32} `{ErrorTexts}.
Context (ft : Features) (mem_new : St) (g : Genesis) (treasury : option string) (self_mine : bool).
Notation Node := (NodeState St).
Notation step := (sys_step ft mem_new g treasury self_mine).
Notation run := (sys_run ft mem_new g treasury self_mine).

(** ** Invariants along a history *)

Lemma run_cons s e es : run s (e :: es) = run (step s e) es.
Proof. done. Qed.

Lemma run_app s es1 es2 : run s (es1 ++ es2) = run (run s es1) es2.
Proof. apply foldl_app. Qed.

(** An invariant indexed by the blocks of the log, which every step may extend. *)
Lemma run_extends (P : System St -> Event -> Prop) (I : System St -> list Block -> Prop) s es bs :
  (forall s e bs, P s e -> I s bs -> Z.of_nat (length bs) < 2 ^ 64 - 2 ->
     exists more, (length more <= 1)%nat /\ I (step s e) (bs ++ more)) ->
  throughout ft mem_new g treasury self_mine P s es -> I s bs ->
  Z.of_nat (length bs + length es) < 2 ^ 64 - 2 ->
  exists more, (length more <= length es)%nat /\ I (run s es) (bs ++ more).
Proof.
  intros Hstep. revert s bs. induction es as [|e es IH]; intros s bs HP HI Hlen.
  { exists []. by rewrite app_nil_r. }
  destruct HP as [Hp HP]. cbn [length] in Hlen.
  destruct (Hstep s e bs Hp HI ltac:(lia)) as (m1 & Hm1 & HI1).
  destruct (IH (step s e) (bs ++ m1) HP HI1) as (m2 & Hm2 & HI2); [rewrite length_app; lia|].
  exists (m1 ++ m2). rewrite app_assoc, run_cons, length_app. cbn [length]. split; [lia|done].
Qed.

Lemma throughout_app (P : System St -> Event -> Prop) s es1 es2 :
  throughout ft mem_new g treasury self_mine P s (es1 ++ es2) <->
  throughout ft mem_new g treasury self_mine P s es1 /\
  throughout ft mem_new g treasury self_mine P (run s es1) es2.
Proof.
  revert s. induction es1 as [|e es1 IH]; intros s; cbn; [tauto|]. rewrite IH. tauto.
Qed.

(** ** Availability *)

Definition miner_sound (m : Miner) : Prop :=
  match m with
  | Hunting hdr body _ => typed hdr = true /\ typed body = true
  | Crashed => False
  | _ => True
  end.

Definition up (s : System St) : Prop :=
  match s with Up ns m => sound ns /\ miner_sound m | Down _ => False end.

(** Clocks are 64-bit numbers. *)
Definition event_typed (e : Event) : Prop :=
  match e with Wake _ block_ts => in_u 64 block_ts | _ => True end.

Lemma typed_template parent_hash h bits cb sa ha ts body :
  is_array 32 parent_hash = true -> in_u 32 bits -> is_array 32 cb = true -> in_u 8 sa -> in_u 8 ha ->
  in_u 64 ts -> typed (template_from_parent_with_body parent_hash h bits cb sa ha ts body) = true.
Proof.
  intros Hp Hb Hc Hsa Hha Hts. unfold typed, typed_BlockHeader, template_from_parent_with_body.
  cbn -[in_ub is_array]. rewrite !andb_true_iff, !in_ub_spec, !is_array_spec in *.
  assert (in_u 64 (wrapping_add 64 h 1)) as Hh.
  { unfold in_u, wrapping_add. apply Z.mod_pos_bound. lia. }
  split_and!; try done; apply length_blake3.
Qed.

Lemma pending_body_typed (ns : Node) : node_typed ns -> typed (pending_body ns) = true.
Proof.
  intros [Hp _]. destruct (pool_typed_pulled (ns_mempool ns) 256 Hp) as [Ht Hw].
  unfold typed, typed_BlockBody, pending_body. cbn [body_txs body_witnesses].
  apply andb_true_iff. by split.
Qed.

Lemma expected_bits_Ok (ns : Node) b ts : workable_bits (bh_bits (blk_header b)) ->
  exists bits, workable_bits bits /\
    expected_bits ns (bh_bits (blk_header b)) (bh_height (blk_header b))
      (bh_timestamp_ms (blk_header b)) ts = Ok bits.
Proof.
  intros Hw. pose proof (expected_bits_lands ns b ts Hw) as Hl.
  unfold expected_bits, next_bits_from_parent in *. cbn zeta in *.
  destruct (asert_target _ _ _ _ _ _ _) as [t|e|] eqn:Et; [eexists; split; [exact Hl|reflexivity]| |done].
  exfalso. revert Et. unfold asert_target, asert_hi, rust_clamp.
  destruct (_ || _); [done|]. by destruct (_ <? _).
Qed.

Lemma miner_wake_sound now block_ts (ns : Node) : sound ns -> in_u 64 block_ts ->
  miner_sound (miner_wake now block_ts ns).
Proof.
  intros [Hn (p & Ht & Hw)] Hts. unfold miner_wake. destruct (_ <? _); [done|]. rewrite Ht.
  unfold self_template. rewrite Ht. destruct (expected_bits_Ok ns p block_ts Hw) as (bits & [Hb _] & ->).
  cbn. split; [|by apply pending_body_typed].
  destruct Hn as (_ & Hc & _ & Hsa & Hha & _). apply typed_template; try done.
  apply is_array_spec, length_hash_header.
Qed.

Lemma typed_with_nonce h n : typed h = true -> in_u 64 n -> typed (with_nonce h n) = true.
Proof.
  unfold typed, typed_BlockHeader, with_nonce. cbn -[in_ub is_array].
  rewrite !andb_true_iff, !in_ub_spec. intros Hh Hn. destruct_and!. by split_and!.
Qed.

Lemma miner_attempt_sound now io hdr body th (ns : Node) : sound ns -> miner_sound (Hunting hdr body th) ->
  let '(m, ns') := miner_attempt ft now io hdr body th ns in sound ns' /\ miner_sound m.
Proof.
  intros Hn [Th Tb]. unfold miner_attempt. destruct (meets_target _ _).
  - destruct (try_apply_sound ft now io {| blk_header := hdr; blk_body := body |} ns Hn) as [Hl Hs].
    { unfold typed, typed_Block. apply andb_true_iff. by split. }
    by destruct (try_apply_block _ _ _ _ ns) as [[[]|e|] ns'].
  - split; [done|]. destruct (if _ =? 0 then _ else _); [done|]. split; [|done].
    apply typed_with_nonce; [done|]. unfold in_u, wrapping_add. apply Z.mod_pos_bound. lia.
Qed.

Lemma step_up s e : up s -> e <> Kill -> event_typed e -> up (step s e).
Proof.
  destruct s as [ns m|disk]; [|done]. intros [Hn Hm] He Te. destruct e as [fuel| |now io req|now ts|now io|]; try done.
  - cbn. by destruct m.
  - cbn. by destruct m.
  - cbn. destruct (serve_serves ft now io req ns Hn) as (resp & Hr & _ & Hn').
    destruct (serve ft now io req ns) as [r ns']. cbn in Hr, Hn'. subst r. by destruct m.
  - cbn. destruct m; try done. split; [done|]. by apply miner_wake_sound.
  - cbn. destruct m as [| |hdr body th|]; try done.
    pose proof (miner_attempt_sound now io hdr body th ns Hn Hm) as Hs.
    by destruct (miner_attempt _ _ _ _ _ _ ns) as [m ns'].
Qed.

(** C4: Nothing but the end of its process stops a node.  From a node in order, under any
    sequence of requests, templates and attempts of the miner, whatever the disk does, the
    process is up, its node is in order, and its mining thread is alive. *)
Theorem system_available s es : up s ->
  (forall e, e ∈ es -> e <> Kill /\ event_typed e) ->
  exists ns m, run s es = Up ns m /\ sound ns /\ m <> Crashed.
Proof.
  revert s. induction es as [|e es IH]; intros s Hs He.
  - destruct s as [ns m|]; [|done]. exists ns, m. destruct Hs as [Hn Hm].
    split_and!; [done|done|]. by intros ->.
  - rewrite run_cons. apply IH; [|intros e' He'; apply He; by right].
    destruct (He e) as [Hk Ht]; [by left|]. by apply step_up.
Qed.

(** ** The log *)

(** The parameters of a node started from [g]. *)
Definition rules_of (ns : Node) : Prop :=
  configured g ns /\ ns_target_block_time_ms ns = gen_target_block_time_ms g /\
  ns_bootstrap_asert_tau_ms ns = gen_bootstrap_asert_tau_ms g /\
  ns_asert_tau_ms ns = gen_asert_tau_ms g.

Lemma rules_of_same (ns ns' : Node) : rules_of ns -> rules_of ns' -> same_rules ns ns'.
Proof.
  intros ((E1 & E2) & E3 & E4 & E5) ((F1 & F2) & F3 & F4 & F5). unfold same_rules.
  by rewrite E1, E2, E3, E4, E5, F1, F2, F3, F4, F5.
Qed.

Lemma same_rules_of (ns ns' : Node) : rules_of ns -> same_rules ns ns' -> rules_of ns'.
Proof.
  intros ((E1 & E2) & E3 & E4 & E5) (F1 & F2 & F3 & F4 & F5). unfold rules_of, configured.
  by rewrite F1, F2, F3, F4, F5, E1, E2, E3, E4, E5.
Qed.

(** A log of [init] and of nodes started from [g]: empty, or a chain from its genesis block
    under its rules. *)
Definition log_ok (bs : list Block) : Prop :=
  forallb storable bs = true /\ Z.of_nat (length bs) < 2 ^ 64 - 1 /\
  (bs = [] \/ (exists b0, head bs = Some b0 /\ genesis_block g b0) /\
   forall ns, rules_of ns -> chain_ok ns bs).

Definition node_inv (ns : Node) (bs : list Block) : Prop :=
  bs <> [] /\ log_ok bs /\ store_holds (ns_store ns) bs /\ rules_of ns /\ sound ns /\
  mempool_ok (ns_mempool ns).

(** The process is in order on that log, or the disk holds it. *)
Definition sys_ok (s : System St) (bs : list Block) : Prop :=
  match s with
  | Down disk => default [] disk = log_bytes bs /\ log_ok bs
  | Up ns m => node_inv ns bs /\ miner_sound m
  end.

(** Events with a disk that works, and with blocks the log can frame. *)
Definition orderly (s : System St) (e : Event) : Prop :=
  event_typed e /\
  match e with
  | Init fuel =>
      match s with
      | Down disk => forall b cs, cmd_init fuel None g disk = Ok (Some (b, cs)) -> storable b = true
      | Up _ _ => True
      end
  | Request _ io req =>
      io = None /\ forall b, request_block req = Some b -> storable b = true
  | Attempt _ io =>
      io = None /\
      match s with
      | Up _ (Hunting hdr body _) => storable {| blk_header := hdr; blk_body := body |} = true
      | _ => True
      end
  | _ => True
  end.

Lemma chain_workable (ns : Node) bs b0 : chain_ok ns bs -> head bs = Some b0 ->
  workable_bits (bh_bits (blk_header b0)) ->
  exists p, last bs = Some p /\ workable_bits (bh_bits (blk_header p)).
Proof.
  intros Hc. induction Hc as [b Hb|bs p b Hc IH Hp Hl]; intros Hh Hw.
  - injection Hh as ->. by exists b0.
  - exists b. rewrite last_snoc. split; [done|].
    assert (head bs = Some b0) as Hh'.
    { destruct bs as [|x bs]; [done|]. exact Hh. }
    destruct (IH Hh' Hw) as (p' & Hp' & Hw'). rewrite Hp in Hp'. injection Hp' as <-.
    destruct Hl as (_ & _ & Hbits & _).
    pose proof (expected_bits_lands ns p (bh_timestamp_ms (blk_header b)) Hw') as Hl.
    rewrite Hbits in Hl. exact Hl.
Qed.

Lemma log_ok_node (ns : Node) bs : bs <> [] -> log_ok bs -> store_holds (ns_store ns) bs -> rules_of ns ->
  node_ok ns bs.
Proof. intros Hne (_ & Hlen & [?|[_ Hc]]) Hs Hr; [done|]. split_and!; [done|by apply Hc|done]. Qed.

Lemma log_ok_snoc (ns : Node) bs p b : bs <> [] -> log_ok bs -> rules_of ns -> last bs = Some p ->
  linked ns p b -> storable b = true -> Z.of_nat (length bs) < 2 ^ 64 - 2 -> log_ok (bs ++ [b]).
Proof.
  intros Hne (Hs & Hlen & [?|[(b0 & Hh & Hg) Hc]]) Hr Hp Hl Hb Hroom; [done|]. split_and!.
  - rewrite forallb_app, Hs. cbn. by rewrite Hb.
  - rewrite length_app. cbn. lia.
  - right. split.
    + exists b0. split; [|done]. by destruct bs.
    + intros ns' Hr'. econstructor; [by apply Hc|exact Hp|].
      eapply linked_rules; [|exact Hl]. by apply rules_of_same.
Qed.

(** A submitted block is committed on top of the log, rejected by the ledger, or without any
    effect. *)
Lemma try_apply_outcome now b (ns : Node) bs : node_inv ns bs -> storable b = true ->
  Z.of_nat (length bs) < 2 ^ 64 - 2 ->
  let ns' := (try_apply_block ft now None b ns).2 in
  (exists p reward out s cs, last bs = Some p /\ linked ns p b /\
     block_reward ns (blk_header b) = Ok reward /\
     apply_block ft b reward (ns_state ns) = (Ok out, s) /\
     append None b (ns_store ns) = (Ok tt, cs) /\
     ns' = committed b reward s cs ns /\ node_inv ns' (bs ++ [b])) \/
  (exists reward e s, block_reward ns (blk_header b) = Ok reward /\
     apply_block ft b reward (ns_state ns) = (Err e, s) /\
     ns' = set_state s ns /\ node_inv ns' bs) \/
  ns' = ns.
Proof.
  intros (Hne & Hlog & Hst & Hr & Hn & Hmp) Hb Hroom.
  pose proof (log_ok_node ns bs Hne Hlog Hst Hr) as Hok.
  destruct (node_ok_tip _ _ Hok) as (p & Hp & Ht).
  assert (typed b = true) as Tb by (unfold storable in Hb; by apply andb_true_iff in Hb as [? _]).
  pose proof (try_apply_sound ft now None b ns Hn Tb) as [Hland Hn']. revert Hland Hn'.
  unfold try_apply_block, mbind, stm_bind.
  destruct (check_block now ns b) as [[]|e|] eqn:Ec; [|by right; right|done].
  apply (check_block_Ok now ns p b Ht) in Ec as (_ & _ & Hl).
  destruct (commit_block ft None b ns) as [r ns'] eqn:Ecm. cbn [fst snd]. intros Hland Hn'.
  destruct (commit_block_cases ft b ns r ns' Hb Ecm)
    as [(reward & out & s & cs & R1 & R2 & R3 & -> & ->)
       |[(reward & e & s & R1 & R2 & -> & ->)|[(-> & _)|(e & _ & -> & ->)]]]; [| |done|by right; right].
  - left. exists p, reward, out, s, cs. do 6 (split; [done|]).
    destruct (append_holds _ _ b Hst Hb ltac:(lia)) as (cs' & Happ' & Hst').
    rewrite R3 in Happ'. injection Happ' as <-.
    split; [by destruct bs|]. split; [by eapply log_ok_snoc|]. split; [exact Hst'|].
    split; [eapply same_rules_of; [exact Hr|]; by repeat split|]. split; [exact Hn'|by apply confirm_ok].
  - right. left. exists reward, e, s. do 3 (split; [done|]). by split_and!.
Qed.

(** A block that is submitted extends the log by itself, or not at all. *)
Lemma try_apply_inv now b (ns : Node) bs : node_inv ns bs -> storable b = true ->
  Z.of_nat (length bs) < 2 ^ 64 - 2 ->
  exists more, (length more <= 1)%nat /\ node_inv (try_apply_block ft now None b ns).2 (bs ++ more).
Proof.
  intros Hn Hb Hroom.
  destruct (try_apply_outcome now b ns bs Hn Hb Hroom)
    as [(p & reward & out & s & cs & _ & _ & _ & _ & _ & _ & Hn')|[(reward & e & s & _ & _ & _ & Hn')|Hsame]].
  - by exists [b].
  - exists []. rewrite app_nil_r. split; [cbn; lia|done].
  - exists []. cbn zeta in Hsame. rewrite app_nil_r, Hsame. split; [cbn; lia|done].
Qed.

Lemma pool_submission_inv now (ns ns' : Node) bs : node_inv ns bs -> pool_submission now ns ns' ->
  node_inv ns' bs.
Proof.
  intros (Hne & Hlog & Hst & Hr & Hn & Hmp) Hp.
  pose proof (pool_submission_sound now ns ns' Hn Hp) as Hn'.
  destruct Hp as [->|(body & w & _ & _ & ->)]; [by split_and!|].
  split_and!; try done. by apply submit_ok.
Qed.

(** ** Starting *)

Lemma replay_typed p gt blocks todo acc acc' : typed p = true ->
  in_u 128 acc.1.2 -> (forall r, acc.2 = Some r -> in_u 128 r) ->
  replay ft (St:=St) p gt blocks todo acc = Ok acc' ->
  in_u 128 acc'.1.2 /\ forall r, acc'.2 = Some r -> in_u 128 r.
Proof.
  intros Tp. revert acc. induction todo as [|b todo IH]; intros [[mem minted] prev] Hm Hp Hr; cbn [fst snd] in *.
  { injection Hr as <-. done. }
  cbn [replay] in Hr. apply outcome_bind_Ok in Hr as (acc1 & Hb & Hr).
  apply (IH acc1); [| |exact Hr]; unfold replay_block in Hb;
    apply outcome_bind_Ok in Hb as (reward & Hrew & Hb);
    pose proof (reward_in_u128 _ _ _ _ _ _ _ _ Tp Hp Hrew) as Hu;
    destruct (apply_block ft b reward mem) as [[out|e|] mem']; try discriminate;
    injection Hb as <-; cbn [fst snd].
  - unfold in_u, saturating_add, u_max in *. lia.
  - by intros r [= <-].
Qed.

Lemma cmd_run_fields disk (ns : Node) : cmd_run ft mem_new g treasury disk = Ok ns ->
  typed g = true ->
  ns_mempool ns = Mempool_new 10000 /\ ns_coinbase ns = run_coinbase g treasury /\
  ns_bits ns = gen_initial_bits g /\ ns_sig_algo ns = gen_sig_algo g /\
  ns_hash_algo ns = gen_hash_algo g /\ ns_emission ns = emission_params g /\
  in_u 128 (ns_minted_so_far ns) /\ forall r, ns_prev_reward_sat ns = Some r -> in_u 128 r.
Proof.
  intros Hr Tg. unfold cmd_run in Hr. apply outcome_bind_Ok in Hr as (store & _ & Hr).
  destruct (tip store); [|discriminate]. apply outcome_bind_Ok in Hr as (blocks & _ & Hr).
  apply outcome_bind_Ok in Hr as (mem & _ & Hr).
  apply outcome_bind_Ok in Hr as ([[s minted] prev] & Hrep & Hr). injection Hr as <-.
  apply replay_typed in Hrep as [Hm Hp]; [by split_and!|by apply emission_params_modest|done|done].
Qed.

Lemma cmd_run_typed disk (ns : Node) : typed g = true -> cmd_run ft mem_new g treasury disk = Ok ns ->
  (forall b, tip (ns_store ns) = Some b -> typed b = true) -> node_typed ns.
Proof.
  intros Tg Hr Ht. destruct (cmd_run_fields disk ns Hr Tg) as (E1 & E2 & E3 & E4 & E5 & E6 & Hm & Hp).
  unfold node_typed. rewrite E1, E2, E3, E4, E5, E6.
  pose proof Tg as Tg'. unfold typed, typed_Genesis in Tg'. rewrite !andb_true_iff, !in_ub_spec in Tg'.
  split_and!; try tauto.
  - intros h t Hl. done.
  - apply is_array_spec, length_run_coinbase.
  - by apply emission_params_modest.
Qed.

(** A start on a log in order gives a node in order. *)
Lemma cmd_run_inv disk (ns : Node) bs : typed g = true -> workable_bits (gen_initial_bits g) ->
  default [] disk = log_bytes bs -> log_ok bs -> cmd_run ft mem_new g treasury disk = Ok ns ->
  node_inv ns bs /\ exists mem, genesis_state mem_new g = Ok mem /\ synced ft mem ns bs.
Proof.
  intros Tg Hw Hd Hlog Hr. pose proof Hlog as (Hs & _).
  destruct (cmd_run_Ok ft mem_new g treasury disk ns bs Hd Hs Hr) as (Hst & Hcfg & Hsync).
  split; [|exact Hsync]. pose proof (cmd_run_params ft mem_new g treasury disk ns Hr) as (P1 & P2 & P3).
  assert (rules_of ns) as Hru by by split_and!.
  assert (bs <> []) as Hne.
  { intros ->. unfold cmd_run in Hr. apply outcome_bind_Ok in Hr as (cs & Ho & Hr). apply map_err_Ok in Ho.
    unfold open, prime in Ho. cbn [cs_disk] in Ho. rewrite (read_all_holds disk [] Hd Hs) in Ho.
    injection Ho as <-. discriminate Hr. }
  pose proof (log_ok_node ns bs Hne Hlog Hst Hru) as Hok.
  destruct Hlog as (_ & Hlen & [?|[(b0 & Hh & Hg) Hc]]); [done|].
  assert (workable_bits (bh_bits (blk_header b0))) as Hw0 by (destruct Hg as (_ & _ & _ & -> & _); done).
  destruct (chain_workable ns bs b0 (proj1 (proj2 Hok)) Hh Hw0) as (p & Hp & Hwp).
  assert (tip (ns_store ns) = Some p) as Ht by (destruct Hst as (_ & Ht & _); unfold tip; by rewrite Ht).
  assert (typed p = true) as Tp.
  { rewrite forallb_forall in Hs. rewrite last_lookup in Hp.
    apply list_elem_of_lookup_2, list_elem_of_In, Hs in Hp. unfold storable in Hp.
    by apply andb_true_iff in Hp as [? _]. }
  split; [done|]. split; [split_and!; [done|done|]; right; split; [by exists b0|done]|].
  do 2 (split; [done|]). split.
  - split; [|by exists p]. eapply cmd_run_typed; [done|exact Hr|]. by rewrite Ht; intros b [= <-].
  - destruct (cmd_run_fields disk ns Hr Tg) as (-> & _). by apply mempool_new_ok.
Qed.

(** ** One step *)

(** The step may extend the log. *)
Definition extends (s : System St) (bs : list Block) : Prop :=
  exists more, (length more <= 1)%nat /\ sys_ok s (bs ++ more).

Lemma extends_same s bs : sys_ok s bs -> extends s bs.
Proof. exists []. rewrite app_nil_r. split; [cbn; lia|done]. Qed.

Lemma request_ok now req (ns : Node) m bs : node_inv ns bs -> miner_sound m ->
  (forall b, request_block req = Some b -> storable b = true) ->
  Z.of_nat (length bs) < 2 ^ 64 - 2 -> extends (step (Up ns m) (Request now None req)) bs.
Proof.
  intros Hn Hm Hb Hroom.
  pose proof (serve_serves ft now None req ns ltac:(apply Hn)) as (resp & Hr & _).
  pose proof (serve_effect ft now None req ns) as Heff. cbn [sys_step].
  destruct (serve ft now None req ns) as [r ns']. cbn [fst snd] in *. subst r.
  enough (exists more, (length more <= 1)%nat /\ node_inv ns' (bs ++ more)) as (more & Hl & Hn')
    by (exists more; split; [done|]; destruct m; by split).
  destruct Heff as [(b & Hrb & _ & ->)|Hp].
  - apply try_apply_inv; auto.
  - exists []. rewrite app_nil_r. split; [cbn; lia|]. by eapply pool_submission_inv.
Qed.

Lemma attempt_ok now hdr body th (ns : Node) bs : node_inv ns bs -> miner_sound (Hunting hdr body th) ->
  storable {| blk_header := hdr; blk_body := body |} = true ->
  Z.of_nat (length bs) < 2 ^ 64 - 2 ->
  extends (step (Up ns (Hunting hdr body th)) (Attempt now None)) bs.
Proof.
  intros Hn Hm Hb Hroom. cbn [sys_step].
  pose proof (miner_attempt_sound now None hdr body th ns ltac:(apply Hn) Hm) as Hms.
  unfold miner_attempt in *. destruct (meets_target _ _).
  - destruct (try_apply_inv now _ ns bs Hn Hb Hroom) as (more & Hl & Hn').
    exists more. split; [done|].
    destruct (try_apply_block _ _ _ _ ns) as [[[]|e|] ns']; (split; [exact Hn'|apply Hms]).
  - apply extends_same. split; [done|apply Hms].
Qed.

Lemma down_ok disk e bs : typed g = true -> workable_bits (gen_initial_bits g) ->
  orderly (Down disk) e -> sys_ok (Down disk) bs -> extends (step (Down disk) e) bs.
Proof.
  intros Tg Hw [Te Ho] [Hd Hlog].
  destruct e as [fuel| |now io req|now ts|now io|]; cbn [sys_step]; try by apply extends_same.
  - destruct (cmd_init fuel None g disk) as [[[b cs]|]|e|] eqn:Ei; try by apply extends_same.
    destruct (cmd_init_log fuel g disk bs b cs Hd (proj1 Hlog) Ei (Ho b cs eq_refl)) as (-> & Hst & Hg).
    exists [b]. split; [cbn; lia|]. split; [apply Hst|]. split_and!; [|cbn; lia|].
    + cbn. by rewrite (Ho b cs eq_refl).
    + right. split; [by exists b|]. intros ns _. constructor. apply Hg.
  - destruct (cmd_run ft mem_new g treasury disk) as [ns|e|] eqn:Er; try by apply extends_same.
    destruct (cmd_run_inv disk ns bs Tg Hw Hd Hlog Er) as [Hn _].
    apply extends_same. split; [done|]. by destruct self_mine.
Qed.

Lemma step_ok s e bs : typed g = true -> workable_bits (gen_initial_bits g) ->
  orderly s e -> sys_ok s bs -> Z.of_nat (length bs) < 2 ^ 64 - 2 -> extends (step s e) bs.
Proof.
  intros Tg Hw Ho Hs Hroom. destruct s as [ns m|disk]; [|by apply down_ok].
  destruct Hs as [Hn Hm], Ho as [Te Ho]. destruct e as [fuel| |now io req|now ts|now io|].
  - cbn [sys_step]. destruct m; by apply extends_same.
  - cbn [sys_step]. destruct m; by apply extends_same.
  - destruct Ho as [-> Hb]. by apply request_ok.
  - cbn [sys_step]. destruct m; apply extends_same; (split; [done|]); try done.
    apply miner_wake_sound; [apply Hn|done].
  - destruct Ho as [-> Hb]. destruct m as [| |hdr body th|]; try by apply extends_same.
    by apply attempt_ok.
  - apply extends_same. cbn [sys_step]. assert (sys_ok (Down (cs_disk (ns_store ns))) bs) as Hd
      by (split; apply Hn). by destruct m.
Qed.

(** C3: The life of a chain.  From an empty directory, under any history of initialisations,
    starts, requests, mining and kills with a working disk, the log is empty or a chain of
    linked blocks from the genesis block of the file; a running node holds exactly that
    chain, is in order, keeps its pool in order and has a living miner; and no block that was
    in the log ever leaves it. *)
Theorem system_safe es1 es2 : typed g = true -> workable_bits (gen_initial_bits g) ->
  throughout ft mem_new g treasury self_mine orderly (Down None) (es1 ++ es2) ->
  Z.of_nat (length (es1 ++ es2)) < 2 ^ 64 - 2 ->
  exists bs more, sys_ok (run (Down None) es1) bs /\
    sys_ok (run (Down None) (es1 ++ es2)) (bs ++ more).
Proof.
  intros Tg Hw Ho Hlen. apply throughout_app in Ho as [Ho1 Ho2]. rewrite length_app in Hlen.
  destruct (run_extends orderly sys_ok (Down None) es1 []) as (bs & Hl1 & H1');
    [by intros s e bs; apply step_ok|done| |cbn; lia|].
  { split; [done|]. split_and!; [done|cbn; lia|by left]. }
  destruct (run_extends orderly sys_ok (run (Down None) es1) es2 bs) as (more & _ & H2');
    [by intros s e bs'; apply step_ok|done|done|lia|].
  exists bs, more. by rewrite run_app.
Qed.
End histories.
