(* ===== verification/SystemReplay.v ===== *)
(** * SystemReplay: restarts and the miner in the machine of a node

    As long as the ledger rejects blocks without a trace, a restart finds the node that was
    running; and the rounds of [self_miner_loop] are histories of the machine.  The conditions
    on a history are decidable. *)

From S2P Require Export SystemProps.
From Stdlib Require Import Strings.Byte.

Local Open Scope Z_scope.

Section histories.
Context {St : Type} `{StateStoreLaws St} `{HashPrims} `{SigPrims} `{StateCodecs} {CB : Cbor Block}
  {CT : Cbor TxBody} {CW : Cbor Witness} `{Hex} `{Bech32} `{ErrorTexts}.
Context (ft : Features) (mem_new : St) (g : Genesis) (treasury : option string) (self_mine : bool).
Notation Node := (NodeState St).
Notation step := (sys_step ft mem_new g treasury self_mine).
Notation run := (sys_run ft mem_new g treasury self_mine).
Notation sys_ok := (sys_ok (St:=St) g).
Notation node_inv := (node_inv (St:=St) g).
Notation rules_of := (rules_of (St:=St) g).
Notation orderly := (orderly (St:=St) g).

(** ** Restarts *)

(** The ledger rejects the block without a trace, if it does. *)
Definition rejects_cleanly (ns : Node) (b : Block) : Prop :=
  forall reward e s, block_reward ns (blk_header b) = Ok reward ->
    apply_block ft b reward (ns_state ns) = (Err e, s) -> s = ns_state ns.

Definition clean (s : System St) (e : Event) : Prop :=
  match s, e with
  | Up ns _, Request _ _ req => forall b, request_block req = Some b -> rejects_cleanly ns b
  | Up ns (Hunting hdr body _), Attempt _ _ =>
      rejects_cleanly ns {| blk_header := hdr; blk_body := body |}
  | _, _ => True
  end.

(** The ledger is what a replay of the log computes, or the log can be replayed. *)
Definition replayable (mem : St) (s : System St) (bs : list Block) : Prop :=
  sys_ok s bs /\
  match s with
  | Up ns _ => synced ft mem ns bs
  | Down _ => exists acc, replay ft (emission_params g) (gen_genesis_time_ms g) bs bs (mem, 0, None) = Ok acc
  end.

Lemma try_apply_clean mem now b (ns : Node) bs : node_inv ns bs -> synced ft mem ns bs ->
  storable b = true -> rejects_cleanly ns b -> Z.of_nat (length bs) < 2 ^ 64 - 2 ->
  exists more, (length more <= 1)%nat /\ node_inv (try_apply_block ft now None b ns).2 (bs ++ more) /\
    synced ft mem (try_apply_block ft now None b ns).2 (bs ++ more).
Proof.
  intros Hn Hsy Hb Hcl Hroom. pose proof Hn as (Hne & Hlog & Hst & Hr & Hso & Hmp).
  pose proof (log_ok_node g ns bs Hne Hlog Hst Hr) as Hok.
  destruct (try_apply_outcome ft g now b ns bs Hn Hb Hroom)
    as [(p & reward & out & s & cs & Hp & Hl & R1 & R2 & R3 & -> & Hn')
       |[(reward & e & s & R1 & R2 & -> & Hn')|Hsame]].
  - exists [b]. split; [done|]. split; [done|]. by eapply synced_commit.
  - exists []. rewrite app_nil_r. split; [cbn; lia|]. split; [done|].
    by rewrite (Hcl reward e s R1 R2).
  - exists []. cbn zeta in Hsame. rewrite app_nil_r, Hsame. split; [cbn; lia|done].
Qed.

Lemma genesis_replays mem b : typed g = true -> typed b = true -> genesis_block g b ->
  exists acc, replay ft (St:=St) (emission_params g) (gen_genesis_time_ms g) [b] [b] (mem, 0, None) = Ok acc.
Proof.
  intros Tg Tb (Hh & Ht & _ & _ & Htx & _). cbn [replay]. unfold replay_block.
  destruct (current_reward_with_height_Ok (emission_params g) (proj1 (emission_params_modest g Tg))
    (E:=NodeError) (gen_genesis_time_ms g) (bh_timestamp_ms (blk_header b))
    (replay_parent_ts (gen_genesis_time_ms g) [b] b) 0 (bh_height (blk_header b)) None)
    as (r & -> & _ & Hz & _). cbn [mbind outcome_bind]. rewrite Hz by lia.
  destruct (transfer_block_applies ft b 0 mem [miner_of b] 0 []) as (out & s & -> & _); try done.
  - by rewrite Htx.
  - rewrite Htx. constructor.
  - rewrite Htx. constructor.
  - unfold covers. rewrite Htx. split_and!; [apply NoDup_singleton|by left|done].
  - pose proof (typed_balance _ (load_typed mem (miner_of b))) as [_ Hmax].
    unfold total_balance, balance, u_max. cbn [foldr]. lia.
  - by rewrite Htx.
  - by eexists.
Qed.

Lemma synced_rules mem (ns : Node) bs : rules_of ns ->
  synced ft mem ns bs <->
  replay ft (emission_params g) (gen_genesis_time_ms g) bs bs (mem, 0, None) = Ok (live ns).
Proof. intros ((E1 & E2) & _). unfold synced. by rewrite E1, E2. Qed.

Definition extends_replay (mem : St) (s : System St) (bs : list Block) : Prop :=
  exists more, (length more <= 1)%nat /\ replayable mem s (bs ++ more).

Lemma replay_same mem s bs : replayable mem s bs -> extends_replay mem s bs.
Proof. exists []. rewrite app_nil_r. split; [cbn; lia|done]. Qed.

Lemma request_replay mem now req (ns : Node) m bs : node_inv ns bs -> miner_sound m ->
  synced ft mem ns bs ->
  (forall b, request_block req = Some b -> storable b = true /\ rejects_cleanly ns b) ->
  Z.of_nat (length bs) < 2 ^ 64 - 2 -> extends_replay mem (step (Up ns m) (Request now None req)) bs.
Proof.
  intros Hn Hm Hsy Hb Hroom.
  pose proof (serve_serves ft now None req ns ltac:(apply Hn)) as (resp & Hr & _).
  pose proof (serve_effect ft now None req ns) as Heff. cbn [sys_step].
  destruct (serve ft now None req ns) as [r ns']. cbn [fst snd] in *. subst r.
  enough (exists more, (length more <= 1)%nat /\ node_inv ns' (bs ++ more) /\ synced ft mem ns' (bs ++ more))
    as (more & Hl & Hn' & Hsy')
    by (exists more; split; [done|]; destruct m; by split).
  destruct Heff as [(b & Hrb & _ & ->)|Hp].
  - destruct (Hb b Hrb). by apply try_apply_clean.
  - exists []. rewrite app_nil_r. split; [cbn; lia|]. split; [by eapply pool_submission_inv|].
    by destruct Hp as [->|(body & w & _ & _ & ->)].
Qed.

Lemma attempt_replay mem now hdr body th (ns : Node) bs : node_inv ns bs ->
  miner_sound (Hunting hdr body th) -> synced ft mem ns bs ->
  storable {| blk_header := hdr; blk_body := body |} = true ->
  rejects_cleanly ns {| blk_header := hdr; blk_body := body |} ->
  Z.of_nat (length bs) < 2 ^ 64 - 2 ->
  extends_replay mem (step (Up ns (Hunting hdr body th)) (Attempt now None)) bs.
Proof.
  intros Hn Hm Hsy Hb Hcl Hroom. cbn [sys_step].
  pose proof (miner_attempt_sound ft now None hdr body th ns ltac:(apply Hn) Hm) as Hms.
  unfold miner_attempt in *. destruct (meets_target _ _).
  - destruct (try_apply_clean mem now _ ns bs Hn Hsy Hb Hcl Hroom) as (more & Hl & Hn' & Hsy').
    exists more. split; [done|].
    destruct (try_apply_block _ _ _ _ ns) as [[[]|e|] ns']; (split; [split; [exact Hn'|apply Hms]|exact Hsy']).
  - apply replay_same. split; [split; [done|apply Hms]|done].
Qed.

Lemma down_replay mem disk e bs : typed g = true -> workable_bits (gen_initial_bits g) ->
  genesis_state mem_new g = Ok mem -> orderly (Down disk) e -> replayable mem (Down disk) bs ->
  extends_replay mem (step (Down disk) e) bs.
Proof.
  intros Tg Hw Hmem [Te Ho] [[Hd Hlog] Hrep].
  destruct e as [fuel| |now io req|now ts|now io|]; cbn [sys_step]; try by apply replay_same.
  - destruct (cmd_init fuel None g disk) as [[[b cs]|]|e|] eqn:Ei; try by apply replay_same.
    pose proof (Ho b cs eq_refl) as Hb.
    destruct (cmd_init_log fuel g disk bs b cs Hd (proj1 Hlog) Ei Hb) as (-> & Hst & Hg).
    exists [b]. split; [cbn; lia|]. split.
    + split; [apply Hst|]. split_and!; [by cbn; rewrite Hb|cbn; lia|].
      right. split; [by exists b|]. intros ns _. constructor. apply Hg.
    + apply genesis_replays; [done| |done]. unfold storable in Hb. by apply andb_true_iff in Hb as [? _].
  - destruct (cmd_run ft mem_new g treasury disk) as [ns|e|] eqn:Er; try by apply replay_same.
    destruct (cmd_run_inv ft mem_new g treasury disk ns bs Tg Hw Hd Hlog Er) as [Hn (mem' & Hm' & Hsy)].
    rewrite Hmem in Hm'. injection Hm' as <-.
    apply replay_same. split; [|done]. split; [done|]. by destruct self_mine.
Qed.

Lemma step_replayable mem s e bs : typed g = true -> workable_bits (gen_initial_bits g) ->
  genesis_state mem_new g = Ok mem -> orderly s e /\ clean s e -> replayable mem s bs ->
  Z.of_nat (length bs) < 2 ^ 64 - 2 -> extends_replay mem (step s e) bs.
Proof.
  intros Tg Hw Hmem [Ho Hc] Hrep Hroom. destruct s as [ns m|disk]; [|by apply down_replay].
  pose proof Hrep as [[Hn Hm] Hsy]. destruct Ho as [Te Ho].
  destruct e as [fuel| |now io req|now ts|now io|].
  - cbn [sys_step]. destruct m; by apply replay_same.
  - cbn [sys_step]. destruct m; by apply replay_same.
  - destruct Ho as [-> Hb]. apply request_replay; try done. intros b Hrb. split; [by apply Hb|].
    destruct m; by apply Hc.
  - cbn [sys_step]. destruct m; apply replay_same; (split; [split; [done|]|done]); try done.
    apply miner_wake_sound; [apply Hn|done].
  - destruct Ho as [-> Hb]. destruct m as [| |hdr body th|]; try by apply replay_same.
    by apply attempt_replay.
  - apply replay_same. cbn [sys_step].
    assert (replayable mem (Down (cs_disk (ns_store ns))) bs) as Hd; [|by destruct m].
    split; [split; apply Hn|]. exists (live ns). apply synced_rules; [apply Hn|done].
Qed.

(** A start needs a committee the code accepts. *)
Lemma cmd_run_genesis disk ns : cmd_run ft mem_new g treasury disk = Ok ns ->
  exists mem, genesis_state mem_new g = Ok mem.
Proof.
  unfold cmd_run. rewrite outcome_bind_Ok. intros (store & _ & Hr).
  destruct (tip store); [|discriminate]. apply outcome_bind_Ok in Hr as (blocks & _ & Hr).
  apply outcome_bind_Ok in Hr as (mem & Hm & _). by exists mem.
Qed.

Lemma never_up es disk : (forall disk ns, cmd_run ft mem_new g treasury disk <> Ok ns) ->
  exists disk', run (Down disk) es = Down disk'.
Proof.
  intros Hno. revert disk. induction es as [|e es IH]; intros disk; [by exists disk|].
  rewrite run_cons. destruct e as [fuel| |now io req|now ts|now io|]; cbn [sys_step]; try apply IH.
  - destruct (cmd_init fuel None g disk) as [[[b cs]|]|e|]; apply IH.
  - destruct (cmd_run ft mem_new g treasury disk) as [ns|e|] eqn:Er; [by destruct (Hno _ _ Er)|apply IH..].
Qed.

(** C5: Restarts.  Follow any history from an empty directory in which the disk works and the
    ledger rejects blocks without a trace.  When the code can install the committee of the
    genesis file, killing a running node and starting it again gives a running node with the
    same tip, ledger, minted total and previous reward, and an empty pool, and a start on
    the disk of a stopped node fails only if [init] has not written a block yet.  When it
    can not install the committee, no start succeeds on any disk and the node is never up. *)
Theorem system_restarts es : typed g = true -> workable_bits (gen_initial_bits g) ->
  throughout ft mem_new g treasury self_mine (fun s e => orderly s e /\ clean s e) (Down None) es ->
  Z.of_nat (length es) < 2 ^ 64 - 2 ->
  if is_ok (genesis_state mem_new g) then
    match run (Down None) es with
    | Up ns _ =>
        exists ns', run (Down None) (es ++ [Kill; Launch]) = Up ns' (if self_mine then Resting else Off) /\
          live ns' = live ns /\ tip (ns_store ns') = tip (ns_store ns) /\ mp_len (ns_mempool ns') = 0%nat
    | Down disk => default [] disk = [] \/ exists ns, cmd_run ft mem_new g treasury disk = Ok ns
    end
  else
    (forall disk ns, cmd_run ft mem_new g treasury disk <> Ok ns) /\
    exists disk, run (Down None) es = Down disk.
Proof.
  intros Tg Hw Ht Hlen. destruct (genesis_state mem_new g) as [mem|e|] eqn:Hmem; cbn [is_ok].
  2,3: assert (forall disk ns, cmd_run ft mem_new g treasury disk <> Ok ns) as Hno
      by (intros disk ns (mem & Hm)%cmd_run_genesis; congruence); split; [done|by apply never_up].
  destruct (run_extends ft mem_new g treasury self_mine (fun s e => orderly s e /\ clean s e) (replayable mem) (Down None) es [])
    as (bs & _ & Hs & Hrep).
  { intros s e bs Hp Hr Hroom. by apply step_replayable. }
  { done. }
  { split; [|by eexists]. split; [done|]. split_and!; [done|cbn; lia|by left]. }
  { cbn. lia. }
  cbn [app] in Hs, Hrep. rewrite run_app. destruct (run (Down None) es) as [ns m|disk].
  - destruct Hs as [(Hne & (Hsb & Hl & _) & Hst & Hr & _) _].
    destruct (cmd_run_complete ft mem_new g treasury (cs_disk (ns_store ns)) ns bs mem (proj1 Hst) Hsb Hne
      Hmem (proj1 Hr) Hrep) as (ns' & Hrun & Hlive & Hst' & _).
    exists ns'. split_and!.
    + unfold sys_run. cbn [foldl sys_step]. destruct m; cbn [sys_step]; by rewrite Hrun.
    + done.
    + destruct Hst as (_ & E1 & _), Hst' as (_ & E2 & _). unfold tip. by rewrite E1, E2.
    + by destruct (cmd_run_fields ft mem_new g treasury _ _ Hrun Tg) as (-> & _).
  - destruct Hs as [Hd (Hsb & Hl & _)]. destruct (decide (bs = [])) as [->|Hne]; [by left|right].
    destruct Hrep as [acc Hrep].
    destruct (cmd_run_starts ft mem_new g treasury disk bs mem acc) as (ns & Hrun & _); try done. by exists ns.
Qed.

(** ** The rounds of [self_miner_loop] are histories *)

Lemma hunt_steps now io fuel hdr body th (ns : Node) :
  match hunt fuel (target_from_bits (bh_bits hdr)) th (fun _ => tip (ns_store ns)) hdr with
  | Found hdr' => exists k, (k < fuel)%nat /\
      run (Up ns (Hunting hdr body th)) (replicate k (Attempt now io)) = Up ns (Hunting hdr' body th) /\
      meets_target (hash_header hdr') (target_from_bits (bh_bits hdr')) = true
  | Stale _ => exists k, (k <= fuel)%nat /\
      run (Up ns (Hunting hdr body th)) (replicate k (Attempt now io)) = Up ns Resting
  | Exhausted n => exists hdr', bh_nonce hdr' = n /\
      run (Up ns (Hunting hdr body th)) (replicate fuel (Attempt now io)) = Up ns (Hunting hdr' body th)
  end.
Proof.
  revert hdr. induction fuel as [|fuel IH]; intros hdr; [by exists hdr|]. cbn [hunt].
  destruct (meets_target (hash_header hdr) (target_from_bits (bh_bits hdr))) eqn:Em.
  { exists 0%nat. split; [lia|done]. }
  set (nonce := wrapping_add 64 (bh_nonce hdr) 1). set (hdr1 := with_nonce hdr nonce).
  assert (step (Up ns (Hunting hdr body th)) (Attempt now io) =
    Up ns (if if Z.land nonce 0x1fffff =? 0
              then match tip (ns_store ns) with
                   | Some cur => th <? bh_height (blk_header cur)
                   | None => false
                   end
              else false then Resting else Hunting hdr1 body th)) as Hstep.
  { cbn [sys_step]. unfold miner_attempt. by rewrite Em. }
  destruct (if _ =? 0 then _ else _).
  - exists 1%nat. split; [lia|]. exact Hstep.
  - specialize (IH hdr1). change (bh_bits hdr1) with (bh_bits hdr) in IH.
    destruct (hunt fuel _ th _ hdr1) as [hdr'|n|n].
    + destruct IH as (k & Hk & Hr & Hm). exists (S k). split; [lia|]. split; [|done].
      change (replicate (S k) (Attempt now io)) with (Attempt now io :: replicate k (Attempt now io)).
      by rewrite run_cons, Hstep.
    + destruct IH as (k & Hk & Hr). exists (S k). split; [lia|].
      change (replicate (S k) (Attempt now io)) with (Attempt now io :: replicate k (Attempt now io)).
      by rewrite run_cons, Hstep.
    + destruct IH as (hdr' & Hn & Hr). exists hdr'. split; [done|].
      change (replicate (S fuel) (Attempt now io)) with (Attempt now io :: replicate fuel (Attempt now io)).
      by rewrite run_cons, Hstep.
Qed.

(** The miner after a round. *)
Definition after_turn (t : Turn) (m : Miner) : Prop :=
  match t with
  | Waiting | Superseded | Submitted (Ok _) | Submitted (Err _) => m = Resting
  | Submitted Panic | Died => m = Crashed
  | Searching => exists hdr body th, m = Hunting hdr body th
  end.

(** The loop and the machine agree.  A round of [self_miner_loop] that nothing else
    interrupts is a history of the machine: one wake and at most as many attempts as the
    round was followed for, which leave the same node and a miner in the state the
    round's outcome says. *)
Lemma miner_round_steps rd (ns : Node) : (forall n ns, rd_world rd n ns = ns) ->
  let '(t, ns') := self_miner_turn ft rd ns in
  exists k m, (k <= rd_fuel rd)%nat /\ after_turn t m /\
    run (Up ns Resting) (Wake (rd_now rd) (rd_block_ts rd) ::
      replicate k (Attempt (rd_apply_now rd) (rd_io rd))) = Up ns' m.
Proof.
  intros Hw. set (wake := Wake (rd_now rd) (rd_block_ts rd)).
  set (goal := fun t ns' => exists k m, (k <= rd_fuel rd)%nat /\ after_turn t m /\
    run (Up ns Resting) (wake :: replicate k (Attempt (rd_apply_now rd) (rd_io rd))) = Up ns' m).
  assert (forall t m, after_turn t m -> miner_wake (rd_now rd) (rd_block_ts rd) ns = m -> goal t ns)
    as Hwake.
  { intros t m Ht Hm. exists 0%nat, m. split; [lia|]. split; [done|]. cbn. by rewrite Hm. }
  unfold self_miner_turn. unfold miner_wake in Hwake.
  destruct (rd_now rd <? ns_genesis_time_ms ns) eqn:Eg; [by apply (Hwake _ Resting)|].
  destruct (tip (ns_store ns)) as [p|] eqn:Et; [|by apply (Hwake _ Resting)].
  destruct (self_template (rd_block_ts rd) ns) as [[[hdr body]|]|e|] eqn:Es;
    [|by apply (Hwake _ Crashed)..].
  clear Hwake. set (th := bh_height (blk_header p)).
  assert (forall es, run (Up ns Resting) (wake :: es) = run (Up ns (Hunting hdr body th)) es) as Hrun.
  { intros es. rewrite run_cons. unfold wake. cbn [sys_step]. unfold miner_wake. by rewrite Eg, Et, Es. }
  assert (hunt (rd_fuel rd) (target_from_bits (bh_bits hdr)) th
            (fun n => tip (ns_store (rd_world rd n ns))) hdr =
          hunt (rd_fuel rd) (target_from_bits (bh_bits hdr)) th (fun _ => tip (ns_store ns)) hdr) as ->.
  { apply hunt_ext. intros n. by rewrite Hw. }
  pose proof (hunt_steps (rd_apply_now rd) (rd_io rd) (rd_fuel rd) hdr body th ns) as Hh.
  destruct (hunt _ _ _ _ hdr) as [hdr'|n|n].
  - destruct Hh as (k & Hk & Hr & Hm). rewrite Hw.
    destruct (try_apply_block ft (rd_apply_now rd) (rd_io rd) {| blk_header := hdr'; blk_body := body |} ns)
      as [r ns'] eqn:Ea.
    exists (S k), (match r with Panic => Crashed | _ => Resting end).
    split; [lia|]. split; [by destruct r|]. rewrite Hrun, replicate_S_end, run_app, Hr.
    cbn. unfold miner_attempt. rewrite Hm, Ea. by destruct r.
  - destruct Hh as (k & Hk & Hr). exists k, Resting. rewrite Hrun, Hr, Hw. done.
  - destruct Hh as (hdr' & _ & Hr). exists (rd_fuel rd), (Hunting hdr' body th).
    rewrite Hrun, Hr, Hw. split; [lia|]. split; [by exists hdr', body, th|done].
Qed.

(** ** Deciding the conditions on an event *)

(** A ledger that accepts the block, or rejects it in pass 1, rejects cleanly. *)
Definition cleanb (ns : Node) (b : Block) : bool :=
  match block_reward ns (blk_header b) with
  | Ok reward =>
      match pass1 ft (ns_state ns) (body_witnesses (blk_body b)) 0 0 (body_txs (blk_body b)) with
      | Ok _ => is_ok (apply_block ft b reward (ns_state ns)).1
      | _ => true
      end
  | _ => true
  end.

Lemma cleanb_spec (ns : Node) b : cleanb ns b = true -> rejects_cleanly ns b.
Proof.
  unfold cleanb, rejects_cleanly. intros Hc reward e s Hr Ha. rewrite Hr in Hc.
  destruct (pass1 ft (ns_state ns) _ 0 0 _) as [x|e'|] eqn:E1.
  - by rewrite Ha in Hc.
  - pose proof (pass1_Err_atomic ft b reward (ns_state ns) e' E1) as E. rewrite E in Ha. by injection Ha.
  - by apply pass1_no_panic in E1.
Qed.

Definition checked (s : System St) (e : Event) : bool :=
  match e with
  | Init fuel =>
      match s with
      | Down disk => match cmd_init fuel None g disk with Ok (Some (b, _)) => storable b | _ => true end
      | Up _ _ => true
      end
  | Request _ io req =>
      bool_decide (io = None) &&
      match request_block req with
      | Some b => storable b && match s with Up ns _ => cleanb ns b | Down _ => true end
      | None => true
      end
  | Wake _ block_ts => in_ub 64 block_ts
  | Attempt _ io =>
      bool_decide (io = None) &&
      match s with
      | Up ns (Hunting hdr body _) =>
          let b := {| blk_header := hdr; blk_body := body |} in storable b && cleanb ns b
      | _ => true
      end
  | _ => true
  end.

Lemma checked_spec s e : checked s e = true -> orderly s e /\ clean s e.
Proof.
  unfold orderly. destruct e as [fuel| |now io req|now ts|now io|]; cbn [checked event_typed].
  - intros Hc. split; [|by destruct s as [ns []|]]. split; [done|]. destruct s as [ns m|disk]; [done|].
    intros b cs Hi. by rewrite Hi in Hc.
  - intros _. by destruct s as [ns []|].
  - intros [->%bool_decide_eq_true Hc]%andb_true_iff.
    assert (forall b, request_block req = Some b -> storable b = true /\
      match s with Up ns _ => rejects_cleanly ns b | Down _ => True end) as Hb.
    { intros b Hb. rewrite Hb in Hc. apply andb_true_iff in Hc as [Hs Hc]. split; [done|].
      destruct s; [by apply cleanb_spec|done]. }
    split; [split_and!; [done|done|]; intros b Hrb; by apply Hb|].
    destruct s as [ns m|]; [|done]. cbn [clean]. destruct m; intros b Hrb; by apply Hb.
  - intros Hc%in_ub_spec. by destruct s as [ns []|].
  - intros [->%bool_decide_eq_true Hc]%andb_true_iff. destruct s as [ns []|]; try done.
    apply andb_true_iff in Hc as [Hs Hc]. split; [done|]. by apply cleanb_spec.
  - intros _. by destruct s as [ns []|].
Qed.

Fixpoint all_checked (s : System St) (es : list Event) : bool :=
  match es with
  | [] => true
  | e :: es => checked s e && all_checked (step s e) es
  end.

Lemma all_checked_spec s es : all_checked s es = true ->
  throughout ft mem_new g treasury self_mine (fun s e => orderly s e /\ clean s e) s es.
Proof.
  revert s. induction es as [|e es IH]; intros s; [done|]. cbn [all_checked throughout].
  intros [Hc Hes]%andb_true_iff. split; [by apply checked_spec|by apply IH].
Qed.
End histories.
