(* ===== verification/Daemon.v ===== *)
(** * Daemon: the genesis file and the commands of the node
    (crates/node/src/genesis.rs, crates/node/src/main.rs)

    [Genesis::load] over a TOML document, and [main]: one command line on the files of the
    host.  [toml] is a parameter: what its deserializer finds in a document.  The machine of
    [System] takes its [Init] and [Launch] events from here. *)

From S2P Require Export Text System.

Local Open Scope Z_scope.

(** [toml_fields] finds the fields of a struct in a table; an integer is signed and has 64
    bits; a number with or without a fraction is read as an [f64]. *)
Class Toml := {
  TomlValue : Type;
  toml_parse : string -> option TomlValue;
  ttable : list (string * TomlValue) -> TomlValue;
  tint : Z -> TomlValue;
  tstr : string -> TomlValue;
  tbool : bool -> TomlValue;
  tarr : list TomlValue -> TomlValue;
  toml_fields : list string -> TomlValue -> option (list (option TomlValue));
  toml_int : TomlValue -> option Z;
  toml_is_f64 : TomlValue -> bool;
  toml_str : TomlValue -> option string;
  toml_bool : TomlValue -> option bool;
  toml_array : TomlValue -> option (list TomlValue);
}.

Class TomlLaws `{Toml} := {
  toml_fields_table names fs : NoDup fs.*1 ->
    toml_fields names (ttable fs) = Some ((fun k => alist_lookup k fs) <$> names);
  toml_int_int n : in_sb 64 n = true -> toml_int (tint n) = Some n;
  toml_str_str s : toml_str (tstr s) = Some s;
  toml_bool_bool b : toml_bool (tbool b) = Some b;
  toml_array_arr l : toml_array (tarr l) = Some l;
}.

(** ** The genesis file *)

Section load.
Context `{Toml}.

Definition toml_u (w : Z) (v : TomlValue) : option Z :=
  n ← toml_int v; if in_ub w n then Some n else None.
Definition toml_f64 (v : TomlValue) : option unit := if toml_is_f64 v then Some tt else None.
Definition toml_list {A} (read : TomlValue -> option A) (v : TomlValue) : option (list A) :=
  toml_array v ≫= mapM read.

Definition read_member (v : TomlValue) : option GenesisCommitteeMember :=
  fs ← toml_fields ["signer_id_hex"; "sig_algo"; "pubkey_hex"] v;
  match fs with
  | [i; sa; pk] =>
      i ← required toml_str i; sa ← required (toml_u 8) sa; pk ← required toml_str pk;
      Some {| gm_signer_id_hex := i; gm_sig_algo := sa; gm_pubkey_hex := pk |}
  | _ => None
  end.

Definition genesis_fields : list string :=
  ["chain_id"; "genesis_time_ms"; "initial_bits"; "target_block_time_ms"; "retarget_interval";
   "halving_interval_base"; "seconds_per_halving"; "initial_reward_sat"; "asert_tau_ms";
   "bootstrap_asert_tau_ms"; "bootstrap_height"; "bootstrap_reward_pct";
   "max_reward_pct_change_per_block"; "max_bits_pct_change_per_block"; "accordion_epsilon";
   "accordion_beta_h"; "accordion_beta_a"; "accordion_beta_s"; "stability_window_blocks";
   "sybil_dust_floor_sat"; "sybil_min_age_blocks"; "sybil_require_paid_fee"; "sig_algo"; "hash_algo";
   "governance_pubkey_hex"; "genesis_headline_hex"; "initial_accounts"; "genesis_committee";
   "genesis_committee_threshold"; "genesis_committee_epoch"].

(** The floats have to be there; nothing else is made of them. *)
Definition read_genesis (v : TomlValue) : option Genesis :=
  fs ← toml_fields genesis_fields v;
  match fs with
  | [id; gt; bits; tbt; ri; hib; sph; irs; tau; btau; bh; brp; mrp; mbp; eps; beta_h; beta_a; beta_s;
     swb; sdf; sma; srp; sa; ha; gpk; ghh; ia; gc; gct; gce] =>
      id ← required toml_str id; gt ← required (toml_u 64) gt; bits ← required (toml_u 32) bits;
      tbt ← required (toml_u 64) tbt; ri ← required (toml_u 64) ri; hib ← required (toml_u 64) hib;
      sph ← defaulted default_seconds_per_halving (toml_u 64) sph;
      irs ← required (toml_u 64) irs;
      tau ← defaulted default_asert_tau (toml_u 64) tau;
      btau ← defaulted default_bootstrap_asert_tau (toml_u 64) btau;
      bh ← defaulted default_bootstrap_height (toml_u 64) bh;
      brp ← defaulted default_bootstrap_reward_pct (toml_u 32) brp;
      mrp ← defaulted default_max_reward_pct_change_per_block (toml_u 32) mrp;
      mbp ← defaulted default_max_bits_pct_change_per_block (toml_u 32) mbp;
      _ ← required toml_f64 eps; _ ← required toml_f64 beta_h;
      _ ← required toml_f64 beta_a; _ ← required toml_f64 beta_s;
      swb ← required (toml_u 64) swb; sdf ← required (toml_u 64) sdf; sma ← required (toml_u 64) sma;
      srp ← required toml_bool srp; sa ← required (toml_u 8) sa; ha ← required (toml_u 8) ha;
      gpk ← defaulted "" toml_str gpk; ghh ← defaulted "" toml_str ghh;
      ia ← defaulted [] (toml_list toml_str) ia; gc ← defaulted [] (toml_list read_member) gc;
      gct ← defaulted 0 (toml_u 32) gct; gce ← defaulted 0 (toml_u 64) gce;
      Some {| gen_chain_id := id; gen_genesis_time_ms := gt; gen_initial_bits := bits;
              gen_target_block_time_ms := tbt; gen_retarget_interval := ri;
              gen_halving_interval_base := hib; gen_seconds_per_halving := sph;
              gen_initial_reward_sat := irs; gen_asert_tau_ms := tau;
              gen_bootstrap_asert_tau_ms := btau; gen_bootstrap_height := bh;
              gen_bootstrap_reward_pct := brp; gen_max_reward_pct_change_per_block := mrp;
              gen_max_bits_pct_change_per_block := mbp; gen_stability_window_blocks := swb;
              gen_sybil_dust_floor_sat := sdf; gen_sybil_min_age_blocks := sma;
              gen_sybil_require_paid_fee := srp; gen_sig_algo := sa; gen_hash_algo := ha;
              gen_governance_pubkey_hex := gpk; gen_genesis_headline_hex := ghh;
              gen_initial_accounts := ia; gen_genesis_committee := gc;
              gen_genesis_committee_threshold := gct; gen_genesis_committee_epoch := gce |}
  | _ => None
  end.

(** [Genesis::load] of a file with this text, if there is one. *)
Definition Genesis_load (file : option string) : outcome NodeError Genesis :=
  ok_or GenesisFile ((file ≫= toml_parse) ≫= read_genesis).
End load.

(** ** Commands *)

(** [Cmd], its arguments defaulted by the parser. *)
Inductive NodeCmd :=
| CmdInit (genesis data_dir key : string)
| CmdRun (mine : bool) (mine_throttle_ms : Z) (data_dir genesis rpc_bind : string)
| CmdShowEmission (data_dir genesis : string)
| CmdShowReflect (data_dir : string).

(** The text files of the host, and the block logs of its data directories. *)
Record Host := { ho_files : gmap string string; ho_logs : gmap string bytes }.

(** What a command has become: an exit code with what it printed, a serving process, or a
    search for the genesis nonce that goes on. *)
Inductive Process {St : Type} :=
| Exited (code : Z) (out : list string)
| Serving (ns : NodeState St) (mine : bool) (throttle_ms : Z) (rpc_bind : string)
| Mining.
Arguments Process : clear implicits.

Section main.
Context {St : Type} `{StateStore St} `{HashPrims} `{SigPrims} `{StateCodecs} {CB : Cbor Block}
  `{Hex} `{Bech32} `{Toml}.
Context (ft : Features) (mem_new : St) (treasury : option string).

Definition show_emission (g : Genesis) (disk : option bytes) : outcome NodeError (list string) :=
  store ← map_err StoreFailed (open disk);
  let height := height store in
  if gen_halving_interval_base g =? 0 then Panic
  else
    let halvings := Z.min (height / gen_halving_interval_base g) 63 in
    let reward := if 63 <=? halvings then 0 else Z.shiftr (gen_initial_reward_sat g) halvings in
    Ok ["height=" +:+ pretty height +:+ "  halvings=" +:+ pretty halvings +:+ "  reward_sat=" +:+
        pretty reward].

Definition show_reflect (disk : option bytes) : outcome NodeError (list string) :=
  store ← map_err StoreFailed (open disk);
  Ok ["block_count=" +:+ pretty (len store)].

(** The exit code of [main]'s result, and of a panic. *)
Definition exit_with (r : outcome NodeError (list string)) : Process St :=
  match r with Ok out => Exited 0 out | Err _ => Exited 1 [] | Panic => Exited 101 [] end.

Definition init_line (b : Block) : string :=
  "genesis: height=0 nonce=" +:+ pretty (bh_nonce (blk_header b)) +:+ " hash=" +:+
  hex_encode (hash_header (blk_header b)).

(** The log of a data directory, after a command. *)
Definition set_log (dir : string) (disk : option bytes) (h : Host) : Host :=
  {| ho_files := ho_files h; ho_logs := partial_alter (fun _ => disk) dir (ho_logs h) |}.

Definition main (fuel : nat) (cmd : NodeCmd) (h : Host) : Process St * Host :=
  match cmd with
  | CmdInit genesis data_dir key =>
      match g ← Genesis_load (ho_files h !! genesis); cmd_init fuel None g (ho_logs h !! data_dir) with
      | Ok (Some (b, store)) => (Exited 0 [init_line b], set_log data_dir (cs_disk store) h)
      | Ok None => (Mining, h)
      | Err _ => (Exited 1 [], h)
      | Panic => (Exited 101 [], h)
      end
  | CmdRun mine throttle data_dir genesis rpc_bind =>
      match g ← Genesis_load (ho_files h !! genesis);
            cmd_run ft mem_new g treasury (ho_logs h !! data_dir) with
      | Ok ns => (Serving ns mine throttle rpc_bind, h)
      | Err _ => (Exited 1 [], h)
      | Panic => (Exited 101 [], h)
      end
  | CmdShowEmission data_dir genesis =>
      (exit_with (g ← Genesis_load (ho_files h !! genesis); show_emission g (ho_logs h !! data_dir)), h)
  | CmdShowReflect data_dir => (exit_with (show_reflect (ho_logs h !! data_dir)), h)
  end.
End main.
