(* ===== verification/DaemonProps.v ===== *)
(** * DaemonProps: the genesis file and the commands, proved

    A file that loads gives numbers in range; a file that spells a configuration out loads as
    it; and a command line does to the data directory what the machine of [System] does. *)

From S2P Require Export Daemon SystemProps.

Local Open Scope Z_scope.

(** ** The genesis file *)

Section load.
Context `{TomlLaws}.

Lemma toml_u_range w v n : toml_u w v = Some n -> in_u w n.
Proof.
  unfold toml_u. destruct (toml_int v) as [m|]; [|discriminate]. cbn.
  destruct (in_ub w m) eqn:E; [|discriminate]. intros [= <-]. by apply in_ub_spec.
Qed.

Lemma required_toml_u w o n : required (toml_u w) o = Some n -> in_ub w n = true.
Proof. destruct o; [|discriminate]. intros Hr. by apply in_ub_spec, (toml_u_range w t). Qed.

Lemma defaulted_toml_u w d o n : in_ub w d = true -> defaulted d (toml_u w) o = Some n ->
  in_ub w n = true.
Proof. destruct o; [|by intros ? [= <-]]. intros _ Hr. by apply in_ub_spec, (toml_u_range w t). Qed.

Lemma read_member_typed v m : read_member v = Some m -> in_ub 8 (gm_sig_algo m) = true.
Proof.
  unfold read_member. destruct (toml_fields _ v) as [[|i [|sa [|pk [|? ?]]]]|]; try discriminate. cbn.
  destruct (required toml_str i); [|discriminate]. cbn.
  destruct (required (toml_u 8) sa) as [n|] eqn:E; [|discriminate]. cbn.
  destruct (required toml_str pk); [|discriminate]. intros [= <-]. by eapply required_toml_u.
Qed.

Lemma read_members_typed o ms : defaulted [] (toml_list read_member) o = Some ms ->
  forallb (fun m => in_ub 8 (gm_sig_algo m)) ms = true.
Proof.
  destruct o as [v|]; cbn; [|by intros [= <-]]. unfold toml_list. destruct (toml_array v) as [l|]; [|discriminate].
  cbn. intros Hm%mapM_Some. induction Hm as [|x m l ms Hx _ IH]; [done|]. cbn.
  by rewrite (read_member_typed _ _ Hx), IH.
Qed.

Lemma read_genesis_typed v g : read_genesis v = Some g -> typed g = true.
Proof.
  unfold read_genesis. intros Hr. apply bind_Some in Hr as (fs & _ & Hr).
  do 30 (destruct fs as [|? fs]; [discriminate|]). destruct fs; [|discriminate].
  repeat (let x := fresh "x" in let E := fresh "E" in apply bind_Some in Hr as (x & E & Hr)).
  injection Hr as <-. unfold typed, typed_Genesis. cbn -[in_ub].
  rewrite !andb_true_iff. split_and!;
    first [by eapply required_toml_u|by eapply read_members_typed
          |eapply defaulted_toml_u; [|eassumption]; reflexivity].
Qed.

(** ** A configuration as a document *)

Lemma toml_u_int w n : w <= 64 -> in_ub w n = true -> n <? 2 ^ 63 = true -> toml_u w (tint n) = Some n.
Proof.
  intros Hw Hn Hs. unfold toml_u. apply in_ub_spec in Hn as Hu. apply Z.ltb_lt in Hs. rewrite toml_int_int.
  - cbn. by rewrite Hn.
  - unfold in_sb, in_u in *. apply andb_true_iff. rewrite Z.leb_le, Z.ltb_lt. change (2 ^ (64 - 1)) with (2 ^ 63). lia.
Qed.

Definition member_toml (m : GenesisCommitteeMember) : TomlValue :=
  ttable [("signer_id_hex", tstr (gm_signer_id_hex m)); ("sig_algo", tint (gm_sig_algo m));
          ("pubkey_hex", tstr (gm_pubkey_hex m))].

(** Every field of a genesis file, with the four floats as they are written. *)
Definition genesis_entries (eps bh ba bs : TomlValue) (g : Genesis) : list (string * TomlValue) :=
  [("chain_id", tstr (gen_chain_id g)); ("genesis_time_ms", tint (gen_genesis_time_ms g));
   ("initial_bits", tint (gen_initial_bits g)); ("target_block_time_ms", tint (gen_target_block_time_ms g));
   ("retarget_interval", tint (gen_retarget_interval g));
   ("halving_interval_base", tint (gen_halving_interval_base g));
   ("seconds_per_halving", tint (gen_seconds_per_halving g));
   ("initial_reward_sat", tint (gen_initial_reward_sat g)); ("asert_tau_ms", tint (gen_asert_tau_ms g));
   ("bootstrap_asert_tau_ms", tint (gen_bootstrap_asert_tau_ms g));
   ("bootstrap_height", tint (gen_bootstrap_height g));
   ("bootstrap_reward_pct", tint (gen_bootstrap_reward_pct g));
   ("max_reward_pct_change_per_block", tint (gen_max_reward_pct_change_per_block g));
   ("max_bits_pct_change_per_block", tint (gen_max_bits_pct_change_per_block g));
   ("accordion_epsilon", eps); ("accordion_beta_h", bh); ("accordion_beta_a", ba);
   ("accordion_beta_s", bs); ("stability_window_blocks", tint (gen_stability_window_blocks g));
   ("sybil_dust_floor_sat", tint (gen_sybil_dust_floor_sat g));
   ("sybil_min_age_blocks", tint (gen_sybil_min_age_blocks g));
   ("sybil_require_paid_fee", tbool (gen_sybil_require_paid_fee g)); ("sig_algo", tint (gen_sig_algo g));
   ("hash_algo", tint (gen_hash_algo g)); ("governance_pubkey_hex", tstr (gen_governance_pubkey_hex g));
   ("genesis_headline_hex", tstr (gen_genesis_headline_hex g));
   ("initial_accounts", tarr (tstr <$> gen_initial_accounts g));
   ("genesis_committee", tarr (member_toml <$> gen_genesis_committee g));
   ("genesis_committee_threshold", tint (gen_genesis_committee_threshold g));
   ("genesis_committee_epoch", tint (gen_genesis_committee_epoch g))].

(** TOML integers are signed. *)
Definition toml_sized (g : Genesis) : bool :=
  forallb (fun n => n <? 2 ^ 63)
    [gen_genesis_time_ms g; gen_target_block_time_ms g; gen_retarget_interval g;
     gen_halving_interval_base g; gen_seconds_per_halving g; gen_initial_reward_sat g;
     gen_asert_tau_ms g; gen_bootstrap_asert_tau_ms g; gen_bootstrap_height g;
     gen_stability_window_blocks g; gen_sybil_dust_floor_sat g; gen_sybil_min_age_blocks g;
     gen_genesis_committee_epoch g].

(** The keys that may be left out of the file of [g]. *)
Definition omittable (g : Genesis) (k : string) : bool :=
  existsb (fun e => String.eqb e.1 k && e.2)
    [("seconds_per_halving", gen_seconds_per_halving g =? default_seconds_per_halving);
     ("asert_tau_ms", gen_asert_tau_ms g =? default_asert_tau);
     ("bootstrap_asert_tau_ms", gen_bootstrap_asert_tau_ms g =? default_bootstrap_asert_tau);
     ("bootstrap_height", gen_bootstrap_height g =? default_bootstrap_height);
     ("bootstrap_reward_pct", gen_bootstrap_reward_pct g =? default_bootstrap_reward_pct);
     ("max_reward_pct_change_per_block",
      gen_max_reward_pct_change_per_block g =? default_max_reward_pct_change_per_block);
     ("max_bits_pct_change_per_block",
      gen_max_bits_pct_change_per_block g =? default_max_bits_pct_change_per_block);
     ("governance_pubkey_hex", String.eqb (gen_governance_pubkey_hex g) "");
     ("genesis_headline_hex", String.eqb (gen_genesis_headline_hex g) "");
     ("initial_accounts", bool_decide (gen_initial_accounts g = []));
     ("genesis_committee", if gen_genesis_committee g then true else false);
     ("genesis_committee_threshold", gen_genesis_committee_threshold g =? 0);
     ("genesis_committee_epoch", gen_genesis_committee_epoch g =? 0)].

Definition listed (k : string) (omit : list string) : bool := existsb (String.eqb k) omit.

Definition genesis_toml (eps bh ba bs : TomlValue) (omit : list string) (g : Genesis) : TomlValue :=
  ttable (base.filter (fun e => listed e.1 omit = false) (genesis_entries eps bh ba bs g)).

Lemma alist_lookup_filter {A} k omit (fs : list (string * A)) :
  alist_lookup k (base.filter (fun e => listed e.1 omit = false) fs) =
  if listed k omit then None else alist_lookup k fs.
Proof.
  induction fs as [|[k' a] fs IH]; [by destruct (listed k omit)|]. cbn [alist_lookup].
  destruct (listed k' omit) eqn:E.
  - rewrite filter_cons_False by (cbn; congruence). rewrite IH.
    destruct (String.eqb_spec k k') as [->|]; [by rewrite E|done].
  - rewrite filter_cons_True by done. cbn [alist_lookup]. rewrite IH.
    destruct (String.eqb_spec k k') as [->|]; [by rewrite E|done].
Qed.

Lemma NoDup_filter_keys {A} (P : string * A -> Prop) `{forall e, Decision (P e)} fs :
  NoDup fs.*1 -> NoDup (base.filter P fs).*1.
Proof.
  induction fs as [|e fs IH]; [done|]. rewrite fmap_cons, NoDup_cons. intros [He Hn].
  rewrite filter_cons. destruct (decide (P e)); [|by apply IH].
  rewrite fmap_cons, NoDup_cons. split; [|by apply IH]. intros Hin. apply He.
  apply list_elem_of_fmap in Hin as (x & -> & Hx%list_elem_of_filter). apply list_elem_of_fmap.
  exists x. by destruct Hx.
Qed.

Section document.
Context (g : Genesis) (omit : list string).
Hypothesis omitted : forallb (omittable g) omit = true.

Lemma listed_omittable k : listed k omit = true -> omittable g k = true.
Proof.
  unfold listed. intros Hk. apply existsb_exists in Hk as (k' & Hin & Hk).
  apply String.eqb_eq in Hk as <-. rewrite forallb_forall in omitted. by apply omitted.
Qed.

Lemma required_field {A} k v (read : TomlValue -> option A) x : read v = Some x ->
  omittable g k = false -> required read (if listed k omit then None else Some v) = Some x.
Proof.
  intros Hv Hk. destruct (listed k omit) eqn:E; [|done]. apply listed_omittable in E. congruence.
Qed.

Lemma defaulted_field {A} k v d (read : TomlValue -> option A) x : read v = Some x ->
  (omittable g k = true -> x = d) -> defaulted d read (if listed k omit then None else Some v) = Some x.
Proof.
  intros Hv Hk. destruct (listed k omit) eqn:E; [|done]. cbn. f_equal. symmetry.
  by apply Hk, listed_omittable.
Qed.
End document.

Lemma mapM_fmap_id {A B} (f : B -> A) (read : A -> option B) l : (forall b, b ∈ l -> read (f b) = Some b) ->
  mapM read (f <$> l) = Some l.
Proof.
  intros Hf. apply mapM_Some, Forall2_fmap_l, Forall2_same_length_lookup_2; [done|].
  intros i x y Hx Hy. rewrite Hx in Hy. injection Hy as <-. apply Hf. by eapply list_elem_of_lookup_2.
Qed.

Lemma read_member_toml m : in_ub 8 (gm_sig_algo m) = true -> read_member (member_toml m) = Some m.
Proof.
  intros Hm. unfold read_member, member_toml.
  rewrite toml_fields_table by (refine (bool_decide_unpack _ _); vm_compute; exact I). cbn.
  rewrite !toml_str_str. cbn. rewrite toml_u_int; [cbn; by destruct m|lia|done|].
  apply in_ub_spec in Hm. unfold in_u in Hm. apply Z.ltb_lt. lia.
Qed.

Lemma toml_u_small w n : w <= 32 -> in_ub w n = true -> toml_u w (tint n) = Some n.
Proof.
  intros Hw Hn. apply toml_u_int; [lia|done|]. apply in_ub_spec in Hn. unfold in_u in Hn. apply Z.ltb_lt.
  destruct (decide (0 <= w)).
  - pose proof (Z.pow_le_mono_r 2 w 32 ltac:(lia) Hw). lia.
  - rewrite Z.pow_neg_r in Hn by lia. lia.
Qed.

Lemma bind_step {A B} (m : option A) (k : A -> option B) x r : m = Some x -> k x = r -> m ≫= k = r.
Proof. by intros -> <-. Qed.

Lemma toml_f64_ok v : toml_is_f64 v = true -> toml_f64 v = Some tt.
Proof. intros Hv. unfold toml_f64. by rewrite Hv. Qed.

Lemma read_genesis_toml eps bh ba bs omit g : typed g = true -> toml_sized g = true ->
  forallb (omittable g) omit = true -> forallb toml_is_f64 [eps; bh; ba; bs] = true ->
  read_genesis (genesis_toml eps bh ba bs omit g) = Some g.
Proof.
  intros Tg Sg Ho Hf. unfold typed, typed_Genesis in Tg.
  unfold toml_sized in Sg. cbn [forallb] in Sg, Hf.
  repeat match goal with E : _ && _ = true |- _ => apply andb_true_iff in E as [? ?] end.
  unfold read_genesis, genesis_toml.
  rewrite toml_fields_table by (apply NoDup_filter_keys; refine (bool_decide_unpack _ _); vm_compute; exact I).
  unfold genesis_fields. cbn [fmap list_fmap map]. rewrite !alist_lookup_filter.
  cbn [alist_lookup genesis_entries String.eqb Ascii.eqb Bool.eqb]. eapply bind_step; [done|]. cbn beta iota.
  assert (toml_list toml_str (tarr (tstr <$> gen_initial_accounts g)) = Some (gen_initial_accounts g)) as Hia.
  { unfold toml_list. rewrite toml_array_arr. apply mapM_fmap_id. intros x _. apply toml_str_str. }
  assert (toml_list read_member (tarr (member_toml <$> gen_genesis_committee g)) =
    Some (gen_genesis_committee g)) as Hgc.
  { unfold toml_list. rewrite toml_array_arr. apply mapM_fmap_id. intros m Hm. apply read_member_toml.
    match goal with E : forallb _ (gen_genesis_committee g) = true |- _ => rewrite forallb_forall in E;
      by apply E, list_elem_of_In end. }
  repeat (eapply bind_step;
    [first [apply (required_field g omit Ho)|apply (defaulted_field g omit Ho)];
     [first [apply toml_str_str|apply toml_bool_bool|apply toml_u_small; [lia|eassumption]
            |apply toml_u_int; [lia|eassumption|eassumption]|by apply toml_f64_ok|exact Hia|exact Hgc]|
      first [reflexivity|idtac]]|cbn beta]).
  14: by destruct g.
  all: unfold omittable; cbn [existsb fst snd String.eqb Ascii.eqb Bool.eqb andb orb]; rewrite orb_false_r;
    intros E; first [by apply Z.eqb_eq in E|by apply String.eqb_eq in E|by apply bool_decide_eq_true in E
                    |by destruct (gen_genesis_committee g)].
Qed.

Lemma Genesis_load_typed file g : Genesis_load file = Ok g -> typed g = true.
Proof.
  unfold Genesis_load. destruct (file ≫= toml_parse) as [v|]; [|discriminate].
  cbn [mbind option_bind]. destruct (read_genesis v) as [g'|] eqn:E; [|discriminate].
  intros [= <-]. by eapply read_genesis_typed.
Qed.

(** C21: The genesis file.  What loads has every number in the range of its type, whatever the
    file says.  A document that spells out a configuration whose 64-bit numbers fit TOML's
    signed integers loads as exactly that configuration, also when keys whose value is the
    default of the struct are left out. *)
Theorem genesis_load eps bh ba bs omit g (file : option string) : typed g = true -> toml_sized g = true ->
  forallb (omittable g) omit = true -> forallb toml_is_f64 [eps; bh; ba; bs] = true ->
  file ≫= toml_parse = Some (genesis_toml eps bh ba bs omit g) ->
  Genesis_load file = Ok g /\ forall other g', Genesis_load other = Ok g' -> typed g' = true.
Proof.
  intros Tg Sg Ho Hf Hp. split.
  - unfold Genesis_load. rewrite Hp. cbn [mbind option_bind]. by rewrite read_genesis_toml.
  - intros other g'. apply Genesis_load_typed.
Qed.
End load.

(** ** Commands *)

Section main.
Context {St : Type} `{StateStoreLaws St} `{HashPrims} `{SigPrims} `{StateCodecs} {CB : Cbor Block}
  {CT : Cbor TxBody} {CW : Cbor Witness} `{Hex} `{Bech32} `{ErrorTexts} `{Toml}.
Context (ft : Features) (mem_new : St) (treasury : option string).
Notation main := (main ft mem_new treasury).

(** The process, as a state of the machine whose directory holds [disk]. *)
Definition as_system (p : Process St) (disk : option bytes) : System St :=
  match p with
  | Serving ns mine _ _ => Up ns (if mine then Resting else Off)
  | _ => Down disk
  end.

Lemma set_log_lookup dir disk h : ho_logs (set_log dir disk h) !! dir = disk.
Proof. apply lookup_partial_alter_eq. Qed.

Lemma set_log_other dir disk h d : d <> dir -> ho_logs (set_log dir disk h) !! d = ho_logs h !! d.
Proof. intros Hd. by apply lookup_partial_alter_ne. Qed.

(** The commands and the machine.  [init] and [run] with a genesis file that loads do to
    their data directory what [Init] and [Launch] do in the machine of the node, and leave
    every other directory and every file alone; with a file that does not load they exit
    with code 1 and change nothing; the show commands change nothing either. *)
Lemma main_steps fuel cmd (h : Host) :
  let '(p, h') := main fuel cmd h in
  ho_files h' = ho_files h /\
  match cmd with
  | CmdInit genesis dir _ =>
      (forall d, d <> dir -> ho_logs h' !! d = ho_logs h !! d) /\
      match Genesis_load (ho_files h !! genesis) with
      | Ok g => forall mine, sys_step ft mem_new g treasury mine (Down (ho_logs h !! dir)) (Init fuel) =
                  as_system p (ho_logs h' !! dir)
      | _ => p = Exited 1 [] /\ h' = h
      end
  | CmdRun mine throttle dir genesis bind =>
      h' = h /\
      match Genesis_load (ho_files h !! genesis) with
      | Ok g => sys_step ft mem_new g treasury mine (Down (ho_logs h !! dir)) Launch =
                  as_system p (ho_logs h !! dir)
      | _ => p = Exited 1 []
      end
  | _ => h' = h
  end.
Proof.
  assert (forall file, Genesis_load file <> Panic) as Hnp by (intros f; unfold Genesis_load; by destruct (_ ≫= _)).
  destruct cmd as [genesis dir key|mine throttle dir genesis bind|dir genesis|dir]; cbn [Daemon.main sys_step].
  - specialize (Hnp (ho_files h !! genesis)). destruct (Genesis_load (ho_files h !! genesis)) as [g|e|]; [|done..].
    cbn [mbind outcome_bind]. destruct (cmd_init fuel None g (ho_logs h !! dir)) as [[[b store]|]|e|];
      try (split_and!; done).
    split; [done|]. split; [intros d Hd; by apply set_log_other|]. intros mine.
    by rewrite set_log_lookup.
  - specialize (Hnp (ho_files h !! genesis)). destruct (Genesis_load (ho_files h !! genesis)) as [g|e|]; [|done..].
    cbn [mbind outcome_bind]. by destruct (cmd_run ft mem_new g treasury (ho_logs h !! dir)) as [ns|e|].
  - done.
  - done.
Qed.

(** What the show commands print.  On a data directory whose log is [bs],
    [show-reflect] prints the number of blocks; [show-emission] prints the height of the tip,
    the number of halvings it has passed by block count, and the initial reward shifted by
    as many, 0 from the 63rd on; it panics exactly when the genesis file sets the halving
    interval to 0. *)
Lemma show_commands g disk bs : default [] disk = log_bytes bs -> forallb storable bs = true ->
  (forall i b, bs !! i = Some b -> bh_height (blk_header b) = Z.of_nat i) ->
  0 <= gen_halving_interval_base g -> 0 <= gen_initial_reward_sat g -> Z.of_nat (length bs) < 2 ^ 64 ->
  let h := Z.of_nat (pred (length bs)) in
  let base := gen_halving_interval_base g in
  show_reflect disk = Ok ["block_count=" +:+ pretty (length bs)] /\
  show_emission g disk =
    (if base =? 0 then Panic
     else Ok ["height=" +:+ pretty h +:+ "  halvings=" +:+ pretty (Z.min (h / base) 63) +:+
              "  reward_sat=" +:+
              pretty (if h <? 63 * base then gen_initial_reward_sat g / 2 ^ (h / base) else 0)]).
Proof.
  intros Hd Hs Hh Hbase Hr Hlen h base. pose proof (read_all_holds disk bs Hd Hs) as Hall.
  assert (exists cs, open disk = Ok cs /\ len cs = Z.of_nat (length bs) /\ height cs = h) as (cs & Ho & Hl & Hc).
  { unfold open, prime. cbn [cs_disk]. rewrite Hall. eexists. split; [reflexivity|].
    split; [done|]. unfold height. cbn [cs_tip]. unfold h. destruct (last bs) as [p|] eqn:Hp.
    - rewrite last_lookup in Hp. by rewrite (Hh _ _ Hp).
    - by apply last_None in Hp as ->. }
  unfold show_reflect, show_emission. rewrite Ho. cbn [mbind outcome_bind map_err]. rewrite Hl, Hc. split.
  - do 3 f_equal. rewrite pretty_Z_pos by lia. unfold pretty at 2, pretty_nat. f_equal. lia.
  - fold base. destruct (base =? 0) eqn:Eb; [done|]. apply Z.eqb_neq in Eb.
    assert (0 < base) by lia. do 6 f_equal.
    destruct (h <? 63 * base) eqn:E.
    + apply Z.ltb_lt in E. assert (h / base < 63) by (apply Z.div_lt_upper_bound; lia).
      assert (0 <= h / base) by (apply Z.div_pos; lia).
      rewrite Z.min_l by lia. rewrite (proj2 (Z.leb_gt _ _)) by lia. by rewrite Z.shiftr_div_pow2.
    + apply Z.ltb_ge in E. assert (63 <= h / base) by (apply Z.div_le_lower_bound; lia).
      by rewrite Z.min_r by lia.
Qed.
End main.
