(* ===== verification/Client.v ===== *)
(** * Client: programs that talk to a node
    (crates/node/src/cli.rs, crates/gui/src/rpc_client.rs, crates/gui/src/wallet.rs,
    crates/gui/src/miner.rs and [build_and_submit_tx] of crates/gui/src/main.rs)

    The command line client, the wallet and the mining worker, over any network: [send] is
    one HTTP exchange on the state of the world.  [ureq] turns a status of 400 or more into
    an error.  [ClientProps] takes for the network the node itself. *)

From S2P Require Export Serve.
From Stdlib Require Import Strings.Byte Strings.Ascii.

Local Open Scope Z_scope.

Inductive ClientError :=
| Transport
| Status (code : Z)
| NotJson
| RpcReturned
| EmptyResult
| BadBody
| BadTargetLength (n : nat)
| BadRecipient (e : AddressError)
| BadAmount
| BadFee
| SignFailed (e : CryptoError)
| EncodeFailed
| HexFailed
| UnknownWalletVersion (v : Z)
| BadWalletAddress (e : AddressError)
| IoFailed.

Section exchange.
Context `{Json} {W : Type}.
Context (send : HttpReq -> stm W unit HttpResp).

(** [ureq]'s [call] or [send_json], then [into_json]. *)
Definition exchange (req : HttpReq) : stm W ClientError Value := fun w =>
  match send req w with
  | (Ok resp, w) =>
      if 400 <=? hr_status resp then (Err (Status (hr_status resp)), w)
      else match hr_body resp with BodyJson v => (Ok v, w) | _ => (Err NotJson, w) end
  | (Err _, w) => (Err Transport, w)
  | (Panic, w) => (Err Transport, w)
  end.

Definition post_json (url : string) (v : Value) : HttpReq :=
  {| rq_method := Post; rq_url := url; rq_len := text_len v; rq_json := Some v |}.

(** ** The command line client *)

Inductive Cmd :=
| GetInfo
| ShowBlock (height : Z)
| ListBlocks (limit : nat)
| GetBalance (address : string)
| GetAccount (address : string)
| SubmitTx (tx_cbor_hex witness_cbor_hex : string)
| GetMempool
| EmissionSeries (from : Z) (to : option Z) (step : Z)
| StateRoot
| Health.

(** [Option<Value>]: null is [None]. *)
Definition read_option_value (field : option Value) : option Value :=
  v ← field; if is_null v then None else Some v.

(** [RpcEnvelope]: the result and the error. *)
Definition read_envelope (v : Value) : option (option Value * option Value) :=
  fs ← struct_fields ["result"; "error"] v;
  match fs with
  | [r; e] => Some (read_option_value r, read_option_value e)
  | _ => None
  end.

Definition cli_request (method : string) (params : Value) : Value :=
  jobj [("jsonrpc", jstr "2.0"); ("id", jint 1); ("method", jstr method); ("params", params)]%string.

Definition cli_rpc (endpoint method : string) (params : Value) : stm W ClientError Value :=
  body ← exchange (post_json endpoint (cli_request method params));
  '(result, error) ← lift_out (ok_or BadBody (read_envelope body));
  if bool_decide (is_Some error) then throw RpcReturned
  else lift_out (ok_or EmptyResult result).

(** [s.trim_end_matches(pat)], with fuel for every round. *)
Fixpoint trim_end_loop (fuel : nat) (pat s : string) : string :=
  match fuel with
  | O => s
  | S fuel =>
      let n := (String.length s - String.length pat)%nat in
      if bool_decide (String.length pat <= String.length s)%nat &&
         bool_decide (String.substring n (String.length pat) s = pat)
      then trim_end_loop fuel pat (String.substring 0 n s) else s
  end.
Definition trim_end_matches (pat s : string) : string :=
  trim_end_loop (String.length s) pat s.

Definition cli_emission_params (from : Z) (to : option Z) (step : Z) : Value :=
  jobj [("from", jint from); ("to", from_option jint jnull to); ("step", jint step)]%string.

Definition cli_run (rpc : string) (cmd : Cmd) : stm W ClientError Value :=
  match cmd with
  | GetInfo => cli_rpc rpc "get_info" (jobj [])
  | ShowBlock height => cli_rpc rpc "get_block" (jobj [("height"%string, jint height)])
  | ListBlocks limit => cli_rpc rpc "list_blocks" (jobj [("limit"%string, jint (Z.of_nat limit))])
  | GetBalance address => cli_rpc rpc "get_balance" (jobj [("address"%string, jstr address)])
  | GetAccount address => cli_rpc rpc "get_account" (jobj [("address"%string, jstr address)])
  | SubmitTx tx witness =>
      cli_rpc rpc "submit_tx"
        (jobj [("tx_cbor_hex", jstr tx); ("witness_cbor_hex", jstr witness)]%string)
  | GetMempool => cli_rpc rpc "get_mempool" (jobj [])
  | EmissionSeries from to step => cli_rpc rpc "emission_series" (cli_emission_params from to step)
  | StateRoot =>
      info ← cli_rpc rpc "get_info" (jobj []);
      height ← lift_out (ok_or BadBody (jget "height" info ≫= as_u64));
      block ← cli_rpc rpc "get_block" (jobj [("height"%string, jint height)]);
      lift_out (ok_or BadBody (jget "header" block ≫= jget "state_root"))
  | Health =>
      let url := trim_end_matches "/" (trim_end_matches "/rpc" rpc) in
      exchange {| rq_method := GetMethod; rq_url := (url +:+ "/healthz")%string; rq_len := 0;
                  rq_json := None |}
  end.

(** What [pretty_print] shows of a balance, and of an account: the balance, the nonce, the
    algorithm and the key. *)
Definition printed_balance (v : Value) : Z := default 0 (as_u64 (index "balance" v)).
Definition printed_account (v : Value) : Value * Value * Value * option string :=
  (index "balance" v, index "nonce" v, index "sig_algo" v, jget "pubkey_hex" v ≫= as_str).

(** ** The wallet's calls *)

Record AccountInfo := { ai_balance_sat : Z; ai_nonce : Z; ai_has_pubkey : bool }.

Definition gui_call (url method : string) (params : option Value) : stm W ClientError Value :=
  exchange (post_json (url +:+ "/rpc")
    (jobj (("method"%string, jstr method) :: from_option (fun p => [("params"%string, p)]) [] params))).

Context `{Bech32}.

(** [rpc_client::get_account] *)
Definition gui_get_account (url : string) (address : AccountId) : stm W ClientError AccountInfo :=
  text ← lift_out (to_bech32 address);
  v ← gui_call url "get_account" (Some (jobj [("address"%string, jstr text)]));
  r ← lift_out (ok_or EmptyResult (jget "result" v));
  mret {| ai_balance_sat := default 0 (as_u64 (index "balance_sat" r));
          ai_nonce := default 0 (as_u64 (index "nonce" r));
          ai_has_pubkey := default false (as_bool (index "has_pubkey" r)) |}.

(** [rpc_client::submit_tx] *)
Definition gui_submit_tx (url tx_cbor_hex witness_cbor_hex : string) : stm W ClientError string :=
  v ← gui_call url "submit_tx"
    (Some (jobj [("tx_cbor_hex", jstr tx_cbor_hex);
                 ("witness_cbor_hex", jstr witness_cbor_hex)]%string));
  if bool_decide (is_Some (jget "error" v ≫= as_str)) then throw RpcReturned
  else
    r ← lift_out (ok_or EmptyResult (jget "result" v));
    lift_out (ok_or EmptyResult (as_str (index "tx_hash" r))).
End exchange.

(** ** The wallet *)

Definition WALLET_SIG_ALGO : Z := 3.

Record Wallet := {
  wal_sig_algo : Z; wal_secret_key : bytes; wal_public_key : bytes; wal_address : AccountId;
}.

(** The file at the wallet's path: absent, or a text and what the parser makes of it. *)
Inductive WalletText `{Json} := NoFile | FileText (v : option Value).

(** What the disk does with a file written in place: takes it, refuses to open it, or fails
    with part of it written over the old one. *)
Inductive Disk `{Json} := DiskTakes | DiskRefuses | DiskTears (torn : WalletText).

Section wallet.
Context `{Json} `{HashPrims} `{SigPrims} `{Hex} `{Bech32}.

(** [Wallet::generate], the random numbers being an argument. *)
Definition wallet_generate (rng : bytes) : Wallet :=
  let '(sk, pk) := ed25519_keypair rng in
  {| wal_sig_algo := WALLET_SIG_ALGO; wal_secret_key := sk; wal_public_key := pk;
     wal_address := from_pubkey pk |}.

(** [WalletFile]: version, algorithm, keys and address. *)
Definition read_wallet_file (v : Value) : option (Z * Z * string * string * string) :=
  fs ← struct_fields ["version"; "sig_algo"; "secret_key_hex"; "public_key_hex"; "address"] v;
  match fs with
  | [ver; sa; sk; pk; a] =>
      ver ← required (read_u 32) ver; sa ← required (read_u 8) sa; sk ← required as_str sk;
      pk ← required as_str pk; a ← required as_str a;
      Some (ver, sa, sk, pk, a)
  | _ => None
  end.

Definition wallet_load (file : WalletText) : outcome ClientError Wallet :=
  match file with
  | NoFile => Err IoFailed
  | FileText v =>
      '(ver, sa, sk, pk, a) ← ok_or BadBody (v ≫= read_wallet_file);
      if negb (ver =? 1) then Err (UnknownWalletVersion ver)
      else
        sk ← ok_or HexFailed (hex_decode sk);
        pk ← ok_or HexFailed (hex_decode pk);
        address ← map_err BadWalletAddress (from_bech32 a);
        Ok {| wal_sig_algo := sa; wal_secret_key := sk; wal_public_key := pk;
              wal_address := address |}
  end.

(** [Wallet::save]: the file afterwards, and whether all went well. *)
Definition wallet_save (disk : Disk) (w : Wallet) (file : WalletText)
    : outcome ClientError unit * WalletText :=
  match to_bech32 (wal_address w) with
  | Ok address =>
      let f := jobj [("version", jint 1); ("sig_algo", jint (wal_sig_algo w));
        ("secret_key_hex", jstr (hex_encode (wal_secret_key w)));
        ("public_key_hex", jstr (hex_encode (wal_public_key w)));
        ("address", jstr address)]%string in
      match disk with
      | DiskTakes => (Ok tt, FileText (Some f))
      | DiskRefuses => (Err IoFailed, file)
      | DiskTears torn => (Err IoFailed, torn)
      end
  | Err e => (Err e, file)
  | Panic => (Panic, file)
  end.

Definition load_or_create (disk : Disk) (rng : bytes) (file : WalletText)
    : outcome ClientError Wallet * WalletText :=
  match file with
  | NoFile =>
      let w := wallet_generate rng in
      let '(saved, file) := wallet_save disk w file in
      (_ ← saved; Ok w, file)
  | FileText _ => (wallet_load file, file)
  end.

Definition wallet_sign (ft : Features) (rng : bytes) (w : Wallet) (msg : bytes)
    : outcome ClientError bytes :=
  map_err SignFailed (sign ft rng (wal_sig_algo w) (wal_secret_key w) msg).
End wallet.

(** ** Sending coin *)

Section send_coin.
Context `{Json} {W : Type} (send : HttpReq -> stm W unit HttpResp).
Context `{HashPrims} `{SigPrims} `{Hex} `{Bech32} {CT : Cbor TxBody} {CW : Cbor Witness}.
Context (ft : Features) (trim : string -> string).

(** The transaction and the witness the wallet signs for what the node says of its account. *)
Definition wallet_tx (w : Wallet) (info : AccountInfo) (to : AccountId) (amount fee : Z)
    (witness_hash : bytes) : TxBody :=
  {| tx_nonce := ai_nonce info; tx_from_account := wal_address w; tx_call := Transfer to amount;
     tx_fee_sat := fee; tx_gas_limit := 21000; tx_witness_hash := witness_hash |}.

Definition wallet_witness (w : Wallet) (info : AccountInfo) (sig : bytes) : Witness :=
  {| wit_sig_algo := wal_sig_algo w; wit_sig := sig;
     wit_pubkey := if ai_has_pubkey info then Known (wal_address w)
                   else Inline (wal_public_key w) |}.

Definition build_and_submit_tx (rng : bytes) (url : string) (w : Wallet)
    (to_str amount_str fee_str : string) : stm W ClientError string :=
  to ← lift_out (map_err BadRecipient (from_bech32 (trim to_str)));
  amount ← lift_out (ok_or BadAmount (parse_u 128 (trim amount_str)));
  fee ← lift_out (ok_or BadFee (parse_u 64 (trim fee_str)));
  info ← gui_get_account send url (wal_address w);
  sig ← lift_out (wallet_sign ft rng w
          (signing_hash (wallet_tx w info to amount fee (replicate 32 x00))));
  let witness := wallet_witness w info sig in
  let tx := wallet_tx w info to amount fee (witness_hash witness) in
  tx_buf ← lift_out (ok_or EncodeFailed (cbor_ser tx));
  wit_buf ← lift_out (ok_or EncodeFailed (cbor_ser witness));
  gui_submit_tx send url (hex_encode tx_buf) (hex_encode wit_buf).
End send_coin.

(** ** The mining worker *)

Record MinerTemplate := {
  mt_header : HeaderJson; mt_target : bytes; mt_txs_cbor_hex : list string;
  mt_witnesses_cbor_hex : list string;
}.

Section mining.
Context `{Json} {W : Type} (send : HttpReq -> stm W unit HttpResp).
Context `{HashPrims} `{Hex}.

(** What the mining tab shows of a node. *)
Record NodeInfo := {
  ni_chain_id : string; ni_tip_hash : string; ni_height : Z; ni_target_hex : string;
}.

Definition rpc_get_info (url : string) : stm W ClientError NodeInfo :=
  v ← gui_call send url "get_info" None;
  r ← lift_out (ok_or EmptyResult (jget "result" v));
  let text k := default EmptyString (as_str (index k r)) in
  mret {| ni_chain_id := text "chain_id"%string; ni_tip_hash := text "tip_hash"%string;
          ni_height := default 0 (as_u64 (index "height" r));
          ni_target_hex := text "target"%string |}.

(** [start]: the id and the stride of each worker, one at least. *)
Definition start (threads : nat) : list (nat * nat) :=
  let n := Nat.max threads 1 in (fun t => (t, n)) <$> seq 0 n.

(** [filter_map(as_str)] over an array, empty when it is no array. *)
Definition string_items (v : Value) : list string := omap as_str (default [] (as_array v)).

Definition rpc_get_template (url : string) : stm W ClientError MinerTemplate :=
  v ← gui_call send url "get_template" None;
  r ← lift_out (ok_or EmptyResult (jget "result" v));
  header ← lift_out (ok_or BadBody (read_header_json (index "header" r)));
  target ← lift_out (ok_or HexFailed (hex_decode (default EmptyString (as_str (index "target" r)))));
  if negb (is_array 32 target) then throw (BadTargetLength (length target))
  else
    mret {| mt_header := header; mt_target := target;
            mt_txs_cbor_hex := string_items (index "txs_cbor_hex" r);
            mt_witnesses_cbor_hex := string_items (index "witnesses_cbor_hex" r) |}.

Definition submit_block_value (header : HeaderJson) (txs witnesses : list string) : Value :=
  jobj [("header", header_json_value header); ("txs_cbor_hex", jarr (jstr <$> txs));
        ("witnesses_cbor_hex", jarr (jstr <$> witnesses))]%string.

Definition rpc_submit_block (url : string) (header : HeaderJson) (txs witnesses : list string)
    : stm W ClientError bool :=
  v ← gui_call send url "submit_block" (Some (submit_block_value header txs witnesses));
  mret (default false (r ← jget "result" v; as_bool (index "ok" r))).

Definition json_nonce (j : HeaderJson) (nonce : Z) : HeaderJson :=
  {| hj_version := hj_version j; hj_height := hj_height j; hj_parent := hj_parent j;
     hj_timestamp_ms := hj_timestamp_ms j; hj_bits := hj_bits j; hj_nonce := nonce;
     hj_tx_root := hj_tx_root j; hj_witness_root := hj_witness_root j;
     hj_state_root := hj_state_root j; hj_reflect_root := hj_reflect_root j;
     hj_coinbase := hj_coinbase j; hj_sig_algo := hj_sig_algo j; hj_hash_algo := hj_hash_algo j |}.

Definition json_coinbase (j : HeaderJson) (coinbase : bytes) : HeaderJson :=
  {| hj_version := hj_version j; hj_height := hj_height j; hj_parent := hj_parent j;
     hj_timestamp_ms := hj_timestamp_ms j; hj_bits := hj_bits j; hj_nonce := hj_nonce j;
     hj_tx_root := hj_tx_root j; hj_witness_root := hj_witness_root j;
     hj_state_root := hj_state_root j; hj_reflect_root := hj_reflect_root j;
     hj_coinbase := hex_encode coinbase; hj_sig_algo := hj_sig_algo j;
     hj_hash_algo := hj_hash_algo j |}.

(** [TryFrom<&HeaderJson> for BlockHeader] and its [h32], a repetition of the node's. *)
Definition h32 (s : string) : outcome ClientError bytes :=
  v ← ok_or HexFailed (hex_decode s);
  if negb (is_array 32 v) then Err BadBody else Ok v.

Definition gui_header (j : HeaderJson) : outcome ClientError BlockHeader :=
  parent ← h32 (hj_parent j);
  tx_root ← h32 (hj_tx_root j);
  witness_root ← h32 (hj_witness_root j);
  state_root ← h32 (hj_state_root j);
  reflect_root ← h32 (hj_reflect_root j);
  coinbase ← h32 (hj_coinbase j);
  Ok {| bh_version := hj_version j; bh_height := hj_height j; bh_parent := parent;
        bh_timestamp_ms := hj_timestamp_ms j; bh_bits := hj_bits j; bh_nonce := hj_nonce j;
        bh_tx_root := tx_root; bh_witness_root := witness_root; bh_state_root := state_root;
        bh_reflect_root := reflect_root; bh_coinbase := coinbase;
        bh_sig_algo := hj_sig_algo j; bh_hash_algo := hj_hash_algo j |}.

(** The inner loop of [worker]: at most [k] nonces.  It returns the header it ends on,
    whether that header is to be submitted, and the number of hashes. *)
Fixpoint mine_batch (k : nat) (target : bytes) (stride : Z) (j : HeaderJson)
    : HeaderJson * bool * nat :=
  match k with
  | O => (j, false, O)
  | S k =>
      match gui_header j with
      | Ok hdr =>
          if meets_target (hash_header hdr) target then (j, true, 1%nat)
          else
            let '(j', found, n) :=
              mine_batch k target stride
                (json_nonce j (wrapping_add 64 (hj_nonce j) stride)) in
            (j', found, S n)
      | _ => (j, false, O)
      end
  end.

Definition BATCH : nat := 4096.

(** The counters the threads share. *)
Record Counters := { ct_hashes : Z; ct_accepted : Z; ct_rejected : Z }.

(** The loop on one template until its deadline, which comes after [batches] batches; the
    submissions go through [submit], in order. *)
Fixpoint mine_round (batches : nat) (submit : HeaderJson -> stm W ClientError bool)
    (target : bytes) (stride : Z) (j : HeaderJson) (c : Counters) (w : W) : Counters * W :=
  match batches with
  | O => (c, w)
  | S batches =>
      let '(j, found, n) := mine_batch BATCH target stride j in
      let hashes := wrapping_add 64 (ct_hashes c) (Z.of_nat n) in
      if found then
        match submit j w with
        | (Ok true, w) =>
            mine_round batches submit target stride j
              {| ct_hashes := hashes; ct_accepted := wrapping_add 64 (ct_accepted c) 1;
                 ct_rejected := ct_rejected c |} w
        | (_, w) =>
            mine_round batches submit target stride j
              {| ct_hashes := hashes; ct_accepted := ct_accepted c;
                 ct_rejected := wrapping_add 64 (ct_rejected c) 1 |} w
        end
      else
        mine_round batches submit target stride j
          {| ct_hashes := hashes; ct_accepted := ct_accepted c; ct_rejected := ct_rejected c |} w
  end.

(** One turn of the outer loop of [worker]; without a template it only waits. *)
Definition worker_turn (thread_id stride : Z) (url : string) (coinbase : bytes) (batches : nat)
    (c : Counters) (w : W) : Counters * W :=
  match rpc_get_template url w with
  | (Ok t, w) =>
      mine_round batches
        (fun j => rpc_submit_block url j (mt_txs_cbor_hex t) (mt_witnesses_cbor_hex t))
        (mt_target t) stride (json_nonce (json_coinbase (mt_header t) coinbase) thread_id) c w
  | (_, w) => (c, w)
  end.
End mining.
