(* ===== verification/ClientProps.v ===== *)
(** * ClientProps: the clients against the node

    The network is one node behind a URL.  The command line client shows what the handlers
    answer, except where the two disagree on a field; the wallet's transfer is pooled and
    valid; a mining worker tries its share of the nonces, and submits what it found again
    and again. *)

From S2P Require Export Client RpcProps.
From Stdlib Require Import Strings.Byte.

Local Open Scope Z_scope.

(** ** The network *)

Section network.
Context {St : Type} `{StateStore St} `{HashPrims} `{SigPrims} `{StateCodecs} {CB : Cbor Block}
  {CT : Cbor TxBody} {CW : Cbor Witness} `{HexLaws} `{Bech32} `{JsonLaws} `{!ErrorTexts}.
Context (ft : Features).
Notation Node := (NodeState St).

Definition strip_prefix (base url : string) : option string :=
  if String.prefix base url
  then Some (String.substring (String.length base) (String.length url - String.length base) url)
  else None.

(** One node that listens at [base]; a request elsewhere does not connect. *)
Definition network (base : string) (now : Z) (io : option nat) (req : HttpReq)
    : stm Node unit HttpResp := fun ns =>
  match strip_prefix base (rq_url req) with
  | Some path =>
      match serve ft now io {| rq_method := rq_method req; rq_url := path; rq_len := rq_len req;
                               rq_json := rq_json req |} ns with
      | (Ok resp, ns) => (Ok resp, ns)
      | (_, ns) => (Err tt, ns)
      end
  | None => (Err tt, ns)
  end.

Lemma substring_append base path :
  String.substring (String.length base) (String.length path) (base +:+ path) = path.
Proof.
  induction base as [|a base IH]; [|exact IH]. change (EmptyString +:+ path)%string with path.
  induction path as [|a path IH]; [done|]. cbn. by f_equal.
Qed.

Lemma strip_prefix_append base path : strip_prefix base (base +:+ path) = Some path.
Proof.
  unfold strip_prefix. assert (String.prefix base (base +:+ path) = true) as ->.
  { induction base as [|a base IH]; [by destruct path|].
    change (String a base +:+ path)%string with (String a (base +:+ path)). cbn.
    destruct (Ascii.ascii_dec a a) as [_|Hne]; [exact IH|by destruct Hne]. }
  assert (String.length (base +:+ path) = String.length base + String.length path)%nat as ->.
  { induction base as [|a base IH]; [done|].
    change (String.length (String a base +:+ path)) with (S (String.length (base +:+ path))).
    by rewrite IH. }
  rewrite Nat.add_comm, Nat.add_sub. by rewrite substring_append.
Qed.

(** What reaches a client of a dispatched request. *)
Definition seen (r : outcome Empty_set HttpResp * Node) : outcome ClientError Value * Node :=
  match r with
  | (Ok resp, ns) =>
      if 400 <=? hr_status resp then (Err (Status (hr_status resp)), ns)
      else match hr_body resp with BodyJson v => (Ok v, ns) | _ => (Err NotJson, ns) end
  | (_, ns) => (Err Transport, ns)
  end.

Lemma exchange_rpc base now io v method params (ns : Node) :
  read_rpc_req v = Some (method, params) ->
  exchange (network base now io) (post_json (base +:+ "/rpc") v) ns =
  if MAX_RPC_BODY_BYTES <? text_len v then (Err (Status 413), ns)
  else seen (dispatch ft now io method params ns).
Proof.
  intros Hr. unfold exchange, network, post_json. cbn [rq_method rq_url rq_len rq_json].
  rewrite strip_prefix_append. unfold serve. cbn [rq_method rq_url].
  rewrite bool_decide_true by done. unfold read_bounded_body. cbn [rq_len rq_json].
  destruct (MAX_RPC_BODY_BYTES <? text_len v); [done|]. cbn [mbind option_bind]. rewrite Hr.
  unfold seen. by destruct (dispatch _ _ _ _ _ _) as [[resp|[]|] ns'].
Qed.

Lemma read_cli_request method params :
  read_rpc_req (cli_request method params) = Some (method, params).
Proof. unfold read_rpc_req, cli_request. json_fields. cbn. by rewrite as_str_str. Qed.

Lemma read_gui_request method params :
  read_rpc_req (jobj (("method"%string, jstr method) ::
    from_option (fun p => [("params"%string, p)]) [] params)) = Some (method, default jnull params).
Proof.
  unfold read_rpc_req. destruct params; cbn [from_option]; json_fields; cbn; by rewrite as_str_str.
Qed.

(** ** The command line client *)

(** The answer of a command: the result of the handler, or its status. *)
Definition cli_seen (r : outcome Empty_set HttpResp * Node) : outcome ClientError Value * Node :=
  match seen r with
  | (Ok v, ns) =>
      (match read_envelope v with
       | Some (Some v, None) => Ok v
       | Some (_, Some _) => Err RpcReturned
       | Some (None, None) => Err EmptyResult
       | None => Err BadBody
       end, ns)
  | r => r
  end.

Lemma cli_rpc_node base now io method params (ns : Node) :
  text_len (cli_request method params) <= MAX_RPC_BODY_BYTES ->
  cli_rpc (network base now io) (base +:+ "/rpc") method params ns =
  cli_seen (dispatch ft now io method params ns).
Proof.
  intros Hl. unfold cli_rpc. unfold mbind at 1, stm_bind.
  rewrite (exchange_rpc _ _ _ _ method params) by apply read_cli_request.
  rewrite (proj2 (Z.ltb_ge _ _)) by done. unfold cli_seen.
  destruct (seen _) as [[v|e|] ns']; [|done..].
  unfold mbind, stm_bind, lift_out. destruct (read_envelope v) as [[[r|] [e|]]|]; done.
Qed.

Lemma cli_seen_ok v (ns : Node) : is_null v = false -> cli_seen (Ok (rpc_ok v), ns) = (Ok v, ns).
Proof.
  intros Hv. unfold cli_seen, seen. cbn. unfold read_envelope. json_fields. cbn. by rewrite Hv.
Qed.

Lemma cli_seen_err code msg (ns : Node) : 400 <= code ->
  cli_seen (Ok (json_err code msg), ns) = (Err (Status code), ns).
Proof. intros Hc. unfold cli_seen, seen. cbn. by rewrite (proj2 (Z.leb_le _ _)). Qed.

(** A query through the command line. *)
Lemma cli_answer {A} code (value : A -> Value) (m : stm Node RpcError A) (ns : Node) :
  400 <= code -> (forall a, is_null (value a) = false) ->
  cli_seen (answer code value m ns) =
  let '(r, ns') := m ns in
  (match r with Ok a => Ok (value a) | Err _ => Err (Status code) | Panic => Err Transport end, ns').
Proof.
  intros Hc Hv. unfold answer. destruct (m ns) as [[a|e|] ns'].
  - by rewrite cli_seen_ok.
  - by apply cli_seen_err.
  - done.
Qed.
End network.

(** ** What the command line shows *)

Section cli.
Context {St : Type} `{StateStore St} `{HashPrims} `{SigPrims} `{StateCodecs} {CB : Cbor Block}
  {CT : Cbor TxBody} {CW : Cbor Witness} `{HexLaws} `{Bech32} `{JsonLaws} `{!ErrorTexts}.
Context (ft : Features).
Notation Node := (NodeState St).

Lemma tx_summary_value_total tx : typed tx = true ->
  is_Some (tx_summary_value (tx_summary tx)).
Proof.
  intros Ht. unfold tx_summary_value, tx_summary. unfold typed, typed_TxBody in Ht.
  rewrite !andb_true_iff, account_ok_spec in Ht.
  destruct Ht as [[[[[_ Hf] Hc] _] _] _].
  destruct (bech32_roundtrip _ Hf) as (from & Hfrom & _).
  destruct (tx_call tx) eqn:Ec; cbn [ts_from ts_to]; rewrite Hfrom; cbn; try by eexists.
  unfold typed, typed_TxCall in Hc. rewrite andb_true_iff, account_ok_spec in Hc.
  destruct Hc as [Hto _]. destruct (bech32_roundtrip _ Hto) as (t & -> & _). by eexists.
Qed.

Lemma detail_value_total b : typed b = true ->
  exists v, detail_value (block_detail b) = Some v /\ is_null v = false /\
    jget "header" v ≫= jget "state_root" = Some (jstr (hex_encode (bh_state_root (blk_header b)))).
Proof.
  intros Ht. unfold detail_value, block_detail. cbn [bd_txs bd_hash bd_tx_count bd_header].
  assert (is_Some (mapM tx_summary_value (tx_summary <$> body_txs (blk_body b)))) as [txs ->].
  { apply andb_true_iff in Ht as [_ Ht]. apply andb_true_iff in Ht as [Ht _].
    change (forallb typed (body_txs (blk_body b)) = true) in Ht.
    apply mapM_is_Some, Forall_fmap, Forall_elem. intros tx Hin. apply tx_summary_value_total.
    rewrite forallb_forall in Ht. by apply Ht, list_elem_of_In. }
  cbn. eexists. split; [reflexivity|]. split; [apply is_null_obj|].
  json_fields. cbn. unfold header_json_value. by json_fields.
Qed.

Lemma height_request h : in_u 64 h ->
  read_get_block_req (jobj [("height"%string, jint h)]) = Some h.
Proof.
  intros Hh. unfold read_get_block_req. json_fields. cbn. by rewrite read_u_int.
Qed.

Lemma address_request a : read_addr_req (jobj [("address"%string, jstr a)]) = Some a.
Proof. unfold read_addr_req. json_fields. cbn. by rewrite as_str_str. Qed.

Lemma limit_request limit : Z.of_nat limit < 2 ^ 64 ->
  read_list_req (jobj [("limit"%string, jint (Z.of_nat limit))]) = Some limit.
Proof.
  intros Hl. unfold read_list_req. json_fields. cbn. unfold read_usize.
  rewrite as_u64_int, (proj2 (in_ub_spec _ _)) by (unfold in_u; lia). cbn. by rewrite Nat2Z.id.
Qed.

(** What each command shows, for requests that fit the body limit. *)
Notation fits method params := (text_len (cli_request method params) <= MAX_RPC_BODY_BYTES).
Notation cli base now io := (cli_run (network ft base now io) (base +:+ "/rpc")).

Lemma cli_show_block base now io (ns : Node) bs h : node_ok ns bs -> in_u 64 h ->
  fits "get_block"%string (jobj [("height"%string, jint h)]) ->
  match bs !! Z.to_nat h with
  | Some b => exists v, detail_value (block_detail b) = Some v /\
      jget "header" v ≫= jget "state_root" = Some (jstr (hex_encode (bh_state_root (blk_header b)))) /\
      cli base now io (ShowBlock h) ns = (Ok v, ns)
  | None => cli base now io (ShowBlock h) ns = (Err (Status 404), ns)
  end.
Proof.
  intros Hok Hh Hf. destruct (queries_show_chain ns bs now Hok) as (_ & Hg & _).
  unfold cli_run. rewrite cli_rpc_node by exact Hf.
  change (dispatch ft now io "get_block" ?p) with (with_params read_get_block_req p (serve_get_block (St:=St))).
  unfold with_params. rewrite height_request by done. unfold serve_get_block. rewrite (Hg h).
  rewrite (proj2 (Z.leb_le 0 h)) by (unfold in_u in Hh; lia).
  destruct (bs !! Z.to_nat h) as [b'|] eqn:Eb; cbn [fmap option_fmap option_map].
  - destruct Hok as ((_ & _ & _ & Hs) & _). rewrite forallb_forall in Hs.
    apply list_elem_of_lookup_2, list_elem_of_In, Hs in Eb. apply andb_true_iff in Eb as [Tb _].
    destruct (detail_value_total b' Tb) as (v & Hv & Hn & Hr). rewrite Hv.
    exists v. split; [done|]. split; [exact Hr|]. by apply cli_seen_ok.
  - by apply cli_seen_err.
Qed.

Lemma cli_list_blocks base now io (ns : Node) bs limit : node_ok ns bs -> Z.of_nat limit < 2 ^ 64 ->
  fits "list_blocks"%string (jobj [("limit"%string, jint (Z.of_nat limit))]) ->
  cli base now io (ListBlocks limit) ns =
    (Ok (jarr (summary_value <$> (block_summary <$> take (Nat.min limit 500) (reverse bs)))), ns).
Proof.
  intros Hok Hlim Hf. destruct (queries_show_chain ns bs now Hok) as (Hl & _).
  unfold cli_run. rewrite cli_rpc_node by exact Hf.
  change (dispatch ft now io "list_blocks" ?p) with
    (answer (St:=St) 500 (fun l => jarr (summary_value <$> l))
      (query (fun ns => dispatch_list_blocks ns (default 50%nat (read_list_req p))))).
  rewrite limit_request by done. cbn [default].
  rewrite cli_answer by (intros; try lia; apply is_null_arr).
  unfold query, dispatch_list_blocks. by rewrite (proj1 (Hl _)).
Qed.

Lemma cli_get_info base now io (ns : Node) : fits "get_info"%string (jobj []) ->
  cli base now io GetInfo ns = (Ok (info_value (info now ns)), ns).
Proof.
  intros Hf. unfold cli_run. rewrite cli_rpc_node by exact Hf.
  change (dispatch ft now io "get_info" ?p) with
    (answer (St:=St) 500 info_value (query (fun ns => Ok (info now ns)))).
  by rewrite cli_answer by (intros; try lia; apply is_null_obj).
Qed.

Lemma cli_state_root base now io (ns : Node) bs b : node_ok ns bs -> last bs = Some b ->
  fits "get_info"%string (jobj []) ->
  fits "get_block"%string (jobj [("height"%string, jint (Z.of_nat (length bs) - 1))]) ->
  cli base now io StateRoot ns = (Ok (jstr (hex_encode (bh_state_root (blk_header b)))), ns).
Proof.
  intros Hok Hb Hf1 Hf2. destruct (queries_show_chain ns bs now Hok) as (_ & _ & _ & _ & Hi & _).
  pose proof Hok as (_ & _ & Hlen). rewrite last_lookup in Hb.
  assert (0 < length bs)%nat by (destruct bs; [done|cbn; lia]).
  pose proof (cli_show_block base now io ns bs (Z.of_nat (length bs) - 1) Hok
    ltac:(unfold in_u; lia) Hf2) as Hblock.
  replace (Z.to_nat (Z.of_nat (length bs) - 1)) with (pred (length bs)) in Hblock by lia.
  rewrite Hb in Hblock. destruct Hblock as (v & _ & Hr & Hc).
  pose proof (cli_get_info base now io ns Hf1) as Hinfo.
  unfold cli_run in *. unfold mbind at 1, stm_bind. rewrite Hinfo.
  assert (jget "height" (info_value (info now ns)) ≫= as_u64 = Some (Z.of_nat (length bs) - 1)) as Hh.
  { unfold info_value. json_fields. cbn. rewrite Hi, as_u64_int.
    rewrite (proj2 (in_ub_spec _ _)); [done|]. unfold in_u. lia. }
  unfold mbind, stm_bind, lift_out. unfold mbind in Hh. rewrite Hh. cbn [ok_or]. rewrite Hc.
  unfold mbind in Hr. by rewrite Hr.
Qed.

Lemma cli_get_balance base now io (ns : Node) a id : parse_address a = Ok id ->
  fits "get_balance"%string (jobj [("address"%string, jstr a)]) ->
  exists v, cli base now io (GetBalance a) ns = (Ok v, ns) /\
    jget "balance_sat" v = Some (jint (balance (ns_state ns) id)) /\ printed_balance v = 0.
Proof.
  intros Ha Hf. unfold cli_run. rewrite cli_rpc_node by exact Hf.
  change (dispatch ft now io "get_balance" ?p) with
    (with_params read_addr_req p (fun a =>
      answer (St:=St) 400 balance_value (query (fun ns => get_balance ns a)))).
  unfold with_params. rewrite address_request.
  rewrite cli_answer by (intros; try lia; apply is_null_obj).
  unfold query, get_balance. rewrite Ha. cbn [mbind outcome_bind]. eexists. split; [reflexivity|].
  unfold balance_value, printed_balance, index. json_fields. cbn. by rewrite as_u64_null.
Qed.

Lemma cli_emission_series base now io (ns : Node) from to step :
  fits "emission_series"%string (cli_emission_params from to step) ->
  cli base now io (EmissionSeries from to step) ns = (Err (Status 400), ns).
Proof.
  intros Hf. unfold cli_run. rewrite cli_rpc_node by exact Hf.
  change (dispatch ft now io "emission_series" ?p) with
    (with_params read_emission_series_req p (fun req =>
      answer (St:=St) 500 series_value (query (fun ns => emission_series ns req.1 req.2)))).
  unfold with_params, read_emission_series_req, cli_emission_params. json_fields.
  cbn [mbind option_bind required]. by apply cli_seen_err.
Qed.

(** The command line client against the node.  For a request that fits the body limit of
    the server, on a node whose log is the chain [bs]: the block, list, tip and state-root
    commands show exactly the chain; a balance query returns the account's balance under
    [balance_sat], but the client prints the field [balance], which is never there, so it
    shows 0 for every account; and the emission chart, asked for with [from], [to] and
    [step], is refused with status 400 whatever they are. *)
Lemma cli_against_node base now io (ns : Node) bs : node_ok ns bs ->
  let cli := cli base now io in
  (forall h, in_u 64 h -> fits "get_block"%string (jobj [("height"%string, jint h)]) ->
     match bs !! Z.to_nat h with
     | Some b => exists v, detail_value (block_detail b) = Some v /\
         cli (ShowBlock h) ns = (Ok v, ns)
     | None => cli (ShowBlock h) ns = (Err (Status 404), ns)
     end) /\
  (forall limit, Z.of_nat limit < 2 ^ 64 ->
     fits "list_blocks"%string (jobj [("limit"%string, jint (Z.of_nat limit))]) ->
     cli (ListBlocks limit) ns =
       (Ok (jarr (summary_value <$> (block_summary <$> take (Nat.min limit 500) (reverse bs)))), ns)) /\
  (forall h, h = Z.of_nat (length bs) - 1 -> fits "get_info"%string (jobj []) ->
     fits "get_block"%string (jobj [("height"%string, jint h)]) ->
     cli GetInfo ns = (Ok (info_value (info now ns)), ns) /\
     exists b, last bs = Some b /\
       cli StateRoot ns = (Ok (jstr (hex_encode (bh_state_root (blk_header b)))), ns)) /\
  (forall a id, parse_address a = Ok id ->
     fits "get_balance"%string (jobj [("address"%string, jstr a)]) ->
     exists v, cli (GetBalance a) ns = (Ok v, ns) /\
       jget "balance_sat" v = Some (jint (balance (ns_state ns) id)) /\ printed_balance v = 0) /\
  (forall from to step, fits "emission_series"%string (cli_emission_params from to step) ->
     cli (EmissionSeries from to step) ns = (Err (Status 400), ns)).
Proof.
  intros Hok cli. split_and!.
  - intros h Hh Hf. pose proof (cli_show_block base now io ns bs h Hok Hh Hf) as Hblock.
    destruct (bs !! Z.to_nat h); [|exact Hblock]. destruct Hblock as (v & Hv & _ & Hc). by exists v.
  - intros limit. by apply cli_list_blocks.
  - intros h -> Hf1 Hf2. split; [by apply cli_get_info|].
    destruct (queries_show_chain ns bs now Hok) as (_ & _ & b & Hb & _).
    exists b. split; [exact Hb|]. by apply (cli_state_root base now io ns bs).
  - intros a id. apply cli_get_balance.
  - intros from to step. apply cli_emission_series.
Qed.
End cli.

(** ** The wallet *)

Section wallet.
Context {St : Type} `{StateStore St} `{HashPrims} `{SigPrims} `{StateCodecs} {CB : Cbor Block}
  {CT : Cbor TxBody} {CW : Cbor Witness} `{HexLaws} `{Bech32} `{JsonLaws} `{!ErrorTexts}.
Context (ft : Features).
Notation Node := (NodeState St).

(** The body of a call of the wallet. *)
Definition gui_request (method : string) (params : Value) : Value :=
  jobj [("method", jstr method); ("params", params)]%string.

Lemma gui_call_node base now io method params (ns : Node) :
  text_len (gui_request method params) <= MAX_RPC_BODY_BYTES ->
  gui_call (network ft base now io) base method (Some params) ns =
  seen (dispatch ft now io method params ns).
Proof.
  intros Hl. unfold gui_call. rewrite (exchange_rpc _ _ _ _ _ method params).
  - by rewrite (proj2 (Z.ltb_ge _ _)).
  - apply (read_gui_request method (Some params)).
Qed.

(** What the wallet learns of an account; a balance beyond 64 bits reads as 0. *)
Definition account_info (acct : Account) : AccountInfo :=
  {| ai_balance_sat := if in_ub 64 (acc_balance acct) then acc_balance acct else 0;
     ai_nonce := acc_nonce acct; ai_has_pubkey := negb (bool_decide (acc_pubkey acct = [])) |}.

Definition address_text (id : AccountId) : string := default EmptyString (bech32_encode ADDRESS_HRP id).

Definition account_params (id : AccountId) : Value := jobj [("address"%string, jstr (address_text id))].

Lemma gui_get_account_node base now io id (ns : Node) : length id = ACCOUNT_ID_LEN ->
  text_len (gui_request "get_account" (account_params id)) <= MAX_RPC_BODY_BYTES ->
  gui_get_account (network ft base now io) base id ns =
  (Ok (account_info (load_or_default (ns_state ns) id)), ns).
Proof.
  intros Hid Hl. unfold gui_get_account.
  destruct (bech32_address_roundtrip (E:=ClientError) id Hid) as (text & Ht & Hparse).
  assert (address_text id = text) as Hat.
  { unfold address_text. unfold to_bech32 in Ht. apply expect_Ok in Ht. by rewrite Ht. }
  unfold account_params in Hl. rewrite Hat in Hl.
  unfold mbind at 1, stm_bind. unfold lift_out at 1. rewrite Ht.
  unfold mbind at 1, stm_bind. rewrite gui_call_node by exact Hl.
  change (dispatch ft now io "get_account" ?p) with
    (with_params read_addr_req p (fun a =>
      answer (St:=St) 400 account_value (query (fun ns => get_account ns a)))).
  unfold with_params. rewrite address_request. unfold answer, query, get_account, parse_address.
  rewrite Hparse. cbn [map_err mbind outcome_bind]. unfold seen, rpc_ok, json_ok.
  cbn [hr_status hr_body]. change (400 <=? 200) with false. cbn iota.
  unfold mbind, stm_bind, lift_out. json_fields. cbn [ok_or]. unfold mret, stm_ret.
  unfold account_info, account_value, index. json_fields.
  cbn [ar_balance_sat ar_nonce ar_has_pubkey default].
  unfold Datatypes.id. rewrite !as_u64_int, as_bool_bool. cbn [default].
  pose proof (load_typed (ns_state ns) id) as Hacc. unfold typed, typed_Account in Hacc.
  rewrite !andb_true_iff in Hacc. destruct Hacc as [[_ ->] _].
  by destruct (in_ub 64 (acc_balance _)).
Qed.

Lemma gui_submit_tx_node base now io tx w tx_buf wit_buf (ns : Node) :
  cbor_de tx_buf = Some tx -> cbor_de wit_buf = Some w ->
  text_len (gui_request "submit_tx"
    (jobj [("tx_cbor_hex", jstr (hex_encode tx_buf));
           ("witness_cbor_hex", jstr (hex_encode wit_buf))]%string)) <= MAX_RPC_BODY_BYTES ->
  gui_submit_tx (network ft base now io) base (hex_encode tx_buf) (hex_encode wit_buf) ns =
  let '(r, mp) := submit now tx w (ns_mempool ns) in
  (match r with
   | Ok h => Ok (hex_encode h) | Err _ => Err (Status 400) | Panic => Err Transport end,
   set_mempool mp ns).
Proof.
  intros Htx Hw Hl. unfold gui_submit_tx. unfold mbind at 1, stm_bind.
  rewrite gui_call_node by exact Hl.
  change (dispatch ft now io "submit_tx" ?p) with
    (with_params read_submit_tx_req p (fun req =>
      answer (St:=St) 400 submit_tx_value (submit_tx now req))).
  unfold with_params, read_submit_tx_req. json_fields. cbn [required mbind option_bind].
  rewrite !as_str_str. cbn [mbind option_bind].
  unfold answer, submit_tx, on_mempool. unfold mbind, stm_bind, lift_out.
  cbn [st_tx_cbor_hex st_witness_cbor_hex]. rewrite !hex_decode_encode. cbn [ok_or].
  rewrite Htx, Hw. cbn [ok_or].
  destruct (submit now tx w (ns_mempool ns)) as [[h|e|] mp]; cbn [map_err]; [|done..].
  unfold mret, stm_ret, seen, rpc_ok, json_ok. cbn [hr_status hr_body].
  change (400 <=? 200) with false. cbn iota. json_fields. cbn [mbind option_bind].
  rewrite bool_decide_false by (by intros []). cbn [ok_or].
  unfold submit_tx_value, index. json_fields. cbn [stx_tx_hash default from_option].
  unfold Datatypes.id. by rewrite as_str_str.
Qed.

Lemma wallet_tx_typed w info to amount fee wh : account_ok (wal_address w) = true ->
  account_ok to = true -> in_u 64 (ai_nonce info) -> in_u 128 amount -> in_u 64 fee ->
  length wh = 32%nat -> typed (wallet_tx w info to amount fee wh) = true.
Proof.
  intros Hf Ht Hn Ha Hfee Hwh. unfold typed, typed_TxBody, wallet_tx.
  cbn [tx_nonce tx_from_account tx_call tx_fee_sat tx_gas_limit tx_witness_hash].
  rewrite !andb_true_iff, !in_ub_spec, is_array_spec. split_and!; try done.
  unfold typed, typed_TxCall. by rewrite andb_true_iff, in_ub_spec.
Qed.

Lemma from_bech32_account s id : from_bech32 s = Ok id -> account_ok id = true.
Proof. intros [_ Hl]%from_bech32_Ok. by apply account_ok_spec. Qed.

Lemma parse_u_range w s n : parse_u w s = Some n -> in_u w n.
Proof.
  unfold parse_u. intros Hp. destruct (bool_decide _); [discriminate|].
  apply bind_Some in Hp as (m & _ & Hm). destruct (in_ub w m) eqn:Hb; [|discriminate].
  injection Hm as <-. by apply in_ub_spec.
Qed.

Lemma wallet_generate_fields rng sk pk : lib_keygen (lib_of 3) rng = (sk, pk) ->
  wallet_generate rng = {| wal_sig_algo := 3; wal_secret_key := sk; wal_public_key := pk;
                           wal_address := from_pubkey pk |}.
Proof.
  intros Ek. unfold wallet_generate, ed25519_keypair. change ed25519_dalek with (lib_of 3).
  by rewrite Ek.
Qed.

Lemma account_info_nonce (s : St) id : in_u 64 (ai_nonce (account_info (load_or_default s id))).
Proof.
  pose proof (load_typed s id) as Hl. unfold typed, typed_Account in Hl.
  rewrite !andb_true_iff, !in_ub_spec in Hl. apply Hl.
Qed.

(** What the wallet is told of a transaction it submits, and the node afterwards. *)
Definition submitted (now : Z) (tx : TxBody) (wit : Witness) (ns : Node)
    : outcome ClientError string * Node :=
  let '(r, mp) := submit now tx wit (ns_mempool ns) in
  (match r with
   | Ok h => Ok (hex_encode h) | Err _ => Err (Status 400) | Panic => Err Transport end,
   set_mempool mp ns).

Lemma submitted_cases now tx wit (ns : Node) : tx_witness_hash tx = witness_hash wit ->
  let '(r, ns') := submitted now tx wit ns in
  if decide (is_Some (mp_inner (ns_mempool ns) !! body_hash tx))
  then r = Err (Status 400) /\ ns' = ns
  else r = Ok (hex_encode (body_hash tx)) /\ ns' = set_mempool (ns_mempool ns') ns /\
    mp_inner (ns_mempool ns') !! body_hash tx =
      Some {| pt_body := tx; pt_witness := wit; pt_received_ms := now |}.
Proof.
  intros Hw. unfold submitted, submit. rewrite bool_decide_true by done. cbn [negb].
  destruct (decide (is_Some (mp_inner (ns_mempool ns) !! body_hash tx))) as [Hd|Hd].
  - rewrite bool_decide_true by done. split; [done|by destruct ns].
  - rewrite bool_decide_false by done. split_and!; [done|done|]. cbn. by rewrite lookup_insert_eq.
Qed.

(** The wallet's send, once it has signed: the node pools the transfer unless it is pending. *)
Lemma build_and_submit_node trim base now io rng (ns : Node) w to_str amount_str fee_str to amount fee
    sig tx_buf wit_buf :
  let info := account_info (load_or_default (ns_state ns) (wal_address w)) in
  let wit := wallet_witness w info sig in
  let tx := wallet_tx w info to amount fee (witness_hash wit) in
  from_bech32 (trim to_str) = Ok to -> parse_u 128 (trim amount_str) = Some amount ->
  parse_u 64 (trim fee_str) = Some fee -> account_ok (wal_address w) = true ->
  sign ft rng (wal_sig_algo w) (wal_secret_key w)
    (signing_hash (wallet_tx w info to amount fee (replicate 32 x00))) = Ok sig ->
  cbor_ser tx = Some tx_buf -> cbor_ser wit = Some wit_buf ->
  cbor_de tx_buf = Some tx -> cbor_de wit_buf = Some wit ->
  text_len (gui_request "get_account" (account_params (wal_address w))) <= MAX_RPC_BODY_BYTES ->
  text_len (gui_request "submit_tx"
    (jobj [("tx_cbor_hex", jstr (hex_encode tx_buf));
           ("witness_cbor_hex", jstr (hex_encode wit_buf))]%string)) <= MAX_RPC_BODY_BYTES ->
  build_and_submit_tx (network ft base now io) ft trim rng base w to_str amount_str fee_str ns =
    submitted now tx wit ns.
Proof.
  intros info wit tx Hto Hamt Hfee Haddr Hsig Sx Sw Dx Dw Hf1 Hf2.
  unfold build_and_submit_tx. unfold mbind, stm_bind. unfold lift_out at 1.
  rewrite Hto. cbn [map_err]. unfold lift_out at 1. rewrite Hamt. cbn [ok_or].
  unfold lift_out at 1. rewrite Hfee. cbn [ok_or].
  rewrite gui_get_account_node by (try apply account_ok_spec; done). fold info.
  unfold lift_out at 1. unfold wallet_sign. rewrite Hsig.
  cbn [map_err]. fold wit tx. unfold lift_out at 1. rewrite Sx. cbn [ok_or].
  unfold lift_out at 1. rewrite Sw. cbn [ok_or].
  by rewrite (gui_submit_tx_node base now io tx wit).
Qed.

(** The wallet signs the transfer with the account's next nonce and submits it. *)
Lemma wallet_signs trim rng rng' (ns : Node) to_str amount_str fee_str to amount fee :
  libs_ok -> wired ft 3 = true ->
  from_bech32 (trim to_str) = Ok to -> parse_u 128 (trim amount_str) = Some amount ->
  parse_u 64 (trim fee_str) = Some fee ->
  let w := wallet_generate rng in
  let info := account_info (load_or_default (ns_state ns) (wal_address w)) in
  let fits method params := text_len (gui_request method params) <= MAX_RPC_BODY_BYTES in
  fits "get_account"%string (account_params (wal_address w)) ->
  exists sig, let wit := wallet_witness w info sig in
    let tx := wallet_tx w info to amount fee (witness_hash wit) in
    exists tx_buf wit_buf, cbor_ser tx = Some tx_buf /\ cbor_ser wit = Some wit_buf /\
    typed tx = true /\ typed wit = true /\
    sign ft rng' (wal_sig_algo w) (wal_secret_key w) (signing_hash tx) = Ok sig /\
    verify ft 3 (wal_public_key w) sig (signing_hash tx) = Ok tt /\
    (fits "submit_tx"%string
       (jobj [("tx_cbor_hex", jstr (hex_encode tx_buf));
              ("witness_cbor_hex", jstr (hex_encode wit_buf))]%string) ->
     forall base now io, build_and_submit_tx (network ft base now io) ft trim rng' base w
       to_str amount_str fee_str ns = submitted now tx wit ns).
Proof.
  intros Hlibs Hft Hto Hamt Hfee w info fits Hfits.
  destruct (lib_keygen (lib_of 3) rng) as [sk pk] eqn:Ek.
  pose proof (wallet_generate_fields rng sk pk Ek) as Ew. fold w in Ew.
  destruct (sign_verify_roundtrip ft 3 rng rng' sk pk
    (signing_hash (wallet_tx w info to amount fee (replicate 32 x00))) Hlibs Hft Ek)
    as (sig & Hsig & _ & Hver).
  exists sig. intros wit tx.
  assert (account_ok (wal_address w) = true) as Haddr.
  { apply account_ok_spec. rewrite Ew. apply length_from_pubkey. }
  assert (typed tx = true) as Ttx.
  { apply wallet_tx_typed; [done|by eapply from_bech32_account|apply account_info_nonce
      |by eapply parse_u_range..|apply length_blake3]. }
  assert (typed wit = true) as Twit.
  { unfold wit, wallet_witness, typed, typed_Witness. cbn [wit_sig_algo wit_pubkey].
    rewrite Ew in Haddr |- *. cbn [wal_sig_algo wal_address wal_public_key] in *.
    by destruct (ai_has_pubkey info). }
  destruct (cbor_roundtrip tx Ttx) as (tx_buf & Sx & Dx).
  destruct (cbor_roundtrip wit Twit) as (wit_buf & Sw & Dw).
  exists tx_buf, wit_buf. split_and!; [done|done|done|done|by rewrite Ew|by rewrite Ew|].
  intros Hf2 base now io. apply (build_and_submit_node trim base now io rng' ns w to_str amount_str
    fee_str to amount fee sig tx_buf wit_buf); try done.
  fold info. rewrite Ew in Hsig |- *. exact Hsig.
Qed.

(** C30: The wallet's transfer.  A wallet with generated keys, whose account on the node has
    no key yet or this one, sends an amount that parses to an address that decodes: it signs
    exactly the transfer of that amount and fee with the account's next nonce, the node
    pools it under the hash the wallet is told, unless that very transaction is pending, and
    the ledger's validation takes it exactly when the amount and the fee fit the balance.
    (The two requests must fit the server's body limit.) *)
Theorem wallet_send_valid trim base now io rng rng' (ns : Node) to_str amount_str fee_str to amount fee :
  libs_ok -> wired ft 3 = true ->
  from_bech32 (trim to_str) = Ok to -> parse_u 128 (trim amount_str) = Some amount ->
  parse_u 64 (trim fee_str) = Some fee ->
  let w := wallet_generate rng in
  let acct := load_or_default (ns_state ns) (wal_address w) in
  acc_pubkey acct = [] \/ acc_pubkey acct = wal_public_key w /\ acc_sig_algo acct = 3 ->
  let fits method params := text_len (gui_request method params) <= MAX_RPC_BODY_BYTES in
  fits "get_account"%string (account_params (wal_address w)) ->
  exists tx wit tx_buf wit_buf, cbor_ser tx = Some tx_buf /\ cbor_ser wit = Some wit_buf /\
    tx = wallet_tx w (account_info acct) to amount fee (witness_hash wit) /\
    verify ft 3 (wal_public_key w) (wit_sig wit) (signing_hash tx) = Ok tt /\
    (fits "submit_tx"%string
       (jobj [("tx_cbor_hex", jstr (hex_encode tx_buf));
              ("witness_cbor_hex", jstr (hex_encode wit_buf))]%string) ->
     let '(r, ns') := build_and_submit_tx (network ft base now io) ft trim rng' base w
                        to_str amount_str fee_str ns in
     if decide (is_Some (mp_inner (ns_mempool ns) !! body_hash tx))
     then r = Err (Status 400) /\ ns' = ns
     else r = Ok (hex_encode (body_hash tx)) /\ ns' = set_mempool (ns_mempool ns') ns /\
       mp_inner (ns_mempool ns') !! body_hash tx =
         Some {| pt_body := tx; pt_witness := wit; pt_received_ms := now |}) /\
    forall i, is_ok (validate_tx ft i (ns_state ns) tx wit) = true <->
      amount + fee <= acc_balance acct.
Proof.
  intros Hlibs Hft Hto Hamt Hfee w acct Hacct fits Hfits.
  destruct (lib_keygen (lib_of 3) rng) as [sk pk] eqn:Ek.
  pose proof (wallet_generate_fields rng sk pk Ek) as Ew. fold w in Ew.
  destruct (wallet_signs trim rng rng' ns to_str amount_str fee_str to amount fee Hlibs Hft Hto Hamt Hfee Hfits)
    as (sig & tx_buf & wit_buf & Sx & Sw & Ttx & Twit & _ & Hver & Hrun).
  fold w acct in Sx, Sw, Ttx, Twit, Hver, Hrun. set (info := account_info acct) in *.
  set (wit := wallet_witness w info sig) in *.
  set (tx := wallet_tx w info to amount fee (witness_hash wit)) in *.
  assert (wal_public_key w = pk) as Epk by (by rewrite Ew).
  exists tx, wit, tx_buf, wit_buf. split_and!; [done|done|done|exact Hver|..].
  - intros Hf2. rewrite (Hrun Hf2). by apply submitted_cases.
  - intros i. rewrite (transfer_validates ft i (ns_state ns) tx wit pk to amount).
    + split; [by intros [_ Hb]|]. intros Hb. split; [done|exact Hb].
    + done.
    + change (from_pubkey pk = wal_address w). by rewrite Ew.
    + change (wal_sig_algo w = 3). by rewrite Ew.
    + change (tx_from_account tx) with (wal_address w). fold acct.
      unfold wit, wallet_witness, info, account_info. cbn [ai_has_pubkey wit_pubkey].
      rewrite Epk. by destruct (bool_decide _).
    + rewrite Epk in Hver. exact Hver.
    + rewrite Ew in Hacct. exact Hacct.
Qed.
End wallet.

(** ** The mining worker *)

Section worker.
#[local] Opaque BATCH.
Context `{JsonLaws} {W : Type} `{HashPrims} `{HexLaws}.

(** The [i]-th nonce of the thread that starts at [start]. *)
Definition nonce_at (start stride : Z) (i : nat) : Z := (start + Z.of_nat i * stride) mod 2 ^ 64.
Definition attempt (j : HeaderJson) (stride : Z) (i : nat) : HeaderJson :=
  json_nonce j (nonce_at (hj_nonce j) stride i).
Definition attempt_meets (target : bytes) (j : HeaderJson) (stride : Z) (i : nat) : bool :=
  match gui_header (attempt j stride i) with
  | Ok hdr => meets_target (hash_header hdr) target
  | _ => false
  end.

Lemma json_attempt_0 j stride : in_u 64 (hj_nonce j) -> attempt j stride 0 = j.
Proof.
  intros Hn. unfold attempt, nonce_at. rewrite Z.mul_0_l, Z.add_0_r, Z.mod_small by done.
  by destruct j.
Qed.

Lemma attempt_plus j stride i k : attempt (attempt j stride i) stride k = attempt j stride (i + k).
Proof.
  unfold attempt, json_nonce, nonce_at. cbn. f_equal. rewrite Zplus_mod_idemp_l. f_equal. lia.
Qed.

Lemma attempt_step j stride i :
  json_nonce (attempt j stride i) (wrapping_add 64 (hj_nonce (attempt j stride i)) stride) =
  attempt j stride (S i).
Proof.
  unfold attempt, json_nonce, nonce_at, wrapping_add. cbn. f_equal.
  rewrite Zplus_mod_idemp_l. f_equal. lia.
Qed.

(** The two programs read the same headers. *)
Definition same_success {E1 E2 A} (m1 : outcome E1 A) (m2 : outcome E2 A) : Prop :=
  forall a, m1 = Ok a <-> m2 = Ok a.

Lemma same_success_bind {E1 E2 A B} (m1 : outcome E1 A) (m2 : outcome E2 A)
    (k1 : A -> outcome E1 B) (k2 : A -> outcome E2 B) :
  same_success m1 m2 -> (forall a, same_success (k1 a) (k2 a)) ->
  same_success (m1 ≫= k1) (m2 ≫= k2).
Proof. intros Hm Hk b. rewrite !outcome_bind_Ok. split; intros (a & ?%Hm & ?%Hk); eauto. Qed.

Lemma h32_same s : same_success (h32 s) (hex32 s).
Proof.
  unfold same_success, h32, hex32. intros b. destruct (hex_decode s) as [v|]; cbn; [|split; discriminate].
  destruct (negb _); split; congruence.
Qed.

Lemma gui_header_same j : same_success (gui_header j) (header_of_json j).
Proof.
  unfold gui_header, header_of_json.
  repeat (apply same_success_bind; [apply h32_same|]; intros ?). intros hdr.
  split; intros [= ->]; done.
Qed.

Lemma gui_header_nonce j n : is_ok (gui_header (json_nonce j n)) = is_ok (gui_header j).
Proof.
  unfold gui_header, json_nonce. cbn.
  repeat (destruct (h32 _); cbn [mbind outcome_bind]; [|done..]). done.
Qed.

(** A batch ends at the first attempt that meets the target, or after its [k] attempts. *)
Lemma mine_batch_spec k target stride j i : is_ok (gui_header j) = true ->
  (exists r, (r < k)%nat /\ attempt_meets target j stride (i + r) = true /\
     (forall r', (r' < r)%nat -> attempt_meets target j stride (i + r') = false) /\
     mine_batch k target stride (attempt j stride i) = (attempt j stride (i + r), true, S r)) \/
  ((forall r, (r < k)%nat -> attempt_meets target j stride (i + r) = false) /\
   mine_batch k target stride (attempt j stride i) = (attempt j stride (i + k), false, k)).
Proof.
  intros Hj. revert i. induction k as [|k IH]; intros i.
  { right. split; [lia|]. by rewrite Nat.add_0_r. }
  cbn [mine_batch].
  assert (exists hdr, gui_header (attempt j stride i) = Ok hdr) as [hdr Hh].
  { pose proof (gui_header_nonce j (nonce_at (hj_nonce j) stride i)) as Ho. rewrite Hj in Ho.
    unfold attempt. destruct (gui_header (json_nonce j _)) as [hdr|e|];
      [by eexists|discriminate Ho|discriminate Ho]. }
  assert (attempt_meets target j stride i = meets_target (hash_header hdr) target) as Hm
    by (unfold attempt_meets; by rewrite Hh).
  rewrite Hh. destruct (meets_target _ _).
  - left. exists 0%nat. rewrite Nat.add_0_r. split_and!; [lia|done|lia|done].
  - rewrite attempt_step. destruct (IH (S i)) as [(r & Hr & Hf & Hb & ->)|[Hn ->]].
    + left. exists (S r). rewrite <- plus_n_Sm. split_and!; [lia|done| |done].
      intros [|r'] Hr'; [by rewrite Nat.add_0_r|]. rewrite <- plus_n_Sm. apply Hb. lia.
    + right. rewrite <- plus_n_Sm. split; [|done].
      intros [|r] Hr; [by rewrite Nat.add_0_r|]. rewrite <- plus_n_Sm. apply Hn. lia.
Qed.

Lemma BATCH_pos : exists n, BATCH = S n.
Proof. by exists 4095%nat. Qed.

(** Once found, the same header is found by every later batch at its first attempt. *)
Lemma mine_round_found batches (submit : HeaderJson -> stm W ClientError bool) target stride j c w :
  in_u 64 (hj_nonce j) -> attempt_meets target j stride 0 = true ->
  (mine_round batches submit target stride j c w).2 =
  Nat.iter batches (fun w => (submit j w).2) w.
Proof.
  intros Hn Hm. revert c w. induction batches as [|n IH]; intros c w; [done|].
  cbn [mine_round].
  assert (mine_batch BATCH target stride j = (j, true, 1%nat)) as ->.
  { revert Hm. unfold attempt_meets. rewrite json_attempt_0 by done. 
    destruct BATCH_pos as [b ->]. cbn [mine_batch]. destruct (gui_header j); [|discriminate..].
    destruct (meets_target _ _); [done|discriminate]. }
  rewrite Nat.iter_succ_r. destruct (submit j w) as [[[|]|e|] w']; by rewrite IH.
Qed.

Lemma attempt_meets_plus target j stride i k :
  attempt_meets target (attempt j stride i) stride k = attempt_meets target j stride (i + k).
Proof. unfold attempt_meets. by rewrite attempt_plus. Qed.

Lemma attempt_range j stride i : in_u 64 (hj_nonce (attempt j stride i)).
Proof. unfold in_u, attempt, nonce_at. cbn [hj_nonce json_nonce]. apply Z.mod_pos_bound. lia. Qed.

Lemma mine_round_from batches (submit : HeaderJson -> stm W ClientError bool) target stride j i c w :
  is_ok (gui_header j) = true ->
  (forall q r, (r < BATCH)%nat -> (q < batches)%nat ->
     attempt_meets target j stride (i + (q * BATCH + r)) = true ->
     (forall k, (k < q * BATCH + r)%nat -> attempt_meets target j stride (i + k) = false) ->
     (mine_round batches submit target stride (attempt j stride i) c w).2 =
     Nat.iter (batches - q) (fun w => (submit (attempt j stride (i + (q * BATCH + r))) w).2) w) /\
  ((forall k, (k < batches * BATCH)%nat -> attempt_meets target j stride (i + k) = false) ->
     (mine_round batches submit target stride (attempt j stride i) c w).2 = w).
Proof.
  intros Hj. revert i c w. induction batches as [|n IH]; intros i c w; [by split; [lia|]|].
  cbn [mine_round].
  destruct (mine_batch_spec BATCH target stride j i Hj) as [(r0 & Hr0 & Hf & Hbefore & ->)|[Hnone ->]].
  - assert ((mine_round (S n) submit target stride (attempt j stride (i + r0)) c w).2 =
      Nat.iter (S n) (fun w => (submit (attempt j stride (i + r0)) w).2) w) as Hfound.
    { apply mine_round_found; [apply attempt_range|]. by rewrite attempt_meets_plus, Nat.add_0_r. }
    split.
    + intros q r Hr Hq Hm Hb.
      assert (q * BATCH + r = r0)%nat as Heq.
      { destruct (Nat.lt_trichotomy (q * BATCH + r) r0) as [Hlt|[|Hgt]]; [|done|].
        - by rewrite Hbefore in Hm.
        - by rewrite (Hb r0) in Hf. }
      assert (q = 0%nat) as -> by nia. rewrite Heq. change (S n - 0)%nat with (S n).
      rewrite Nat.iter_succ_r.
      destruct (submit (attempt j stride (i + r0)) w) as [[[|]|e|] w'];
        (rewrite mine_round_found; [done|apply attempt_range|by rewrite attempt_meets_plus, Nat.add_0_r]).
    + intros Hall. rewrite Hall in Hf; [done|]. nia.
  - split.
    + intros q r Hr Hq Hm Hb. destruct q as [|q]; [by rewrite Hnone in Hm|].
      change (S n - S q)%nat with (n - q)%nat.
      replace (i + (S q * BATCH + r))%nat with ((i + BATCH) + (q * BATCH + r))%nat in * by lia.
      apply IH; [done|lia|done|]. intros k Hk.
      replace (i + BATCH + k)%nat with (i + (BATCH + k))%nat by lia. apply Hb. lia.
    + intros Hall. apply IH. intros k Hk.
      replace (i + BATCH + k)%nat with (i + (BATCH + k))%nat by lia. apply Hall. lia.
Qed.

(** C34: The mining worker.  Thread [t] of [n] tries the nonces [t], [t + n], [t + 2n], ...,
    so that no two threads try the same one before the nonces wrap.  If its first attempt to
    meet the target falls into batch [q] of the [batches] it has before its deadline, it
    submits that header [batches - q] times: the nonce is not advanced after a hit, so every
    further batch finds and submits the same header again.  If no attempt of the round meets
    the target nothing is submitted. *)
Theorem mining_worker_round batches (submit : HeaderJson -> stm W ClientError bool) target stride j c w :
  is_ok (gui_header j) = true -> in_u 64 (hj_nonce j) ->
  (forall q r, (r < BATCH)%nat -> (q < batches)%nat ->
     attempt_meets target j stride (q * BATCH + r) = true ->
     (forall i, (i < q * BATCH + r)%nat -> attempt_meets target j stride i = false) ->
     (mine_round batches submit target stride j c w).2 =
     Nat.iter (batches - q) (fun w => (submit (attempt j stride (q * BATCH + r)) w).2) w) /\
  ((forall i, (i < batches * BATCH)%nat -> attempt_meets target j stride i = false) ->
     (mine_round batches submit target stride j c w).2 = w) /\
  (forall n t1 t2 i1 i2, 0 <= t1 < n -> 0 <= t2 < n ->
     t1 + Z.of_nat i1 * n < 2 ^ 64 -> t2 + Z.of_nat i2 * n < 2 ^ 64 ->
     nonce_at t1 n i1 = nonce_at t2 n i2 -> t1 = t2 /\ i1 = i2).
Proof.
  intros Hj Hn. destruct (mine_round_from batches submit target stride j 0 c w Hj) as [Hf Hnone].
  rewrite json_attempt_0 in Hf, Hnone by done. split_and!; [exact Hf|exact Hnone|].
  intros n t1 t2 i1 i2 Ht1 Ht2 Hw1 Hw2. unfold nonce_at. rewrite !Z.mod_small by nia. intros He.
  assert (Z.of_nat i1 = Z.of_nat i2) as Hi.
  { rewrite (Z.div_unique (t1 + Z.of_nat i1 * n) n (Z.of_nat i1) t1) by lia.
    rewrite (Z.div_unique (t2 + Z.of_nat i2 * n) n (Z.of_nat i2) t2) by lia. by rewrite He. }
  rewrite Hi in He. split; lia.
Qed.
End worker.

(** ** Templates too large for the way back *)

Section oversized.
Context {St : Type} `{StateStore St} `{HashPrims} `{SigPrims} `{StateCodecs} {CB : Cbor Block}
  {CT : Cbor TxBody} {CW : Cbor Witness} `{HexLaws} `{Bech32} `{JsonLaws} `{!ErrorTexts}.
Context (ft : Features).
Notation Node := (NodeState St).

Definition strings_len (l : list string) : Z := sum_len (fun s => Z.of_nat (String.length s)) l.

Lemma submit_request_len header txs wits :
  strings_len txs + strings_len wits <=
  text_len (gui_request "submit_block" (submit_block_value header txs wits)).
Proof.
  unfold gui_request. etrans; [|apply (text_len_field _ "params" (submit_block_value header txs wits));
    set_solver].
  unfold submit_block_value. etrans; [|apply text_len_obj]. cbn [sum_len foldr snd].
  pose proof (sum_len_strings txs). pose proof (sum_len_strings wits).
  pose proof (text_len_nonneg (header_json_value header)). unfold strings_len in *. lia.
Qed.

Lemma rpc_submit_block_oversized base now io header txs wits (ns : Node) :
  MAX_RPC_BODY_BYTES < strings_len txs + strings_len wits ->
  rpc_submit_block (network ft base now io) base header txs wits ns = (Err (Status 413), ns).
Proof.
  intros Hl. unfold rpc_submit_block, mbind, stm_bind, gui_call.
  rewrite (exchange_rpc _ _ _ _ _ "submit_block" (submit_block_value header txs wits)).
  - rewrite (proj2 (Z.ltb_lt _ _)); [done|].
    eapply Z.lt_le_trans; [exact Hl|apply submit_request_len].
  - apply (read_gui_request "submit_block" (Some _)).
Qed.

Lemma mine_round_rejected batches (submit : HeaderJson -> stm Node ClientError bool) target stride j c ns :
  (forall j, submit j ns = (Err (Status 413), ns)) ->
  let '(c', ns') := mine_round batches submit target stride j c ns in
  ns' = ns /\ ct_accepted c' = ct_accepted c.
Proof.
  intros Hs. revert j c. induction batches as [|n IH]; intros j c; [done|]. cbn [mine_round].
  destruct (mine_batch BATCH target stride j) as [[j' [|]] hashes]; rewrite ?Hs;
    (match goal with |- context [mine_round n submit target stride j' ?c' ns] =>
       specialize (IH j' c') end; exact IH).
Qed.

Lemma string_items_strings l : string_items (jarr (jstr <$> l)) = l.
Proof.
  unfold string_items. rewrite as_array_arr. cbn. induction l as [|s l IH]; [done|].
  cbn. rewrite as_str_str. by f_equal.
Qed.

Lemma read_header_json_value j : json_typed j -> read_header_json (header_json_value j) = Some j.
Proof.
  intros (T1 & T2 & T3 & T4 & T5 & T6 & T7). unfold read_header_json, header_json_value.
  json_fields. cbn [required mbind option_bind].
  rewrite !as_str_str, !read_u_int by (done || lia). cbn [mbind option_bind]. by destruct j.
Qed.

(** The mining tab shows the tip of the node. *)
Lemma rpc_get_info_node base now io (ns : Node) :
  text_len (jobj [("method"%string, jstr "get_info")]) <= MAX_RPC_BODY_BYTES ->
  in_u 64 (inf_height (info now ns)) ->
  rpc_get_info (network ft base now io) base ns =
    (Ok {| ni_chain_id := inf_chain_id (info now ns); ni_tip_hash := inf_tip_hash (info now ns);
           ni_height := inf_height (info now ns); ni_target_hex := inf_target (info now ns) |}, ns).
Proof.
  intros Hl Hh. unfold rpc_get_info, mbind, stm_bind, gui_call.
  rewrite (exchange_rpc _ _ _ _ _ "get_info" jnull) by apply (read_gui_request "get_info" None).
  cbn [from_option]. rewrite (proj2 (Z.ltb_ge _ _)) by exact Hl.
  change (dispatch ft now io "get_info" ?p) with
    (answer (St:=St) 500 info_value (query (fun ns => Ok (info now ns)))).
  unfold answer, query, seen, rpc_ok, json_ok. cbn [hr_status hr_body].
  change (400 <=? 200) with false. cbn iota. unfold lift_out. json_fields. cbn [ok_or].
  unfold mret, stm_ret, index, info_value. json_fields. cbn [default from_option].
  unfold Datatypes.id. rewrite !as_str_str, as_u64_int, (proj2 (in_ub_spec _ _)) by exact Hh. done.
Qed.

(** The workers take distinct residues of their common stride. *)
Lemma start_workers threads t1 n1 t2 n2 : (t1, n1) ∈ start threads -> (t2, n2) ∈ start threads ->
  n1 = n2 /\ (t1 < n1)%nat /\ NoDup (start threads).
Proof.
  unfold start. intros (k1 & [= -> ->] & Hk1%elem_of_seq)%list_elem_of_fmap.
  intros (k2 & [= -> ->] & Hk2%elem_of_seq)%list_elem_of_fmap. split_and!; [done|lia|].
  apply NoDup_fmap_2; [by intros ? ? [= ->]|apply NoDup_seq].
Qed.

Lemma rpc_get_template_node base now io (ns : Node) resp : template_resp now ns = Ok resp ->
  exists r, rpc_get_template (network ft base now io) base ns = (r, ns) /\
    forall t, r = Ok t -> mt_txs_cbor_hex t = tr_txs_cbor_hex resp /\
      mt_witnesses_cbor_hex t = tr_witnesses_cbor_hex resp /\
      mt_target t = target_from_bits (ns_bits ns) /\
      (json_typed (tr_header resp) -> mt_header t = tr_header resp).
Proof.
  intros Ht. unfold rpc_get_template, mbind, stm_bind, gui_call.
  rewrite (exchange_rpc _ _ _ _ _ "get_template" jnull) by apply (read_gui_request "get_template" None).
  destruct (MAX_RPC_BODY_BYTES <? text_len _); [by eexists|].
  change (dispatch ft now io "get_template" ?p) with
    (answer (St:=St) 500 template_value (query (template_resp now))).
  unfold answer, query. rewrite Ht. unfold seen, rpc_ok, json_ok. cbn [hr_status hr_body].
  change (400 <=? 200) with false. cbn iota. unfold lift_out. json_fields. cbn [ok_or].
  unfold index, template_value. json_fields. cbn [default from_option]. unfold Datatypes.id.
  rewrite as_str_str. cbn [default from_option]. unfold Datatypes.id. rewrite !string_items_strings.
  destruct (read_header_json (header_json_value (tr_header resp))) as [h|] eqn:Eh; cbn [ok_or];
    [|by eexists].
  assert (tr_target resp = hex_encode (target_from_bits (ns_bits ns))) as ->.
  { unfold template_resp in Ht. destruct (template now ns) as [hdr body].
    apply outcome_bind_Ok in Ht as (txs & _ & Ht). apply outcome_bind_Ok in Ht as (wits & _ & Ht).
    by injection Ht as <-. }
  rewrite hex_decode_encode. cbn [ok_or]. destruct (negb _); [by eexists|].
  eexists. split; [reflexivity|]. intros t [= <-]. split_and!; [done..|].
  intros Hty. cbn [mt_header]. rewrite read_header_json_value in Eh by done. by injection Eh.
Qed.

(** A template can be too large to come back.  [get_template] packs up to 256
    transactions without a limit on their size, and the server reads at most 64 KiB of a
    request: when the transactions and witnesses of the template take more than that in
    hexadecimal, a mining worker never gets a block accepted, whatever it finds, and the node
    never changes. *)
Lemma oversized_template_unminable base now io (ns : Node) resp thread_id stride coinbase batches c :
  template_resp now ns = Ok resp ->
  MAX_RPC_BODY_BYTES < strings_len (tr_txs_cbor_hex resp) + strings_len (tr_witnesses_cbor_hex resp) ->
  let '(c', ns') := worker_turn (network ft base now io) thread_id stride base coinbase batches c ns in
  ns' = ns /\ ct_accepted c' = ct_accepted c.
Proof.
  intros Ht Hl. destruct (rpc_get_template_node base now io ns resp Ht) as (r & Hr & Hs).
  unfold worker_turn. rewrite Hr. destruct r as [t|e|]; [|done..].
  destruct (Hs t eq_refl) as (-> & -> & _). apply mine_round_rejected.
  intros j. by apply rpc_submit_block_oversized.
Qed.
End oversized.
