(* ===== verification/DoubleSend.v ===== *)
(** * DoubleSend: two payments of one account before a block
    (crates/state/src/apply.rs, crates/node/src/mempool.rs, crates/gui/src/main.rs)

    Pass 1 of [apply_block] checks every nonce against the store before the block, so a
    block holds at most one transaction of an account.  The pool takes any number of them,
    and the wallet takes its nonce from the ledger, not from the pool: two payments it sends
    before the next block are pooled with one nonce, and from then on no template is minable. *)

From S2P Require Export SelfMiner NoPanic ClientProps.

Local Open Scope Z_scope.

Section ledger.
Context {St : Type} `{StateStoreLaws St} `{HashPrims} `{SigPrims} `{StateCodecs}.
Context (ft : Features).

(** A staged transaction whose nonce the account has passed can not be applied any more. *)
Lemma moves_valid_passed staged accts st :
  (forall id, acc_nonce (accts id) <= u_max 64) -> moves_valid staged accts -> st ∈ staged ->
  acc_nonce (accts (st_from_account st)) <= st_expected_nonce st.
Proof.
  revert accts. induction staged as [|tx staged IH]; intros accts Hmax Hv Hin; [by apply elem_of_nil in Hin|].
  destruct Hv as (Hn & _ & Hv). apply elem_of_cons in Hin as [->|Hin]; [lia|].
  assert (forall id, acc_nonce (accts id) <= acc_nonce (move_account tx accts id) <= u_max 64) as Hm.
  { intros id. rewrite move_nonce. specialize (Hmax id). case_decide; [|lia]. unfold saturating_add. lia. }
  specialize (IH (move_account tx accts) (fun id => proj2 (Hm id)) Hv Hin).
  pose proof (Hm (st_from_account st)). lia.
Qed.

Lemma moves_valid_pair staged accts i j x y : (forall id, acc_nonce (accts id) <= u_max 64) ->
  moves_valid staged accts -> (i < j)%nat -> staged !! i = Some x -> staged !! j = Some y ->
  st_from_account x = st_from_account y -> st_expected_nonce x = st_expected_nonce y ->
  st_expected_nonce x = u_max 64.
Proof.
  revert accts i j. induction staged as [|tx staged IH]; intros accts i j Hmax Hv Hij Hx Hy Hs He; [done|].
  destruct Hv as (Hn & _ & Hv). destruct j as [|j]; [lia|]. cbn in Hy.
  assert (forall id, acc_nonce (move_account tx accts id) <= u_max 64) as Hm.
  { intros id. rewrite move_nonce. specialize (Hmax id). case_decide; [|lia]. unfold saturating_add. lia. }
  destruct i as [|i]; [|by apply (IH _ i j Hm Hv); [lia|..]]. injection Hx as ->.
  apply list_elem_of_lookup_2 in Hy. pose proof (moves_valid_passed _ _ _ Hm Hv Hy) as Hp.
  rewrite move_nonce, <- Hs, decide_True in Hp by done. unfold saturating_add in Hp.
  specialize (Hmax (st_from_account x)). lia.
Qed.

(** No block with two transactions of one account applies. *)
Lemma apply_block_no_pair b reward (s s' : St) out i j x y : typed (blk_body b) = true ->
  (i < j)%nat -> body_txs (blk_body b) !! i = Some x -> body_txs (blk_body b) !! j = Some y ->
  tx_from_account x = tx_from_account y -> tx_nonce x < u_max 64 ->
  apply_block ft b reward s <> (Ok out, s').
Proof.
  intros Ht Hij Hx Hy Hs Hn Ha. apply apply_block_Ok in Ha as (staged & s1 & s2 & s3 & s4 & R).
  destruct (block_run_moves _ _ _ _ _ _ _ _ _ _ _ Ht R) as (_ & Hst & Hv).
  destruct (staged_for_fields _ _ _ _ _ _ Hst) as (F1 & _ & _ & _ & F5).
  destruct (staged_for_lookup _ _ _ _ _ _ _ _ Hst Hx) as (_ & _ & _ & _ & _ & (_ & _ & En) & _).
  assert (forall k tx, body_txs (blk_body b) !! k = Some tx -> exists st, staged !! k = Some st /\
    st_from_account st = tx_from_account tx /\ st_expected_nonce st = nonce s (tx_from_account tx)) as Hat.
  { intros k tx Hk. assert ((st_from_account <$> staged) !! k = Some (tx_from_account tx)) as Hf
      by (rewrite F1, list_lookup_fmap, Hk; done).
    rewrite list_lookup_fmap in Hf. destruct (staged !! k) as [st|] eqn:Ek; [|done].
    injection Hf as Hf. exists st. split_and!; [done|done|]. rewrite <- Hf.
    eapply (proj1 (Forall_elem _ _) F5). by eapply list_elem_of_lookup_2. }
  destruct (Hat i x Hx) as (sx & Ex & Fx & Nx), (Hat j y Hy) as (sy & Ey & Fy & Ny).
  assert (st_expected_nonce sx = u_max 64) as Hbad.
  { apply (moves_valid_pair staged (load_or_default s) i j sx sy); try done; try congruence.
    intros id. pose proof (load_or_default_ranges s id) as (_ & Hl & _). unfold in_u, u_max in *. lia. }
  lia.
Qed.

(** A block of two payments of one account that each validate is rejected after the first one
    has gone through: the ledger it leaves behind has moved its coin. *)
Lemma pair_applies_half b reward fees staged (s : St) t1 t2 : typed (blk_body b) = true ->
  body_txs (blk_body b) = [t1; t2] ->
  pass1 ft s (body_witnesses (blk_body b)) 0 0 [t1; t2] = Ok (fees, staged) ->
  tx_from_account t1 = tx_from_account t2 -> nonce s (tx_from_account t1) < u_max 64 ->
  exists s', apply_block ft b reward s =
      (Err (NonceMismatch 1 (nonce s (tx_from_account t1) + 1) (nonce s (tx_from_account t1))), s') /\
    nonce s' (tx_from_account t1) = nonce s (tx_from_account t1) + 1 /\
    (call_target t1 <> tx_from_account t1 ->
     balance s' (tx_from_account t1) = balance s (tx_from_account t1) - (call_amount t1 + tx_fee_sat t1)).
Proof.
  intros Tb Htxs Hp Hs Hn. unfold typed, typed_BlockBody in Tb. apply andb_true_iff in Tb as [Ttx Tw].
  pose proof (pass1_Ok _ _ _ _ _ _ _ _ Hp) as (_ & Hst & _).
  assert (Forall staged_typed staged) as Hty by (eapply staged_for_typed; [|exact Tw|exact Hst]; by rewrite <- Htxs).
  destruct staged as [|st1 [|st2 [|? ?]]]; cbn in Hst; [done| |
    |by destruct Hst as (_ & _ & [])].
  { by destruct Hst as (_ & []). }
  destruct Hst as ((w1 & k1 & _ & _ & _ & _ & Hb1 & E1) & (w2 & k2 & _ & _ & _ & _ & _ & E2) & _).
  apply Forall_cons in Hty as [Ty1 _].
  destruct (apply_staged_complete st1 s Ty1) as (s1 & A1); [by rewrite E1; split|].
  destruct (apply_staged_Ok st1 s s1 Ty1 A1) as (_ & _ & Hl).
  assert (nonce s1 (tx_from_account t1) = nonce s (tx_from_account t1) + 1) as Hn1.
  { unfold nonce. rewrite Hl, move_nonce, decide_True by (by rewrite E1).
    unfold saturating_add. unfold nonce in Hn. lia. }
  exists s1. split; [|split; [exact Hn1|]].
  - unfold apply_block. rewrite Htxs. unfold mbind at 1, stm_bind at 1. rewrite Hp.
    unfold mbind at 1, stm_bind at 1. cbn [for_each]. unfold mbind at 1, stm_bind at 1. rewrite A1.
    unfold apply_staged at 1. unfold mbind, stm_bind, read_st.
    change (acc_nonce (load_or_default s1 (st_from_account st2))) with (nonce s1 (st_from_account st2)).
    rewrite E2. cbn [st_from_account stage st_expected_nonce st_idx]. rewrite <- Hs, Hn1.
    rewrite (proj2 (Z.eqb_neq _ _)) by lia. done.
  - intros Hto. unfold balance. rewrite Hl, E1. unfold move_account. cbn [st_to stage st_from_account].
    rewrite decide_False by done. rewrite decide_True by done. done.
Qed.
End ledger.

Section node.
Context {St : Type} `{StateStoreLaws St} `{HashPrims} `{SigPrims} `{StateCodecs} {CB : Cbor Block}
  {CT : Cbor TxBody} {CW : Cbor Witness} `{HexLaws} `{Bech32} `{JsonLaws} `{!ErrorTexts}.
Context (ft : Features).
Notation Node := (NodeState St).

(** Two pending transactions of one account, in a pool that one template can hold. *)
Definition rivals (mp : Mempool) (x y : PendingTx) : Prop :=
  mempool_ok mp /\ pool_typed mp /\ (size (mp_inner mp) <= 256)%nat /\
  mp_inner mp !! body_hash (pt_body x) = Some x /\ mp_inner mp !! body_hash (pt_body y) = Some y /\
  body_hash (pt_body x) <> body_hash (pt_body y) /\
  tx_from_account (pt_body x) = tx_from_account (pt_body y) /\
  tx_nonce (pt_body x) < u_max 64 /\ tx_nonce (pt_body y) < u_max 64.

Lemma rivals_in_template (ns : Node) x y : rivals (ns_mempool ns) x y -> exists i j u v,
  (i < j)%nat /\ body_txs (pending_body ns) !! i = Some u /\ body_txs (pending_body ns) !! j = Some v /\
  tx_from_account u = tx_from_account v /\ tx_nonce u < u_max 64.
Proof.
  intros (Hok & _ & Hsz & Hx & Hy & Hne & Hs & Nx & Ny).
  pose proof (all_pulled _ x Hok Hsz Hx) as Ix. pose proof (all_pulled _ y Hok Hsz Hy) as Iy.
  apply (list_elem_of_fmap_2 pt_body), list_elem_of_lookup in Ix as (i & Hi).
  apply (list_elem_of_fmap_2 pt_body), list_elem_of_lookup in Iy as (j & Hj).
  destruct (Nat.lt_trichotomy i j) as [Hij|[->|Hij]].
  - by exists i, j, (pt_body x), (pt_body y).
  - rewrite Hi in Hj. by injection Hj as Hj; rewrite Hj in Hne.
  - by exists j, i, (pt_body y), (pt_body x).
Qed.

(** Their block is rejected, and changes the ledger at most. *)
Lemma rivals_reject now io (ns ns1 : Node) x y b r ns2 : rivals (ns_mempool ns) x y ->
  blk_body b = pending_body ns -> try_apply_block ft now io b ns1 = (r, ns2) ->
  r <> Ok tt /\ exists s, ns2 = set_state s ns1.
Proof.
  intros Hrv Hb. destruct (rivals_in_template ns x y Hrv) as (i & j & u & v & Hij & Hu & Hv & Hs & Hn).
  assert (typed (blk_body b) = true) as Tb.
  { rewrite Hb. destruct Hrv as (_ & Hp & _). unfold typed, typed_BlockBody, pending_body.
    destruct (pool_typed_pulled (ns_mempool ns) 256 Hp). by apply andb_true_iff. }
  rewrite <- Hb in Hu, Hv. assert (exists s, ns1 = set_state s ns1) as Hself
    by (exists (ns_state ns1); by destruct ns1).
  unfold try_apply_block. unfold mbind at 1, stm_bind at 1.
  destruct (check_block now ns1 b) as [[]|e|]; [|by intros [= <- <-]..].
  unfold commit_block, on_state, mbind, stm_bind, read_st, modify_st.
  destruct (block_reward ns1 (blk_header b)) as [reward|e|]; [|by intros [= <- <-]..].
  pose proof (apply_block_no_pair ft b reward (ns_state ns1)) as Hno.
  destruct (apply_block ft b reward (ns_state ns1)) as [[out|e|] s]; cbn [map_err].
  - exfalso. by eapply Hno.
  - intros [= <- <-]. split; [done|by exists s].
  - intros [= <- <-]. split; [done|by exists s].
Qed.

(** Clients that add to the pool, as long as one template can hold it; and a round during
    which they do. *)
Definition fed (f : Z -> Mempool -> Mempool) : Prop :=
  forall n mp, mempool_ok mp -> pool_typed mp -> (size (mp_inner mp) <= 256)%nat ->
    mempool_ok (f n mp) /\ pool_typed (f n mp) /\ mp_inner mp ⊆ mp_inner (f n mp) /\
    (size (mp_inner (f n mp)) <= 256)%nat.
Definition busy (rd : Round St) : Prop := exists f : Z -> Mempool -> Mempool,
  (forall n ns, rd_world rd n ns = set_mempool (f n (ns_mempool ns)) ns) /\ fed f.

Lemma rivals_grow f n mp x y : fed f -> rivals mp x y -> rivals (f n mp) x y.
Proof.
  intros Hf (Hok & Hp & Hsz & Hx & Hy & Hrest). destruct (Hf n mp Hok Hp Hsz) as (H1' & H2' & H3' & H4').
  split; [done|]. split; [done|]. split; [done|]. split; [by eapply lookup_weaken|].
  split; [by eapply lookup_weaken|done].
Qed.

Lemma rivals_turn rd (ns : Node) x y : busy rd -> rivals (ns_mempool ns) x y ->
  let '(turn, ns') := self_miner_turn ft rd ns in
  turn <> Submitted (Ok tt) /\ rivals (ns_mempool ns') x y /\ ns_store ns' = ns_store ns.
Proof.
  intros Hb Hrv. pose proof Hb as (f & Hw & Hf).
  destruct (self_miner_turn_cases ft rd (fun n => f n (ns_mempool ns)) ns (fun n => Hw n ns))
    as [(turn & -> & Hc)|[(n & ->)|(hdr & r & ns' & -> & Hr)]].
  - split; [by destruct Hc as [-> | ->]|done].
  - split; [done|]. split; [|done]. by apply rivals_grow.
  - destruct (rivals_reject _ _ ns _ x y {| blk_header := hdr; blk_body := pending_body ns |} _ _ Hrv eq_refl Hr)
      as (Hne & s & ->). split; [congruence|]. split; [|done]. by apply rivals_grow.
Qed.

Lemma rivals_loop rounds (ns : Node) x y : Forall busy rounds -> rivals (ns_mempool ns) x y ->
  let '(turns, ns') := self_miner_loop ft rounds ns in
  Forall (fun turn => turn <> Submitted (Ok tt)) turns /\
  rivals (ns_mempool ns') x y /\ ns_store ns' = ns_store ns.
Proof.
  intros Hr Hrv.
  apply (blocked_loop ft busy (fun ns' => rivals (ns_mempool ns') x y /\ ns_store ns' = ns_store ns));
    [|done|done].
  intros rd ns1 Hb [Hrv1 Est]. pose proof (rivals_turn rd ns1 x y Hb Hrv1) as Ht.
  destruct (self_miner_turn ft rd ns1) as [turn ns2]. by rewrite Est in Ht.
Qed.

(** ** Two payments from the wallet *)

Lemma submit_room now tx wit mp : tx_witness_hash tx = witness_hash wit ->
  mp_inner mp !! body_hash tx = None -> (size (mp_inner mp) < mp_cap mp)%nat ->
  submit now tx wit mp =
    (Ok (body_hash tx),
     {| mp_inner := <[body_hash tx := {| pt_body := tx; pt_witness := wit; pt_received_ms := now |}]>
                      (mp_inner mp); mp_cap := mp_cap mp |}).
Proof.
  intros Hw Hf Hc. unfold submit. rewrite bool_decide_eq_true_2 by done. cbn [negb].
  rewrite bool_decide_eq_false_2 by (rewrite Hf; by intros []).
  by rewrite (proj2 (Nat.leb_gt _ _)).
Qed.

Lemma pool_after_two now now' t1 w1 t2 w2 mp : mempool_ok mp -> pool_typed mp ->
  (S (size (mp_inner mp)) < mp_cap mp)%nat -> (S (S (size (mp_inner mp))) <= 256)%nat ->
  tx_witness_hash t1 = witness_hash w1 -> tx_witness_hash t2 = witness_hash w2 ->
  typed t1 = true -> typed w1 = true -> typed t2 = true -> typed w2 = true ->
  mp_inner mp !! body_hash t1 = None -> mp_inner mp !! body_hash t2 = None ->
  body_hash t1 <> body_hash t2 -> tx_from_account t1 = tx_from_account t2 ->
  tx_nonce t1 < u_max 64 -> tx_nonce t2 < u_max 64 ->
  let '(r1, mp1) := submit now t1 w1 mp in
  let '(r2, mp2) := submit now' t2 w2 mp1 in
  r1 = Ok (body_hash t1) /\ r2 = Ok (body_hash t2) /\
  rivals mp2 {| pt_body := t1; pt_witness := w1; pt_received_ms := now |}
             {| pt_body := t2; pt_witness := w2; pt_received_ms := now' |}.
Proof.
  intros Hok Hp Hcap Hsz W1 W2 T1 TW1 T2 TW2 F1 F2 Hne Hs N1 N2.
  pose proof (submit_ok now t1 w1 mp Hok) as Hok1.
  pose proof (submit_pool_typed now t1 w1 mp Hp T1 TW1) as Hp1. revert Hok1 Hp1.
  rewrite submit_room by (done || lia). cbn [snd]. set (mp1 := {| mp_inner := <[_ := _]> _; mp_cap := _ |}).
  intros Hok1 Hp1. pose proof (submit_ok now' t2 w2 mp1 Hok1) as Hok2.
  pose proof (submit_pool_typed now' t2 w2 mp1 Hp1 T2 TW2) as Hp2. revert Hok2 Hp2.
  assert (mp_inner mp1 !! body_hash t2 = None) as F2' by (cbn; by rewrite lookup_insert_ne).
  assert (size (mp_inner mp1) = S (size (mp_inner mp))) as Hs1.
  { cbn. rewrite map_size_insert, F1. done. }
  rewrite submit_room; [|done|done|cbn [mp_cap mp1] in *; lia]. cbn [snd]. intros Hok2 Hp2.
  split; [done|]. split; [done|]. split; [exact Hok2|]. split; [exact Hp2|]. split.
  { cbn [mp_inner]. rewrite map_size_insert, F2', Hs1. cbn. lia. }
  cbn [mp_inner pt_body]. split; [rewrite lookup_insert_ne by done; apply lookup_insert_eq|].
  split; [apply lookup_insert_eq|]. by split_and!.
Qed.

(** C25: Two payments before a block.  A wallet with generated keys sends twice in a row, to a
    node whose pool has room; both payments sign the nonce of its account on the ledger.  The
    node pools
    the first and tells the wallet so.  When the second is the same transaction (the same
    payment again under a signature that repeats), it is refused as a duplicate and nothing
    changes.  When it is another transaction that is not pending, it is pooled too and the
    wallet told so; from then on every block with the body of a template is rejected, and no
    round of the self-miner mines one, whatever clients add to the pool, as long as one
    template holds it: both stay pending and the log stays as it is. *)
Theorem wallet_double_send trim base now io now' io' rng rng1 rng2 (ns : Node) to_str1 amount_str1
    fee_str1 to_str2 amount_str2 fee_str2 to1 amount1 fee1 to2 amount2 fee2 rounds :
  libs_ok -> wired ft 3 = true ->
  from_bech32 (trim to_str1) = Ok to1 -> parse_u 128 (trim amount_str1) = Some amount1 ->
  parse_u 64 (trim fee_str1) = Some fee1 ->
  from_bech32 (trim to_str2) = Ok to2 -> parse_u 128 (trim amount_str2) = Some amount2 ->
  parse_u 64 (trim fee_str2) = Some fee2 ->
  let w := wallet_generate rng in
  let fits method params := text_len (gui_request method params) <= MAX_RPC_BODY_BYTES in
  let sendable tx wit := fits "submit_tx"%string
    (jobj [("tx_cbor_hex", jstr (hex_encode (default [] (cbor_ser tx))));
           ("witness_cbor_hex", jstr (hex_encode (default [] (cbor_ser (A:=Witness) wit))))]%string) in
  fits "get_account"%string (account_params (wal_address w)) ->
  mempool_ok (ns_mempool ns) -> pool_typed (ns_mempool ns) ->
  (S (size (mp_inner (ns_mempool ns))) < mp_cap (ns_mempool ns))%nat ->
  (S (S (size (mp_inner (ns_mempool ns)))) <= 256)%nat ->
  nonce (ns_state ns) (wal_address w) < u_max 64 -> Forall busy rounds ->
  let info := account_info (load_or_default (ns_state ns) (wal_address w)) in
  exists sig1 sig2,
    let wit1 := wallet_witness w info sig1 in
    let tx1 := wallet_tx w info to1 amount1 fee1 (witness_hash wit1) in
    let wit2 := wallet_witness w info sig2 in
    let tx2 := wallet_tx w info to2 amount2 fee2 (witness_hash wit2) in
    sign ft rng1 (wal_sig_algo w) (wal_secret_key w) (signing_hash tx1) = Ok sig1 /\
    sign ft rng2 (wal_sig_algo w) (wal_secret_key w) (signing_hash tx2) = Ok sig2 /\
    tx_nonce tx1 = tx_nonce tx2 /\
    (sendable tx1 wit1 -> sendable tx2 wit2 ->
     mp_inner (ns_mempool ns) !! body_hash tx1 = None ->
     let '(r1, ns1) := build_and_submit_tx (network ft base now io) ft trim rng1 base w
                         to_str1 amount_str1 fee_str1 ns in
     let '(r2, ns2) := build_and_submit_tx (network ft base now' io') ft trim rng2 base w
                         to_str2 amount_str2 fee_str2 ns1 in
     r1 = Ok (hex_encode (body_hash tx1)) /\
     (body_hash tx1 = body_hash tx2 -> r2 = Err (Status 400) /\ ns2 = ns1) /\
     (body_hash tx1 <> body_hash tx2 -> mp_inner (ns_mempool ns) !! body_hash tx2 = None ->
      r2 = Ok (hex_encode (body_hash tx2)) /\
      (forall now io b, blk_body b = pending_body ns2 -> (try_apply_block ft now io b ns2).1 <> Ok tt) /\
      let '(turns, ns3) := self_miner_loop ft rounds ns2 in
      Forall (fun turn => turn <> Submitted (Ok tt)) turns /\ ns_store ns3 = ns_store ns /\
      is_Some (mp_inner (ns_mempool ns3) !! body_hash tx1) /\
      is_Some (mp_inner (ns_mempool ns3) !! body_hash tx2))).
Proof.
  intros Hlibs Hft Pt1 Pa1 Pf1 Pt2 Pa2 Pf2 w fits sendable Hfits Hok Hp Hcap Hsz Hn Hr info.
  destruct (wallet_signs ft trim rng rng1 ns to_str1 amount_str1 fee_str1 to1 amount1 fee1 Hlibs Hft Pt1 Pa1 Pf1
    Hfits) as (sig1 & buf1 & wbuf1 & S1 & SW1 & T1 & TW1 & G1 & _ & R1).
  fold w info in S1, SW1, T1, TW1, G1, R1.
  set (wit1 := wallet_witness w info sig1) in *. set (tx1 := wallet_tx w info _ _ _ _) in *.
  assert (forall mp, exists sig2, let wit2 := wallet_witness w info sig2 in
    let tx2 := wallet_tx w info to2 amount2 fee2 (witness_hash wit2) in
    typed tx2 = true /\ typed wit2 = true /\
    sign ft rng2 (wal_sig_algo w) (wal_secret_key w) (signing_hash tx2) = Ok sig2 /\
    (sendable tx2 wit2 -> build_and_submit_tx (network ft base now' io') ft trim rng2 base w
       to_str2 amount_str2 fee_str2 (set_mempool mp ns) = submitted now' tx2 wit2 (set_mempool mp ns))) as Hsecond.
  { intros mp. destruct (wallet_signs ft trim rng rng2 (set_mempool mp ns) to_str2 amount_str2 fee_str2 to2
      amount2 fee2 Hlibs Hft Pt2 Pa2 Pf2 Hfits) as (sig2 & buf2 & wbuf2 & S2 & SW2 & T2 & TW2 & G2 & _ & R2).
    exists sig2. split; [exact T2|]. split; [exact TW2|]. split; [exact G2|]. intros Hs. apply R2.
    unfold sendable in Hs. fold w. fold w in S2, SW2. change (ns_state (set_mempool mp ns)) with (ns_state ns) in *.
    fold info. fold info in S2, SW2. rewrite S2, SW2 in Hs. exact Hs. }
  destruct (Hsecond (submit now tx1 wit1 (ns_mempool ns)).2) as (sig2 & T2 & TW2 & G2 & R2).
  set (wit2 := wallet_witness w info sig2) in *. set (tx2 := wallet_tx w info to2 _ _ _) in *.
  exists sig1, sig2. cbv zeta. fold wit1 tx1 wit2 tx2. split; [exact G1|]. split; [exact G2|]. split; [done|].
  intros Hs1 Hs2 F1. specialize (R2 Hs2).
  unfold sendable in Hs1. rewrite S1, SW1 in Hs1. specialize (R1 Hs1 base now io). rewrite R1.
  pose proof (pool_after_two now now' tx1 wit1 tx2 wit2 (ns_mempool ns) Hok Hp Hcap Hsz eq_refl eq_refl
    T1 TW1 T2 TW2 F1) as Hpool.
  pose proof (submitted_cases now tx1 wit1 ns eq_refl) as Hfirst.
  unfold submitted at 1. unfold submitted in Hfirst.
  destruct (submit now tx1 wit1 (ns_mempool ns)) as [r1 mp1]. cbn [snd] in R2.
  rewrite decide_False in Hfirst by (rewrite F1; by intros []). destruct Hfirst as (Hr1 & _ & Hin).
  rewrite R2. pose proof (submitted_cases now' tx2 wit2 (set_mempool mp1 ns) eq_refl) as Hdup.
  unfold submitted in *. cbn [ns_mempool set_mempool] in *.
  destruct (submit now' tx2 wit2 mp1) as [r2 mp2]. split; [exact Hr1|]. split.
  { intros E. rewrite <- E, decide_True in Hdup by (rewrite Hin; by eexists). exact Hdup. }
  intros Hne F2. destruct (Hpool F2 Hne eq_refl Hn Hn) as (_ & -> & Hrv). split; [done|]. split.
  - intros now0 io0 b Hb. destruct (try_apply_block ft now0 io0 b _) as [r ns'] eqn:Ea.
    by destruct (rivals_reject _ _ (set_mempool mp2 (set_mempool mp1 ns)) _ _ _ _ _ _ Hrv Hb Ea).
  - pose proof (rivals_loop rounds (set_mempool mp2 (set_mempool mp1 ns)) _ _ Hr Hrv) as Hl.
    destruct (self_miner_loop ft rounds _) as [turns ns3]. destruct Hl as (Hall & Hrv3 & Est).
    destruct Hrv3 as (_ & _ & _ & Hx & Hy & _). split; [exact Hall|]. split; [by rewrite Est|].
    split; [by eexists; exact Hx|by eexists; exact Hy].
Qed.
End node.
