(* ===== verification/Print.v ===== *)
(** * Print: what the command line client prints (crates/node/src/cli.rs)

    [pretty_print] and [main] as lists of lines, over the texts that serde_json gives values;
    and the screens that a user of a node sees. *)

From S2P Require Export Text ClientProps.
From Stdlib Require Import Strings.Ascii.

Local Open Scope Z_scope.

(** The text of a value on one line, which is its [Display], and on several. *)
Class JsonText `{Json} := {
  json_text : Value -> string;
  json_pretty : Value -> string;
}.

Class JsonTextLaws `{JsonText} := {
  json_text_int n : in_u 64 n \/ in_sb 64 n = true -> json_text (jint n) = pretty n;
  json_text_null : json_text jnull = "null";
}.

Section print.
Context `{JsonText}.

(** [unwrap_or("?")], [unwrap_or(0)]. *)
Definition str_or (v : Value) : string := default "?" (as_str v).
Definition u64_or (v : Value) : Z := default 0 (as_u64 v).

(** Hours and minutes of a number of milliseconds; the negation of the least [i64] wraps. *)
Definition uptime_line (off : Z) : string :=
  let clock s := pretty (Z.quot s 3600) +:+ "h " +:+ pretty (Z.quot (Z.rem s 3600) 60) +:+ "m" in
  if off <? 0
  then "lockout:         T-" +:+ clock (Z.quot (i64_of (- off)) 1000) +:+ " (pre-genesis)"
  else "uptime:          " +:+ clock (Z.quot off 1000) +:+ " past genesis".

Definition info_lines (v : Value) : list string :=
  ["chain:           " +:+ str_or (index "chain_id" v);
   "height:          " +:+ json_text (index "height" v);
   "tip_hash:        " +:+ str_or (index "tip_hash" v);
   "bits:            0x" +:+ hex08 (u64_or (index "bits" v));
   uptime_line (default 0 (as_i64 (index "genesis_offset_ms" v)));
   "mempool_size:    " +:+ json_text (index "mempool_size" v);
   "block_reward:    " +:+ pretty (u64_or (index "block_reward_sat" v)) +:+ " sat";
   "sig_algo=" +:+ json_text (index "sig_algo" v) +:+ "  hash_algo=" +:+
     json_text (index "hash_algo" v)].

Definition tx_line (tx : Value) : string :=
  "    " +:+ str_or (index "from" tx) +:+ " -> " +:+ str_or (index "to" tx) +:+ "  amount=" +:+
  json_text (index "amount_sat" tx) +:+ " fee=" +:+ json_text (index "fee_sat" tx) +:+ " nonce=" +:+
  json_text (index "nonce" tx).

Definition block_lines (height : Z) (v : Value) : list string :=
  ["block " +:+ pretty height] ++
  match jget "hash" v ≫= as_str with Some h => ["  hash:      " +:+ h] | None => [] end ++
  match jget "header" v with
  | Some hdr =>
      ["  timestamp: " +:+ json_text (index "timestamp_ms" hdr) +:+ " ms";
       "  parent:    " +:+ str_or (index "parent" hdr);
       "  tx_root:   " +:+ str_or (index "tx_root" hdr);
       "  state_root:   " +:+ str_or (index "state_root" hdr);
       "  reflect_root: " +:+ str_or (index "reflect_root" hdr)]
  | None => []
  end ++
  match jget "txs" v ≫= as_array with
  | Some txs => ("  txs (" +:+ pretty (length txs) +:+ "):") :: (tx_line <$> txs)
  | None => []
  end.

(** A row of the table.  A [Value] ignores the width it is formatted with. *)
Definition list_row (b : Value) : string :=
  json_text (index "height" b) +:+ "  " +:+ pad_right 64 (str_or (index "hash" b)) +:+ "  " +:+
  json_text (index "timestamp_ms" b) +:+ "  " +:+ json_text (index "tx_count" b).

Definition list_header : string :=
  pad_left 6 "height" +:+ "  " +:+ pad_right 64 "hash" +:+ "  " +:+ pad_left 20 "timestamp_ms" +:+
  "  tx".

Definition list_lines (v : Value) : list string :=
  match as_array v with
  | Some arr => list_header :: (list_row <$> arr)
  | None => [json_pretty v]
  end.

(** The key is cut to 16 characters. *)
Definition account_lines (address : string) (v : Value) : list string :=
  [address; "  balance:  " +:+ json_text (index "balance" v);
   "  nonce:    " +:+ json_text (index "nonce" v);
   "  sig_algo: " +:+ json_text (index "sig_algo" v)] ++
  match jget "pubkey_hex" v ≫= as_str with
  | Some pk => ["  pubkey:   " +:+ String.substring 0 16 pk +:+ "…"]
  | None => []
  end.

Definition mempool_lines (v : Value) : list string :=
  ("mempool size: " +:+ json_text (index "size" v)) ::
  match jget "hashes" v ≫= as_array with
  | Some hashes => (fun h => "  " +:+ str_or h) <$> hashes
  | None => []
  end.

Definition pretty_print (cmd : Cmd) (v : Value) : list string :=
  match cmd with
  | GetInfo => info_lines v
  | ShowBlock height => block_lines height v
  | ListBlocks _ => list_lines v
  | GetBalance address =>
      [address +:+ " balance = " +:+ pretty (printed_balance v) +:+ " sat"]
  | GetAccount address => account_lines address v
  | GetMempool => mempool_lines v
  | SubmitTx _ _ => ["submitted: " +:+ json_text v]
  | EmissionSeries _ _ _ => [json_pretty v]
  | StateRoot => [str_or v]
  | Health => [json_text v]
  end.

(** [Cli] and [main]: the lines on the standard output and the exit code; an error goes to
    the standard error. *)
Record Cli := { cl_rpc : string; cl_json : bool; cl_cmd : Cmd }.

Definition default_rpc : string := "http://localhost:8545/rpc".

Context {W : Type} (send : HttpReq -> stm W unit HttpResp).

Definition cli_main (cli : Cli) (w : W) : (list string * Z) * W :=
  match cli_run send (cl_rpc cli) (cl_cmd cli) w with
  | (Ok v, w) => ((if cl_json cli then [json_pretty v] else pretty_print (cl_cmd cli) v, 0), w)
  | (Err _, w) => (([], 1), w)
  | (Panic, w) => (([], 101), w)
  end.
End print.

(** ** The screens *)

Section screens.
Context {St : Type} `{StateStore St} `{HashPrims} `{SigPrims} `{StateCodecs} {CB : Cbor Block}
  {CT : Cbor TxBody} {CW : Cbor Witness} `{HexLaws} `{Bech32} `{JsonLaws} `{!ErrorTexts}
  `{!JsonText, !JsonTextLaws}.
Context (ft : Features).
Notation Node := (NodeState St).

(** Hours and minutes to genesis, or since. *)
Definition clock_screen (d : Z) : string :=
  let hm d := pretty (d / 3600000) +:+ "h " +:+ pretty (d / 60000 mod 60) +:+ "m" in
  if d <? 0 then "lockout:         T-" +:+ hm (- d) +:+ " (pre-genesis)"
  else "uptime:          " +:+ hm d +:+ " past genesis".

Definition info_screen (now : Z) (ns : Node) (height : Z) (tip : Block) : list string :=
  ["chain:           " +:+ ns_chain_id ns; "height:          " +:+ pretty height;
   "tip_hash:        " +:+ hex_encode (hash_header (blk_header tip));
   "bits:            0x" +:+ hex08 (ns_bits ns); clock_screen (now - ns_genesis_time_ms ns);
   "mempool_size:    " +:+ pretty (mp_len (ns_mempool ns));
   "block_reward:    " +:+ pretty (ns_block_reward_sat ns) +:+ " sat";
   "sig_algo=" +:+ pretty (ns_sig_algo ns) +:+ "  hash_algo=" +:+ pretty (ns_hash_algo ns)].

(** An amount above 64 bits is a float to the client. *)
Definition tx_screen (tx : TxBody) : string :=
  let s := tx_summary tx in
  "    " +:+ default "?" (ts_from s) +:+ " -> " +:+ default "?" (ts_to s) +:+ "  amount=" +:+
  json_text (jint (ts_amount_sat s)) +:+ " fee=" +:+ pretty (tx_fee_sat tx) +:+ " nonce=" +:+
  pretty (tx_nonce tx).

Definition block_screen (b : Block) : list string :=
  let h := blk_header b in
  ["block " +:+ pretty (bh_height h); "  hash:      " +:+ hex_encode (hash_header h);
   "  timestamp: " +:+ pretty (bh_timestamp_ms h) +:+ " ms";
   "  parent:    " +:+ hex_encode (bh_parent h); "  tx_root:   " +:+ hex_encode (bh_tx_root h);
   "  state_root:   " +:+ hex_encode (bh_state_root h);
   "  reflect_root: " +:+ hex_encode (bh_reflect_root h);
   "  txs (" +:+ pretty (length (body_txs (blk_body b))) +:+ "):"] ++
  (tx_screen <$> body_txs (blk_body b)).

Definition row_screen (b : Block) : string :=
  pretty (bh_height (blk_header b)) +:+ "  " +:+ hex_encode (hash_header (blk_header b)) +:+ "  " +:+
  pretty (bh_timestamp_ms (blk_header b)) +:+ "  " +:+ pretty (length (body_txs (blk_body b))).

Lemma json_text_u n : in_u 64 n -> json_text (jint n) = pretty n.
Proof. intros Hn. apply json_text_int. by left. Qed.

Lemma pretty_of_nat (n : nat) : pretty (Z.of_nat n) = pretty n.
Proof. rewrite pretty_Z_pos by lia. unfold pretty at 2, pretty_nat. f_equal. lia. Qed.

Lemma uptime_line_clock d : - 2 ^ 63 < d < 2 ^ 63 -> uptime_line d = clock_screen d.
Proof.
  intros Hd. unfold uptime_line, clock_screen. cbv zeta.
  assert (forall s, 0 <= s -> Z.quot (Z.quot s 1000) 3600 = s / 3600000 /\
    Z.quot (Z.rem (Z.quot s 1000) 3600) 60 = s / 60000 mod 60) as Hq.
  { intros s Hs. assert (0 <= s / 1000) by (apply Z.div_pos; lia).
    rewrite (Z.quot_div_nonneg s 1000), (Z.quot_div_nonneg _ 3600), (Z.rem_mod_nonneg _ 3600) by lia.
    pose proof (Z.mod_pos_bound (s / 1000) 3600 ltac:(lia)).
    rewrite Z.quot_div_nonneg by lia. rewrite Z.div_div by lia. split; [done|].
    replace (s / 60000) with (s / 1000 / 60) by (rewrite Z.div_div; [done|lia..]).
    change 3600 with (60 * 60) at 1. rewrite Z.rem_mul_r by lia.
    rewrite Z.add_comm, Z.mul_comm, Z.div_add_l by lia.
    rewrite (Z.div_small (_ mod 60)) by (apply Z.mod_pos_bound; lia). lia. }
  destruct (d <? 0) eqn:E.
  - apply Z.ltb_lt in E. assert (i64_of (- d) = - d) as ->.
    { unfold i64_of. rewrite Z.mod_small by lia. lia. }
    destruct (Hq (- d)) as [-> ->]; [lia|done].
  - apply Z.ltb_ge in E. destruct (Hq d) as [-> ->]; [lia|done].
Qed.

(** The numbers of [get_info] are in the range of their types, and the clocks before 2^63. *)
Definition info_typed (now : Z) (ns : Node) : Prop :=
  node_typed ns /\ in_u 64 (ns_block_reward_sat ns) /\
  Z.of_nat (mp_len (ns_mempool ns)) < 2 ^ 64 /\
  0 <= now < 2 ^ 63 /\ 0 <= ns_genesis_time_ms ns < 2 ^ 63.

Lemma i64_of_small x : - 2 ^ 63 <= x < 2 ^ 63 -> i64_of x = x.
Proof. intros Hx. unfold i64_of. rewrite Z.mod_small by lia. lia. Qed.

Lemma in_u_le w w' n : w <= w' -> in_u w n -> in_u w' n.
Proof.
  intros Hw [? Hn]. split; [done|]. eapply Z.lt_le_trans; [exact Hn|].
  destruct (decide (0 <= w)); [apply Z.pow_le_mono_r; lia|]. rewrite (Z.pow_neg_r 2 w) by lia.
  apply Z.pow_nonneg; lia.
Qed.

Lemma info_lines_node now (ns : Node) bs b : node_ok ns bs -> last bs = Some b -> info_typed now ns ->
  info_lines (info_value (info now ns)) = info_screen now ns (Z.of_nat (length bs) - 1) b.
Proof.
  intros Hok Hb (Tn & Hr & Hmp & Hnow & Hg). destruct Tn as (_ & _ & Hbits & Hsa & Hha & _).
  destruct (node_ok_tip _ _ Hok) as (b' & Hb' & Ht). rewrite Hb in Hb'. injection Hb' as <-.
  destruct (queries_show_chain ns bs now Hok) as (_ & _ & b' & Hb' & Hh & Hhash).
  rewrite Hb in Hb'. injection Hb' as <-. pose proof Hok as (_ & _ & Hlen).
  assert (0 < length bs)%nat by (destruct bs; [done|cbn; lia]).
  assert (inf_genesis_offset_ms (info now ns) = now - ns_genesis_time_ms ns) as Ho.
  { unfold info. rewrite Ht. cbn [inf_genesis_offset_ms]. rewrite (i64_of_small now), (i64_of_small (ns_genesis_time_ms ns)), i64_of_small by lia. done. }
  unfold info_lines, info_screen, info_value, index, str_or, u64_or. json_fields. cbn [default]. unfold id.
  rewrite Hh, Hhash, Ho, !as_str_str, !as_u64_int, as_i64_int.
  replace (inf_bits (info now ns)) with (ns_bits ns) by (unfold info; by rewrite Ht).
  replace (inf_chain_id (info now ns)) with (ns_chain_id ns) by (unfold info; by rewrite Ht).
  replace (inf_sig_algo (info now ns)) with (ns_sig_algo ns) by (unfold info; by rewrite Ht).
  replace (inf_hash_algo (info now ns)) with (ns_hash_algo ns) by (unfold info; by rewrite Ht).
  replace (inf_block_reward_sat (info now ns)) with (ns_block_reward_sat ns) by (unfold info; by rewrite Ht).
  replace (inf_mempool_size (info now ns)) with (mp_len (ns_mempool ns)) by (unfold info; by rewrite Ht).
  rewrite (proj2 (in_ub_spec 64 _) Hr).
  rewrite (proj2 (in_ub_spec 64 (ns_bits ns))) by (apply (in_u_le 32); [lia|done]).
  assert (in_sb 64 (now - ns_genesis_time_ms ns) = true) as ->.
  { unfold in_sb. apply andb_true_iff. rewrite Z.leb_le, Z.ltb_lt. lia. }
  rewrite (json_text_u (ns_sig_algo ns)), (json_text_u (ns_hash_algo ns)) by (apply (in_u_le 8); [lia|done]).
  rewrite !json_text_u, pretty_of_nat by (unfold in_u; lia).
  cbn [default]. rewrite uptime_line_clock by lia. done.
Qed.

Lemma tx_line_node tx v : typed tx = true -> tx_summary_value (tx_summary tx) = Some v ->
  tx_line v = tx_screen tx.
Proof.
  unfold typed, typed_TxBody, tx_summary_value, tx_screen. rewrite !andb_true_iff, !in_ub_spec.
  intros Ht. destruct_and!.
  destruct (ts_from (tx_summary tx)) as [from|] eqn:Ef; [|discriminate].
  destruct (ts_to (tx_summary tx)) as [to|] eqn:Et; [|discriminate].
  cbn [mbind option_bind]. intros [= <-]. unfold tx_line, str_or, index. json_fields.
  cbn [default]. unfold id. rewrite !as_str_str. cbn [default].
  assert (ts_fee_sat (tx_summary tx) = tx_fee_sat tx /\ ts_nonce (tx_summary tx) = tx_nonce tx) as [-> ->].
  { unfold tx_summary. by destruct (tx_call tx). }
  by rewrite (json_text_u (tx_fee_sat tx)), (json_text_u (tx_nonce tx)).
Qed.

Lemma tx_lines_node txs vs : forallb typed txs = true ->
  mapM tx_summary_value (tx_summary <$> txs) = Some vs -> tx_line <$> vs = tx_screen <$> txs.
Proof.
  revert vs. induction txs as [|tx txs IH]; intros vs Ht Hm; [by injection Hm as <-|].
  cbn in Ht. apply andb_true_iff in Ht as [Ht Hts].
  apply mapM_Some in Hm. inversion Hm as [|x v l vs' Hv Hvs]; subst.
  rewrite fmap_cons, (tx_line_node tx v Ht Hv). cbn [fmap list_fmap map]. f_equal.
  apply IH; [done|]. by apply mapM_Some.
Qed.

Lemma block_lines_node b v : typed b = true -> detail_value (block_detail b) = Some v ->
  block_lines (bh_height (blk_header b)) v = block_screen b.
Proof.
  intros Tb Hv. pose proof Tb as Tb'. unfold typed, typed_Block in Tb.
  apply andb_true_iff in Tb as [Th Tbody]. unfold typed, typed_BlockBody in Tbody.
  apply andb_true_iff in Tbody as [Ttxs _].
  unfold typed, typed_BlockHeader in Th. rewrite !andb_true_iff, !in_ub_spec in Th. destruct_and!.
  unfold detail_value, block_detail in Hv. cbn [bd_txs bd_hash bd_tx_count bd_header] in Hv.
  destruct (mapM tx_summary_value _) as [vs|] eqn:Em; [|discriminate]. injection Hv as <-.
  unfold block_lines, block_screen, header_json_value, header_to_json, str_or, index. json_fields.
  cbn [mbind option_bind default]. unfold id. rewrite !as_str_str, as_array_arr. cbn [default].
  rewrite json_text_u by done. rewrite (tx_lines_node _ vs Ttxs Em).
  apply length_mapM in Em. rewrite length_fmap in Em. by rewrite Em.
Qed.

(** A hash fills its column. *)
Lemma list_row_node b : typed b = true -> Z.of_nat (length (body_txs (blk_body b))) < 2 ^ 64 ->
  list_row (summary_value (block_summary b)) = row_screen b.
Proof.
  unfold typed, typed_Block. rewrite andb_true_iff. unfold typed, typed_BlockHeader.
  rewrite !andb_true_iff, !in_ub_spec. intros Tb Hn. destruct_and!.
  unfold list_row, summary_value, block_summary, str_or, index. cbn [bs_height bs_hash bs_timestamp_ms bs_tx_count].
  json_fields. cbn [default]. unfold id. rewrite as_str_str. cbn [default].
  rewrite !json_text_u by (done || unfold in_u; lia). rewrite pretty_of_nat.
  unfold pad_right. rewrite hex_encode_length, length_hash_header. cbn [fill Nat.sub Nat.mul Nat.add]. by rewrite append_nil_r.
Qed.

(** The command prints these lines and exits with this code. *)
Notation fits method params := (text_len (cli_request method params) <= MAX_RPC_BODY_BYTES).
Notation printed base now io cmd ns :=
  (cli_main (network ft base now io) {| cl_rpc := base +:+ "/rpc"; cl_json := false; cl_cmd := cmd |} ns).

Lemma printed_run base now io cmd (ns : Node) : 
  printed base now io cmd ns =
  match cli_run (network ft base now io) (base +:+ "/rpc") cmd ns with
  | (Ok v, ns) => ((pretty_print cmd v, 0), ns)
  | (Err _, ns) => (([], 1), ns)
  | (Panic, ns) => (([], 101), ns)
  end.
Proof. done. Qed.

Lemma list_lines_node bs : forallb storable bs = true ->
  (forall b, b ∈ bs -> Z.of_nat (length (body_txs (blk_body b))) < 2 ^ 64) ->
  list_row <$> (summary_value <$> (block_summary <$> bs)) = row_screen <$> bs.
Proof.
  intros Hs Hn. rewrite forallb_forall in Hs. rewrite <- !list_fmap_compose. apply list_fmap_ext.
  intros i b Hb. apply list_elem_of_lookup_2 in Hb. apply list_row_node; [|auto..].
  apply list_elem_of_In, Hs in Hb. by apply andb_true_iff in Hb as [? _].
Qed.

(** C33: The screens.  On a node in order whose log is the chain [bs], the command line client
    prints for [get-info] the identity, tip height, difficulty, pool size and nominal reward
    of the node and the exact hours and minutes to or since genesis; for [show-block] the
    hash, time, roots and one line per transaction of the block at that height, and nothing
    with exit code 1 beyond the tip; for [list-blocks] one row per block, newest first; for
    [state-root] the state root of the tip; and for [get-balance] a balance of 0 sat, whatever
    the account holds. *)
Theorem cli_screens base now io (ns : Node) bs : node_ok ns bs -> info_typed now ns ->
  (fits "get_info"%string (jobj []) -> exists b, last bs = Some b /\
     printed base now io GetInfo ns = ((info_screen now ns (Z.of_nat (length bs) - 1) b, 0), ns)) /\
  (forall h, in_u 64 h -> fits "get_block"%string (jobj [("height"%string, jint h)]) ->
     printed base now io (ShowBlock h) ns =
       (match bs !! Z.to_nat h with Some b => (block_screen b, 0) | None => ([], 1) end, ns)) /\
  (forall limit, Z.of_nat limit < 2 ^ 64 ->
     (forall b, b ∈ bs -> Z.of_nat (length (body_txs (blk_body b))) < 2 ^ 64) ->
     fits "list_blocks"%string (jobj [("limit"%string, jint (Z.of_nat limit))]) ->
     printed base now io (ListBlocks limit) ns =
       ((list_header :: (row_screen <$> take (Nat.min limit 500) (reverse bs)), 0), ns)) /\
  (forall a id, parse_address a = Ok id ->
     fits "get_balance"%string (jobj [("address"%string, jstr a)]) ->
     printed base now io (GetBalance a) ns = (([a +:+ " balance = 0 sat"], 0), ns)) /\
  (forall h, h = Z.of_nat (length bs) - 1 -> fits "get_info"%string (jobj []) ->
     fits "get_block"%string (jobj [("height"%string, jint h)]) ->
     exists b, last bs = Some b /\
       printed base now io StateRoot ns = (([hex_encode (bh_state_root (blk_header b))], 0), ns)).
Proof.
  intros Hok Ht. pose proof Hok as ((_ & _ & _ & Hs) & Hch & Hlen). split_and!.
  - intros Hf. destruct (node_ok_tip _ _ Hok) as (b & Hb & _). exists b. split; [done|].
    rewrite printed_run, (cli_get_info ft base now io ns Hf). cbn [pretty_print].
    by rewrite (info_lines_node now ns bs b).
  - intros h Hh Hf. rewrite printed_run. pose proof (cli_show_block ft base now io ns bs h Hok Hh Hf) as Hb.
    destruct (bs !! Z.to_nat h) as [b|] eqn:Eb; [|by rewrite Hb].
    destruct Hb as (v & Hv & _ & ->). cbn [pretty_print].
    assert (h = bh_height (blk_header b)) as ->.
    { rewrite (chain_ok_heights ns bs Hch ltac:(lia) _ _ Eb). unfold in_u in Hh. lia. }
    rewrite (block_lines_node b v); [done| |done].
    apply list_elem_of_lookup_2, list_elem_of_In in Eb. rewrite forallb_forall in Hs. apply Hs in Eb.
    by apply andb_true_iff in Eb as [? _].
  - intros limit Hl Hn Hf. rewrite printed_run, (cli_list_blocks ft base now io ns bs limit Hok Hl Hf).
    cbn [pretty_print]. unfold list_lines. rewrite as_array_arr, list_lines_node; [done| |].
    + rewrite forallb_forall in *. intros b Hb. apply Hs. apply list_elem_of_In in Hb.
      apply list_elem_of_In, elem_of_reverse. apply elem_of_take in Hb as (? & Hb & _); by apply list_elem_of_lookup_2 in Hb.
    + intros b Hb. apply Hn, elem_of_reverse. apply elem_of_take in Hb as (? & Hb & _); by apply list_elem_of_lookup_2 in Hb.
  - intros a i Ha Hf. rewrite printed_run. destruct (cli_get_balance ft base now io ns a i Ha Hf) as (v & -> & _ & Hp).
    cbn [pretty_print]. by rewrite Hp.
  - intros h -> Hf1 Hf2. destruct (node_ok_tip _ _ Hok) as (b & Hb & _). exists b. split; [done|].
    rewrite printed_run, (cli_state_root ft base now io ns bs b Hok Hb Hf1 Hf2). cbn [pretty_print].
    unfold str_or. by rewrite as_str_str.
Qed.
End screens.

(** The texts of JSON trees; a string is printed without escapes. *)
Module PlainText.
Fixpoint commas (l : list string) : string :=
  match l with
  | [] => ""
  | [s] => s
  | s :: l => s +:+ "," +:+ commas l
  end.
Definition quoted (s : string) : string := quote +:+ s +:+ quote.
Fixpoint text (v : PlainJson.tree) : string :=
  match v with
  | PlainJson.Null => "null"
  | PlainJson.Bool b => if b then "true" else "false"
  | PlainJson.Int n => pretty n
  | PlainJson.Str s => quoted s
  | PlainJson.Arr l => "[" +:+ commas (map text l) +:+ "]"
  | PlainJson.Obj fs => "{" +:+ commas (map (fun f => quoted f.1 +:+ ":" +:+ text f.2) fs) +:+ "}"
  end.

#[export] Instance json_text : JsonText (H := PlainJson.json) :=
  { json_text := text; json_pretty := text }.
#[export] Instance json_text_laws : JsonTextLaws (H := PlainJson.json).
Proof. split; [|done]. by intros n _. Qed.
End PlainText.
