(* ===== verification/Window.v ===== *)
(** * Window: the wallet and miner window (crates/gui/src/main.rs, crates/gui/ui/app.slint,
    crates/gui/src/miner.rs, crates/gui/src/wallet.rs)

    The window as a machine: its properties, the wallet in memory and the one on disk, and the
    miners it has started.  Its events are the callbacks of the buttons, the two timers, edits
    of the fields, and the work of the mining threads, in any order, over any network.  The
    toolkit calls callbacks and timers one at a time; the mining threads run beside them, and
    a turn of a thread is one event here.  The intensity is the slider's value, rounded. *)

From S2P Require Export Text Client.

Local Open Scope Z_scope.

(** ** Where the wallet is *)

Inductive Target := Windows | MacOs | OtherTarget.

(** [PathBuf::join] of a relative path. *)
Definition path_join (sep base p : string) : string :=
  if bool_decide (base = "") then p
  else if bool_decide (String.substring (String.length base - String.length sep) (String.length sep) base = sep)
  then base +:+ p else base +:+ sep +:+ p.

Definition dirs_path (target : Target) (env : string -> option string) : option string :=
  match target with
  | Windows => (fun p => path_join "\" p "PyGrove") <$> env "APPDATA"
  | MacOs => (fun h => path_join "/" h "Library/Application Support/PyGrove") <$> env "HOME"
  | OtherTarget =>
      (fun p => path_join "/" p "pygrove") <$>
        match env "XDG_CONFIG_HOME" with
        | Some c => Some c
        | None => (fun h => path_join "/" h ".config") <$> env "HOME"
        end
  end.

Definition default_path (target : Target) (env : string -> option string) : string :=
  match dirs_path target env with
  | Some base => path_join (match target with Windows => "\" | _ => "/" end) base "wallet.json"
  | None => "pygrove-wallet.json"
  end.

(** ** The window *)

(** The properties of [AppWindow]: texts by name, and the others. *)
Record UI := {
  ui_text : gmap string string;
  ui_mining_on : bool;
  ui_device_index : Z;
  ui_intensity : Z;
  ui_cpu_cores : Z;
}.

Definition prop (k : string) (ui : UI) : string := default "" (ui_text ui !! k).
Definition set_prop (k v : string) (ui : UI) : UI := {|
  ui_text := <[k := v]> (ui_text ui); ui_mining_on := ui_mining_on ui;
  ui_device_index := ui_device_index ui; ui_intensity := ui_intensity ui;
  ui_cpu_cores := ui_cpu_cores ui |}.
Definition set_props (kvs : list (string * string)) (ui : UI) : UI :=
  foldl (fun ui kv => set_prop kv.1 kv.2 ui) ui kvs.
Definition set_mining_on (b : bool) (ui : UI) : UI := {|
  ui_text := ui_text ui; ui_mining_on := b; ui_device_index := ui_device_index ui;
  ui_intensity := ui_intensity ui; ui_cpu_cores := ui_cpu_cores ui |}.
Definition set_device (n : Z) (ui : UI) : UI := {|
  ui_text := ui_text ui; ui_mining_on := ui_mining_on ui; ui_device_index := n;
  ui_intensity := ui_intensity ui; ui_cpu_cores := ui_cpu_cores ui |}.
Definition set_intensity (n : Z) (ui : UI) : UI := {|
  ui_text := ui_text ui; ui_mining_on := ui_mining_on ui; ui_device_index := ui_device_index ui;
  ui_intensity := n; ui_cpu_cores := ui_cpu_cores ui |}.
Definition set_cores (n : Z) (ui : UI) : UI := {|
  ui_text := ui_text ui; ui_mining_on := ui_mining_on ui; ui_device_index := ui_device_index ui;
  ui_intensity := ui_intensity ui; ui_cpu_cores := n |}.

(** The values [app.slint] declares. *)
Definition AppWindow_new : UI := {|
  ui_text := list_to_map
    [("wallet_address", "—"); ("wallet_pubkey", "—"); ("balance_sat", "0"); ("wallet_nonce", "0");
     ("send_to", ""); ("send_amount", ""); ("send_fee", "100"); ("send_status", "");
     ("block_height", "0"); ("regime", "equilibrium"); ("halving_progress", "0 / 210000");
     ("reward_sat", "5000000000"); ("rpc_url", "http://66.42.93.85:8545"); ("mine_status", "idle");
     ("hashrate", "0 H/s"); ("accepted", "0"); ("rejected", "0"); ("current_target", "—");
     ("node_tip_hash", "—"); ("node_chain_id", "—")];
  ui_mining_on := false; ui_device_index := 0; ui_intensity := 4; ui_cpu_cores := 1 |}.

(** A miner that was started: what its threads share, and how many they are. *)
Record MinerRun := {
  mr_url : string;
  mr_threads : nat;
  mr_coinbase : bytes;
  mr_stop : bool;
  mr_counters : Counters;
}.

(** [win_miners] holds every miner that was started, the latest last; the slot names the one
    whose handle the window holds.  [win_sample] is the last reading of its hash counter. *)
Record Window `{Json} := {
  win_ui : UI;
  win_wallet : option Wallet;
  win_file : WalletText;
  win_miners : list MinerRun;
  win_slot : option nat;
  win_sample : Z * Z;
}.

Section window.
Context `{Json} {W : Type} (send : HttpReq -> stm W unit HttpResp).
Context `{HashPrims} `{SigPrims} `{Hex} `{Bech32} {CT : Cbor TxBody} {CW : Cbor Witness}.
Context (ft : Features) (trim : string -> string).
(** The texts of errors, and of a hash rate from hashes and milliseconds. *)
Context (error_text : ClientError -> string) (rate_text : Z -> Z -> string).

Definition set_ui (ui : UI) (win : Window) : Window := {|
  win_ui := ui; win_wallet := win_wallet win; win_file := win_file win;
  win_miners := win_miners win; win_slot := win_slot win; win_sample := win_sample win |}.
Definition show (kvs : list (string * string)) (win : Window) : Window :=
  set_ui (set_props kvs (win_ui win)) win.
Definition set_miners (ms : list MinerRun) (slot : option nat) (win : Window) : Window := {|
  win_ui := win_ui win; win_wallet := win_wallet win; win_file := win_file win;
  win_miners := ms; win_slot := slot; win_sample := win_sample win |}.
Definition set_wallet (w : option Wallet) (file : WalletText) (win : Window) : Window := {|
  win_ui := win_ui win; win_wallet := w; win_file := file;
  win_miners := win_miners win; win_slot := win_slot win; win_sample := win_sample win |}.
Definition set_sample (s : Z * Z) (win : Window) : Window := {|
  win_ui := win_ui win; win_wallet := win_wallet win; win_file := win_file win;
  win_miners := win_miners win; win_slot := win_slot win; win_sample := s |}.

(** The bech32 text of an address; the encoder does not fail on one. *)
Definition wallet_text (w : Wallet) : string := default "" (bech32_encode ADDRESS_HRP (wal_address w)).

(** ** Starting *)

Definition wallet_path (target : Target) (env : string -> option string) : string :=
  default_path target env.

(** [main] up to the event loop, with the wallet file found at [path]. *)
Definition window_start (cores now : Z) (disk : Disk) (rng : bytes) (path : string)
    (file : WalletText) : Window :=
  let ui := set_props
    [("balance_sat", "0"); ("block_height", "0"); ("regime", "equilibrium");
     ("halving_progress", "0 / 210000"); ("reward_sat", "5000000000")] AppWindow_new in
  let ui := set_intensity (Z.max (cores / 2) 1) (set_cores cores ui) in
  let '(loaded, file) := load_or_create disk rng file in
  let '(ui, wallet) :=
    match loaded with
    | Ok w =>
        (set_props [("wallet_address", wallet_text w); ("wallet_pubkey", hex_encode (wal_public_key w));
                    ("send_status", "wallet: " +:+ path)] ui, Some w)
    | Err e => (set_props [("wallet_address", "(no wallet)");
                           ("send_status", "wallet load failed: " +:+ error_text e)] ui, None)
    | Panic => (ui, None)
    end in
  {| win_ui := ui; win_wallet := wallet; win_file := file; win_miners := []; win_slot := None;
     win_sample := (now, 0) |}.

(** ** Callbacks *)

Definition connect_clicked (win : Window) (world : W) : Window * W :=
  match rpc_get_info send (prop "rpc_url" (win_ui win)) world with
  | (Ok info, world) =>
      (show [("node_chain_id", ni_chain_id info); ("node_tip_hash", ni_tip_hash info);
             ("block_height", pretty (ni_height info)); ("current_target", ni_target_hex info);
             ("mine_status", "connected")] win, world)
  | (Err e, world) => (show [("mine_status", "err: " +:+ error_text e)] win, world)
  | (Panic, world) => (win, world)
  end.

Definition stopped (m : MinerRun) : MinerRun := {|
  mr_url := mr_url m; mr_threads := mr_threads m; mr_coinbase := mr_coinbase m; mr_stop := true;
  mr_counters := mr_counters m |}.

(** [miner::start]: the handle of the new threads. *)
Definition miner_start (url : string) (threads : nat) (coinbase : bytes) : MinerRun := {|
  mr_url := url; mr_threads := Nat.max threads 1; mr_coinbase := coinbase; mr_stop := false;
  mr_counters := {| ct_hashes := 0; ct_accepted := 0; ct_rejected := 0 |} |}.

Definition mine_toggle (win : Window) : Window :=
  match win_slot win with
  | Some i =>
      let win := set_miners (alter stopped i (win_miners win)) None win in
      show [("mine_status", "stopped")] (set_ui (set_mining_on false (win_ui win)) win)
  | None =>
      if negb (ui_device_index (win_ui win) =? 0)
      then show [("mine_status", "GPU mining lands in v0.2")] win
      else
        let threads := Z.to_nat (Z.max (ui_intensity (win_ui win)) 1) in
        let coinbase := from_option (fun w => pad_to_32 (wal_address w)) (replicate 32 Byte.x00)
                          (win_wallet win) in
        let m := miner_start (prop "rpc_url" (win_ui win)) threads coinbase in
        let win := set_miners (win_miners win ++ [m]) (Some (length (win_miners win))) win in
        show [("mine_status", "mining (" +:+ pretty threads +:+ " threads) → wallet")]
          (set_ui (set_mining_on true (win_ui win)) win)
  end.

(** [clipboard]: the clipboard took the text, or why not. *)
Definition copy_address (clipboard : option string) (win : Window) : Window :=
  match win_wallet win with
  | None => show [("send_status", "no wallet loaded")] win
  | Some w =>
      match clipboard with
      | None => show [("send_status", "copied: " +:+ wallet_text w)] win
      | Some e => show [("send_status", "copy failed: " +:+ e)] win
      end
  end.

Definition regenerate_wallet (disk : Disk) (rng : bytes) (win : Window) : Window :=
  let new := wallet_generate rng in
  let '(saved, file) := wallet_save disk new (win_file win) in
  match saved with
  | Ok _ =>
      set_wallet (Some new) file
        (show [("wallet_address", wallet_text new); ("wallet_pubkey", hex_encode (wal_public_key new));
               ("balance_sat", "0"); ("wallet_nonce", "0");
               ("send_status", "regenerated → " +:+ wallet_text new)] win)
  | Err e =>
      set_wallet (win_wallet win) file (show [("send_status", "regenerate failed: " +:+ error_text e)] win)
  | Panic => win
  end.

Definition send_clicked (rng : bytes) (win : Window) (world : W) : Window * W :=
  let ui := win_ui win in
  let '(result, world) :=
    match win_wallet win with
    | Some w => build_and_submit_tx send ft trim rng (prop "rpc_url" ui) w (prop "send_to" ui)
                  (prop "send_amount" ui) (prop "send_fee" ui) world
    | None => (Err IoFailed, world)
    end in
  match result with
  | Ok hash => (show [("send_status", "submitted: " +:+ hash); ("send_amount", ""); ("send_to", "")] win, world)
  | Err e =>
      (show [("send_status", "error: " +:+ (if win_wallet win then error_text e else "no wallet loaded"))] win,
       world)
  | Panic => (win, world)
  end.

(** ** Timers *)

Definition counters_tick (now : Z) (win : Window) : Window :=
  match win_slot win ≫= fun i => win_miners win !! i with
  | Some m =>
      let c := mr_counters m in
      let '(prev_t, prev_h) := win_sample win in
      let dt := Z.max (now - prev_t) 1 in
      show [("hashrate", rate_text (Z.max (ct_hashes c - prev_h) 0) dt);
            ("accepted", pretty (ct_accepted c)); ("rejected", pretty (ct_rejected c))]
        (set_sample (now, ct_hashes c) win)
  | None => win
  end.

Definition balance_tick (win : Window) (world : W) : Window * W :=
  match win_wallet win with
  | None => (win, world)
  | Some w =>
      match gui_get_account send (prop "rpc_url" (win_ui win)) (wal_address w) world with
      | (Ok info, world) =>
          (show [("balance_sat", pretty (ai_balance_sat info)); ("wallet_nonce", pretty (ai_nonce info))] win,
           world)
      | (_, world) => (win, world)
      end
  end.

(** ** Events *)

Inductive WinEvent `{Json} :=
| Connect
| MineToggle
| CopyAddress (clipboard : option string)
| Regenerate (disk : Disk) (rng : bytes)
| SendClicked (rng : bytes)
| CountersTick (now : Z)
| BalanceTick
| EditText (field text : string)
| EditDevice (n : Z)
| EditIntensity (n : Z)
| Work (miner thread batches : nat).

(** A turn of a thread of a miner that has not been stopped. *)
Definition miner_work (i thread batches : nat) (win : Window) (world : W) : Window * W :=
  match win_miners win !! i with
  | Some m =>
      if mr_stop m || negb (thread <? mr_threads m)%nat then (win, world)
      else
        let '(c, world) := worker_turn send (Z.of_nat thread) (Z.of_nat (mr_threads m)) (mr_url m)
                             (mr_coinbase m) batches (mr_counters m) world in
        (set_miners (alter (fun m => {| mr_url := mr_url m; mr_threads := mr_threads m;
            mr_coinbase := mr_coinbase m; mr_stop := mr_stop m; mr_counters := c |}) i (win_miners win))
          (win_slot win) win, world)
  | None => (win, world)
  end.

(** The fields the window lets one edit. *)
Definition editable (field : string) : bool :=
  existsb (String.eqb field) ["rpc_url"; "send_to"; "send_amount"; "send_fee"].

Definition win_step (st : Window * W) (e : WinEvent) : Window * W :=
  let '(win, world) := st in
  match e with
  | Connect => connect_clicked win world
  | MineToggle => (mine_toggle win, world)
  | CopyAddress clipboard => (copy_address clipboard win, world)
  | Regenerate disk rng => (regenerate_wallet disk rng win, world)
  | SendClicked rng => send_clicked rng win world
  | CountersTick now => (counters_tick now win, world)
  | BalanceTick => balance_tick win world
  | EditText field text => (if editable field then show [(field, text)] win else win, world)
  | EditDevice n => (set_ui (set_device n (win_ui win)) win, world)
  | EditIntensity n => (set_ui (set_intensity n (win_ui win)) win, world)
  | Work i thread batches => miner_work i thread batches win world
  end.

Definition win_run (st : Window * W) (es : list WinEvent) : Window * W := foldl win_step st es.
End window.
