(* ===== verification/WindowProps.v ===== *)
(** * WindowProps: the window over its lifetime

    What the window shows, what it holds and what is on disk agree in every history of clicks,
    ticks, edits and mining; at most one miner runs.  A wallet regenerated while a miner runs
    leaves that miner paying the address whose key is gone. *)

From S2P Require Export Window ClientProps.

Local Open Scope Z_scope.

(** ** Properties of the window *)

Lemma prop_set k k' v ui : prop k (set_prop k' v ui) = if decide (k = k') then v else prop k ui.
Proof.
  unfold prop, set_prop. cbn [ui_text]. case_decide as E.
  - subst. by rewrite lookup_insert_eq.
  - by rewrite lookup_insert_ne by done.
Qed.

Lemma prop_set_props k kvs ui : forallb (fun kv => negb (String.eqb kv.1 k)) kvs = true ->
  prop k (set_props kvs ui) = prop k ui.
Proof.
  unfold set_props. revert ui. induction kvs as [|[k' v] kvs IH]; intros ui Hk; [done|].
  cbn in Hk. apply andb_true_iff in Hk as [Hk' Hk]. cbn [foldl]. rewrite IH by done.
  rewrite prop_set. case_decide as E; [|done]. subst. by rewrite String.eqb_refl in Hk'.
Qed.

Section window.
Context `{JsonLaws} {W : Type} (send : HttpReq -> stm W unit HttpResp).
Context `{HashPrims} `{SigPrims} `{HexLaws} `{Bech32} {CT : Cbor TxBody} {CW : Cbor Witness}.
Context (ft : Features) (trim : string -> string).
Context (error_text : ClientError -> string) (rate_text : Z -> Z -> string).
Notation step := (win_step send ft trim error_text rate_text).
Notation run := (win_run send ft trim error_text rate_text).

(** ** The wallet *)

Lemma wallet_generate_ok rng : account_ok (wal_address (wallet_generate rng)) = true /\
  wal_sig_algo (wallet_generate rng) = 3.
Proof.
  destruct (lib_keygen (lib_of 3) rng) as [sk pk] eqn:Ek. rewrite (wallet_generate_fields rng sk pk Ek).
  split; [|done]. apply account_ok_spec, length_from_pubkey.
Qed.

(** What saving leaves on disk; a saved wallet loads again. *)
Lemma wallet_save_load w : account_ok (wal_address w) = true -> in_u 8 (wal_sig_algo w) ->
  exists saved, wallet_load saved = Ok w /\
    forall disk file, wallet_save disk w file =
      match disk with
      | DiskTakes => (Ok tt, saved)
      | DiskRefuses => (Err IoFailed, file)
      | DiskTears torn => (Err IoFailed, torn)
      end.
Proof.
  intros Ha Hs. apply account_ok_spec in Ha.
  destruct (bech32_address_roundtrip (E:=ClientError) _ Ha) as (text & Ht & Hp).
  unfold wallet_save. rewrite Ht. eexists. split; [|intros disk file; reflexivity].
  unfold wallet_load, read_wallet_file. cbn [mbind option_bind]. json_fields.
  unfold required. cbn [mbind option_bind]. rewrite !read_u_int by (done || lia). cbn [mbind option_bind].
  rewrite !as_str_str. cbn [mbind option_bind ok_or outcome_bind]. cbn [Z.eqb negb].
  change (negb (1 =? 1)) with false. cbn iota. rewrite !hex_decode_encode. cbn [ok_or mbind outcome_bind].
  rewrite Hp. cbn. by destruct w.
Qed.

Lemma wallet_load_ok file w : wallet_load file = Ok w -> account_ok (wal_address w) = true.
Proof.
  unfold wallet_load. destruct file as [|v]; [done|]. intros Hl.
  apply outcome_bind_Ok in Hl as ([[[[ver sa] sk] pk] a] & _ & Hl).
  destruct (negb _); [done|]. apply outcome_bind_Ok in Hl as (sk' & _ & Hl).
  apply outcome_bind_Ok in Hl as (pk' & _ & Hl). apply outcome_bind_Ok in Hl as (id & Hid & Hl).
  injection Hl as <-. apply map_err_Ok in Hid. by eapply from_bech32_account.
Qed.

Lemma wallet_load_total file : wallet_load file <> Panic.
Proof.
  unfold wallet_load. destruct file as [|v]; [done|].
  destruct (v ≫= read_wallet_file) as [[[[[ver sa] sk] pk] a]|]; [|done]. cbn.
  destruct (negb _); [done|]. destruct (hex_decode sk); [|done]. cbn. destruct (hex_decode pk); [|done]. cbn.
  unfold from_bech32. pose proof (bech32_decode_total a). destruct (bech32_decode a) as [[hrp data]|e|]; [|done..].
  cbn. by repeat case_decide.
Qed.

(** ** The invariant *)

(** What is shown of the wallet is the wallet in memory, which is the one on disk. *)
Definition wallet_shown (win : Window) : Prop :=
  match win_wallet win with
  | Some w =>
      prop "wallet_address" (win_ui win) = wallet_text w /\
      prop "wallet_pubkey" (win_ui win) = hex_encode (wal_public_key w) /\
      wallet_load (win_file win) = Ok w
  | None => prop "wallet_address" (win_ui win) = "(no wallet)"
  end.

(** The slot holds the one miner that runs; the window says whether there is one. *)
Definition miners_ok (win : Window) : Prop :=
  ui_mining_on (win_ui win) = bool_decide (is_Some (win_slot win)) /\
  (forall i, win_slot win = Some i -> exists m, win_miners win !! i = Some m /\ mr_stop m = false) /\
  forall i m, win_miners win !! i = Some m -> mr_stop m = false -> win_slot win = Some i.

Definition win_ok (win : Window) : Prop := wallet_shown win /\ miners_ok win.

(** Showing texts other than the wallet's keeps it. *)
Definition elsewhere (kvs : list (string * string)) : bool :=
  forallb (fun kv => negb (String.eqb kv.1 "wallet_address") && negb (String.eqb kv.1 "wallet_pubkey")) kvs.

Lemma set_props_mining kvs ui : ui_mining_on (set_props kvs ui) = ui_mining_on ui.
Proof. unfold set_props. revert ui. induction kvs as [|kv kvs IH]; intros ui; [done|]. cbn. by rewrite IH. Qed.

Lemma show_ok kvs (win : Window) : elsewhere kvs = true -> win_ok win -> win_ok (show kvs win).
Proof.
  intros Hk [Hw Hm]. unfold elsewhere in Hk.
  assert (forall k, (k = "wallet_address" \/ k = "wallet_pubkey") ->
    prop k (set_props kvs (win_ui win)) = prop k (win_ui win)) as Hp.
  { intros k Hk'. apply prop_set_props. rewrite forallb_forall in *. intros kv Hin. specialize (Hk kv Hin).
    apply andb_true_iff in Hk as [H1' H2']. by destruct Hk' as [-> | ->]. }
  split.
  - unfold wallet_shown in *. cbn [win_wallet show set_ui win_ui win_file]. rewrite !Hp by auto. exact Hw.
  - unfold miners_ok in *. cbn [win_ui show set_ui win_slot win_miners]. by rewrite set_props_mining.
Qed.

Lemma load_or_create_ok disk rng file :
  (load_or_create disk rng file).1 <> Panic /\
  forall w, (load_or_create disk rng file).1 = Ok w ->
    wallet_load (load_or_create disk rng file).2 = Ok w.
Proof.
  unfold load_or_create. destruct file as [|v].
  - destruct (wallet_generate_ok rng) as [Ha Hs].
    destruct (wallet_save_load (wallet_generate rng) Ha) as (f & Hl & Hsave); [by rewrite Hs|].
    rewrite Hsave. destruct disk as [| |torn]; cbn; [|done..]. split; [done|]. by intros w [= <-].
  - split; [apply wallet_load_total|done].
Qed.

Lemma window_start_ok cores now disk rng path file :
  win_ok (window_start error_text cores now disk rng path file).
Proof.
  unfold window_start. destruct (load_or_create_ok disk rng file) as [Hnp Hload].
  destruct (load_or_create disk rng file) as [[w|e|] file']; cbn [fst snd] in *; [| |done].
  - specialize (Hload w eq_refl). split; [by split_and!|]. split; [done|]. by split; intros i; [|intros m].
  - split; [reflexivity|]. split; [done|]. by split; intros i; [|intros m].
Qed.

Lemma toggle_ok (win : Window) : win_ok win -> win_ok (mine_toggle win).
Proof.
  intros Hok. pose proof Hok as [Hw (Hon & Hslot & Hrun)]. unfold mine_toggle. destruct (win_slot win) as [i|] eqn:Es.
  - apply show_ok; [done|]. split; [exact Hw|]. split; [done|]. split; [done|].
    cbn [win_miners win_slot set_ui set_miners]. intros j m Hj Hs. exfalso.
    destruct (decide (j = i)) as [->|Hne].
    + rewrite list_lookup_alter_eq in Hj. destruct (win_miners win !! i); [|done]. injection Hj as <-. done.
    + rewrite list_lookup_alter_ne in Hj by done. specialize (Hrun j m Hj Hs). congruence.
  - destruct (negb _); [by apply show_ok|].
    apply show_ok; [done|]. split; [exact Hw|]. split; [done|].
    cbn [win_miners win_slot set_ui set_miners]. split.
    + intros i [= <-]. eexists. split; [by apply list_lookup_middle|done].
    + intros j m Hj Hs. apply lookup_app_Some in Hj as [Hj|[Hle Hj]].
      * specialize (Hrun j m Hj Hs). congruence.
      * apply list_lookup_singleton_Some in Hj as [Hj _]. f_equal. lia.
Qed.

(** The disk never fails in the middle of a file. *)
Definition intact (e : WinEvent) : bool :=
  match e with Regenerate (DiskTears _) _ => false | _ => true end.

Lemma regenerate_ok disk rng (win : Window) : intact (Regenerate disk rng) = true -> win_ok win ->
  win_ok (regenerate_wallet error_text disk rng win).
Proof.
  intros Hd Hok. unfold regenerate_wallet. destruct (wallet_generate_ok rng) as [Ha Hs].
  destruct (wallet_save_load (wallet_generate rng) Ha) as (f & Hl & Hsave); [by rewrite Hs|].
  rewrite Hsave. destruct disk as [| |torn]; [| |done]; [|by apply (show_ok _ win)].
  destruct Hok as [_ Hm]. split.
  - unfold wallet_shown. cbn [win_wallet set_wallet win_ui show set_ui win_file set_props foldl fst snd].
    rewrite !prop_set. by split_and!.
  - unfold miners_ok in *. cbn [win_ui win_slot win_miners show set_ui set_wallet]. by rewrite set_props_mining.
Qed.

Lemma work_ok i thread batches (win : Window) (world : W) : win_ok win ->
  win_ok (miner_work send i thread batches win world).1.
Proof.
  intros [Hw (Hon & Hslot & Hrun)]. unfold miner_work. destruct (win_miners win !! i) as [m|] eqn:Em; [|done].
  destruct (_ || _); [done|]. destruct (worker_turn _ _ _ _ _ _ _ _) as [c world'].
  split; [exact Hw|]. split; [exact Hon|]. cbn [win_miners win_slot set_miners fst]. split.
  - intros j Hj. destruct (Hslot j Hj) as (mj & Hmj & Hst). destruct (decide (i = j)) as [->|Hne].
    + rewrite list_lookup_alter_eq, Hmj. by eexists.
    + rewrite list_lookup_alter_ne by done. by exists mj.
  - intros j mj Hj Hst. destruct (decide (i = j)) as [->|Hne].
    + rewrite list_lookup_alter_eq, Em in Hj. injection Hj as <-. by apply (Hrun j m).
    + rewrite list_lookup_alter_ne in Hj by done. by apply (Hrun j mj).
Qed.

Lemma win_step_ok e (win : Window) (world : W) : intact e = true -> win_ok win ->
  win_ok (step (win, world) e).1.
Proof.
  intros He Hok. destruct e as [| |clip|disk rng|rng|now| |field text|n|n|i t b]; cbn [win_step].
  - unfold connect_clicked. destruct (rpc_get_info _ _ _) as [[info|e|] world']; [|by apply show_ok..|done].
    by apply show_ok.
  - by apply toggle_ok.
  - unfold copy_address. destruct (win_wallet win); [destruct clip|]; by apply show_ok.
  - by apply regenerate_ok.
  - unfold send_clicked. destruct (match win_wallet win with Some _ => _ | None => _ end) as [[h|e|] world'];
      [by apply show_ok..|done].
  - unfold counters_tick. destruct (win_slot win ≫= _) as [m|]; [|done].
    destruct (win_sample win) as [t h]. apply show_ok; [done|]. exact Hok.
  - unfold balance_tick. destruct (win_wallet win) as [w|]; [|done].
    destruct (gui_get_account _ _ _ _) as [[info|e|] world']; [|done..]. by apply show_ok.
  - destruct (editable field) eqn:Ef; [|done]. apply show_ok; [|done].
    unfold editable in Ef. apply existsb_exists in Ef as (k & Hk & E). apply String.eqb_eq in E as <-.
    by repeat (destruct Hk as [<-|Hk]; [done|]).
  - exact Hok.
  - exact Hok.
  - by apply work_ok.
Qed.

Lemma win_run_ok es (st : Window * W) : forallb intact es = true -> win_ok st.1 -> win_ok (run st es).1.
Proof.
  revert st. induction es as [|e es IH]; intros [win world] Hes Hok; [done|].
  apply andb_true_iff in Hes as [He Hes]. cbn. apply IH; [done|]. by apply win_step_ok.
Qed.

(** C31: over the window's life, whatever the user clicks and edits, whatever the network
    answers and however the mining threads run, the address and key shown are those of the
    wallet in memory, which is the one a restart loads from disk; at most one miner runs, it
    is the one the button stops, and the window says "mining" exactly then - as long as the
    disk never fails in the middle of writing the wallet file. *)
Theorem window_life cores now disk rng path file es (world : W) :
  forallb intact es = true ->
  let win := (run (window_start error_text cores now disk rng path file, world) es).1 in
  wallet_shown win /\ miners_ok win.
Proof. intros Hes. apply win_run_ok; [done|]. apply window_start_ok. Qed.

(** ** A wallet regenerated while mining *)

(** Events other than the mining and regenerate buttons. *)
Definition idle (e : WinEvent) : bool :=
  match e with MineToggle | Regenerate _ _ => false | _ => true end.

Lemma idle_intact es : forallb idle es = true -> forallb intact es = true.
Proof. rewrite !forallb_forall. intros Hes e He. specialize (Hes e He). by destruct e. Qed.

(** The miner in slot [i] runs and pays [coinbase]; the wallet is [w]. *)
Definition mining_to (i : nat) (coinbase : bytes) (w : Wallet) (win : Window) : Prop :=
  win_slot win = Some i /\ win_wallet win = Some w /\
  exists m, win_miners win !! i = Some m /\ mr_stop m = false /\ mr_coinbase m = coinbase.

Lemma work_mining i coinbase w j thread batches (win : Window) (world : W) :
  mining_to i coinbase w win -> mining_to i coinbase w (miner_work send j thread batches win world).1.
Proof.
  intros Hto. unfold miner_work. destruct (win_miners win !! j) as [mj|] eqn:Ej; [|done].
  destruct (_ || _); [done|]. destruct (worker_turn _ _ _ _ _ _ _ _) as [c world'].
  destruct Hto as (Hs & Hw & m & Hm & Hst & Hc). split; [exact Hs|]. split; [exact Hw|].
  cbn [win_miners set_miners fst]. destruct (decide (i = j)) as [->|Hne].
  - rewrite list_lookup_alter_eq, Hm. by eexists.
  - rewrite list_lookup_alter_ne by done. by exists m.
Qed.

Lemma idle_mining i coinbase w e (win : Window) (world : W) :
  idle e = true -> mining_to i coinbase w win -> mining_to i coinbase w (step (win, world) e).1.
Proof.
  intros He Hm. destruct e as [| |clip|disk rng|rng|now| |field text|n|n|j t b]; cbn [win_step]; try done.
  - unfold connect_clicked. by destruct (rpc_get_info _ _ _) as [[info|e|] world'].
  - unfold copy_address. destruct (win_wallet win); [by destruct clip|done].
  - unfold send_clicked. by destruct (match win_wallet win with Some _ => _ | None => _ end) as [[h|e|] world'].
  - unfold counters_tick. destruct (win_slot win ≫= _) as [m|]; [|done]. by destruct (win_sample win) as [t h].
  - unfold balance_tick. destruct (win_wallet win) as [w'|]; [|done].
    by destruct (gui_get_account _ _ _ _) as [[info|e|] world'].
  - by destruct (editable field).
  - by apply work_mining.
Qed.

Lemma idle_run i coinbase w es (st : Window * W) :
  forallb idle es = true -> mining_to i coinbase w st.1 -> mining_to i coinbase w (run st es).1.
Proof.
  revert st. induction es as [|e es IH]; intros [win world] Hes Hm; [done|].
  apply andb_true_iff in Hes as [He Hes]. cbn. apply IH; [done|]. by apply idle_mining.
Qed.

(** C32: regenerating the wallet while a miner runs replaces the key in memory and on disk, and
    leaves the miner as it is: until the user stops it, through every other event, the window
    shows the new address and says it is mining, while each turn of each thread still mines
    for the address whose secret key is gone. *)
Theorem regenerate_orphans_miner rng (win : Window) (world : W) es i m w :
  win_ok win -> win_wallet win = Some w -> win_slot win = Some i -> win_miners win !! i = Some m ->
  mr_coinbase m = pad_to_32 (wal_address w) -> forallb idle es = true ->
  let '(win', world') := run (win, world) (Regenerate DiskTakes rng :: es) in
  win_wallet win' = Some (wallet_generate rng) /\
  wallet_load (win_file win') = Ok (wallet_generate rng) /\
  prop "wallet_address" (win_ui win') = wallet_text (wallet_generate rng) /\
  ui_mining_on (win_ui win') = true /\
  exists m', win_miners win' !! i = Some m' /\ mr_stop m' = false /\
    forall thread batches, (thread < mr_threads m')%nat ->
      (step (win', world') (Work i thread batches)).2 =
      (worker_turn send (Z.of_nat thread) (Z.of_nat (mr_threads m')) (mr_url m')
         (pad_to_32 (wal_address w)) batches (mr_counters m') world').2.
Proof.
  intros Hok Hw Hs Hm Hc Hes. pose proof Hok as [_ (_ & Hslot & _)].
  destruct (Hslot i Hs) as (m0 & Hm0 & Hst). rewrite Hm in Hm0. injection Hm0 as <-.
  set (start := (regenerate_wallet error_text DiskTakes rng win, world)).
  change (run (win, world) (Regenerate DiskTakes rng :: es)) with (run start es).
  assert (win_ok start.1) as Hok0 by by apply regenerate_ok.
  assert (mining_to i (pad_to_32 (wal_address w)) (wallet_generate rng) start.1) as Hto0.
  { unfold start, regenerate_wallet. destruct (wallet_generate_ok rng) as [Ha Hal].
    destruct (wallet_save_load (wallet_generate rng) Ha) as (f & _ & Hsave); [by rewrite Hal|].
    rewrite Hsave. split_and!; [exact Hs|done|]. by exists m. }
  apply (idle_run _ _ _ es) in Hto0; [|done].
  apply (win_run_ok es) in Hok0; [|by apply idle_intact].
  destruct (run start es) as [win' world']. cbn [fst] in *.
  destruct Hok0 as [Hshown (Hon & _)]. destruct Hto0 as (Hs' & Hw' & m' & Hm' & Hst' & Hc').
  unfold wallet_shown in Hshown. rewrite Hw' in Hshown. destruct Hshown as (Ha & _ & Hl).
  rewrite Hs' in Hon. split_and!; [done..|]. exists m'. split_and!; [done..|]. intros thread batches Ht.
  cbn [win_step]. unfold miner_work. rewrite Hm', Hst', (proj2 (Nat.ltb_lt _ _)) by done. cbn [orb negb].
  rewrite <- Hc'. by destruct (worker_turn _ _ _ _ _ _ _ _).
Qed.
End window.

(** ** The window against a node *)

Section on_node.
Context {St : Type} `{StateStore St} `{HashPrims} `{SigPrims} `{StateCodecs} {CB : Cbor Block}
  {CT : Cbor TxBody} {CW : Cbor Witness} `{HexLaws} `{Bech32} `{JsonLaws} `{!ErrorTexts}.
Notation Node := (NodeState St).
Context (ft : Features) (base : string) (now : Z) (io : option nat) (error_text : ClientError -> string).

(** Connecting and the balance timer show what the node holds, and do not change it. *)
Lemma window_shows_node (win : Window) (ns : Node) :
  prop "rpc_url" (win_ui win) = base ->
  text_len (jobj [("method"%string, jstr "get_info")]) <= MAX_RPC_BODY_BYTES ->
  in_u 64 (inf_height (info now ns)) ->
  (let '(win', ns') := connect_clicked (network ft base now io) error_text win ns in
   ns' = ns /\
   prop "node_chain_id" (win_ui win') = inf_chain_id (info now ns) /\
   prop "node_tip_hash" (win_ui win') = inf_tip_hash (info now ns) /\
   prop "block_height" (win_ui win') = pretty (inf_height (info now ns)) /\
   prop "current_target" (win_ui win') = inf_target (info now ns)) /\
  forall w, win_wallet win = Some w -> length (wal_address w) = ACCOUNT_ID_LEN ->
    text_len (gui_request "get_account" (account_params (wal_address w))) <= MAX_RPC_BODY_BYTES ->
    let '(win', ns') := balance_tick (network ft base now io) win ns in
    ns' = ns /\
    prop "balance_sat" (win_ui win') = pretty (ai_balance_sat (account_info (load_or_default (ns_state ns) (wal_address w)))) /\
    prop "wallet_nonce" (win_ui win') = pretty (acc_nonce (load_or_default (ns_state ns) (wal_address w))).
Proof.
  intros Hb Hl Hh. split.
  - unfold connect_clicked. rewrite Hb, rpc_get_info_node by done. cbn [win_ui show set_ui].
    unfold set_props. cbn [foldl fst snd]. by rewrite !prop_set.
  - intros w Hw Hlen Hla. unfold balance_tick. rewrite Hw, Hb, gui_get_account_node by done.
    cbn [win_ui show set_ui]. unfold set_props. cbn [foldl fst snd]. by rewrite !prop_set.
Qed.
End on_node.
