(* ===== verification/NodeRace.v ===== *)
(** * NodeRace: two threads in [try_apply_block]

    The RPC server and the self-miner call [try_apply_block] from different threads.  The
    function takes a mutex per field and none across its checks and its writes, so another
    thread can run in between: a thread is modelled by two steps, the checks and the commit. *)

From S2P Require Export Genesis.
From Stdlib Require Import Strings.Byte.

Local Open Scope Z_scope.

Inductive thread :=
| Start (b : Block)
| Checked (b : Block)
| Finished (r : outcome NodeError unit).

Section race.
Context {St : Type} `{StateStore St} `{HashPrims} `{SigPrims} `{StateCodecs} {CB : Cbor Block}.
Context (ft : Features) (now : Z).
Notation Node := (NodeState St).

(** One step of one thread. *)
Inductive race_step : Node * list thread -> Node * list thread -> Prop :=
| step_check ns ts i b : ts !! i = Some (Start b) ->
    check_block now ns b = Ok tt -> race_step (ns, ts) (ns, <[i := Checked b]> ts)
| step_reject ns ts i b e : ts !! i = Some (Start b) ->
    check_block now ns b = Err e -> race_step (ns, ts) (ns, <[i := Finished (Err e)]> ts)
| step_commit ns ts i b r ns' : ts !! i = Some (Checked b) ->
    commit_block ft None b ns = (r, ns') -> race_step (ns, ts) (ns', <[i := Finished r]> ts).

(** Run alone, a thread is [try_apply_block]. *)
Lemma race_alone ns b r ns' : try_apply_block ft now None b ns = (r, ns') ->
  (exists e, check_block now ns b = Err e) \/ check_block now ns b = Ok tt ->
  rtc race_step (ns, [Start b]) (ns', [Finished r]).
Proof.
  unfold try_apply_block, mbind, stm_bind. intros Ht [(e & Hc)|Hc]; rewrite Hc in Ht.
  - injection Ht as <- <-. apply rtc_once. by apply (step_reject ns [Start b] 0 b e).
  - eapply rtc_l; [by apply (step_check ns [Start b] 0 b)|].
    apply rtc_once. by apply (step_commit ns [Checked b] 0 b).
Qed.

(** What a commit makes of a block checked against an older tip: it is appended whatever the
    tip is by now, unless the ledger refuses it. *)
Lemma late_commit (ns : Node) bs b r (ns' : Node) : node_ok ns bs -> storable b = true ->
  Z.of_nat (length bs) < 2 ^ 64 - 1 -> commit_block ft None b ns = (r, ns') ->
  match r with
  | Ok _ => load_all (ns_store ns') = Ok (bs ++ [b])
  | Err e => node_ok ns' bs /\ ((exists e', e = ApplyFailed e') \/ ns' = ns)
  | Panic => node_ok ns' bs
  end.
Proof.
  intros Hok Hs Hlen Hr.
  assert (forall s, node_ok (set_state s ns) bs) as Hset.
  { intros s. destruct Hok as (Hh & Hc & Hl). split_and!; [exact Hh| |exact Hl].
    by apply (chain_ok_rules ns). }
  destruct (commit_block_cases ft b ns r ns' Hs Hr) as
    [(reward & out & s & cs & _ & _ & Ha & -> & ->)|[(reward & e & s & _ & _ & -> & ->)
    |[(-> & s & ->)|(e & _ & -> & ->)]]].
  - destruct (append_holds _ _ b (proj1 Hok) Hs Hlen) as (cs' & Ha' & (Hd & _ & _ & Hst)).
    rewrite Ha in Ha'. injection Ha' as <-. by apply read_all_holds.
  - split; [apply Hset|]. left. by exists e.
  - apply Hset.
  - split; [done|by right].
Qed.

End race.
