(* ===== verification/NodeExamples.v ===== *)
(** * NodeExamples: a small node, from its genesis file to a race

    A genesis file with one committee member, an easy target, and the blocks a node mines on
    it.  The theorems on the node are applied to this chain. *)

From S2P Require Export Supply NodeRace RewardTrap.
From Stdlib Require Import Strings.Byte Strings.Ascii.

Local Open Scope Z_scope.

#[local] Existing Instance Checksum.prims.
#[local] Existing Instance ChecksumSig.prims.
#[local] Existing Instance RecordsWire.codecs.
#[local] Existing Instance BlockWire.Block_cbor.

#[local] Existing Instance PlainHex.hex.
#[local] Existing Instance Plain32.prims.

(** ** The node *)
Module SampleNode.
Definition member (n : byte) : GenesisCommitteeMember :=
  {| gm_signer_id_hex := PlainHex.encode (replicate 32 n); gm_sig_algo := 3;
     gm_pubkey_hex := PlainHex.encode (lib_keygen (lib_of 3) [n]).2 |}.

Definition genesis : Genesis := {|
  gen_chain_id := "sample";
  gen_retarget_interval := 2016;
  gen_halving_interval_base := 210000;
  gen_max_bits_pct_change_per_block := default_max_bits_pct_change_per_block;
  gen_stability_window_blocks := 2016;
  gen_sybil_dust_floor_sat := 0;
  gen_sybil_min_age_blocks := 0;
  gen_sybil_require_paid_fee := false;
  gen_governance_pubkey_hex := "";
  gen_initial_accounts := [];
  gen_genesis_time_ms := 1011000;
  gen_initial_bits := 0x1f7fffff;
  gen_target_block_time_ms := 600000;
  gen_seconds_per_halving := default_seconds_per_halving;
  gen_initial_reward_sat := 5000000000;
  gen_asert_tau_ms := default_asert_tau;
  gen_bootstrap_asert_tau_ms := default_bootstrap_asert_tau;
  gen_bootstrap_height := default_bootstrap_height;
  gen_bootstrap_reward_pct := default_bootstrap_reward_pct;
  gen_max_reward_pct_change_per_block := default_max_reward_pct_change_per_block;
  gen_sig_algo := 3;
  gen_hash_algo := 1;
  gen_genesis_headline_hex := PlainHex.encode (replicate 32 x10);
  gen_genesis_committee := member <$> [x01; x02];
  gen_genesis_committee_threshold := 0;
  gen_genesis_committee_epoch := 1;
|}.

Definition empty_block : Block :=
  {| blk_header := sample_header 0; blk_body := {| body_txs := []; body_witnesses := [] |} |}.
Definition initial : Block * ChainStore :=
  match cmd_init 4 None genesis None with
  | Ok (Some r) => r
  | _ => (empty_block, {| cs_disk := None; cs_tip := None; cs_count := 0; cs_primed := true |})
  end.
Definition started : outcome NodeError (NodeState MemState) :=
  cmd_run default_features MemState_new genesis None (cs_disk initial.2).
Definition blank : NodeState MemState :=
  {| ns_store := initial.2; ns_chain_id := EmptyString; ns_block_reward_sat := 0;
     ns_halving_interval_base := 0; ns_bits := 0; ns_coinbase := []; ns_sig_algo := 0;
     ns_hash_algo := 0; ns_genesis_time_ms := 0; ns_state := MemState_new;
     ns_mempool := Mempool_new 0; ns_target_block_time_ms := 0;
     ns_emission := emission_params genesis; ns_minted_so_far := 0;
     ns_prev_reward_sat := None; ns_asert_tau_ms := 0; ns_bootstrap_asert_tau_ms := 0 |}.
Definition ok_or_else {E A} (d : A) (m : outcome E A) : A := match m with Ok a => a | _ => d end.
Definition node : NodeState MemState := ok_or_else blank started.

Definition block_time : Z := 1611000.
(** The template of the self-miner at [block_time], with a nonce that meets its target. *)
Definition next_block (nonce : Z) : Block :=
  match self_template block_time node with
  | Ok (Some (hdr, body)) => mined hdr body nonce
  | _ => empty_block
  end.
Definition block1 : Block := next_block 196.
(** The same template with another nonce that meets the target. *)
Definition block2 : Block := next_block 583.

Lemma initial_ok : cmd_init 4 None genesis None = Ok (Some initial).
Proof. vm_compute. reflexivity. Qed.
Lemma initial_ok' : cmd_init 4 None genesis None = Ok (Some (initial.1, initial.2)).
Proof. rewrite initial_ok. by destruct initial. Qed.
Lemma initial_height : bh_height (blk_header initial.1) = 0.
Proof. vm_compute. reflexivity. Qed.
Lemma initial_storable : storable initial.1 = true.
Proof. vm_compute. reflexivity. Qed.
Lemma started_ok : started = Ok node.
Proof.
  assert (is_ok started = true) as Hs by (vm_compute; reflexivity).
  unfold node. revert Hs. generalize started as m. by intros [].
Qed.
Lemma run_ok : cmd_run default_features MemState_new genesis None (cs_disk initial.2) = Ok node.
Proof. pose proof started_ok as Hs. unfold started in Hs. exact Hs. Qed.
Lemma genesis_typed : typed genesis = true.
Proof. vm_compute. reflexivity. Qed.
Lemma block1_storable : storable block1 = true.
Proof. vm_compute. reflexivity. Qed.
Lemma block2_storable : storable block2 = true.
Proof. vm_compute. reflexivity. Qed.
Lemma block1_checked : check_block block_time node block1 = Ok tt.
Proof. vm_compute. reflexivity. Qed.
Lemma block2_checked : check_block block_time node block2 = Ok tt.
Proof. vm_compute. reflexivity. Qed.
End SampleNode.
Import SampleNode.
#[local] Opaque initial started node block1 block2.

Lemma initial_holds : store_holds initial.2 [initial.1].
Proof. apply (cmd_init_Ok 4 genesis initial.1 initial.2 initial_ok' initial_storable). Qed.

Lemma node_holds : node_ok node [initial.1].
Proof.
  destruct initial_holds as (Hd & _ & _ & Hs).
  destruct (cmd_run_Ok default_features MemState_new genesis None (cs_disk initial.2) node
    [initial.1] Hd Hs run_ok) as (Hh & _).
  split_and!; [exact Hh| |cbn; lia]. constructor. exact initial_height.
Qed.

(** The runs of the examples, reduced only to whether they succeed. *)
Definition accepted : outcome NodeError unit * NodeState MemState :=
  try_apply_block default_features block_time None block1 node.
Definition commit1 : outcome NodeError unit * NodeState MemState :=
  commit_block default_features None block1 node.
Definition commit2 : outcome NodeError unit * NodeState MemState :=
  commit_block default_features None block2 commit1.2.

Lemma ok_unit {E S} (x : outcome E unit * S) : is_ok x.1 = true -> x = (Ok tt, x.2).
Proof. by destruct x as [[[]|e|] s]. Qed.

Lemma accepted_ok : accepted = (Ok tt, accepted.2).
Proof. apply ok_unit. vm_compute. reflexivity. Qed.
Lemma commit1_ok : commit1 = (Ok tt, commit1.2).
Proof. apply ok_unit. vm_compute. reflexivity. Qed.
Lemma commit2_ok : commit2 = (Ok tt, commit2.2).
Proof. apply ok_unit. vm_compute. reflexivity. Qed.
Lemma last_single {A} (x p : A) : last [x] = Some p -> p = x.
Proof. by intros [= ->]. Qed.

(** The disk that stops after 10 bytes of the frame. *)
Definition torn : outcome NodeError unit * NodeState MemState :=
  try_apply_block default_features block_time (Some 10%nat) block1 node.

Definition store_failed (r : outcome NodeError unit) : bool :=
  match r with Err (StoreFailed _) => true | _ => false end.

Lemma try_apply_block_chain_witness :
  (node_ok accepted.2 [initial.1; block1] /\ tip (ns_store accepted.2) = Some block1) /\
  torn_commit default_features node [initial.1] block_time (Some 10%nat) block1 torn.2.
Proof.
  split.
  - pose proof (try_apply_block_chain default_features node [initial.1] block_time None block1
      node_holds block1_storable ltac:(cbn; lia)) as Hc.
    change (try_apply_block default_features block_time None block1 node) with accepted in Hc.
    rewrite accepted_ok in Hc. destruct Hc as (_ & _ & Hok & Ht & _). split; [exact Hok|exact Ht].
  - pose proof (try_apply_block_chain default_features node [initial.1] block_time (Some 10%nat) block1
      node_holds block1_storable ltac:(cbn; lia)) as Hc.
    change (try_apply_block default_features block_time (Some 10%nat) block1 node) with torn in Hc.
    assert (store_failed torn.1 = true) as Hf by (vm_compute; reflexivity).
    assert (bool_decide (length (default [] (cs_disk (ns_store torn.2))) =
      length (default [] (cs_disk (ns_store node)))) = false) as Hd
      by (vm_compute; reflexivity).
    destruct torn as [[[]|e|] ns']; [discriminate Hf| |discriminate Hf].
    destruct Hc as [[_ ->]|[(_ & e' & s & -> & _)|[_ Ht]]]; [|discriminate Hf|exact Ht].
    cbn in Hd. rewrite bool_decide_eq_true_2 in Hd by reflexivity. discriminate Hd.
Defined.


Lemma templates_witness :
  check_block block_time node block1 = Ok tt /\
  let '(hdr, body) := template block_time node in
  check_block block_time node (mined hdr body 0) = Err (WrongBits 0x1f7fffff 0x1f7684bc).
Proof.
  assert (tip (ns_store node) = Some initial.1) as Ht.
  { destruct (node_ok_tip node [initial.1] node_holds) as (p & Hp & Ht).
    apply last_single in Hp as ->. exact Ht. }
  destruct (templates node initial.1 Ht) as [Hself Htemp]. split.
  - exact block1_checked.
  - apply Htemp; [vm_compute; reflexivity|vm_compute; discriminate|vm_compute; discriminate].
Defined.

Lemma mine_inline_first_witness :
  exists b, mine_inline 600 (with_nonce (blk_header block1) 190) = Some b /\
    meets_target (hash_header (blk_header b)) (target_from_bits (bh_bits (blk_header b))) = true.
Proof.
  destruct (mine_inline_first (with_nonce (blk_header block1) 190) 6)
    as (j & b & _ & Hf & _ & _ & Hm & _).
  - vm_compute. split; congruence.
  - vm_compute. reflexivity.
  - exists b. split; [apply Hf; lia|exact Hm].
Defined.

Lemma genesis_committee_installed_witness :
  exists signers mem, install_genesis_governance genesis MemState_new = Ok mem /\
    length signers = 2%nat /\ load_governance mem = Some (genesis_config genesis signers) /\
    gc_threshold (genesis_config genesis signers) = Z.of_nat (length signers).
Proof.
  destruct (install_genesis_governance genesis MemState_new) as [mem|e|] eqn:Hi.
  - destruct (genesis_committee_installed genesis MemState_new mem genesis_typed Hi)
      as (signers & _ & Hl & Hload & _ & Hthr & _).
    exists signers, mem. split; [reflexivity|]. split; [exact Hl|]. split; [exact Hload|].
    apply Hthr; [reflexivity|rewrite Hl; cbn; lia].
  - exfalso. assert (is_ok (install_genesis_governance genesis MemState_new) = true) as Hok
      by (vm_compute; reflexivity). rewrite Hi in Hok. discriminate Hok.
  - exfalso. assert (is_ok (install_genesis_governance genesis MemState_new) = true) as Hok
      by (vm_compute; reflexivity). rewrite Hi in Hok. discriminate Hok.
Defined.

(** The node after one accepted block, restarted. *)
Lemma restart_transparent_witness :
  exists ns', cmd_run default_features MemState_new genesis None
      (cs_disk (ns_store accepted.2)) = Ok ns' /\
    node_ok ns' [initial.1; block1] /\ ns_state ns' = ns_state accepted.2.
Proof.
  assert (forall R, submissions default_features R node [initial.1] accepted.2 [initial.1; block1]) as Hsub.
  { intros R. apply (sub_accept default_features R node [initial.1] node [initial.1] block_time block1 accepted.2).
    - apply sub_none.
    - exact block1_storable.
    - cbn. lia.
    - exact accepted_ok. }
  destruct (restart_transparent default_features MemState_new 4 genesis None None initial.1
    initial.2 node accepted.2 [initial.1; block1] initial_ok' initial_storable run_ok (Hsub _))
    as (_ & _ & _ & _ & _ & Hrun).
  destruct (Hrun (Hsub _)) as (ns' & Hr & Hok & Hs & _).
  exists ns'. split; [exact Hr|]. split; [exact Hok|exact Hs].
Defined.

(** The miner of both blocks is the headline address. *)
Definition headline_account : AccountId := replicate 20 x10.

Lemma initial_covered : covers initial.1 [headline_account].
Proof.
  assert (miner_of initial.1 = headline_account) as Hm by (vm_compute; reflexivity).
  assert (body_txs (blk_body initial.1) = []) as Hb by (vm_compute; reflexivity).
  unfold covers. rewrite Hm, Hb. split; [apply NoDup_singleton|]. split; [by left|done].
Qed.
Lemma block1_covered : covers block1 [headline_account].
Proof.
  assert (miner_of block1 = headline_account) as Hm by (vm_compute; reflexivity).
  assert (body_txs (blk_body block1) = []) as Hb by (vm_compute; reflexivity).
  unfold covers. rewrite Hm, Hb. split; [apply NoDup_singleton|]. split; [by left|done].
Qed.

Lemma sample_covered : Forall (fun b => covers b [headline_account]) [initial.1; block1].
Proof.
  apply Forall_cons; split; [exact initial_covered|].
  apply Forall_cons; split; [exact block1_covered|]. apply Forall_nil_2.
Qed.

(** All coins of the node after one block belong to the headline address. *)
Lemma circulating_supply_witness :
  balance (ns_state accepted.2) headline_account = ns_minted_so_far accepted.2 /\
  ns_minted_so_far accepted.2 = 2500000000.
Proof.
  split; [|vm_compute; reflexivity].
  destruct (circulating_supply default_features MemState_new 4 genesis None initial.1 initial.2
    node accepted.2 [initial.1; block1] [headline_account]) as (Ht & _ & _).
  - exact genesis_typed.
  - intros id. reflexivity.
  - exact initial_ok'.
  - exact initial_storable.
  - exact run_ok.
  - apply (sub_accept default_features clean_rejection node [initial.1] node [initial.1] block_time block1 accepted.2).
    + apply sub_none.
    + exact block1_storable.
    + cbn. lia.
    + exact accepted_ok.
  - exact sample_covered.
  - rewrite <- Ht. unfold total_balance. cbn [foldr]. lia.
Defined.

(** The sample node with a clock that started 1000 seconds earlier and a last reward of 3. *)
Definition stalled : NodeState MemState := {|
  ns_store := ns_store node; ns_chain_id := ns_chain_id node; ns_bits := ns_bits node;
  ns_coinbase := ns_coinbase node; ns_sig_algo := ns_sig_algo node; ns_hash_algo := ns_hash_algo node;
  ns_genesis_time_ms := 11000; ns_state := ns_state node; ns_mempool := ns_mempool node;
  ns_block_reward_sat := ns_block_reward_sat node;
  ns_target_block_time_ms := ns_target_block_time_ms node;
  ns_halving_interval_base := ns_halving_interval_base node; ns_emission := ns_emission node;
  ns_minted_so_far := 0; ns_prev_reward_sat := Some 3; ns_asert_tau_ms := ns_asert_tau_ms node;
  ns_bootstrap_asert_tau_ms := ns_bootstrap_asert_tau_ms node |}.
Definition stalled_next : outcome NodeError unit * NodeState MemState :=
  try_apply_block default_features block_time None block1 stalled.

Lemma stalled_ok : node_ok stalled [initial.1].
Proof. destruct node_holds as (Hh & _ & Hl). split; [exact Hh|]. split; [|exact Hl]. constructor. exact initial_height. Qed.

Lemma stalled_accepts : stalled_next = (Ok tt, stalled_next.2).
Proof. apply ok_unit. vm_compute. reflexivity. Qed.

(** Ten minutes later the schedule owes 50 coins and the block pays 3 satoshi. *)
Lemma reward_trap_witness :
  ns_prev_reward_sat stalled_next.2 = Some 3 /\ ns_minted_so_far stalled_next.2 = 0 + 3 * 1.
Proof.
  apply (reward_trap default_features stalled [initial.1] stalled_next.2 [initial.1; block1] 3).
  - vm_compute. reflexivity.
  - exact stalled_ok.
  - split; [lia|]. apply Z.ltb_lt. vm_compute. reflexivity.
  - reflexivity.
  - cbn. lia.
  - apply (sub_accept default_features any_rejection stalled [initial.1] stalled [initial.1] block_time block1).
    + apply sub_none.
    + exact block1_storable.
    + cbn. lia.
    + exact stalled_accepts.
  - split; apply Z.leb_le; vm_compute; reflexivity.
  - apply Z.leb_le. vm_compute. reflexivity.
Defined.
