(* ===== verification/RpcExamples.v ===== *)
(** * RpcExamples: clients of the sample node

    A wallet sends a transfer, a remote miner submits a block, an explorer reads the chain:
    the theorems on the handlers are applied to the node of [NodeExamples]. *)

From S2P Require Export RpcChart NodeExamples.
From Stdlib Require Import Strings.Byte.

Local Open Scope Z_scope.

#[local] Existing Instance Checksum.prims.
#[local] Existing Instance ChecksumSig.prims.
#[local] Existing Instance RecordsWire.codecs.
#[local] Existing Instance BlockWire.Block_cbor.
#[local] Existing Instance BlockWire.TxBody_cbor.
#[local] Existing Instance BlockWire.Witness_cbor.
#[local] Existing Instance PlainHex.hex.
#[local] Existing Instance PlainHex.hex_laws.
#[local] Existing Instance Plain32.prims.

Import SampleNode.

Module SampleClient.
Definition keys : bytes * bytes := lib_keygen (lib_of 3) [x07].
Definition wallet : AccountId := from_pubkey keys.2.
Definition friend : AccountId := replicate 20 x33.
Definition address (id : AccountId) : string := default EmptyString (bech32_encode ADDRESS_HRP id).

Definition unsigned : SubmitTransferReq :=
  {| str_from_address := address wallet; str_to_address := address friend;
     str_amount_sat := 1000; str_fee_sat := 10; str_nonce := 0;
     str_pubkey_hex := PlainHex.encode keys.2; str_sig_hex := EmptyString |}.
Definition transfer : SubmitTransferReq :=
  {| str_from_address := address wallet; str_to_address := address friend;
     str_amount_sat := 1000; str_fee_sat := 10; str_nonce := 0;
     str_pubkey_hex := PlainHex.encode keys.2;
     str_sig_hex := PlainHex.encode
       (match sign default_features [] 3 keys.1
                (signing_hash (transfer_body unsigned wallet friend (replicate 32 x00))) with
        | Ok sig => sig | _ => [] end) |}.

Lemma transfer_accepted : exists resp ns',
  submit_transfer default_features block_time transfer node = (Ok resp, ns').
Proof.
  assert (is_ok (submit_transfer default_features block_time transfer node).1 = true) as Hs
    by (vm_compute; reflexivity).
  revert Hs. generalize (submit_transfer default_features block_time transfer node) as x.
  intros [[r|e|] ns'] Hs; [by exists r, ns'|discriminate Hs..].
Qed.
Lemma from_parses : parse_address (str_from_address transfer) = Ok wallet.
Proof. vm_compute. reflexivity. Qed.
Lemma to_parses : parse_address (str_to_address transfer) = Ok friend.
Proof. vm_compute. reflexivity. Qed.
End SampleClient.
Import SampleClient.

#[local] Opaque initial started node block1 block2.

Lemma node_pool_ok : mempool_ok (ns_mempool node).
Proof.
  assert (size (mp_inner (ns_mempool node)) = 0%nat) as Hs by (vm_compute; reflexivity).
  split; [|lia]. apply map_size_empty_inv in Hs. intros h t Hl. rewrite Hs in Hl. discriminate Hl.
Qed.

Lemma node_pool_typed : pool_typed (ns_mempool node).
Proof.
  assert (size (mp_inner (ns_mempool node)) = 0%nat) as Hs by (vm_compute; reflexivity).
  apply map_size_empty_inv in Hs. intros h t Hl. rewrite Hs in Hl. discriminate Hl.
Qed.

Lemma node_typed_sample : node_typed node.
Proof.
  split_and!.
  - exact node_pool_typed.
  - vm_compute. reflexivity.
  - apply in_ub_spec. vm_compute. reflexivity.
  - apply in_ub_spec. vm_compute. reflexivity.
  - apply in_ub_spec. vm_compute. reflexivity.
  - vm_compute. reflexivity.
  - apply in_ub_spec. vm_compute. reflexivity.
  - assert (ns_prev_reward_sat node = Some 0) as -> by (vm_compute; reflexivity).
    intros r [= <-]. apply in_ub_spec. vm_compute. reflexivity.
  - intros b Hb. destruct (node_ok_tip node [initial.1] node_holds) as (p & Hp & Ht).
    apply last_single in Hp as ->. rewrite Ht in Hb. apply (inj Some) in Hb as <-.
    pose proof initial_storable as Hs. by apply andb_true_iff in Hs as [Tb _].
Qed.

(** The wallet's transfer is pooled; the ledger would reject it for lack of funds. *)
Lemma submit_transfer_valid_witness :
  exists (ns' : NodeState MemState) w tx, mp_inner (ns_mempool ns') !! body_hash tx =
      Some {| pt_body := tx; pt_witness := w; pt_received_ms := block_time |} /\
    tx = transfer_body transfer wallet friend (witness_hash w) /\
    is_ok (validate_tx default_features 0 (ns_state node) tx w) <> true.
Proof.
  destruct transfer_accepted as (resp & ns' & Hs).
  destruct (proj2 (submit_transfer_valid default_features block_time transfer node) resp ns' Hs)
    as (from & to & pk & w & tx & Hf & Ht & _ & _ & _ & Htx & _ & _ & Hpool & Hv).
  pose proof from_parses as Hf'. rewrite Hf in Hf'. apply (inj Ok) in Hf' as ->.
  pose proof to_parses as Ht'. rewrite Ht in Ht'. apply (inj Ok) in Ht' as ->.
  exists ns', w, tx. split; [exact Hpool|]. split; [exact Htx|].
  assert (acc_pubkey (load_or_default (ns_state node) wallet) = []) as Hk by (vm_compute; reflexivity).
  assert (acc_balance (load_or_default (ns_state node) wallet) = 0) as Hb by (vm_compute; reflexivity).
  intros Hok. apply (Hv (or_introl Hk) 0%nat) in Hok as [_ Hok]. rewrite Hb in Hok.
  cbn in Hok. lia.
Defined.

(** The template of [get_template] carries the genesis bits: the remote block is refused. *)
Lemma remote_mining_witness :
  exists resp, template_resp block_time node = Ok resp /\
    (submit_block default_features block_time None (worked resp (replicate 32 x44) 5) node).1 =
    Err (NodeFailed (WrongBits 0x1f7fffff 0x1f7684bc)).
Proof.
  destruct (remote_mining default_features block_time node node_pool_typed) as (resp & Hr & Hs);
    [vm_compute; reflexivity|].
  exists resp. split; [exact Hr|].
  specialize (Hs block_time None (replicate 32 x44) 5 node eq_refl).
  assert (let '(hdr, body) := template block_time node in
    (try_apply_block default_features block_time None
      (mined (with_coinbase hdr (replicate 32 x44)) body 5) node).1 =
    Err (WrongBits 0x1f7fffff 0x1f7684bc)) as He by (vm_compute; reflexivity).
  destruct (template block_time node) as [hdr body]. rewrite Hs. revert He.
  generalize (try_apply_block default_features block_time None
    (mined (with_coinbase hdr (replicate 32 x44)) body 5) node) as x.
  intros [r ns'] He. cbn [fst] in He. rewrite He. reflexivity.
Defined.

Lemma queries_show_chain_witness :
  list_blocks node 10 = Ok [block_summary initial.1] /\
  get_block node 0 = Ok (Some (block_detail initial.1)) /\ get_block node 1 = Ok None /\
  inf_height (info block_time node) = 0.
Proof.
  destruct (queries_show_chain node [initial.1] block_time node_holds)
    as (Hl & Hg & b & _ & Hh & _).
  split; [exact (proj1 (Hl 10%nat))|]. split; [exact (Hg 0)|]. split; [exact (Hg 1)|exact Hh].
Defined.

(** The chart of the node after one block ends at its minted total. *)
Lemma emission_chart_witness :
  exists resp, emission_series accepted.2 3600 240 = Ok resp /\
    (ep_minted_sat <$> last (es_samples resp)) = Some 2500000000.
Proof.
  destruct initial_holds as (Hd & _ & _ & Hs).
  destruct (cmd_run_Ok default_features MemState_new genesis None (cs_disk initial.2) node
    [initial.1] Hd Hs run_ok) as (_ & _ & mem & _ & Hsy).
  assert (submissions default_features clean_rejection node [initial.1] accepted.2 [initial.1; block1]) as Hsub.
  { apply (sub_accept default_features clean_rejection node [initial.1] node [initial.1] block_time block1 accepted.2);
      [apply sub_none|exact block1_storable|cbn; lia|exact accepted_ok]. }
  destruct (submissions_synced default_features mem node [initial.1] _ _ node_holds Hsy Hsub)
    as (Hok & Hsy' & _).
  destruct (emission_chart default_features mem accepted.2 [initial.1; block1] 3600 240 Hok Hsy')
    as (resp & Hr & _ & b & _ & Hlast).
  - vm_compute. reflexivity.
  - lia.
  - intros b Hb. cbn [head] in Hb. apply (inj Some) in Hb as <-.
    apply Z.leb_le. vm_compute. reflexivity.
  - exists resp. split; [exact Hr|]. rewrite Hlast. cbn [fmap option_fmap option_map ep_minted_sat].
    apply (f_equal Some). vm_compute. reflexivity.
Defined.

Lemma handlers_keep_types_witness :
  node_typed (submit_transfer default_features block_time transfer node).2.
Proof.
  pose proof (handlers_keep_types default_features block_time None node node_typed_sample)
    as (_ & _ & Hs).
  apply (Hs transfer). split_and!; apply in_ub_spec; vm_compute; reflexivity.
Defined.
