(* ===== verification/ClientExamples.v ===== *)
(** * ClientExamples: clients of the sample node, over HTTP

    The command line client, a wallet and two mining workers talk to the node of
    [NodeExamples] through JSON. *)

From S2P Require Export ClientProps DoubleSend Print RpcExamples.
From Stdlib Require Import Strings.Byte.

Local Open Scope Z_scope.

#[local] Existing Instance Checksum.prims.
#[local] Existing Instance ChecksumSig.prims.
#[local] Existing Instance RecordsWire.codecs.
#[local] Existing Instance BlockWire.Block_cbor.
#[local] Existing Instance BlockWire.TxBody_cbor.
#[local] Existing Instance BlockWire.Witness_cbor.
#[local] Existing Instance PlainHex.hex.
#[local] Existing Instance PlainHex.hex_laws.
#[local] Existing Instance Plain32.prims.
#[local] Existing Instance PlainJson.json.
#[local] Existing Instance PlainJson.json_laws.
#[local] Existing Instance PlainText.json_text.
#[local] Existing Instance PlainText.json_text_laws.

Import SampleNode SampleClient.

#[local] Opaque initial started node block1 block2.

#[local] Instance texts : ErrorTexts := {
  build_texts := {| CARGO_PKG_VERSION := "0.1.0"; PYGROVE_GIT_SHA := None; EXPLORER_HTML := "" |};
  rpc_error_text _ := "rejected"%string;
  serde_error_text _ := "malformed"%string;
}.

Definition home : string := "http://localhost:8545".

(** The screens of the sample node, ten seconds after its genesis. *)
Lemma cli_screens_witness :
  let show cmd := cli_main (network default_features home block_time None)
    {| cl_rpc := home +:+ "/rpc"; cl_json := false; cl_cmd := cmd |} node in
  (exists b lines, show GetInfo = ((lines, 0), node) /\
     lines = info_screen block_time node 0 b /\
     lines !! 1%nat = Some "height:          0"%string /\
     lines !! 3%nat = Some "bits:            0x1f7fffff"%string) /\
  show (ShowBlock 0) = ((block_screen initial.1, 0), node) /\
  show (ShowBlock 7) = (([], 1), node) /\
  show (ListBlocks 5) = (([list_header; row_screen initial.1], 0), node) /\
  show (GetBalance (address wallet)) = (([address wallet +:+ " balance = 0 sat"], 0), node).
Proof.
  intros show.
  destruct (cli_screens default_features home block_time None node [initial.1] node_holds) as (Hi & Hb & Hl & Hbal & _).
  { split; [exact node_typed_sample|]. apply (bool_decide_unpack _). vm_compute. exact I. }
  split; [|split; [|split; [|split]]].
  - destruct Hi as (b & _ & Hi); [vm_compute; congruence|]. exists b. eexists. split; [exact Hi|].
    split; [reflexivity|]. split; vm_compute; reflexivity.
  - apply (Hb 0); [unfold in_u; lia|vm_compute; congruence].
  - apply (Hb 7); [unfold in_u; lia|vm_compute; congruence].
  - apply (Hl 5%nat); [lia| |vm_compute; congruence].
    intros b ->%list_elem_of_singleton. vm_compute. congruence.
  - apply (Hbal (address wallet) wallet); [vm_compute; reflexivity|vm_compute; congruence].
Defined.

(** A scraper of the sample node. *)
Lemma metrics_scrape_witness : exists page,
  serve default_features block_time None
    {| rq_method := GetMethod; rq_url := "/metrics"; rq_len := 0; rq_json := None |} node =
    (Ok {| hr_status := 200;
           hr_body := BodyText "text/plain; version=0.0.4; charset=utf-8" page |}, node) /\
  exists offset chain build, scrape page = Some
    [sample "pygrove_height" [] 0; sample "pygrove_genesis_offset_ms" [] offset;
     sample "pygrove_mempool_size" [] 0; sample "pygrove_block_reward_sat" [] 5000000000;
     sample "pygrove_bits" [] 0x1f7fffff; sample "pygrove_minted_so_far_sat" [] 0;
     chain; build].
Proof.
  destruct (metrics_scrape default_features block_time None 0 None node [initial.1] node_holds
    ltac:(vm_compute; reflexivity) ltac:(vm_compute; reflexivity)) as (page & Hs & Hr & Hh).
  exists page. split; [exact Hs|]. rewrite Hr. unfold samples. rewrite Hh.
  exists (block_time - ns_genesis_time_ms node). do 2 eexists.
  assert (Z.of_nat (mp_len (ns_mempool node)) = 0) as -> by (apply Z.eqb_eq; vm_compute; reflexivity).
  assert (ns_block_reward_sat node = 5000000000) as -> by (apply Z.eqb_eq; vm_compute; reflexivity).
  assert (ns_bits node = 0x1f7fffff) as -> by (apply Z.eqb_eq; vm_compute; reflexivity).
  assert (ns_minted_so_far node = 0) as -> by (apply Z.eqb_eq; vm_compute; reflexivity).
  reflexivity.
Defined.

(** The first block is shown; the chart is refused; a balance prints as 0. *)
Lemma cli_against_node_witness :
  let cli := cli_run (network default_features home block_time None) (home +:+ "/rpc") in
  (exists v, cli (ShowBlock 0) node = (Ok v, node)) /\
  cli (ShowBlock 7) node = (Err (Status 404), node) /\
  cli (EmissionSeries 0 (Some 10000) 100) node = (Err (Status 400), node) /\
  exists v, cli (GetBalance (address wallet)) node = (Ok v, node) /\ printed_balance v = 0.
Proof.
  intros cli. destruct (cli_against_node default_features home block_time None node [initial.1] node_holds)
    as (Hb & _ & _ & Hbal & He).
  split; [|split; [|split]].
  - destruct (Hb 0) as (v & _ & Hv); [unfold in_u; lia|vm_compute; congruence|].
    exists v. exact Hv.
  - apply (Hb 7); [unfold in_u; lia|vm_compute; congruence].
  - apply He. vm_compute. congruence.
  - destruct (Hbal (address wallet) wallet) as (v & Hv & _ & Hp);
      [vm_compute; reflexivity|vm_compute; congruence|].
    exists v. split; [exact Hv|exact Hp].
Defined.

(** The wallet of [SampleClient] sends over HTTP what it sent through [submit_transfer]. *)
Lemma wallet_send_valid_witness :
  exists tx wit, verify default_features 3 keys.2 (wit_sig wit) (signing_hash tx) = Ok tt /\
    tx_call tx = Transfer friend 1000 /\
    is_ok (validate_tx default_features 0 (ns_state node) tx wit) <> true.
Proof.
  destruct (wallet_send_valid default_features id home block_time None [x07] [] node
    (address friend) "1000" "10" friend 1000 10)
    as (tx & wit & _ & _ & _ & _ & Htx & Hv & _ & Hok).
  - exact ChecksumSig.all_ok.
  - reflexivity.
  - vm_compute. reflexivity.
  - vm_compute. reflexivity.
  - vm_compute. reflexivity.
  - left. vm_compute. reflexivity.
  - vm_compute. congruence.
  - exists tx, wit. split; [exact Hv|]. split; [by rewrite Htx|].
    intros Hval%Hok.
    assert (acc_balance (load_or_default (ns_state node) (wal_address (wallet_generate [x07]))) = 0)
      as Hb by (vm_compute; reflexivity).
    rewrite Hb in Hval. lia.
Defined.

(** Two payments of that wallet, and a round of the miner. *)
Module SampleDouble.
Definition round : Round MemState :=
  {| rd_now := block_time; rd_block_ts := block_time; rd_apply_now := block_time; rd_io := None;
     rd_fuel := 3; rd_world := fun _ ns => ns |}.
Lemma round_busy : busy round.
Proof.
  exists (fun _ mp => mp). split; [by intros n []|]. intros n mp H1 H2 H3. by split_and!.
Qed.
Definition pay (amount fee : string) : stm (NodeState MemState) ClientError string :=
  build_and_submit_tx (network default_features home block_time None) default_features id [] home
    (wallet_generate [x07]) (address friend) amount fee.
End SampleDouble.
Import SampleDouble.

Lemma wallet_double_send_witness : exists h1 h2,
  let '(r1, ns1) := pay "1000" "10" node in
  let '(r2, ns2) := pay "2000" "20" ns1 in
  r1 = Ok h1 /\ r2 = Ok h2 /\
  (self_miner_loop default_features [round; round] ns2).1 <> [Submitted (Ok tt)].
Proof.
  destruct (wallet_double_send default_features id home block_time None block_time None [x07] [] [] node
    (address friend) "1000" "10" (address friend) "2000" "20" friend 1000 10 friend 2000 20 [round; round])
    as (sig1 & sig2 & G1 & G2 & _ & Hrun).
  - exact ChecksumSig.all_ok.
  - reflexivity.
  - vm_compute. reflexivity.
  - vm_compute. reflexivity.
  - vm_compute. reflexivity.
  - vm_compute. reflexivity.
  - vm_compute. reflexivity.
  - vm_compute. reflexivity.
  - vm_compute. congruence.
  - exact node_pool_ok.
  - exact node_pool_typed.
  - apply Nat.ltb_lt. vm_compute. reflexivity.
  - apply Nat.leb_le. vm_compute. reflexivity.
  - apply Z.ltb_lt. vm_compute. reflexivity.
  - repeat constructor; exact round_busy.
  - vm_compute in G1, G2. injection G1 as <-. injection G2 as <-.
    do 2 eexists. unfold pay.
    specialize (Hrun ltac:(apply Z.leb_le; vm_compute; reflexivity)).
    specialize (Hrun ltac:(apply Z.leb_le; vm_compute; reflexivity)).
    specialize (Hrun ltac:(apply (bool_decide_unpack _); vm_compute; exact I)).
    revert Hrun.
    destruct (build_and_submit_tx _ _ _ _ _ _ _ "1000" "10" node) as [r1 ns1].
    destruct (build_and_submit_tx _ _ _ _ _ _ _ "2000" "20" ns1) as [r2 ns2].
    intros (Hr1 & _ & Hpool).
    specialize (Hpool ltac:(apply (bool_decide_unpack _); vm_compute; exact I)).
    specialize (Hpool ltac:(apply (bool_decide_unpack _); vm_compute; exact I)).
    destruct Hpool as (Hr2 & _ & Hl). split; [exact Hr1|]. split; [exact Hr2|].
    destruct (self_miner_loop _ _ _) as [turns ns3]. destruct Hl as (Hall & _). cbn [fst].
    intros ->. by apply Forall_cons in Hall as [Hne _].
Defined.

(** ** Two mining workers *)

Definition easy_target : bytes := replicate 32 xff.
Definition work : HeaderJson := json_nonce (header_to_json (sample_header 1)) 3.
(** A network that keeps what it was sent. *)
Definition record (j : HeaderJson) : stm (list HeaderJson) ClientError bool := fun sent =>
  (Ok true, sent ++ [j]).
Definition no_work : Counters := {| ct_hashes := 0; ct_accepted := 0; ct_rejected := 0 |}.

(** Three batches before the deadline: one header, found at once, is submitted three times. *)
Lemma mining_worker_round_witness :
  (mine_round 3 record easy_target 4 work no_work []).2 = [work; work; work] /\
  (nonce_at 1 4 5 <> nonce_at 2 4 5).
Proof.
  destruct (mining_worker_round 3 record easy_target 4 work no_work []) as (Hf & _ & Hd).
  - vm_compute. reflexivity.
  - unfold in_u. cbn. lia.
  - split.
    + rewrite (Hf 0%nat 0%nat).
      * vm_compute. reflexivity.
      * unfold BATCH. lia.
      * lia.
      * vm_compute. reflexivity.
      * lia.
    + intros He. destruct (Hd 4 1 2 5%nat 5%nat) as [H12 _]; [lia..|exact He|]. lia.
Defined.

(** A pending deployment of 33000 bytes, which the node offers and does not take back. *)
Definition big_tx : TxBody :=
  {| tx_nonce := 0; tx_from_account := wallet;
     tx_call := DeployContract (replicate 32 x11) (replicate 33000 x00);
     tx_fee_sat := 10; tx_gas_limit := 21000; tx_witness_hash := replicate 32 x00 |}.
Definition big_pool : Mempool :=
  {| mp_inner := {[ replicate 32 x00 :=
       {| pt_body := big_tx; pt_witness := sample_witness; pt_received_ms := 0 |} ]};
     mp_cap := 16 |}.

Lemma big_template : exists resp, template_resp block_time (set_mempool big_pool node) = Ok resp /\
  MAX_RPC_BODY_BYTES < strings_len (tr_txs_cbor_hex resp) + strings_len (tr_witnesses_cbor_hex resp).
Proof.
  assert (exists txs wits, encode_items [big_tx] = Ok txs /\ encode_items [sample_witness] = Ok wits /\
    MAX_RPC_BODY_BYTES < strings_len txs + strings_len wits) as (txs & wits & Ht & Hw & Hl).
  { destruct (items_roundtrip [big_tx]) as (txs & Ht & _); [vm_compute; reflexivity|].
    destruct (items_roundtrip [sample_witness]) as (wits & Hw & _); [vm_compute; reflexivity|].
    exists txs, wits. split; [exact Ht|]. split; [exact Hw|].
    assert (match encode_items [big_tx] with
            | Ok l => MAX_RPC_BODY_BYTES <? strings_len l | _ => false end = true) as Hb
      by (vm_compute; reflexivity).
    rewrite Ht in Hb. apply Z.ltb_lt in Hb.
    pose proof (sum_len_nonneg (fun s => Z.of_nat (String.length s)) wits (fun s => Nat2Z.is_nonneg _)).
    unfold strings_len in *. lia. }
  unfold template_resp.
  assert ((template block_time (set_mempool big_pool node)).2 =
    {| body_txs := [big_tx]; body_witnesses := [sample_witness] |}) as Hbody.
  { unfold template. by destruct (tip _). }
  destruct (template block_time (set_mempool big_pool node)) as [hdr body]. cbn [snd] in Hbody.
  rewrite Hbody. cbn [body_txs body_witnesses]. rewrite Ht, Hw. cbn [mbind outcome_bind].
  eexists. split; [reflexivity|]. exact Hl.
Qed.

Lemma oversized_template_unminable_witness :
  let '(c, ns) := worker_turn (network default_features home block_time None) 0 1 home
    (pad_to_32 wallet) 2 no_work (set_mempool big_pool node) in
  ns = set_mempool big_pool node /\ ct_accepted c = ct_accepted no_work.
Proof.
  destruct big_template as (resp & Ht & Hl).
  pose proof (oversized_template_unminable default_features home block_time None
    (set_mempool big_pool node) resp 0 1 (pad_to_32 wallet) 2 no_work Ht Hl) as Hw.
  revert Hw. generalize (worker_turn (network default_features home block_time None) 0 1 home
    (pad_to_32 wallet) 2 no_work (set_mempool big_pool node)) as x.
  intros x Hw. exact Hw.
Defined.
