(* ===== verification/WindowExamples.v ===== *)
(** * WindowExamples: a session at the window

    A first launch against the sample node, mining, and the Regenerate button while mining. *)

From S2P Require Export WindowProps ClientExamples.
From Stdlib Require Import Strings.Byte.

Local Open Scope Z_scope.

#[local] Existing Instance Checksum.prims.
#[local] Existing Instance ChecksumSig.prims.
#[local] Existing Instance RecordsWire.codecs.
#[local] Existing Instance BlockWire.Block_cbor.
#[local] Existing Instance BlockWire.TxBody_cbor.
#[local] Existing Instance BlockWire.Witness_cbor.
#[local] Existing Instance PlainHex.hex.
#[local] Existing Instance PlainHex.hex_laws.
#[local] Existing Instance Plain32.prims.
#[local] Existing Instance PlainJson.json.
#[local] Existing Instance PlainJson.json_laws.

Import SampleNode SampleClient.

#[local] Opaque initial started node block1 block2.

#[local] Instance window_texts : ErrorTexts := {
  build_texts := {| CARGO_PKG_VERSION := "0.1.0"; PYGROVE_GIT_SHA := None; EXPLORER_HTML := "" |};
  rpc_error_text _ := "rejected"%string;
  serde_error_text _ := "malformed"%string;
}.

Definition wire : HttpReq -> stm (NodeState MemState) unit HttpResp :=
  network default_features home block_time None.
Definition why (_ : ClientError) : string := "failed".
Definition rate (_ _ : Z) : string := "1 H/s".
Definition session : Window * NodeState MemState -> list WinEvent -> Window * NodeState MemState :=
  win_run wire default_features (fun s => s) why rate.

(** No wallet file yet, eight cores. *)
Definition launched : Window := window_start why 8 0 DiskTakes [x07] "wallet.json" NoFile.
Definition mining : Window := (session (launched, node) [EditText "rpc_url" home; MineToggle]).1.

Example mining_threads :
  option_map mr_threads (win_miners mining !! 0%nat) = Some 4%nat /\ win_slot mining = Some 0%nat /\
  prop "mine_status" (win_ui mining) = "mining (4 threads) → wallet"%string.
Proof. split_and!; vm_compute; reflexivity. Qed.

(** Every event of the window, some of them twice. *)
Lemma window_life_witness :
  let es := [Connect; EditText "rpc_url" home; MineToggle; Work 0 1 2; CountersTick 250; BalanceTick;
             Regenerate DiskRefuses [x08]; Regenerate DiskTakes [x09]; MineToggle; EditIntensity 7;
             MineToggle; CopyAddress None; SendClicked [x01]; EditDevice 1; MineToggle] in
  let win := (session (launched, node) es).1 in wallet_shown win /\ miners_ok win.
Proof. intros es. apply (window_life wire default_features (fun s => s) why rate 8 0 DiskTakes [x07]). reflexivity. Defined.

Lemma regenerate_orphans_miner_witness :
  let '(win, _) := session (mining, node) [Regenerate DiskTakes [x09]; CountersTick 250; BalanceTick] in
  win_wallet win = Some (wallet_generate [x09]) /\
  wal_address (wallet_generate [x09]) <> wal_address (wallet_generate [x07]) /\
  exists m, win_miners win !! 0%nat = Some m /\ mr_stop m = false.
Proof.
  assert (exists m, win_miners mining !! 0%nat = Some m /\
    mr_coinbase m = pad_to_32 (wal_address (wallet_generate [x07]))) as (m & Hm & Hc).
  { eexists. split; vm_compute; reflexivity. }
  pose proof (regenerate_orphans_miner wire default_features (fun s => s) why rate [x09] mining node
    [CountersTick 250; BalanceTick] 0 m (wallet_generate [x07])) as Hor.
  unfold session. destruct (win_run wire _ _ _ _ _ _) as [win world].
  destruct Hor as (Hw & _ & _ & _ & m' & Hm' & Hst & _); [|vm_compute; reflexivity..|exact Hm|exact Hc|reflexivity|].
  - apply (win_run_ok wire default_features (fun s => s) why rate [EditText "rpc_url" home; MineToggle] (launched, node));
      [reflexivity|]. apply window_start_ok.
  - split; [exact Hw|]. split; [vm_compute; congruence|]. by exists m'.
Defined.
