(* ===== verification/SelfMinerExamples.v ===== *)
(** * SelfMinerExamples: the mining thread of the sample node

    A funded wallet's transfer is mined by the self-miner; a transaction with a nonce from
    the future keeps it from mining anything. *)

From S2P Require Export SelfMiner RpcExamples.
From Stdlib Require Import Strings.Byte.

Local Open Scope Z_scope.

#[local] Existing Instance Checksum.prims.
#[local] Existing Instance ChecksumSig.prims.
#[local] Existing Instance RecordsWire.codecs.
#[local] Existing Instance BlockWire.Block_cbor.
#[local] Existing Instance PlainHex.hex.
#[local] Existing Instance Plain32.prims.

Import SampleNode SampleClient.

Module SampleMiner.
Definition funded_state : MemState :=
  (save (E:=ApplyError) wallet {| acc_balance := 5000; acc_nonce := 0; acc_pubkey := []; acc_sig_algo := 0 |}
     (ns_state node)).2.
Definition wit : Witness := transfer_witness node wallet keys.2
  (default [] (hex_decode (str_sig_hex transfer))).
Definition tx : TxBody := transfer_body transfer wallet friend (witness_hash wit).
Definition pool : Mempool := (submit block_time tx wit (ns_mempool node)).2.
Definition funded : NodeState MemState := set_mempool pool (set_state funded_state node).

(** The clock at the template of the round, one at which a small nonce works. *)
Definition template_time : Z := 1611030.

(** A round in which nobody else touches the node. *)
Definition round : Round MemState :=
  {| rd_now := block_time; rd_block_ts := template_time; rd_apply_now := block_time;
     rd_io := None; rd_fuel := 100; rd_world _ ns := ns |}.
Definition header : BlockHeader :=
  match self_template template_time funded with
  | Ok (Some (hdr, _)) => hdr
  | _ => blk_header empty_block
  end.
End SampleMiner.
Import SampleMiner.
#[local] Opaque initial started node block1 block2.

Lemma pool_ok : mempool_ok pool.
Proof.
  unfold pool. generalize (submit_ok block_time tx wit (ns_mempool node) node_pool_ok).
  by generalize (submit block_time tx wit (ns_mempool node)).
Qed.

Lemma tip_updates (ns : NodeState MemState) s mp :
  tip (ns_store (set_mempool mp (set_state s ns))) = tip (ns_store ns).
Proof. done. Qed.

Lemma node_tip : tip (ns_store node) = Some initial.1.
Proof.
  destruct (node_ok_tip node [initial.1] node_holds) as (p & Hp & Ht).
  by apply last_single in Hp as ->.
Qed.

Lemma header_template : self_template template_time funded = Ok (Some (header, pending_body funded)).
Proof.
  assert (is_ok (self_template template_time funded) = true) as Hs by (vm_compute; reflexivity).
  assert (tip (ns_store funded) = Some initial.1) as Ht
    by (unfold funded; rewrite tip_updates; exact node_tip).
  revert Hs. unfold header. destruct (self_template template_time funded) as [[[hdr body]|]|e|] eqn:Es;
    [|intros _|discriminate 1..].
  - intros _. by destruct (self_template_fields _ _ initial.1 _ _ Ht Es) as (-> & _).
  - unfold self_template in Es. rewrite Ht in Es. by apply outcome_bind_Ok in Es as (? & _ & ?).
Qed.

#[local] Opaque funded_state pool header wit.

Lemma node_ok_updates (ns : NodeState MemState) s mp bs : node_ok ns bs ->
  node_ok (set_mempool mp (set_state s ns)) bs.
Proof.
  intros (Hh & Hc & Hl). split; [exact Hh|]. split; [|exact Hl]. by apply (chain_ok_rules ns).
Qed.

Lemma forallb_Forall {A} (f : A -> bool) (P : A -> Prop) l :
  (forall x, f x = true -> P x) -> forallb f l = true -> Forall P l.
Proof.
  intros Hf. induction l as [|x l IH]; [constructor|]. intros [Hx Hl]%andb_true_iff.
  constructor; auto.
Qed.

Definition miner_ids : list AccountId := [wallet; friend; replicate 20 x10].

Definition pays (t : PendingTx) : bool :=
  match tx_call (pt_body t) with
  | Transfer _ _ => is_ok (validate_tx default_features 0 funded_state (pt_body t) (pt_witness t))
  | _ => false
  end.

Lemma pool_pays : Forall (payable default_features (ns_state funded))
  (pull_for_block 256 (ns_mempool funded)).
Proof.
  assert (forallb pays (pull_for_block 256 pool) = true) as Hp by (vm_compute; reflexivity).
  revert Hp. apply forallb_Forall. intros t Hp. unfold pays in Hp. destruct (tx_call (pt_body t)) as [to amount| | | | | | |] eqn:Ec; try discriminate Hp.
  exact (validates_payable default_features 0 funded_state t to amount Ec Hp).
Qed.

Lemma mined_covers hdr body n ids txs :
  body_txs body = txs -> bool_decide (NoDup ids) = true ->
  bool_decide (from_coinbase (bh_coinbase hdr) ∈ ids) = true ->
  forallb (fun tx => bool_decide (tx_from_account tx ∈ ids /\ call_target tx ∈ ids)) txs = true ->
  covers (mined hdr body n) ids.
Proof.
  intros Hb Hnd%bool_decide_eq_true Hm%bool_decide_eq_true Ht. split; [exact Hnd|].
  split; [exact Hm|]. cbn [mined blk_body]. rewrite Hb.
  revert Ht. apply forallb_Forall. intros tx. by rewrite bool_decide_eq_true.
Qed.

Lemma sample_covers : covers (mined header (pending_body funded) 0) miner_ids.
Proof. apply (mined_covers _ _ _ _ _ eq_refl); vm_compute; reflexivity. Qed.

Lemma coin_fits {E} (m : outcome E Z) reward total max :
  match m with Ok r => total + r <=? max | _ => false end = true ->
  m = Ok reward -> total + reward <= max.
Proof. intros Hm ->. by apply Z.leb_le. Qed.

Lemma sample_coin reward : block_reward funded header = Ok reward ->
  total_balance (ns_state funded) miner_ids + reward <= u_max 128.
Proof. apply coin_fits. vm_compute. reflexivity. Qed.

Lemma sample_storable j : (j <= 3)%nat ->
  storable (mined header (pending_body funded) (Z.of_nat j)) = true.
Proof.
  intros Hj. assert (forallb (fun j => storable (mined header (pending_body funded) (Z.of_nat j)))
    (seq 0 4) = true) as Hall by (vm_compute; reflexivity).
  rewrite forallb_forall in Hall. apply Hall, in_seq. lia.
Qed.

Lemma sample_senders : NoDup (tx_from_account ∘ pt_body <$> pull_for_block 256 (ns_mempool funded)).
Proof. apply (bool_decide_unpack _). vm_compute. exact I. Qed.

Lemma sample_world : only_pool round (fun _ => pool) funded.
Proof. intros n. unfold funded. reflexivity. Qed.

Lemma sample_nonce : meets_target (hash_header (with_nonce header (Z.of_nat 3)))
  (target_from_bits (bh_bits header)) = true.
Proof. vm_compute. reflexivity. Qed.

Lemma sample_emission : typed (ns_emission funded) = true.
Proof. vm_compute. reflexivity. Qed.

Lemma sample_clock : ns_genesis_time_ms funded <= block_time /\
  bh_timestamp_ms (blk_header initial.1) <= template_time <=
    wrapping_add 64 block_time FUTURE_TIME_TOLERANCE_MS.
Proof. vm_compute. split_and!; discriminate. Qed.

Lemma sample_chain : node_ok funded [initial.1].
Proof. exact (node_ok_updates node funded_state pool _ node_holds). Qed.

(** The search of the round stands at most at nonce 3. *)
Lemma sample_round : can_mine default_features round (fun _ => pool) funded [initial.1] initial.1
  header miner_ids 3.
Proof.
  pose proof sample_clock as [Hg Hc]. constructor.
  - exact sample_chain.
  - cbn. lia.
  - exact eq_refl.
  - exact sample_emission.
  - exact pool_ok.
  - intros n. left. exact (sample_world n).
  - exact eq_refl.
  - exact Hg.
  - exact Hg.
  - exact Hc.
  - exact header_template.
  - exact pool_pays.
  - exact sample_senders.
  - exact sample_covers.
  - exact sample_coin.
  - exact sample_storable.
  - exact sample_nonce.
  - lia.
  - cbn [round rd_fuel]. lia.
Qed.


(** ** A transaction from the future *)

Definition early_tx : TxBody :=
  {| tx_nonce := 7; tx_from_account := wallet; tx_call := Transfer friend 1; tx_fee_sat := 10;
     tx_gas_limit := 21000; tx_witness_hash := witness_hash wit |}.

Lemma round_idle : idle round.
Proof.
  exists (fun _ mp => mp). split; [|by intros n mp ? ?]. intros n ns. by destruct ns.
Qed.

Lemma invalid_tx_stalls_mining_witness :
  let ns1 := set_mempool (submit block_time early_tx wit pool).2 funded in
  let '(turns, ns2) := self_miner_loop default_features (replicate 1000 round) ns1 in
  Forall (fun turn => turn <> Submitted (Ok tt)) turns /\ ns_state ns2 = funded_state.
Proof.
  intros ns1. unfold ns1.
  pose proof (invalid_tx_stalls_mining default_features funded block_time early_tx wit
    (replicate 1000 round)) as Hth.
  change (ns_mempool funded) with pool in Hth. change (ns_state funded) with funded_state in Hth.
  assert ((size (mp_inner pool) <? mp_cap pool)%nat && (size (mp_inner pool) <? 256)%nat &&
    bool_decide (mp_inner pool !! body_hash early_tx = None) = true) as Hp by (vm_compute; reflexivity).
  apply andb_true_iff in Hp as [[Hcap%Nat.ltb_lt Hsz%Nat.ltb_lt]%andb_true_iff Hd%bool_decide_eq_true].
  assert (nonce funded_state wallet = 0) as Hn by (vm_compute; reflexivity).
  specialize (Hth pool_ok Hcap Hsz eq_refl Hd).
  cbn [early_tx tx_nonce tx_from_account] in Hth. rewrite Hn in Hth.
  specialize (Hth ltac:(lia) (Forall_replicate _ _ _ round_idle)).
  destruct (submit block_time early_tx wit pool) as [r mp]. cbn [snd].
  destruct Hth as (_ & _ & Hl). revert Hl.
  generalize (self_miner_loop default_features (replicate 1000 round) (set_mempool mp funded)).
  intros [turns ns2] (Hall & mp2 & -> & _). split; [exact Hall|reflexivity].
Defined.
