(* ===== verification/SystemExamples.v ===== *)
(** * SystemExamples: a life of the sample node

    [init], a start, a template, twenty-six attempts of the miner of which the last one finds
    a block, a kill and a start: the theorems on histories are applied to this one. *)

From S2P Require Export SystemReplay NodeExamples.
From Stdlib Require Import Strings.Byte.

Local Open Scope Z_scope.

#[local] Existing Instance Checksum.prims.
#[local] Existing Instance ChecksumSig.prims.
#[local] Existing Instance RecordsWire.codecs.
#[local] Existing Instance BlockWire.Block_cbor.
#[local] Existing Instance BlockWire.TxBody_cbor.
#[local] Existing Instance BlockWire.Witness_cbor.
#[local] Existing Instance PlainHex.hex.
#[local] Existing Instance Plain32.prims.
#[local] Existing Instance PlainJson.json.

Import SampleNode.
#[local] Opaque initial started node block1 block2.

#[local] Instance texts : ErrorTexts := {
  build_texts := {| CARGO_PKG_VERSION := "0.1.0"; PYGROVE_GIT_SHA := None; EXPLORER_HTML := "" |};
  rpc_error_text _ := "rejected"%string;
  serde_error_text _ := "malformed"%string;
}.

Module SampleLife.
(** A clock reading at which a small nonce works. *)
Definition clock : Z := 1611005.
Definition lifting : list Event := [Init 4; Launch; Wake clock clock].
Definition mining : list Event := replicate 26 (Attempt clock None).

Notation run := (sys_run default_features MemState_new genesis None true).
Notation checked := (all_checked default_features MemState_new genesis None true).

Lemma life_checked : checked (Down None) (lifting ++ mining) = true.
Proof. vm_compute. reflexivity. Qed.
Lemma life_mines :
  match run (Down None) (lifting ++ mining) with
  | Up ns _ => height (ns_store ns) =? 1
  | Down _ => false
  end = true.
Proof. vm_compute. reflexivity. Qed.
Lemma genesis_workable : workable_bits (gen_initial_bits genesis).
Proof. split; [by cbn|]. vm_compute. congruence. Qed.
Definition committee_state : MemState := ok_or_else MemState_new (genesis_state MemState_new genesis).
Lemma committee_ok : genesis_state MemState_new genesis = Ok committee_state.
Proof.
  assert (is_ok (genesis_state MemState_new genesis) = true) as Hs by (vm_compute; reflexivity).
  revert Hs. unfold committee_state. generalize (genesis_state MemState_new genesis) as m. by intros [].
Qed.
End SampleLife.
Import SampleLife.

Lemma throughout_weaken {St} `{StateStore St} `{HashPrims} `{SigPrims} `{StateCodecs}
    {CB : Cbor Block} {CT : Cbor TxBody} {CW : Cbor Witness} `{Hex} `{Bech32} `{ErrorTexts} ft mem_new g treasury mine
    (P Q : System St -> Event -> Prop) s es :
  (forall s e, P s e -> Q s e) -> throughout ft mem_new g treasury mine P s es ->
  throughout ft mem_new g treasury mine Q s es.
Proof.
  intros HPQ. revert s. induction es as [|e es IH]; intros s; [done|]. cbn. intros [Hp Hr]. auto.
Qed.

(** The log after [lifting] is kept by the mining, which extends it. *)
Lemma system_safe_witness : exists bs more,
  sys_ok genesis (run (Down None) lifting) bs /\
  sys_ok genesis (run (Down None) (lifting ++ mining)) (bs ++ more).
Proof.
  apply (system_safe default_features MemState_new genesis None true lifting mining).
  - exact genesis_typed.
  - exact genesis_workable.
  - eapply throughout_weaken; [|apply all_checked_spec, life_checked]. by intros s e [Ho _].
  - vm_compute. reflexivity.
Defined.

(** The killed node comes back with the block its miner found. *)
Lemma system_restarts_witness : exists ns m ns',
  run (Down None) (lifting ++ mining) = Up ns m /\ height (ns_store ns) = 1 /\
  run (Down None) ((lifting ++ mining) ++ [Kill; Launch]) = Up ns' Resting /\
  live ns' = live ns /\ tip (ns_store ns') = tip (ns_store ns).
Proof.
  pose proof (system_restarts default_features MemState_new genesis None true (lifting ++ mining)
    genesis_typed genesis_workable
    (all_checked_spec _ _ _ _ _ _ _ life_checked) ltac:(vm_compute; reflexivity)) as Hr.
  assert (is_ok (genesis_state MemState_new genesis) = true) as Hg by (rewrite committee_ok; reflexivity).
  rewrite Hg in Hr. cbv iota in Hr. pose proof life_mines as Hm.
  destruct (run (Down None) (lifting ++ mining)) as [ns m|disk] eqn:Er; [|discriminate Hm].
  destruct Hr as (ns' & Hrun & Hlive & Ht & _). exists ns, m, ns'.
  split; [reflexivity|]. split; [by apply Z.eqb_eq|]. split; [exact Hrun|]. by split.
Defined.

(** ** The started node answers *)

Lemma node_sound : sound node.
Proof.
  destruct (cmd_init_Ok 4 genesis initial.1 initial.2 initial_ok' initial_storable) as [Hst Hg].
  destruct (cmd_run_inv default_features MemState_new genesis None (cs_disk initial.2) node [initial.1]
    genesis_typed genesis_workable) as [(_ & _ & _ & _ & Hn & _) _].
  - apply Hst.
  - split; [apply Hst|]. split; [cbn; lia|]. right. split; [by exists initial.1|].
    intros ns _. constructor. apply Hg.
  - exact run_ok.
  - exact Hn.
Qed.

(** A request of an unknown method. *)
Definition odd_request : HttpReq :=
  {| rq_method := Post; rq_url := "/rpc"; rq_len := 40;
     rq_json := Some (jobj [("method"%string, jstr "shutdown"%string)]) |}.

Lemma serve_total_witness : exists resp ns',
  serve default_features block_time None odd_request node = (Ok resp, ns') /\
  hr_status resp ∈ statuses /\ sound ns'.
Proof. apply (serve_total default_features block_time None odd_request node node_sound). Defined.

(** Requests, a failing disk and the miner leave it running. *)
Lemma system_available_witness : exists ns m,
  run (Up node Resting)
    [Request block_time None odd_request; Wake clock clock; Attempt clock (Some 3%nat);
     Request block_time (Some 9%nat) odd_request; Launch] = Up ns m /\ sound ns /\ m <> Crashed.
Proof.
  apply (system_available default_features MemState_new genesis None true).
  - split; [exact node_sound|done].
  - intros e He. repeat (apply elem_of_cons in He as [->|He]; [split; [congruence|]; vm_compute; auto|]).
    + split; congruence.
    + by apply not_elem_of_nil in He.
Defined.

(** A round of the mining thread on it. *)
Lemma miner_round_steps_witness :
  let rd := {| rd_now := clock; rd_block_ts := clock; rd_apply_now := clock; rd_io := None;
               rd_fuel := 5; rd_world := fun _ (ns : NodeState MemState) => ns |} in
  let '(t, ns') := self_miner_turn default_features rd node in
  exists k m, (k <= 5)%nat /\ after_turn t m /\
    run (Up node Resting) (Wake clock clock :: replicate k (Attempt clock None)) = Up ns' m.
Proof. apply miner_round_steps. reflexivity. Defined.
