(* ===== verification/DaemonExamples.v ===== *)
(** * DaemonExamples: the testnet's genesis file

    The document of [genesis.toml] at the root of the repository, as the configuration it
    loads as, and command lines on a host that holds it. *)

From S2P Require Export DaemonProps SystemExamples.
From Stdlib Require Import Strings.Byte.

Local Open Scope Z_scope.

#[local] Existing Instance Checksum.prims.
#[local] Existing Instance ChecksumSig.prims.
#[local] Existing Instance RecordsWire.codecs.
#[local] Existing Instance BlockWire.Block_cbor.
#[local] Existing Instance BlockWire.TxBody_cbor.
#[local] Existing Instance BlockWire.Witness_cbor.
#[local] Existing Instance PlainHex.hex.
#[local] Existing Instance Plain32.prims.
#[local] Existing Instance PlainJson.json.

Import SampleNode.
#[local] Opaque initial.

(** [genesis.toml] *)
Definition testnet6 : Genesis := {|
  gen_chain_id := "pygrove-testnet-6";
  gen_genesis_time_ms := 1778716820000;
  gen_initial_bits := 0x1f00ffff;
  gen_target_block_time_ms := 600000;
  gen_retarget_interval := 2016;
  gen_halving_interval_base := 210000;
  gen_seconds_per_halving := 126000000;
  gen_initial_reward_sat := 5000000000;
  gen_asert_tau_ms := 172800000;
  gen_bootstrap_asert_tau_ms := 3600000;
  gen_bootstrap_height := 2016;
  gen_bootstrap_reward_pct := 50;
  gen_max_reward_pct_change_per_block := 25;
  gen_max_bits_pct_change_per_block := 8;
  gen_stability_window_blocks := 2016;
  gen_sybil_dust_floor_sat := 100000;
  gen_sybil_min_age_blocks := 2016;
  gen_sybil_require_paid_fee := true;
  gen_sig_algo := 1;
  gen_hash_algo := 1;
  gen_governance_pubkey_hex := "";
  gen_genesis_headline_hex := "0000000000000000000054f816d4e95007fb5ddd141c999a43e9c4ee56aefca3";
  gen_initial_accounts := [];
  gen_genesis_committee := [];
  gen_genesis_committee_threshold := 0;
  gen_genesis_committee_epoch := 0;
|}.

(** TOML documents as trees; the files of the example are the shipped one, with the three
    committee keys left out as in the repository, and anything else. *)
Module PlainToml.
Inductive tree :=
| Int (n : Z) | Float (text : string) | Str (s : string) | Bool (b : bool) | Arr (l : list tree)
| Table (fs : list (string * tree)).

Definition parse_with (document : tree) : string -> option tree :=
  fun s => if String.eqb s "genesis.toml" then Some document else None.

Definition toml_with (document : tree) : Toml := {|
  TomlValue := tree; toml_parse := parse_with document; ttable := Table; tint := Int; tstr := Str;
  tbool := Bool; tarr := Arr;
  toml_fields names v :=
    match v with Table fs => Some ((fun k => alist_lookup k fs) <$> names) | _ => None end;
  toml_int v := match v with Int n => if in_sb 64 n then Some n else None | _ => None end;
  toml_is_f64 v := match v with Float _ | Int _ => true | _ => false end;
  toml_str v := match v with Str s => Some s | _ => None end;
  toml_bool v := match v with Bool b => Some b | _ => None end;
  toml_array v := match v with Arr l => Some l | _ => None end;
|}.

Definition document : tree :=
  genesis_toml (H := toml_with (Int 0)) (Float "0.05") (Float "0.5") (Float "0.5") (Float "0.25")
    ["genesis_committee"; "genesis_committee_threshold"; "genesis_committee_epoch"] testnet6.

#[export] Instance toml : Toml := toml_with document.
#[export] Instance toml_laws : TomlLaws.
Proof. split; try done. cbn. by intros n ->. Qed.
End PlainToml.

#[local] Existing Instance PlainToml.toml.
#[local] Existing Instance PlainToml.toml_laws.

(** The file of the repository loads as the testnet's configuration, whose bits are workable. *)
Lemma genesis_load_witness :
  Genesis_load (Some "genesis.toml") = Ok testnet6 /\ typed testnet6 = true /\
  workable_bits (gen_initial_bits testnet6).
Proof.
  destruct (genesis_load (H := PlainToml.toml) (PlainToml.Float "0.05") (PlainToml.Float "0.5") (PlainToml.Float "0.5")
    (PlainToml.Float "0.25") ["genesis_committee"; "genesis_committee_threshold"; "genesis_committee_epoch"]
    testnet6 (Some "genesis.toml")) as [Hl Ht]; try (vm_compute; reflexivity).
  split; [exact Hl|]. split; [by apply (Ht _ _ Hl)|].
  apply (bool_decide_unpack _). vm_compute. exact I.
Defined.

(** ** Command lines *)

(** The log of the sample node, under the testnet's file. *)
Lemma show_commands_witness :
  show_reflect (cs_disk initial.2) = Ok ["block_count=1"%string] /\
  show_emission testnet6 (cs_disk initial.2) =
    Ok ["height=0  halvings=0  reward_sat=5000000000"%string].
Proof.
  destruct (show_commands testnet6 (cs_disk initial.2) [initial.1]) as [Hr He].
  - apply initial_holds.
  - exact (proj2 (proj2 (proj2 initial_holds))).
  - intros [|i] b Hb; [|by destruct i]. apply (inj Some) in Hb as <-. exact initial_height.
  - cbn. lia.
  - cbn. lia.
  - cbn. lia.
  - split; [exact Hr|]. rewrite He. vm_compute. reflexivity.
Defined.

(** The schedule pays half of what [show-emission] prints for the first block. *)
Lemma show_emission_overstates :
  current_reward_with_height (E := Empty_set) (emission_params testnet6) (gen_genesis_time_ms testnet6)
    (gen_genesis_time_ms testnet6 + 600000) (gen_genesis_time_ms testnet6) 0 1 None =
  Ok (gen_initial_reward_sat testnet6 / 2).
Proof. vm_compute. reflexivity. Qed.
